(* ===== verification/_CoqProject ===== *)
-Q . S2P
Prelude.v
CMem.v
PayloadStrings.v
Posix.v
PayloadInfo.v
PayloadInfoFacts.v
PayloadInfoSpec.v
KMem.v
KernelRW.v
KernelRWFacts.v
KernelRWSpec.v
CStruct.v
Jailbreak.v
JailbreakFacts.v
JailbreakSpec.v
Sandbox.v
SandboxSpec.v
DynLink.v
PayloadMain.v
PayloadMainSpec.v
PkgProtocol.v
KernelTables.v
SysProto.v
KernelStructs.v
ThreadState.v
WordHeap.v
QueueList.v
QueueTail.v
ClassQueue.v
CamQueue.v
OrderedSet.v
RBTree.v
RBShape.v
RBFix.v
RBFixRemove.v
RBWalk.v
RBTreeSpec.v
RBSet.v
SplayTree.v
SplayShape.v
SplaySpec.v
SplaySet.v
BufRing.v
BufRingInv.v
BufRingSpec.v
BufRingLive.v
ProcList.v
Endian.v
Iso9660.v
Scsi.v
Hash.v
InetNum.v
Ufs.v
Ffs.v
BitString.v
Time.v
SignalSet.v
GeomMd.v
GeomMirror.v
GeomRaid3.v
GeomJournal.v
GeomEli.v
GeomPlain.v
GeomAll.v
