(* ===== verification/Prelude.v ===== *)
(** * DirectPackageInstaller: verification of the console payload and its protocol

    ** The program

    DirectPackageInstaller sends PlayStation 4 packages from a computer to a
    console. The computer's side is a C# application (src/DirectPackageInstaller);
    the console's side is a small C program, the payload (src/Payload), which the
    computer patches with its address and injects. The payload
    - gives itself the credentials of process 1: main.c calls ps4-libjbc, which
      searches the kernel's process list and reads and writes kernel memory
      (jailbreak.c, kernelrw.c), and can mount directories in its sandbox (utils.c);
    - loads the console's services with lib/dl.c and looks up their functions;
    - connects back, reads one package description after the other (info.c),
      stores the icon in a file and registers the package with the download
      service, reporting every failure to the user (main.c).

    The payload is compiled against the declarations of the console's kernel, a
    FreeBSD 9 (src/Payload/freebsd-headers). Those headers hold the layouts,
    numbers and linked structures the payload's hard-coded offsets and system call
    numbers depend on, and inline C code, which is modelled like the rest.

    ** Files, and what they model

    Foundations
    - Prelude: C integers at their width ([u32], [i32], ...), little-endian
      images, the state and outcome monad [M] (returns, undefined behaviour with
      its reason, out of fuel) and its reasoning rules.
    - CMem: C objects with bounds, lifetimes and indeterminate bytes; the memory
      of main.c and info.c. KMem: flat byte memory, user and kernel pages alike;
      the memory of ps4-libjbc. WordHeap: pointer cells with a small program logic
      (footprint triples with a frame), for sys/queue.h.
    - CStruct: sizes, alignments and offsets of C types.
    - Posix: the class of system calls behind src/Payload/lib, the laws of sockets
      and files that info.c relies on, and an instance that obeys them.

    The payload
    - PayloadStrings: [int32ToHex] and [concat] of main.c; [strlen],
      [append_string] and [get_file_path] of info.c, with their properties.
    - PayloadInfo (definitions), PayloadInfoFacts (lemmas), PayloadInfoSpec
      (properties): info.c.
    - KernelRW, KernelRWFacts, KernelRWSpec: kernelrw.c. Both ways of copying
      kernel memory, [k_kcpy] in kernel mode and the Mira socket pair, satisfy one
      specification, against which the clients are proved.
    - Jailbreak, JailbreakFacts, JailbreakSpec: jailbreak.c.
    - Sandbox, SandboxSpec: utils.c.
    - DynLink: lib/dl.c.
    - PayloadMain, PayloadMainSpec: main.c, [main] included.
    - PkgProtocol: the buffer PayloadService.cs sends for a package, the patching
      of the payload's [Connection] (Conversions.cs, [IndexOf]), and the round trip
      of a description through both sides.

    The kernel's declarations
    - KernelTables: the system call numbers of sys/syscall.h and the error numbers
      of sys/errno.h, against the numbers in utils.c and kernelrw.c.
    - SysProto: the argument blocks and the handlers of sys/sysproto.h, with their
      padding macros, against the wrappers of utils.c.
    - KernelStructs: [struct proc], [thread], [ucred], [filedesc] and all they
      contain, against the offsets in jailbreak.c.
    - ThreadState: the flag words of sys/proc.h and the inhibitor macros.
    - QueueList, QueueTail: the four kinds of queues of sys/queue.h. ProcList: the
      kernel's process list, kept with the LIST macros, is what [resolve] searches.
    - ClassQueue: the circular packet queues of altq/altq_classq.h. CamQueue: the
      command queues of cam/cam_queue.h with their counts of openings.
    - OrderedSet: what an ordered container promises, as sorted lists of elements
      and as a class, [OrderedSet]. RBTree (the RB macros of sys/tree.h), RBShape
      (trees in the heap and their invariant), RBFix, RBFixRemove (the two repair
      loops), RBWalk, RBTreeSpec, RBSet (searches, operations, the instance).
      SplayTree (the SPLAY macros), SplayShape, SplaySpec, SplaySet likewise.
    - BufRing: sys/buf_ring.h as a machine whose steps are single accesses to the
      ring by any number of threads; BufRingInv (its invariant), BufRingSpec and
      BufRingLive (properties).
    - SignalSet: the [sigset_t] macros of sys/_sigset.h and sys/signalvar.h.
    - Endian: sys/endian.h and machine/endian.h. BitString: sys/bitstring.h. Time:
      sys/time.h and sys/timespec.h.
    - GeomMd, GeomMirror, GeomRaid3, GeomJournal, GeomEli, GeomPlain, GeomAll: the
      inline codecs of on-disk metadata in geom/*/g_*.h, and the algorithm tables
      of g_eli.h and g_mirror.h.
    - Iso9660: the on-disk structures and numbers of isofs/cd9660 (iso.h,
      cd9660_rrip.h). Scsi: the structures, operation codes and numbers of
      cam/scsi/scsi_all.h. Hash: sys/hash.h, sys/fnv_hash.h and the CRC of
      sys/libkern.h. InetNum: netinet/tcp_seq.h and machine/in_cksum.h.
    - Ufs: the on-disk structures of ufs/ufs and ufs/ffs/fs.h, directory entries and
      extended attributes. Ffs: the arithmetic of ufs/ffs/fs.h on blocks, fragments,
      inodes, cylinder groups and allocation maps.

    State and operations correspond one to one: a C function is the definition of
    the same name; a loop is a [Fixpoint] named after its function; a C object is
    an object of [CMem] or a range of addresses of [KMem]; a static variable of
    ps4-libjbc is an address of the class [Locals] or a field of [kst]. What is
    not in the repository is a class or a parameter: system calls ([Posix] with the
    laws of its streams and of files by their names, [SockOS], [SandboxSys],
    [Dynlib]), the console's services ([Sce]), the two fragments of machine code the
    payload runs in kernel mode ([KernelText]), MD5 ([Md5]), the heap behind a command
    queue ([CamqHeap]), random numbers and the table of the CRC. Each class of laws
    has an instance, which the witnesses run on.

    ** What the theorems show

    - End to end: a description the computer sends arrives in the payload's
      structures and its icon in the file of its name, and without an icon no file
      changes ([PkgProtocol.send_receive]); the patched payload carries the
      computer's address.
    - Kernel access: an admitted copy copies exactly its range, on both paths, and
      the guard admits no copy within user space nor one that crosses ranges.
    - Credentials: getting, setting and elevating credentials changes of the kernel
      the bytes of twelve members only; running as root puts those bytes back and
      leaves the rest as the function run left it; [resolve] ends and finds process 1,
      also after any creation and exit of other processes, and never ends when
      process 1 does not follow the caller on the list.
    - The numbers: every offset, system call number and argument width the payload
      hard-codes is that of the kernel's declarations.
    - Failures: each early exit of [get_pkg_info], each outcome of registering a
      package, each refused mount, and what is left behind.
    - Codecs: every encoder of metadata writes the documented bytes, the decoder of
      its version reads them back, and a wrong sum or an unknown version gives
      EINVAL.
    - Linked structures, signal sets, bit strings and run states implement
      sequences and sets. Both kinds of trees implement ordered sets over any
      sequence of calls; a red-black tree keeps its colours, heights and back
      links and is searched in logarithmic time.
    - Ring buffers: for any interleaving in which no producer sleeps through a whole
      lap, the buffers come out in the order in which the producers claimed their
      slots, each once, and a thread that runs alone finishes; without that
      condition, two interleavings show what is lost.
    - Time arithmetic is exact, overflow is found, and conversions round down.
    - A class queue is a sequence of packets under any sequence of calls. The
      openings of a command queue are accounted for by every operation in which the
      entries of the levels that are counted precede the others; a heap of three
      entries shows what is miscounted otherwise.
    - The tables of disk and command structures agree with the positions and lengths
      their formats prescribe; numbers in them are written byte by byte as the format
      says and read back, except that decoders which shift a top byte as an int are
      undefined from 2^31 on.
    - The string hashes depend on the bytes before the terminator or limit only, and
      read one byte more; the CRC with a table of byte remainders is the bitwise one;
      sequence numbers order positions inside a window of 2^31; the
      updated checksum stays right.
    - The fast file system: the macros' shifts and masks are the quotients and
      remainders their comments name, the blocks of a file cover it with less than a
      fragment or block to spare, inodes have disjoint places in their groups, and a
      sequence of extended attributes is read back as it was written.
    - Where the code does something else than it means to, a theorem says exactly
      what: unterminated names, an icon length above 2 GiB, dangling pointers, a
      leaked socket, a stale task number, calls through null, shifts into the sign
      bit of an int, a comment that gives the opposite of the value returned.

    ** Bounds and fuel

    Machine integers are wrapped where C wraps them; a signed result that its type
    cannot hold is undefined, as [SignedOverflow] or [None], and so is a shift into
    the sign bit. Only the bit of a signal ([SignalSet._SIG_BIT]) is the wrapped one
    there, as the kernel needs it for its signal 32. Loops without a structural
    measure take fuel, and running out is an outcome of its own, so a theorem
    about a result is a theorem that the loop ends. Enough is: one step per byte
    for copies, string scans and icon chunks (each turn moves at least one byte);
    one step per process on the list, plus one, for [resolve]; one per element, plus
    one, for a queue. [serve], the payload's main loop, is specified turn by turn;
    its fuel is the number of packages.
    A search of a red-black tree of n elements takes at most 2 lg (n + 1) + 1 turns
    ([rb_fuel]); splaying takes at most one turn per level. The
    loops of a class queue take at most one turn per packet, plus one to end
    [_flushq]; those of a command queue six turns over the five run levels and one
    per entry, plus one. A call on a ring buffer
    by a thread alone takes at most twelve accesses. Accesses to a ring buffer are
    sequentially consistent; its indices are machine words.

    ** Not modelled

    - crt.asm, syscalls.asm, syscalls.py and the Makefiles of src/Payload: start
      code and generated stubs. [clear_stack] of main.c only zeroes dead stack.
    - The rest of src/Payload/freebsd-headers: declarations the payload's build
      only includes, the C++ and compiler headers, and kernel inline code other
      than the above.
      Its remaining inline functions and macros (sys/mbuf.h, sys/file.h,
      machine/cpufunc.h and others) wrap single instructions, allocators and locks
      whose code is not in the repository.
    - Of cam/scsi/scsi_all.h: the seven entry types of tables inside the kernel, the
      function-like macros on inquiry and sense data and what is only declared; of
      iso.h: the mount structure; of libkern.h: all but
      the CRC; of ufs: the in-core structures and the pointers into a cylinder group.
    - In the headers that are modelled: the checks of DEBUG_BUFRING and of
      INVARIANTS, prefetches, allocation ([bit_alloc], [buf_ring_alloc]), the FOREACH
      variants that start in the middle or tolerate removal of the element visited.
    - The C# application beyond what builds the bytes on the wire: user interface,
      file hosts, download and decompression streams, the HTTP and DHCP servers.
      It is asynchronous library and user interface code in another language.
    - Interleaving with other threads of the kernel while kernel memory is read:
      every copy is atomic with respect to the lists it reads. *)

From stdpp Require Export base tactics numbers list gmap.
From Stdlib Require Export ZArith Lia.
From Stdlib Require Ascii String.
Export String.StringSyntax.

#[global] Open Scope Z_scope.

(** ** Fixed-width C integers

    A C integer is the mathematical integer it denotes; every conversion and
    every arithmetic operation that can leave its type's range is wrapped with
    one of these. The payload is compiled for x86-64 (two's complement,
    [int] 32 bits, [long], pointers and [size_t] 64 bits). *)

Definition u8 (z : Z) : Z := z `mod` 2 ^ 8.
Definition u16 (z : Z) : Z := z `mod` 2 ^ 16.
Definition u32 (z : Z) : Z := z `mod` 2 ^ 32.
Definition u64 (z : Z) : Z := z `mod` 2 ^ 64.
Definition i32 (z : Z) : Z := (z + 2 ^ 31) `mod` 2 ^ 32 - 2 ^ 31.
Definition i64 (z : Z) : Z := (z + 2 ^ 63) `mod` 2 ^ 64 - 2 ^ 63.

(** Range predicates of the types. *)
Definition is_u8 (z : Z) : Prop := 0 ≤ z < 2 ^ 8.
Definition is_u32 (z : Z) : Prop := 0 ≤ z < 2 ^ 32.
Definition is_u64 (z : Z) : Prop := 0 ≤ z < 2 ^ 64.
Definition is_i32 (z : Z) : Prop := - 2 ^ 31 ≤ z < 2 ^ 31.

Lemma u32_range z : is_u32 (u32 z).
Proof. unfold is_u32, u32. apply Z.mod_pos_bound. lia. Qed.
Lemma u64_range z : is_u64 (u64 z).
Proof. unfold is_u64, u64. apply Z.mod_pos_bound. lia. Qed.
Lemma i32_range z : is_i32 (i32 z).
Proof. unfold is_i32, i32. pose proof (Z.mod_pos_bound (z + 2 ^ 31) (2 ^ 32)). lia. Qed.

Lemma u32_id z : is_u32 z → u32 z = z.
Proof. unfold is_u32, u32. intros. by apply Z.mod_small. Qed.
Lemma u64_id z : is_u64 z → u64 z = z.
Proof. unfold is_u64, u64. intros. by apply Z.mod_small. Qed.
Lemma i32_id z : is_i32 z → i32 z = z.
Proof. unfold is_i32, i32. intros. rewrite Z.mod_small; lia. Qed.

Lemma i32_neg z : 2 ^ 31 ≤ z < 2 ^ 32 → i32 z = z - 2 ^ 32.
Proof.
  intros. unfold i32.
  replace (z + 2 ^ 31) with ((z - 2 ^ 31) + 1 * 2 ^ 32) by lia.
  rewrite Z.mod_add by lia. rewrite Z.mod_small; lia.
Qed.

Lemma u32_i32 z : u32 (i32 z) = u32 z.
Proof.
  unfold u32, i32. rewrite Zminus_mod_idemp_l.
  by replace (z + 2 ^ 31 - 2 ^ 31) with z by lia.
Qed.
Lemma u64_u64 z : u64 (u64 z) = u64 z.
Proof. apply u64_id, u64_range. Qed.

Create HintDb cint discriminated.
Create Rewrite HintDb crange.
#[export] Hint Rewrite u32_id u64_id i32_id using (unfold is_u32, is_u64, is_i32 in *; lia) : crange.
#[export] Hint Resolve u32_range u64_range i32_range : cint.

(** ** Little-endian memory images of integers (x86-64) *)

Definition le_bytes (n : Z) (z : Z) : list Z := Z_to_little_endian n 8 z.
Definition le_word (bs : list Z) : Z := little_endian_to_Z 8 bs.

#[global] Arguments le_bytes : simpl never.
#[global] Arguments le_word : simpl never.

(** Every element is the value of an [unsigned char]. *)
Abbreviation bytes_ok := (Forall is_u8).

Lemma length_le_bytes n z : 0 ≤ n → length (le_bytes n z) = Z.to_nat n.
Proof. intros. unfold le_bytes. pose proof (length_Z_to_little_endian n 8 z). lia. Qed.

Lemma le_bytes_ok n z : 0 ≤ n → bytes_ok (le_bytes n z).
Proof. intros. unfold le_bytes, is_u8. apply Z_to_little_endian_bound; lia. Qed.

Lemma le_word_bytes n z : 0 ≤ n → le_word (le_bytes n z) = z `mod` 2 ^ (n * 8).
Proof. intros. unfold le_word, le_bytes. apply little_endian_to_Z_to_little_endian; lia. Qed.

Lemma le_word_bytes_small n z :
  0 ≤ n → 0 ≤ z < 2 ^ (n * 8) → le_word (le_bytes n z) = z.
Proof. intros. rewrite le_word_bytes by done. by apply Z.mod_small. Qed.

Lemma le_bytes_word n bs :
  Z.of_nat (length bs) = n → bytes_ok bs → le_bytes n (le_word bs) = bs.
Proof. intros. unfold le_word, le_bytes. apply Z_to_little_endian_to_Z; [lia..|done]. Qed.

Lemma take_le_bytes (n k : nat) z :
  (n ≤ k)%nat → take n (le_bytes (Z.of_nat k) z) = le_bytes (Z.of_nat n) z.
Proof.
  unfold le_bytes. revert k z. induction n as [|n IH]; intros [|k] z Hn; try done; [lia|].
  rewrite !Nat2Z.inj_succ, !Z_to_little_endian_succ by lia. simpl. rewrite IH; [done|lia].
Qed.

Lemma le_word_range bs : bytes_ok bs → 0 ≤ le_word bs < 2 ^ (Z.of_nat (length bs) * 8).
Proof. intros. unfold le_word. apply little_endian_to_Z_bound; [lia|done]. Qed.

Lemma le_word_1 c : le_word [c] = c.
Proof. unfold le_word. simpl. rewrite Z.shiftl_0_l. apply Z.lor_0_r. Qed.

Lemma le_bytes_1 c : is_u8 c → le_bytes 1 c = [c].
Proof. intros Hc. rewrite <-(le_word_1 c) at 1. apply le_bytes_word; [done|by constructor]. Qed.

#[export] Hint Resolve le_bytes_ok : cint.

(** The characters of a C string literal, without its terminator. *)
Definition chars (s : String.string) : list Z :=
  map (λ a, Z.of_N (Ascii.N_of_ascii a)) (String.list_ascii_of_string s).
Arguments chars s%_string_scope.

(** ** Lists indexed by [Z] *)

Lemma Z_to_nat_add_of_nat (a b : nat) : Z.to_nat (Z.of_nat a + Z.of_nat b) = (a + b)%nat.
Proof. lia. Qed.

Create Rewrite HintDb znat.
#[export] Hint Rewrite Z_to_nat_add_of_nat Nat2Z.id : znat.

Lemma filter_all {A} (P : A → Prop) `{∀ x, Decision (P x)} xs : Forall P xs → filter P xs = xs.
Proof. induction 1; [done|]. rewrite filter_cons_True by done. by f_equal. Qed.
Lemma filter_none {A} (P : A → Prop) `{∀ x, Decision (P x)} xs : Forall (λ x, ¬ P x) xs → filter P xs = [].
Proof. induction 1; [done|]. by rewrite filter_cons_False. Qed.
Lemma existsb_perm {A} (f : A → bool) l l' : l ≡ₚ l' → existsb f l = existsb f l'.
Proof.
  induction 1 as [|x l l' _ IH|x y l|? ? ? _ IH1 _ IH2]; simpl; [done|by rewrite IH| |congruence].
  by destruct (f x), (f y).
Qed.

(** A check of every row of a table. *)
Lemma table_forall {A} (P : A → bool) (l : list A) e : forallb P l = true → e ∈ l → P e = true.
Proof. intros HP He. by eapply (proj1 (forallb_forall P l)), list_elem_of_In. Qed.

(** ** Effects

    C code that reads and writes a state, may hit undefined behaviour and may
    loop is a function in the state and outcome monad [M]. A computation that
    runs into undefined behaviour stops with the reason; a loop that uses up
    its fuel stops with [OutOfFuel], so "returns" is never confused with
    "returns the right thing". *)

Inductive ub : Set :=
  | OutOfBounds        (** access outside an object *)
  | SignedOverflow     (** a signed result that its type cannot hold *)
  | DeadObject         (** access to an object whose lifetime has ended *)
  | Uninitialised      (** use of an indeterminate value *)
  | NullCall           (** call through a null function pointer *)
  | KernelFault        (** kernel-mode access to an unmapped address *)
  | BadKernelFunction. (** kernel-mode call of an address that is no function *)

#[global] Instance ub_eq_dec : EqDecision ub.
Proof. solve_decision. Defined.

Inductive outcome (A : Type) : Type :=
  | Ok (a : A)
  | Undef (u : ub)
  | OutOfFuel.
Arguments Ok {_} _.
Arguments Undef {_} _.
Arguments OutOfFuel {_}.

Definition M (S A : Type) : Type := S → outcome (A * S).

#[global] Instance M_ret S : MRet (M S) := λ A a s, Ok (a, s).
#[global] Instance M_bind S : MBind (M S) := λ A B f m s,
  match m s with
  | Ok (a, s') => f a s'
  | Undef u => Undef u
  | OutOfFuel => OutOfFuel
  end.

Definition undef {S A} (u : ub) : M S A := λ _, Undef u.
Definition out_of_fuel {S A} : M S A := λ _, OutOfFuel.
Definition get {S} : M S S := λ s, Ok (s, s).
Definition put {S} (s : S) : M S unit := λ _, Ok (tt, s).

(** Running a computation on one component of a pair of states. *)
Definition on_fst {S T A} (m : M S A) : M (S * T) A := λ '(s, t),
  match m s with
  | Ok (a, s') => Ok (a, (s', t))
  | Undef u => Undef u
  | OutOfFuel => OutOfFuel
  end.
Definition on_snd {S T A} (m : M T A) : M (S * T) A := λ '(s, t),
  match m t with
  | Ok (a, t') => Ok (a, (s, t'))
  | Undef u => Undef u
  | OutOfFuel => OutOfFuel
  end.

Section monad_lemmas.
Context {S : Type}.

Lemma bind_ok {A B} (m : M S A) (f : A → M S B) s a s' :
  m s = Ok (a, s') → (m ≫= f) s = f a s'.
Proof. intros E. unfold mbind, M_bind. by rewrite E. Qed.

Lemma bind_undef {A B} (m : M S A) (f : A → M S B) s u :
  m s = Undef u → (m ≫= f) s = Undef u.
Proof. intros E. unfold mbind, M_bind. by rewrite E. Qed.

Lemma bind_out_of_fuel {A B} (m : M S A) (f : A → M S B) s :
  m s = OutOfFuel → (m ≫= f) s = OutOfFuel.
Proof. intros E. unfold mbind, M_bind. by rewrite E. Qed.

Lemma bind_inv {A B} (m : M S A) (f : A → M S B) s r :
  (m ≫= f) s = Ok r → ∃ a s', m s = Ok (a, s') ∧ f a s' = Ok r.
Proof. unfold mbind, M_bind. destruct (m s) as [[a s']| |]; naive_solver. Qed.

Lemma ret_ok {A} (a : A) (s : S) : mret (M := M S) a s = Ok (a, s).
Proof. done. Qed.

Lemma ret_bind {A B} (a : A) (f : A → M S B) : mret a ≫= f = f a.
Proof. done. Qed.

Lemma get_bind {A} (f : S → M S A) s : (get ≫= f) s = f s s.
Proof. done. Qed.

Lemma put_bind {A} (f : unit → M S A) s s' : (put s' ≫= f) s = f tt s'.
Proof. done. Qed.

Lemma bind_assoc {A B C} (m : M S A) (f : A → M S B) (g : B → M S C) s :
  ((m ≫= f) ≫= g) s = (m ≫= (λ a, f a ≫= g)) s.
Proof. unfold mbind, M_bind. by destruct (m s) as [[]| |]. Qed.

(** Total correctness: [m], run on [s], returns and its result and final
    state satisfy [Q]. Undefined behaviour and divergence falsify it. *)
Definition wp {A} (m : M S A) (Q : A → S → Prop) (s : S) : Prop :=
  match m s with Ok (a, s') => Q a s' | _ => False end.

Lemma wp_intro {A} (m : M S A) (Q : A → S → Prop) s a s' :
  m s = Ok (a, s') → Q a s' → wp m Q s.
Proof. unfold wp. by intros ->. Qed.

Lemma wp_elim {A} (m : M S A) (Q : A → S → Prop) s :
  wp m Q s → ∃ a s', m s = Ok (a, s') ∧ Q a s'.
Proof. unfold wp. destruct (m s) as [[]| |]; naive_solver. Qed.

Lemma wp_ret {A} (a : A) (Q : A → S → Prop) s : Q a s → wp (mret a) Q s.
Proof. done. Qed.

Lemma wp_bind {A B} (m : M S A) (f : A → M S B) Q s :
  wp m (λ a s', wp (f a) Q s') s → wp (m ≫= f) Q s.
Proof. unfold wp, mbind, M_bind. by destruct (m s) as [[]| |]. Qed.

Lemma wp_mono {A} (m : M S A) (P Q : A → S → Prop) s :
  wp m P s → (∀ a s', P a s' → Q a s') → wp m Q s.
Proof. unfold wp. destruct (m s) as [[]| |]; naive_solver. Qed.
End monad_lemmas.

Lemma wp_on_fst {S T A} (m : M S A) (Q : A → S * T → Prop) s t :
  wp m (λ a s', Q a (s', t)) s → wp (on_fst m) Q (s, t).
Proof. unfold wp, on_fst. by destruct (m s) as [[]| |]. Qed.
Lemma wp_on_snd {S T A} (m : M T A) (Q : A → S * T → Prop) s t :
  wp m (λ a t', Q a (s, t')) t → wp (on_snd m) Q (s, t).
Proof. unfold wp, on_snd. by destruct (m t) as [[]| |]. Qed.

Lemma on_fst_ok {S T A} (m : M S A) s (t : T) a s' :
  m s = Ok (a, s') → on_fst m (s, t) = Ok (a, (s', t)).
Proof. unfold on_fst. by intros ->. Qed.
Lemma on_snd_ok {S T A} (m : M T A) (s : S) t a t' :
  m t = Ok (a, t') → on_snd m (s, t) = Ok (a, (s, t')).
Proof. unfold on_snd. by intros ->. Qed.
Lemma on_fst_inv {S T A} (m : M S A) s (t : T) r :
  on_fst m (s, t) = Ok r → ∃ a s', m s = Ok (a, s') ∧ r = (a, (s', t)).
Proof. unfold on_fst. destruct (m s) as [[]| |]; naive_solver. Qed.
Lemma on_snd_inv {S T A} (m : M T A) (s : S) t r :
  on_snd m (s, t) = Ok r → ∃ a t', m t = Ok (a, t') ∧ r = (a, (s, t')).
Proof. unfold on_snd. destruct (m t) as [[]| |]; naive_solver. Qed.

(** Split every bind in the hypotheses into its two halves. *)
Ltac m_inv :=
  repeat match goal with
  | H : mbind _ _ _ = Ok _ |- _ => apply bind_inv in H as (? & ? & ? & H)
  | H : mret _ _ = Ok _ |- _ => rewrite ret_ok in H; simplify_eq
  | H : on_fst _ ?p = Ok _ |- _ =>
      is_var p; destruct p
  | H : on_fst _ (_, _) = Ok _ |- _ => apply on_fst_inv in H as (? & ? & ? & ?); simplify_eq
  | H : on_snd _ (_, _) = Ok _ |- _ => apply on_snd_inv in H as (? & ? & ? & ?); simplify_eq
  end.
