(* ===== verification/CMem.v ===== *)
(** * C objects: a block memory with lifetimes and bounds

    Arrays and strings of the payload live in objects. An object is a list of
    bytes, each initialised or indeterminate; a pointer is an object identifier
    and an offset. Access outside the bounds of an object, to an object whose
    lifetime has ended, or the use of an indeterminate byte is undefined
    behaviour and is reported as such. *)

From S2P Require Import Prelude.

(** ** Data *)

Inductive mbyte : Set := Byte (z : Z) | Junk.

#[global] Instance mbyte_eq_dec : EqDecision mbyte.
Proof. solve_decision. Defined.

Record ptr : Set := Ptr { p_blk : N; p_off : Z }.

#[global] Instance ptr_eq_dec : EqDecision ptr.
Proof. solve_decision. Defined.

Definition ptr_add (p : ptr) (n : Z) : ptr := Ptr (p_blk p) (p_off p + n).
Notation "p +ₚ n" := (ptr_add p n) (at level 50, left associativity).

(** No object ever has identifier 0. *)
Definition null_ptr : ptr := Ptr 0 0.

Record cmem : Type := CMem { c_objs : gmap N (list mbyte); c_next : N }.

Definition empty_cmem : cmem := CMem ∅ 1.

Definition live (m : cmem) (p : ptr) : Prop := is_Some (c_objs m !! p_blk p).
#[global] Instance live_dec m p : Decision (live m p).
Proof. unfold live. apply _. Defined.

(** Identifiers at or above [c_next] are unused, and so is that of [null_ptr]. *)
Definition cmem_wf (m : cmem) : Prop :=
  (0 < c_next m)%N ∧ c_objs m !! 0%N = None ∧
  ∀ b, (c_next m ≤ b)%N → c_objs m !! b = None.

(** ** Operations *)

Definition obj_size (m : cmem) (p : ptr) : nat :=
  match c_objs m !! p_blk p with Some d => length d | None => 0 end.

Definition load (p : ptr) : M cmem mbyte := λ m,
  match c_objs m !! p_blk p with
  | None => Undef DeadObject
  | Some d =>
      if decide (0 ≤ p_off p) then
        match d !! Z.to_nat (p_off p) with
        | Some b => Ok (b, m)
        | None => Undef OutOfBounds
        end
      else Undef OutOfBounds
  end.

(** Reading a byte as a value. *)
Definition load_char (p : ptr) : M cmem Z :=
  b ← load p;
  match b with Byte z => mret z | Junk => undef Uninitialised end.

Definition store (p : ptr) (b : mbyte) : M cmem unit := λ m,
  match c_objs m !! p_blk p with
  | None => Undef DeadObject
  | Some d =>
      if decide (0 ≤ p_off p < Z.of_nat (length d)) then
        Ok (tt, CMem (<[p_blk p := <[Z.to_nat (p_off p) := b]> d]> (c_objs m)) (c_next m))
      else Undef OutOfBounds
  end.

Definition store_char (p : ptr) (z : Z) : M cmem unit := store p (Byte (u8 z)).

(** Consecutive stores, as the kernel does when it fills a user buffer. *)
Fixpoint store_list (p : ptr) (bs : list Z) : M cmem unit :=
  match bs with
  | [] => mret tt
  | b :: bs => _ ← store p (Byte b); store_list (p +ₚ 1) bs
  end.

Fixpoint load_list (p : ptr) (n : nat) : M cmem (list Z) :=
  match n with
  | O => mret []
  | S n => b ← load_char p; bs ← load_list (p +ₚ 1) n; mret (b :: bs)
  end.

Definition alloc (init : list mbyte) : M cmem ptr := λ m,
  Ok (Ptr (c_next m) 0, CMem (<[c_next m := init]> (c_objs m)) (c_next m + 1)).

Definition free (p : ptr) : M cmem unit := λ m,
  Ok (tt, CMem (delete (p_blk p) (c_objs m)) (c_next m)).

(** A block-scope array: it lives exactly as long as the body runs. *)
Definition with_local {A} (init : list mbyte) (body : ptr → M cmem A) : M cmem A :=
  p ← alloc init;
  a ← body p;
  _ ← free p;
  mret a.

(** Entering and leaving the scope of an array. *)
Definition push (m : cmem) (init : list mbyte) : cmem :=
  CMem (<[c_next m := init]> (c_objs m)) (c_next m + 1).
Definition pop (b : N) (m : cmem) : cmem := CMem (delete b (c_objs m)) (c_next m).

(** A memory after a scope was entered and left. *)
Definition tick (m : cmem) : cmem := CMem (c_objs m) (c_next m + 1).

(** Initialisers: [char x[n];], [char x[n] = {0};] and a string literal. *)
Definition uninit (n : nat) : list mbyte := replicate n Junk.
Definition zeros (n : nat) : list mbyte := replicate n (Byte 0).
Definition literal (s : list Z) : list mbyte := (Byte <$> s) ++ [Byte 0].

(** ** Objects seen as lists *)

(** [d] holds the NUL-terminated string [s] at offset [o]. *)
Definition has_str (d : list mbyte) (o : nat) (s : list Z) : Prop :=
  Forall (λ z, z ≠ 0) s ∧ ∃ post, drop o d = (Byte <$> s) ++ Byte 0 :: post.

Definition set_obj (m : cmem) (b : N) (d : list mbyte) : cmem :=
  CMem (<[b := d]> (c_objs m)) (c_next m).

Lemma set_obj_lookup m b d : c_objs (set_obj m b d) !! b = Some d.
Proof. apply lookup_insert_eq. Qed.
Lemma set_obj_lookup_ne m b b' d :
  b ≠ b' → c_objs (set_obj m b d) !! b' = c_objs m !! b'.
Proof. apply lookup_insert_ne. Qed.
Lemma set_obj_twice m b d d' : set_obj (set_obj m b d) b d' = set_obj m b d'.
Proof. unfold set_obj. simpl. by rewrite insert_insert_eq. Qed.
Lemma set_obj_same m b d : c_objs m !! b = Some d → set_obj m b d = m.
Proof. intros. unfold set_obj. rewrite insert_id by done. by destruct m. Qed.
Lemma set_obj_comm m b b' d d' :
  b ≠ b' → set_obj (set_obj m b d) b' d' = set_obj (set_obj m b' d') b d.
Proof. intros. unfold set_obj. simpl. by rewrite insert_insert_ne. Qed.

Lemma ptr_add_blk p n : p_blk (p +ₚ n) = p_blk p.
Proof. done. Qed.
Lemma ptr_add_Ptr b o n : Ptr b o +ₚ n = Ptr b (o + n).
Proof. done. Qed.
Lemma ptr_add_add p n k : p +ₚ n +ₚ k = p +ₚ (n + k).
Proof. unfold ptr_add. simpl. f_equal. lia. Qed.
Lemma ptr_add_0 p : p +ₚ 0 = p.
Proof. destruct p. unfold ptr_add. simpl. f_equal. lia. Qed.

Create Rewrite HintDb cmem.
#[export] Hint Rewrite set_obj_lookup set_obj_twice ptr_add_Ptr ptr_add_blk ptr_add_add ptr_add_0 : cmem.

Section access.
Context (m : cmem) (b : N) (d : list mbyte).
Hypothesis Hobj : c_objs m !! b = Some d.

Lemma load_ok (o : Z) x :
  0 ≤ o → d !! Z.to_nat o = Some x → load (Ptr b o) m = Ok (x, m).
Proof. intros Ho Hx. unfold load. simpl. rewrite Hobj, decide_True by done. by rewrite Hx. Qed.

Lemma load_char_ok (o : Z) z :
  0 ≤ o → d !! Z.to_nat o = Some (Byte z) → load_char (Ptr b o) m = Ok (z, m).
Proof. intros. unfold load_char. by erewrite bind_ok by (by apply load_ok). Qed.

Lemma load_char_junk (o : Z) :
  0 ≤ o → d !! Z.to_nat o = Some Junk → load_char (Ptr b o) m = Undef Uninitialised.
Proof. intros. unfold load_char. by erewrite bind_ok by (by apply load_ok). Qed.

Lemma load_char_oob (o : Z) :
  Z.of_nat (length d) ≤ o → load_char (Ptr b o) m = Undef OutOfBounds.
Proof.
  intros. unfold load_char. apply bind_undef. unfold load. simpl.
  rewrite Hobj, decide_True by lia. by rewrite lookup_ge_None_2 by lia.
Qed.

Lemma store_ok (o : Z) x :
  0 ≤ o < Z.of_nat (length d) →
  store (Ptr b o) x m = Ok (tt, set_obj m b (<[Z.to_nat o := x]> d)).
Proof. intros. unfold store. simpl. by rewrite Hobj, decide_True. Qed.

Lemma store_oob (o : Z) x :
  Z.of_nat (length d) ≤ o → store (Ptr b o) x m = Undef OutOfBounds.
Proof. intros. unfold store. simpl. rewrite Hobj, decide_False; [done|lia]. Qed.

Lemma obj_size_eq o : obj_size m (Ptr b o) = length d.
Proof. unfold obj_size. simpl. by rewrite Hobj. Qed.
End access.

Lemma store_list_ok bs m b d o :
  c_objs m !! b = Some d →
  0 ≤ o → o + Z.of_nat (length bs) ≤ Z.of_nat (length d) →
  store_list (Ptr b o) bs m =
    Ok (tt, set_obj m b (list_inserts (Z.to_nat o) (Byte <$> bs) d)).
Proof.
  revert m d o. induction bs as [|x bs IH]; intros m d o Hobj Ho Hlen; simpl in *.
  - rewrite set_obj_same by done. done.
  - rewrite (bind_ok _ _ _ _ _ (store_ok m b d Hobj o (Byte x) ltac:(lia))).
    unfold ptr_add. simpl. rewrite (IH _ _ _ (set_obj_lookup _ _ _)); [|lia..|].
    + rewrite set_obj_twice. replace (Z.to_nat (o + 1)) with (S (Z.to_nat o)) by lia.
      do 3 f_equal. by rewrite list_insert_inserts_lt by lia.
    + rewrite length_insert. lia.
Qed.

Lemma load_list_junk n m b d o k :
  c_objs m !! b = Some d → (k < n)%nat → d !! (o + k)%nat = Some Junk →
  (∀ i, (i < k)%nat → ∃ z, d !! (o + i)%nat = Some (Byte z)) →
  load_list (Ptr b (Z.of_nat o)) n m = Undef Uninitialised.
Proof.
  revert o k. induction n as [|n IH]; intros o k Hobj Hk Hj Hb; [lia|]. simpl.
  destruct k as [|k].
  - apply bind_undef. eapply load_char_junk; [done|lia|]. by rewrite Nat2Z.id, <-(Nat.add_0_r o).
  - destruct (Hb 0%nat) as [z Hz]; [lia|]. rewrite Nat.add_0_r in Hz.
    erewrite bind_ok; [|eapply load_char_ok; [done|lia|by rewrite Nat2Z.id]].
    rewrite ptr_add_Ptr. replace (Z.of_nat o + 1) with (Z.of_nat (S o)) by lia.
    apply bind_undef. apply (IH (S o) k); [done|lia|by rewrite Nat.add_succ_comm|].
    intros i Hi. rewrite Nat.add_succ_comm. apply Hb. lia.
Qed.

Lemma store_list_oob bs m b d o :
  c_objs m !! b = Some d →
  0 ≤ o ≤ Z.of_nat (length d) → Z.of_nat (length d) < o + Z.of_nat (length bs) →
  store_list (Ptr b o) bs m = Undef OutOfBounds.
Proof.
  revert m d o. induction bs as [|x bs IH]; intros m d o Hobj Ho Hlen; simpl in *; [lia|].
  destruct (decide (o = Z.of_nat (length d))) as [->|].
  - apply bind_undef. eapply store_oob; [done|lia].
  - rewrite (bind_ok _ _ _ _ _ (store_ok m b d Hobj o (Byte x) ltac:(lia))).
    unfold ptr_add. simpl. eapply IH; [apply set_obj_lookup|rewrite length_insert; lia..].
Qed.

Lemma load_list_ok bs m b d o :
  c_objs m !! b = Some d → 0 ≤ o →
  (∀ i x, bs !! i = Some x → d !! (Z.to_nat o + i)%nat = Some (Byte x)) →
  load_list (Ptr b o) (length bs) m = Ok (bs, m).
Proof.
  revert o. induction bs as [|x bs IH]; intros o Hobj Ho Hbs; simpl; [done|].
  erewrite bind_ok; [|eapply load_char_ok; [done|done|]].
  - unfold ptr_add. simpl. erewrite bind_ok; [done|]. apply IH; [done|lia|].
    intros i y Hy. replace (Z.to_nat (o + 1) + i)%nat with (Z.to_nat o + S i)%nat by lia.
    by apply Hbs.
  - specialize (Hbs 0%nat x eq_refl). by rewrite Nat.add_0_r in Hbs.
Qed.

Section strings_in_objects.
Context (d : list mbyte) (o : nat) (s : list Z).

Lemma has_str_char i z : has_str d o s → s !! i = Some z → d !! (o + i)%nat = Some (Byte z) ∧ z ≠ 0.
Proof.
  intros [Hnz [post Hd]] Hi. split; [|by eapply Forall_lookup_1 in Hnz].
  rewrite <-lookup_drop, Hd. rewrite lookup_app_l.
  - by rewrite list_lookup_fmap, Hi.
  - rewrite length_fmap. by eapply lookup_lt_Some.
Qed.

Lemma has_str_nul : has_str d o s → d !! (o + length s)%nat = Some (Byte 0).
Proof.
  intros [_ [post Hd]]. rewrite <-lookup_drop, Hd.
  rewrite lookup_app_r; rewrite length_fmap; [|done]. by rewrite Nat.sub_diag.
Qed.

Lemma has_str_length : has_str d o s → (o + length s < length d)%nat.
Proof. intros H%has_str_nul. by eapply lookup_lt_Some. Qed.

Lemma has_str_intro :
  Forall (λ z, z ≠ 0) s →
  (∀ i z, s !! i = Some z → d !! (o + i)%nat = Some (Byte z)) →
  d !! (o + length s)%nat = Some (Byte 0) → has_str d o s.
Proof.
  intros Hnz Hs H0. split; [done|]. exists (drop (S (o + length s)) d).
  apply list_eq. intros i. rewrite lookup_drop.
  destruct (decide (i < length s)%nat) as [Hi|Hi].
  - rewrite lookup_app_l by (by rewrite length_fmap).
    destruct (lookup_lt_is_Some_2 s i Hi) as [z Hz].
    rewrite list_lookup_fmap, Hz. simpl. by apply Hs.
  - rewrite lookup_app_r by (rewrite length_fmap; lia). rewrite length_fmap.
    destruct (decide (i = length s)) as [->|]; [by rewrite Nat.sub_diag|].
    replace (i - length s)%nat with (S (i - S (length s)))%nat by lia. simpl.
    rewrite lookup_drop. f_equal. lia.
Qed.
End strings_in_objects.

Lemma has_str_literal s : Forall (λ z, z ≠ 0) s → has_str (literal s) 0 s.
Proof. intros. split; [done|]. by exists []. Qed.

Lemma has_str_zeros n : (0 < n)%nat → has_str (zeros n) 0 [].
Proof. intros. split; [done|]. destruct n; [lia|]. by exists (zeros n). Qed.

Lemma has_str_unique d o s s' : has_str d o s → has_str d o s' → s = s'.
Proof.
  intros [Hs [p Hd]] [Hs' [p' Hd']]. rewrite Hd in Hd'. clear Hd.
  revert s' Hs' Hd'. induction Hs as [|x s Hx Hs IH]; intros [|y s'] Hs' Heq;
    inversion Hs'; simplify_eq/=; try naive_solver.
Qed.

(** [list_inserts] seen pointwise. *)
Lemma list_inserts_lookup_in {A} (l k : list A) o i x :
  k !! i = Some x → (o + length k ≤ length l)%nat → list_inserts o k l !! (o + i)%nat = Some x.
Proof.
  intros Hi Hlen. pose proof (lookup_lt_Some _ _ _ Hi).
  rewrite list_lookup_inserts by lia. by replace (o + i - o)%nat with i by lia.
Qed.

Lemma list_inserts_lookup_out {A} (l k : list A) o i :
  (i < o ∨ o + length k ≤ i)%nat → list_inserts o k l !! i = l !! i.
Proof. intros [?|?]; [by apply list_lookup_inserts_lt|by apply list_lookup_inserts_ge]. Qed.

(** Slices of a list some of which was overwritten. *)
Lemma slice_inserted {A} (l k : list A) o n :
  n = length k → (o + length k ≤ length l)%nat → take n (drop o (list_inserts o k l)) = k.
Proof.
  intros -> Hl. apply list_eq. intros j. destruct (decide (j < length k)%nat).
  - rewrite lookup_take_lt, lookup_drop by lia.
    destruct (lookup_lt_is_Some_2 k j) as [x Hx]; [lia|]. rewrite Hx.
    apply list_inserts_lookup_in; [done|lia].
  - rewrite (lookup_ge_None_2 k) by lia. apply lookup_ge_None_2. rewrite length_take. lia.
Qed.

Lemma slice_not_inserted {A} (l k : list A) o o' n :
  (o + n ≤ o')%nat → take n (drop o (list_inserts o' k l)) = take n (drop o l).
Proof.
  intros Ho. apply list_eq. intros j. destruct (decide (j < n)%nat).
  - rewrite !lookup_take_lt, !lookup_drop by lia. apply list_inserts_lookup_out. lia.
  - rewrite !lookup_take_ge by lia. done.
Qed.

Lemma list_inserts_snoc {A} (l k : list A) o x :
  list_inserts o (k ++ [x]) l = <[(o + length k)%nat := x]> (list_inserts o k l).
Proof.
  revert o. induction k as [|y k IH]; intros o; simpl; [by rewrite Nat.add_0_r|].
  rewrite IH, list_insert_insert_ne by lia.
  by replace (S o + length k)%nat with (o + S (length k))%nat by lia.
Qed.

Lemma list_inserts_app {A} (l k k' : list A) o :
  list_inserts o (k ++ k') l = list_inserts (o + length k) k' (list_inserts o k l).
Proof.
  revert l k. induction k' as [|x k' IH]; intros l k; simpl; [by rewrite app_nil_r|].
  rewrite (cons_middle x k k'), app_assoc, IH, length_app, list_inserts_snoc. simpl.
  rewrite (list_insert_inserts_lt _ (o + length k) (S (o + length k))) by lia.
  by replace (o + (length k + 1))%nat with (S (o + length k)) by lia.
Qed.

(** Writing a terminated string makes it the string there. *)
Lemma has_str_inserts d o s :
  Forall (λ z, z ≠ 0) s → (o + length s < length d)%nat →
  has_str (list_inserts o (Byte <$> s ++ [0]) d) o s.
Proof.
  intros Hs Hlen. apply has_str_intro; [done|intros i z Hi|].
  - apply list_inserts_lookup_in; [|rewrite length_fmap, length_app; simpl; lia].
    rewrite list_lookup_fmap, lookup_app_l by (by eapply lookup_lt_Some). by rewrite Hi.
  - apply list_inserts_lookup_in; [|rewrite length_fmap, length_app; simpl; lia].
    by rewrite list_lookup_fmap, lookup_app_r, Nat.sub_diag by done.
Qed.

(** ** Lifetimes *)

Lemma with_local_ok {A} init (body : ptr → M cmem A) m a m' :
  body (Ptr (c_next m) 0) (CMem (<[c_next m := init]> (c_objs m)) (c_next m + 1)) = Ok (a, m') →
  with_local init body m = Ok (a, CMem (delete (c_next m) (c_objs m')) (c_next m')).
Proof. intros E. unfold with_local, alloc, free, mbind, M_bind. simpl. by rewrite E. Qed.

(** A local array whose body only changes another object [b] leaves no trace
    but a used identifier. *)
Lemma with_local_set_obj {A} init (body : ptr → M cmem A) m a b d :
  cmem_wf m → b ≠ c_next m →
  body (Ptr (c_next m) 0) (CMem (<[c_next m := init]> (c_objs m)) (c_next m + 1)) =
    Ok (a, set_obj (CMem (<[c_next m := init]> (c_objs m)) (c_next m + 1)) b d) →
  with_local init body m = Ok (a, CMem (<[b := d]> (c_objs m)) (c_next m + 1)).
Proof.
  intros (_ & _ & Hfresh) Hne E. rewrite (with_local_ok _ _ _ _ _ E). do 3 f_equal.
  unfold set_obj. simpl. apply map_eq. intros k.
  destruct (decide (k = c_next m)) as [->|].
  - rewrite lookup_delete_eq, lookup_insert_ne by done. symmetry. apply Hfresh. lia.
  - rewrite lookup_delete_ne by done. destruct (decide (k = b)) as [->|].
    + by rewrite !lookup_insert_eq.
    + by rewrite !lookup_insert_ne.
Qed.

Lemma empty_cmem_wf : cmem_wf empty_cmem.
Proof. unfold cmem_wf. simpl. split_and!; [lia|done|done]. Qed.

Lemma wf_live_ne m b d : cmem_wf m → c_objs m !! b = Some d → b ≠ c_next m.
Proof. intros (_ & _ & H) Hb ->. rewrite H in Hb by lia. done. Qed.

Lemma alloc_wf m init : cmem_wf m → cmem_wf (CMem (<[c_next m := init]> (c_objs m)) (c_next m + 1)).
Proof.
  intros (H0 & Hn & Hb). unfold cmem_wf. simpl. split_and!; [lia|..].
  - by rewrite lookup_insert_ne by lia.
  - intros b Hlt. rewrite lookup_insert_ne by lia. apply Hb. lia.
Qed.

Lemma pop_wf m b : cmem_wf m → cmem_wf (pop b m).
Proof.
  intros (Hn & H0 & Hf). unfold cmem_wf, pop. simpl. split_and!; [done|..].
  - by apply lookup_delete_None; right.
  - intros k Hk. apply lookup_delete_None. right. by apply Hf.
Qed.

Lemma set_obj_wf m b d : cmem_wf m → is_Some (c_objs m !! b) → cmem_wf (set_obj m b d).
Proof.
  intros (H0 & Hn & Hb) [d' Hd']. unfold cmem_wf. simpl. split_and!; [done|..].
  - rewrite lookup_insert_ne; [done|congruence].
  - intros b' Hlt. rewrite lookup_insert_ne; [by apply Hb|].
    intros ->. rewrite Hb in Hd' by done. done.
Qed.

Lemma set_obj_tick_wf m b d :
  cmem_wf m → is_Some (c_objs m !! b) → cmem_wf (CMem (<[b := d]> (c_objs m)) (c_next m + 1)).
Proof.
  intros Hwf Hb. destruct (set_obj_wf m b d Hwf Hb) as (H0 & Hn & Hf).
  unfold cmem_wf; simpl in *. split_and!; [lia|done|]. intros. apply Hf. lia.
Qed.
