(* ===== verification/PayloadStrings.v ===== *)
(** * String helpers of the payload

    [int32ToHex] and [concat] of src/Payload/main.c, [strlen], [append_string]
    and [get_file_path] of src/Payload/info.c, over the objects of [CMem]. A
    loop that scans for a NUL is given the size of the object it scans as fuel:
    one more than the object's size is enough, since the index grows at each
    turn and an index past the object is undefined behaviour. *)

From S2P Require Import Prelude CMem.

(** ** main.c *)

Module MainStrings.

(** ['0'], ['A'], ['x'] *)
Definition chr_0 : Z := 48.
Definition chr_A : Z := 65.
Definition chr_x : Z := 120.

Definition hex_char (BytePart : Z) : Z :=
  if decide (BytePart < 10) then chr_0 + BytePart else chr_A + (BytePart - 10).

Fixpoint int32ToHex_loop (fuel : nat) (Value i x : Z) (Hex : ptr) : M cmem unit :=
  match fuel with
  | O => out_of_fuel
  | S fuel =>
      if decide (0 ≤ i) then
        let BytePart := Z.land (Z.shiftr Value (4 * i)) 0x0F in
        _ ← store_char (Hex +ₚ x) (hex_char BytePart);
        int32ToHex_loop fuel Value (i - 1) (x + 1) Hex
      else mret tt
  end.

Definition int32ToHex (Value : Z) (Hex : ptr) : M cmem unit :=
  _ ← store_char (Hex +ₚ 0) chr_0;
  _ ← store_char (Hex +ₚ 1) chr_x;
  _ ← int32ToHex_loop 9 Value 7 2 Hex;
  store_char (Hex +ₚ 10) 0.

(** One of the two [for] loops of [concat]: copy [Src] up to its NUL. *)
Fixpoint concat_loop (fuel : nat) (Src : ptr) (i : Z) (Output : ptr) (Offset : Z) : M cmem Z :=
  match fuel with
  | O => out_of_fuel
  | S fuel =>
      c ← load_char (Src +ₚ i);
      if decide (c = 0) then mret Offset
      else
        _ ← store_char (Output +ₚ Offset) c;
        concat_loop fuel Src (i + 1) Output (Offset + 1)
  end.

Definition concat (StringA StringB Output : ptr) : M cmem unit :=
  m ← get;
  Offset ← concat_loop (S (obj_size m StringA)) StringA 0 Output 0;
  Offset ← concat_loop (S (obj_size m StringB)) StringB 0 Output Offset;
  store_char (Output +ₚ Offset) 0.

End MainStrings.

(** ** info.c *)

Module InfoStrings.

Fixpoint strlen_loop (fuel : nat) (buffer : ptr) (Len : Z) : M cmem Z :=
  match fuel with
  | O => out_of_fuel
  | S fuel =>
      c ← load_char (buffer +ₚ Len);
      if decide (c = 0) then mret Len else strlen_loop fuel buffer (Len + 1)
  end.

Definition strlen (buffer : ptr) : M cmem Z :=
  m ← get; strlen_loop (S (obj_size m buffer)) buffer 0.

(** [for (int i = 0; i < nLen; i++) pNew[i] = new_content[i];] *)
Fixpoint copy_loop (todo : nat) (pNew new_content : ptr) (i : Z) : M cmem unit :=
  match todo with
  | O => mret tt
  | S todo =>
      c ← load_char (new_content +ₚ i);
      _ ← store_char (pNew +ₚ i) c;
      copy_loop todo pNew new_content (i + 1)
  end.

Definition append_string (buffer new_content : ptr) : M cmem unit :=
  ori_len ← strlen buffer;
  let pNew := buffer +ₚ ori_len in
  nLen ← strlen new_content;
  copy_loop (Z.to_nat nLen) pNew new_content 0.

Definition tmp_dir : list Z := Eval vm_compute in chars "/user/data/tmp_".

Definition get_file_path (path fname : ptr) : M cmem unit :=
  _ ← store_char path 0;
  with_local (literal tmp_dir) (λ dir,
    _ ← append_string path dir;
    append_string path fname).

End InfoStrings.

(** * Theorems *)

Lemma u8_id z : is_u8 z → u8 z = z.
Proof. unfold is_u8, u8. intros. by apply Z.mod_small. Qed.

(** Loops that copy the characters of a string into another object write
    exactly those characters there. *)
Lemma list_inserts_cons_shift {A} o (x : A) k l :
  (o < length l)%nat →
  list_inserts (S o) k (<[o:=x]> l) = list_inserts o (x :: k) l.
Proof. intros. simpl. by rewrite list_insert_inserts_lt by lia. Qed.

Section scanning.
Context (m : cmem) (b : N) (d : list mbyte) (o : nat) (s : list Z).
Hypothesis Hobj : c_objs m !! b = Some d.
Hypothesis Hs : has_str d o s.

Lemma load_str_char k z :
  s !! k = Some z → load_char (Ptr b (Z.of_nat o) +ₚ Z.of_nat k) m = Ok (z, m).
Proof.
  intros Hk. rewrite ptr_add_Ptr. eapply load_char_ok; [done|lia|].
  rewrite Z_to_nat_add_of_nat. by eapply has_str_char.
Qed.

Lemma load_str_nul k :
  k = length s → load_char (Ptr b (Z.of_nat o) +ₚ Z.of_nat k) m = Ok (0, m).
Proof.
  intros ->. rewrite ptr_add_Ptr. eapply load_char_ok; [done|lia|].
  rewrite Z_to_nat_add_of_nat. by apply has_str_nul.
Qed.

Lemma strlen_loop_ok fuel k :
  (k ≤ length s)%nat → (length s - k < fuel)%nat →
  InfoStrings.strlen_loop fuel (Ptr b (Z.of_nat o)) (Z.of_nat k) m = Ok (Z.of_nat (length s), m).
Proof.
  revert k. induction fuel as [|fuel IH]; intros k Hk Hfuel; simpl; [lia|].
  destruct (decide (k = length s)) as [->|].
  - by rewrite (bind_ok _ _ _ _ _ (load_str_nul _ eq_refl)).
  - destruct (lookup_lt_is_Some_2 s k) as [z Hz]; [lia|].
    rewrite (bind_ok _ _ _ _ _ (load_str_char _ _ Hz)).
    rewrite decide_False by (by eapply has_str_char in Hz as [_ ?]).
    replace (Z.of_nat k + 1) with (Z.of_nat (S k)) by lia. apply IH; lia.
Qed.

Lemma strlen_ok :
  InfoStrings.strlen (Ptr b (Z.of_nat o)) m = Ok (Z.of_nat (length s), m).
Proof.
  unfold InfoStrings.strlen. rewrite (bind_ok _ _ m m m eq_refl).
  erewrite obj_size_eq by done. apply (strlen_loop_ok _ 0); [lia|].
  apply has_str_length in Hs. lia.
Qed.
End scanning.

(** Scanning an object that holds no NUL leaves its bounds: [strlen] always
    stops within its fuel, by a result or by undefined behaviour. *)
Lemma strlen_loop_no_nul fuel m b d o k :
  c_objs m !! b = Some d → (o ≤ length d)%nat →
  (∀ i, (o ≤ i < length d)%nat → ∃ z, d !! i = Some (Byte z) ∧ z ≠ 0) →
  (o + k ≤ length d)%nat → (length d - (o + k) < fuel)%nat →
  InfoStrings.strlen_loop fuel (Ptr b (Z.of_nat o)) (Z.of_nat k) m = Undef OutOfBounds.
Proof.
  intros Hobj Ho Hd. revert k. induction fuel as [|fuel IH];
    intros k Hk Hfuel; simpl; [lia|]. rewrite ptr_add_Ptr.
  destruct (decide (o + k = length d)%nat).
  - apply bind_undef. eapply load_char_oob; [done|lia].
  - destruct (Hd (o + k)%nat) as (z & Hz & Hnz); [lia|].
    erewrite bind_ok; [|eapply load_char_ok; [done|lia|]].
    + rewrite decide_False by done.
      replace (Z.of_nat k + 1) with (Z.of_nat (S k)) by lia. apply IH; lia.
    + by rewrite Z_to_nat_add_of_nat.
Qed.

Lemma strlen_no_nul m b d o :
  c_objs m !! b = Some d → (o ≤ length d)%nat →
  (∀ i, (o ≤ i < length d)%nat → ∃ z, d !! i = Some (Byte z) ∧ z ≠ 0) →
  InfoStrings.strlen (Ptr b (Z.of_nat o)) m = Undef OutOfBounds.
Proof.
  intros Hobj Ho Hd. unfold InfoStrings.strlen. rewrite (bind_ok _ _ m m m eq_refl).
  erewrite obj_size_eq by done.
  apply (strlen_loop_no_nul _ m b d o 0); [done..|lia|lia].
Qed.

Section copying.
Context (bs : N) (ds : list mbyte) (os : nat) (s : list Z) (bo : N) (oo : nat).
Hypothesis Hne : bs ≠ bo.
Hypothesis Hs : has_str ds os s.
Hypothesis Hbytes : bytes_ok s.

(** The state while copying: the source as before, the destination's bytes
    from [oo + k] still those of [d]. *)
Lemma store_step m d k off z :
  c_objs m !! bo = Some d → s !! k = Some z → (oo + off < length d)%nat →
  store_char (Ptr bo (Z.of_nat oo) +ₚ Z.of_nat off) z m =
    Ok (tt, set_obj m bo (<[(oo + off)%nat := Byte z]> d)).
Proof.
  intros Hobj Hz Hlen. unfold store_char. rewrite ptr_add_Ptr.
  rewrite (store_ok m bo d Hobj) by lia. rewrite Z_to_nat_add_of_nat, u8_id; [done|].
  by eapply Forall_lookup_1 in Hbytes.
Qed.

Lemma concat_loop_ok fuel m d k (off : nat) :
  c_objs m !! bs = Some ds → c_objs m !! bo = Some d →
  (k ≤ length s)%nat → (length s - k < fuel)%nat →
  (oo + off + (length s - k) ≤ length d)%nat →
  MainStrings.concat_loop fuel (Ptr bs (Z.of_nat os)) (Z.of_nat k)
    (Ptr bo (Z.of_nat oo)) (Z.of_nat off) m =
  Ok (Z.of_nat (off + (length s - k)),
      set_obj m bo (list_inserts (oo + off) (Byte <$> drop k s) d)).
Proof.
  revert m d k off. induction fuel as [|fuel IH]; intros m d k off Hos Hoo Hk Hf Hlen; [lia|].
  simpl. destruct (decide (k = length s)) as [->|Hk'].
  - rewrite (bind_ok _ _ _ _ _ (load_str_nul m bs ds os s Hos Hs _ eq_refl)).
    rewrite decide_True by done. rewrite drop_ge by done. simpl.
    rewrite set_obj_same by done. by rewrite Nat.sub_diag, Nat.add_0_r.
  - destruct (lookup_lt_is_Some_2 s k) as [z Hz]; [lia|].
    rewrite (bind_ok _ _ _ _ _ (load_str_char m bs ds os s Hos Hs _ _ Hz)).
    rewrite decide_False by (by eapply has_str_char in Hz as [_ ?]).
    rewrite (bind_ok _ _ _ _ _ (store_step m d k off z Hoo Hz ltac:(lia))).
    replace (Z.of_nat k + 1) with (Z.of_nat (S k)) by lia.
    replace (Z.of_nat off + 1) with (Z.of_nat (S off)) by lia.
    rewrite (IH _ _ (S k) (S off) ltac:(by rewrite set_obj_lookup_ne) (set_obj_lookup _ _ _));
      [|lia|lia|rewrite length_insert; lia].
    rewrite set_obj_twice, (drop_S s z k Hz), fmap_cons.
    rewrite <-list_inserts_cons_shift by lia.
    replace (oo + S off)%nat with (S (oo + off)) by lia.
    do 3 f_equal; lia.
Qed.

Lemma copy_loop_ok todo m d k :
  c_objs m !! bs = Some ds → c_objs m !! bo = Some d →
  (k + todo = length s)%nat → (oo + length s ≤ length d)%nat →
  InfoStrings.copy_loop todo (Ptr bo (Z.of_nat oo)) (Ptr bs (Z.of_nat os)) (Z.of_nat k) m =
  Ok (tt, set_obj m bo (list_inserts (oo + k) (Byte <$> drop k s) d)).
Proof.
  revert m d k. induction todo as [|todo IH]; intros m d k Hos Hoo Hk Hlen; simpl.
  - rewrite drop_ge by lia. simpl. by rewrite set_obj_same.
  - destruct (lookup_lt_is_Some_2 s k) as [z Hz]; [lia|].
    rewrite (bind_ok _ _ _ _ _ (load_str_char m bs ds os s Hos Hs _ _ Hz)).
    rewrite (bind_ok _ _ _ _ _ (store_step m d k k z Hoo Hz ltac:(lia))).
    replace (Z.of_nat k + 1) with (Z.of_nat (S k)) by lia.
    rewrite (IH _ _ (S k) ltac:(by rewrite set_obj_lookup_ne) (set_obj_lookup _ _ _));
      [|lia|rewrite length_insert; lia].
    rewrite set_obj_twice, (drop_S s z k Hz), fmap_cons.
    rewrite <-list_inserts_cons_shift by lia.
    by replace (oo + S k)%nat with (S (oo + k)) by lia.
Qed.
End copying.

(** ** [concat] *)

(** The result of [concat]: the characters of both strings and one NUL. *)
Theorem concat_writes (m : cmem) (ba bb bo : N) (da db d : list mbyte) (oa ob oo : nat)
    (a b : list Z) :
  c_objs m !! ba = Some da → has_str da oa a → bytes_ok a →
  c_objs m !! bb = Some db → has_str db ob b → bytes_ok b →
  c_objs m !! bo = Some d → ba ≠ bo → bb ≠ bo →
  (oo + length a + length b < length d)%nat →
  MainStrings.concat (Ptr ba (Z.of_nat oa)) (Ptr bb (Z.of_nat ob)) (Ptr bo (Z.of_nat oo)) m =
    Ok (tt, set_obj m bo (list_inserts oo (Byte <$> a ++ b ++ [0]) d)).
Proof.
  intros Ha Hsa Hua Hb Hsb Hub Ho Hao Hbo Hlen. unfold MainStrings.concat.
  rewrite (bind_ok _ _ m m m eq_refl), !(obj_size_eq _ _ _ Ha), (obj_size_eq _ _ _ Hb).
  pose proof (has_str_length _ _ _ Hsa). pose proof (has_str_length _ _ _ Hsb).
  pose proof (concat_loop_ok ba da oa a bo oo Hao Hsa Hua (S (length da)) m d 0 0
    Ha Ho ltac:(lia) ltac:(lia) ltac:(lia)) as E1.
  simpl Z.of_nat in E1 at 2 3. rewrite (bind_ok _ _ _ _ _ E1). clear E1. simpl drop.
  rewrite Nat.add_0_r, Nat.sub_0_r, Nat.add_0_l.
  set (d1 := list_inserts oo _ d).
  assert (length d1 = length d) by (unfold d1; by rewrite length_inserts).
  pose proof (concat_loop_ok bb db ob b bo oo Hbo Hsb Hub (S (length db)) (set_obj m bo d1) d1
    0 (length a) ltac:(by rewrite set_obj_lookup_ne) (set_obj_lookup _ _ _)
    ltac:(lia) ltac:(lia) ltac:(lia)) as E2.
  simpl Z.of_nat in E2 at 2. rewrite (bind_ok _ _ _ _ _ E2). clear E2. simpl drop.
  rewrite Nat.sub_0_r, set_obj_twice. unfold store_char. rewrite ptr_add_Ptr.
  rewrite (store_ok _ _ _ (set_obj_lookup _ _ _)) by (rewrite length_inserts; lia).
  rewrite Z_to_nat_add_of_nat, set_obj_twice. do 3 f_equal. unfold d1.
  rewrite app_assoc, fmap_app, list_inserts_app, length_fmap, length_app, fmap_app, list_inserts_app, length_fmap.
  done.
Qed.

(** ** [append_string] and [get_file_path] *)

Theorem append_string_writes (m : cmem) (bb bn : N) (d dn : list mbyte) (o on : nat)
    (s t : list Z) :
  c_objs m !! bb = Some d → has_str d o s →
  c_objs m !! bn = Some dn → has_str dn on t → bytes_ok t → bn ≠ bb →
  (o + length s + length t ≤ length d)%nat →
  InfoStrings.append_string (Ptr bb (Z.of_nat o)) (Ptr bn (Z.of_nat on)) m =
    Ok (tt, set_obj m bb (list_inserts (o + length s) (Byte <$> t) d)).
Proof.
  intros Hb Hs Hn Ht Hu Hne Hlen. unfold InfoStrings.append_string.
  rewrite (bind_ok _ _ _ _ _ (strlen_ok m bb d o s Hb Hs)).
  rewrite (bind_ok _ _ _ _ _ (strlen_ok m bn dn on t Hn Ht)).
  rewrite Nat2Z.id, ptr_add_Ptr, <-Nat2Z.inj_add.
  pose proof (copy_loop_ok bn dn on t bb (o + length s) Hne Ht Hu (length t) m d 0
    Hn Hb eq_refl ltac:(lia)) as E. simpl Z.of_nat in E at 3. simpl drop in E.
  by rewrite Nat.add_0_r in E.
Qed.

(** [append_string] copies no NUL: what follows the appended characters is
    whatever string the buffer already held from there on. *)
Lemma has_str_append d o s t r :
  has_str d o s → Forall (λ z, z ≠ 0) t → has_str d (o + length s + length t) r →
  has_str (list_inserts (o + length s) (Byte <$> t) d) o (s ++ t ++ r).
Proof.
  intros Hs Ht Hr. pose proof (has_str_length _ _ _ Hr).
  assert (Hlt : (length (Byte <$> t) = length t)) by (by rewrite length_fmap).
  apply has_str_intro.
  - rewrite !Forall_app. split_and!; [apply Hs|done|apply Hr].
  - intros i z Hi. destruct (decide (i < length s)%nat) as [Hi'|Hi'].
    + rewrite lookup_app_l in Hi by done. rewrite list_inserts_lookup_out by lia.
      by eapply has_str_char.
    + rewrite lookup_app_r in Hi by lia.
      destruct (decide (i - length s < length t)%nat).
      * rewrite lookup_app_l in Hi by done.
        replace (o + i)%nat with (o + length s + (i - length s))%nat by lia.
        apply list_inserts_lookup_in; [|lia]. by rewrite list_lookup_fmap, Hi.
      * rewrite lookup_app_r in Hi by lia. rewrite list_inserts_lookup_out by lia.
        replace (o + i)%nat with (o + length s + length t + (i - length s - length t))%nat by lia.
        by eapply has_str_char.
  - rewrite !length_app, list_inserts_lookup_out by lia.
    replace (o + _)%nat with (o + length s + length t + length r)%nat by lia.
    by apply has_str_nul.
Qed.

Lemma tmp_dir_nonzero : Forall (λ z, z ≠ 0) InfoStrings.tmp_dir.
Proof. repeat constructor; lia. Qed.
Lemma tmp_dir_bytes : bytes_ok InfoStrings.tmp_dir.
Proof. repeat constructor; lia. Qed.

Lemma has_str_offset_eq d o o' s : o = o' → has_str d o s → has_str d o' s.
Proof. by intros ->. Qed.

(** A string of the destination that lies past the inserted bytes survives. *)
Lemma has_str_inserts_after d o k o' r :
  (o + length k ≤ o')%nat → has_str d o' r → has_str (list_inserts o k d) o' r.
Proof.
  intros Hle Hr. apply has_str_intro; [apply Hr|intros i z Hi|].
  - rewrite list_inserts_lookup_out by lia. by eapply has_str_char.
  - rewrite list_inserts_lookup_out by lia. by apply has_str_nul.
Qed.

Lemma has_str_nul_here d o : d !! o = Some (Byte 0) → has_str d o [].
Proof. intros. apply has_str_intro; [done|done|]. simpl. by rewrite Nat.add_0_r. Qed.

(** The path buffer after each of [get_file_path]'s appends. *)
Definition path_with_dir (d : list mbyte) (op : nat) : list mbyte :=
  list_inserts op (Byte <$> InfoStrings.tmp_dir) (<[op := Byte 0]> d).
Definition path_with_name (d : list mbyte) (op : nat) (r f : list Z) : list mbyte :=
  list_inserts (op + 15 + length r) (Byte <$> f) (path_with_dir d op).

Lemma path_with_dir_length d op : length (path_with_dir d op) = length d.
Proof. unfold path_with_dir. by rewrite length_inserts, length_insert. Qed.
Lemma path_with_name_length d op r f : length (path_with_name d op r f) = length d.
Proof. unfold path_with_name. by rewrite length_inserts, path_with_dir_length. Qed.

Lemma path_with_dir_after d op o' r :
  (op + 15 ≤ o')%nat → has_str d o' r → has_str (path_with_dir d op) o' r.
Proof.
  intros Hle Hr. apply has_str_inserts_after; [simpl; lia|].
  apply (has_str_inserts_after d op [Byte 0]); [simpl; lia|done].
Qed.

Lemma path_with_dir_str d op r :
  has_str d (op + 15) r → has_str (path_with_dir d op) op (InfoStrings.tmp_dir ++ r).
Proof.
  intros Hr. pose proof (has_str_length _ _ _ Hr).
  assert (H0 : has_str (<[op := Byte 0]> d) op []).
  { apply has_str_nul_here, list_lookup_insert_eq. lia. }
  pose proof (has_str_append _ op [] InfoStrings.tmp_dir r H0 tmp_dir_nonzero) as E.
  simpl length in E. rewrite Nat.add_0_r in E. apply E.
  apply (has_str_inserts_after d op [Byte 0]); [simpl; lia|done].
Qed.

Lemma path_with_name_str d op r f r' :
  has_str d (op + 15) r → Forall (λ z, z ≠ 0) f →
  has_str d (op + 15 + length r + length f) r' →
  has_str (path_with_name d op r f) op (InfoStrings.tmp_dir ++ r ++ f ++ r').
Proof.
  intros Hr Hf Hr'. rewrite app_assoc.
  pose proof (has_str_append _ op _ f r' (path_with_dir_str d op r Hr) Hf) as E.
  rewrite length_app in E. simpl length in E.
  replace (op + (15 + length r))%nat with (op + 15 + length r)%nat in E by lia.
  apply E, path_with_dir_after; [lia|done].
Qed.

Section get_file_path.
Context (m : cmem) (bp bf : N) (d df : list mbyte) (op fo : nat) (f r : list Z).
Hypotheses (Hwf : cmem_wf m) (Hp : c_objs m !! bp = Some d) (Hf : c_objs m !! bf = Some df).
Hypotheses (Hne : bf ≠ bp) (Hsf : has_str df fo f) (Hbf : bytes_ok f).
Hypotheses (Hr : has_str d (op + 15) r) (Hlen : (op + 15 + length r + length f ≤ length d)%nat).

Lemma get_file_path_run :
  InfoStrings.get_file_path (Ptr bp (Z.of_nat op)) (Ptr bf (Z.of_nat fo)) m =
    Ok (tt, CMem (<[bp := path_with_name d op r f]> (c_objs m)) (c_next m + 1)).
Proof.
  pose proof (has_str_length _ _ _ Hr) as Hlr.
  unfold InfoStrings.get_file_path, store_char.
  rewrite (bind_ok _ _ _ _ _ (store_ok m bp d Hp (Z.of_nat op) _ ltac:(lia))), Nat2Z.id.
  set (d0 := <[op := _]> d). set (m0 := set_obj m bp d0).
  assert (Hl0 : length d0 = length d) by (unfold d0; by rewrite length_insert).
  assert (H0 : has_str d0 op []) by (apply has_str_nul_here, list_lookup_insert_eq; lia).
  assert (Hbn : bp ≠ c_next m0) by (by eapply (wf_live_ne m)).
  assert (Hfn : bf ≠ c_next m0) by (by eapply (wf_live_ne m)).
  replace (<[bp := path_with_name d op r f]> (c_objs m)) with
    (<[bp := path_with_name d op r f]> (c_objs m0)) by (simpl; by rewrite insert_insert_eq).
  apply (with_local_set_obj _ _ m0); [by apply set_obj_wf|done|].
  set (m1 := CMem _ (c_next m0 + 1)).
  assert (Hp1 : c_objs m1 !! bp = Some d0).
  { simpl. rewrite lookup_insert_ne by done. apply lookup_insert_eq. }
  assert (Hf1 : c_objs m1 !! bf = Some df) by (simpl; by rewrite !lookup_insert_ne by done).
  erewrite bind_ok;
    [|apply (append_string_writes m1 bp (c_next m0) d0 _ op 0 [] InfoStrings.tmp_dir Hp1 H0
        (lookup_insert_eq _ _ _) (has_str_literal _ tmp_dir_nonzero) tmp_dir_bytes
        (not_eq_sym Hbn)); simpl; lia].
  simpl length. rewrite Nat.add_0_r.
  change (list_inserts op _ d0) with (path_with_dir d op).
  rewrite (append_string_writes _ bp bf (path_with_dir d op) df op fo (InfoStrings.tmp_dir ++ r) f
    (set_obj_lookup _ _ _) (path_with_dir_str d op r Hr) ltac:(by rewrite set_obj_lookup_ne)
    Hsf Hbf Hne) by (rewrite length_app, path_with_dir_length; simpl; lia).
  rewrite set_obj_twice, length_app. simpl length.
  by replace (op + (15 + length r))%nat with (op + 15 + length r)%nat by lia.
Qed.
End get_file_path.

(** ** [int32ToHex] *)

(** The [n] low hexadecimal digits of a value, most significant first, and
    what a reader of hexadecimal makes of a list of digits. *)
Fixpoint hex_digits (n : nat) (Value : Z) : list Z :=
  match n with
  | O => []
  | S n => MainStrings.hex_char (Z.land (Z.shiftr Value (4 * Z.of_nat n)) 0x0F) :: hex_digits n Value
  end.

Definition int32_hex (Value : Z) : list Z :=
  MainStrings.chr_0 :: MainStrings.chr_x :: hex_digits 8 Value.

Definition hex_digit_value (c : Z) : Z :=
  if decide (c < MainStrings.chr_A) then c - MainStrings.chr_0 else c - MainStrings.chr_A + 10.
Definition parse_hex (cs : list Z) : Z :=
  fold_left (λ acc c, acc * 16 + hex_digit_value c) cs 0.

Lemma length_hex_digits n v : length (hex_digits n v) = n.
Proof. induction n; simpl; auto. Qed.

Lemma nibble_range v : 0 ≤ Z.land v 0x0F < 16.
Proof. change 0x0F with (Z.ones 4). rewrite Z.land_ones by lia. apply Z.mod_pos_bound. lia. Qed.

Lemma hex_char_value b : 0 ≤ b < 16 → hex_digit_value (MainStrings.hex_char b) = b.
Proof.
  unfold hex_digit_value, MainStrings.hex_char, MainStrings.chr_0, MainStrings.chr_A.
  intros. repeat case_decide; lia.
Qed.

Lemma hex_char_printable b :
  0 ≤ b < 16 → is_u8 (MainStrings.hex_char b) ∧ MainStrings.hex_char b ≠ 0.
Proof.
  unfold is_u8, MainStrings.hex_char, MainStrings.chr_0, MainStrings.chr_A.
  intros. repeat case_decide; lia.
Qed.

Lemma hex_digits_printable n v :
  Forall (λ c, is_u8 c ∧ c ≠ 0) (hex_digits n v).
Proof. induction n; simpl; constructor; auto using hex_char_printable, nibble_range. Qed.

Lemma parse_hex_digits_acc n v acc :
  fold_left (λ acc c, acc * 16 + hex_digit_value c) (hex_digits n v) acc =
    acc * 16 ^ Z.of_nat n + v `mod` 16 ^ Z.of_nat n.
Proof.
  revert acc. induction n as [|n IH]; intros acc; simpl fold_left.
  - rewrite Z.mod_1_r. lia.
  - rewrite IH, hex_char_value by apply nibble_range.
    change 0x0F with (Z.ones 4). rewrite Z.land_ones, Z.shiftr_div_pow2 by lia.
    change (2 ^ 4) with 16. replace (2 ^ (4 * Z.of_nat n)) with (16 ^ Z.of_nat n)
      by (rewrite Z.pow_mul_r by lia; done).
    rewrite Nat2Z.inj_succ, Z.pow_succ_r by lia.
    rewrite (Z.mul_comm 16), (Z.rem_mul_r v (16 ^ Z.of_nat n) 16) by lia. lia.
Qed.

Lemma int32ToHex_loop_ok fuel n v x m b d o :
  c_objs m !! b = Some d → (n < fuel)%nat → (o + x + n ≤ length d)%nat →
  MainStrings.int32ToHex_loop fuel v (Z.of_nat n - 1) (Z.of_nat x) (Ptr b (Z.of_nat o)) m =
    Ok (tt, set_obj m b (list_inserts (o + x) (Byte <$> hex_digits n v) d)).
Proof.
  revert n x m d. induction fuel as [|fuel IH]; intros n x m d Hobj Hn Hlen; [lia|].
  simpl. destruct n as [|n].
  - rewrite decide_False by lia. simpl. by rewrite set_obj_same.
  - rewrite decide_True by lia. replace (Z.of_nat (S n) - 1) with (Z.of_nat n) by lia.
    unfold store_char. rewrite ptr_add_Ptr.
    rewrite (bind_ok _ _ _ _ _ (store_ok m b d Hobj (Z.of_nat o + Z.of_nat x) _ ltac:(lia))).
    rewrite Z_to_nat_add_of_nat, u8_id by apply hex_char_printable, nibble_range.
    replace (Z.of_nat x + 1) with (Z.of_nat (S x)) by lia.
    rewrite (IH n (S x) _ _ (set_obj_lookup _ _ _)) by (rewrite ?length_insert; lia).
    simpl hex_digits. rewrite set_obj_twice, fmap_cons.
    rewrite <-list_inserts_cons_shift by lia.
    by replace (o + S x)%nat with (S (o + x)) by lia.
Qed.

Lemma int32ToHex_run v m b d o :
  c_objs m !! b = Some d → (o + 11 ≤ length d)%nat →
  MainStrings.int32ToHex v (Ptr b (Z.of_nat o)) m =
    Ok (tt, set_obj m b (list_inserts o (Byte <$> int32_hex v ++ [0]) d)).
Proof.
  intros Hobj Hlen. unfold MainStrings.int32ToHex, store_char. rewrite !ptr_add_Ptr.
  rewrite (bind_ok _ _ _ _ _ (store_ok m b d Hobj (Z.of_nat o + 0) _ ltac:(lia))).
  erewrite bind_ok;
    [|apply (store_ok _ b _ (set_obj_lookup _ _ _)); rewrite length_insert; lia].
  rewrite set_obj_twice.
  replace (Z.to_nat (Z.of_nat o + 0)) with o by lia.
  replace (Z.to_nat (Z.of_nat o + 1)) with (S o) by lia.
  erewrite bind_ok; [|apply (int32ToHex_loop_ok 9 8 v 2 _ b _ o (set_obj_lookup _ _ _));
    rewrite ?length_insert; lia].
  rewrite set_obj_twice.
  rewrite (store_ok _ b _ (set_obj_lookup _ _ _))
    by (rewrite length_inserts, !length_insert; lia).
  rewrite set_obj_twice. change (Z.of_nat 2) with 2.
  replace (Z.to_nat (Z.of_nat o + 10)) with (o + 2 + 8)%nat by lia.
  do 3 f_equal. unfold int32_hex. rewrite fmap_app, fmap_cons, fmap_cons.
  rewrite <-!app_comm_cons, <-!list_inserts_cons_shift by (rewrite ?length_insert; lia).
  rewrite fmap_cons, fmap_nil, list_inserts_snoc, length_fmap, length_hex_digits.
  replace (o + 2)%nat with (S (S o)) by lia. done.
Qed.

Lemma int32_hex_printable v : Forall (λ c, is_u8 c ∧ c ≠ 0) (int32_hex v).
Proof.
  unfold int32_hex, MainStrings.chr_0, MainStrings.chr_x.
  do 2 (constructor; [unfold is_u8; lia|]). apply hex_digits_printable.
Qed.

(** ** Properties *)

(** [int32ToHex(Value, Hex)] writes, into any buffer of at least 11 bytes,
    the NUL-terminated string ["0x"] followed by exactly eight upper-case
    hexadecimal digits; read back as hexadecimal they give the unsigned 32-bit
    value of [Value] (so negative error codes print as their bit pattern); no
    other byte of the buffer changes. *)
Theorem int32ToHex_prints_the_code (Value : Z) (m : cmem) (b : N) (d : list mbyte) (o : nat)
    (Hobj : c_objs m !! b = Some d) (Hsize : (o + 11 ≤ length d)%nat) :
  ∃ d' digits,
    MainStrings.int32ToHex Value (Ptr b (Z.of_nat o)) m = Ok (tt, set_obj m b d') ∧
    has_str d' o (chars "0x" ++ digits) ∧ length digits = 8%nat ∧
    parse_hex digits = u32 Value ∧
    (∀ i, (i < o ∨ o + 11 ≤ i)%nat → d' !! i = d !! i).
Proof.
  exists (list_inserts o (Byte <$> int32_hex Value ++ [0]) d), (hex_digits 8 Value). split_and!.
  - by apply int32ToHex_run.
  - apply has_str_inserts; [|simpl; lia].
    eapply Forall_impl; [apply int32_hex_printable|]. naive_solver.
  - apply length_hex_digits.
  - unfold parse_hex. by rewrite parse_hex_digits_acc.
  - intros i Hi. apply list_inserts_lookup_out. rewrite length_fmap. simpl. lia.
Qed.

Lemma int32ToHex_prints_the_code_witness :
  let m := CMem {[ 1%N := zeros 0x20 ]} 2 in
  ∃ d' digits, MainStrings.int32ToHex (-2137456634) (Ptr 1 (Z.of_nat 0)) m =
      Ok (tt, set_obj m 1 d') ∧
    has_str d' 0 (chars "0x" ++ digits) ∧ length digits = 8%nat ∧
    parse_hex digits = u32 (-2137456634) ∧
    (∀ i, (i < 0 ∨ 0 + 11 ≤ i)%nat → d' !! i = zeros 0x20 !! i).
Proof.
  intros m. apply (int32ToHex_prints_the_code (-2137456634) m 1 (zeros 0x20) 0).
  - reflexivity.
  - vm_compute. lia.
Defined.

Example int32ToHex_0x80990086 : int32_hex (i32 0x80990086) = chars "0x80990086".
Proof. reflexivity. Qed.

(** [concat(A, B, Output)] of two strings outside the output object leaves
    the NUL-terminated concatenation in it, when it fits with its terminator,
    and changes no other byte; it always returns. *)
Theorem concat_concatenates (m : cmem) (ba bb bo : N) (da db d : list mbyte) (oa ob oo : nat)
    (a b : list Z)
    (HA : c_objs m !! ba = Some da ∧ has_str da oa a ∧ bytes_ok a ∧ ba ≠ bo)
    (HB : c_objs m !! bb = Some db ∧ has_str db ob b ∧ bytes_ok b ∧ bb ≠ bo)
    (HO : c_objs m !! bo = Some d) (Hfits : (oo + length a + length b < length d)%nat) :
  ∃ d', MainStrings.concat (Ptr ba (Z.of_nat oa)) (Ptr bb (Z.of_nat ob)) (Ptr bo (Z.of_nat oo)) m =
      Ok (tt, set_obj m bo d') ∧
    has_str d' oo (a ++ b) ∧
    (∀ i, (i < oo ∨ oo + length a + length b + 1 ≤ i)%nat → d' !! i = d !! i).
Proof.
  destruct HA as (? & Ha & ? & ?), HB as (? & Hb & ? & ?). eexists. split_and!.
  - by eapply concat_writes.
  - rewrite app_assoc. apply has_str_inserts; [|rewrite length_app; lia].
    apply Forall_app. split; [apply Ha|apply Hb].
  - intros i Hi. apply list_inserts_lookup_out. rewrite length_fmap, !length_app. simpl. lia.
Qed.

Lemma concat_concatenates_witness :
  let m := CMem (<[1%N := literal (chars "DPI: ")]> (<[2%N := literal (chars "0x")]>
             {[ 3%N := zeros 0x200 ]})) 4 in
  ∃ d', MainStrings.concat (Ptr 1 (Z.of_nat 0)) (Ptr 2 (Z.of_nat 0)) (Ptr 3 (Z.of_nat 0)) m =
      Ok (tt, set_obj m 3 d') ∧
    has_str d' 0 (chars "DPI: " ++ chars "0x") ∧
    (∀ i, (i < 0 ∨ 0 + 5 + 2 + 1 ≤ i)%nat → d' !! i = zeros 0x200 !! i).
Proof.
  intros m. apply (concat_concatenates m 1 2 3 (literal (chars "DPI: ")) (literal (chars "0x"))
    (zeros 0x200) 0 0 0 (chars "DPI: ") (chars "0x")).
  - split_and!; [reflexivity| |repeat constructor; lia|done].
    apply has_str_literal. repeat constructor; done.
  - split_and!; [reflexivity| |repeat constructor; lia|done].
    apply has_str_literal. repeat constructor; done.
  - reflexivity.
  - vm_compute. lia.
Defined.
