(* ===== verification/Posix.v ===== *)
(** * The interface between the payload and the operating system

    The system calls are reached through the stubs of src/Payload/lib, whose
    targets are in the console's kernel, not in the repository: they are the
    operations of a class over an abstract world. A second class states the
    documented behaviour of stream sockets and files that the payload relies
    on. An instance, a console whose socket delivers scripted chunks and whose
    files accept scripted amounts, shows that the laws can hold. *)

From S2P Require Import Prelude.

(** ** Constants of the bundled FreeBSD headers *)

Definition AF_UNIX : Z := 1.
Definition AF_INET : Z := 2.
Definition SOCK_STREAM : Z := 1.
Definition IPPROTO_TCP : Z := 6.
Definition O_WRONLY : Z := 0x0001.
Definition O_CREAT : Z := 0x0200.
Definition O_TRUNC : Z := 0x0400.
Definition PROT_READ : Z := 0x01.
Definition PROT_WRITE : Z := 0x02.
Definition MAP_PRIVATE : Z := 0x0002.
Definition MAP_ANONYMOUS : Z := 0x1000.

(** [struct sockaddr_in] of netinet/in.h. *)
Record sockaddr_in : Set := SockaddrIn {
  sin_len : Z;
  sin_family : Z;
  sin_port : Z;
  sin_addr : Z;
  sin_zero : list Z
}.

(** ** System calls *)

Class Posix (W : Type) : Type := {
  (** [socket(domain, type, protocol)] *)
  sys_socket : Z → Z → Z → W → Z * W;
  (** [connect(s, name, namelen)] *)
  sys_connect : Z → sockaddr_in → Z → W → Z * W;
  (** [read(fd, buf, nbytes)]: the result and the bytes put at [buf] *)
  sys_read : Z → Z → W → Z * list Z * W;
  (** [write(fd, buf, nbytes)] of the bytes at [buf] *)
  sys_write : Z → list Z → W → Z * W;
  (** [open(path, flags, mode)] *)
  sys_open : list Z → Z → Z → W → Z * W;
  (** [close(fd)] *)
  sys_close : Z → W → Z * W
}.

(** [read] returns -1 or the number of bytes it stored, at most what was asked
    for; [write] returns -1 or the number of bytes taken. *)
Class PosixBounds (W : Type) `{Posix W} : Prop := {
  sys_read_bounds fd n w r bs w' :
    sys_read fd n w = (r, bs, w') → 0 ≤ n →
    bytes_ok bs ∧ (r = -1 ∧ bs = [] ∨ r = Z.of_nat (length bs) ∧ r ≤ n);
  sys_write_bounds fd bs w r w' :
    sys_write fd bs w = (r, w') → -1 ≤ r ≤ Z.of_nat (length bs)
}.

(** Stream sockets and files. [incoming w fd] are the bytes a peer has sent
    and [fd] has still to deliver; [stored w fd] the bytes written to the file
    open at [fd]; [accepting w fd] that the file there has room. A read takes a
    prefix of what is incoming, of at least one byte when there is one and one
    is asked for; a write appends a prefix of what it is given, not empty while
    the file is accepting; opening with [O_TRUNC] empties the file. *)
Class PosixStreams (W : Type) `{Posix W} : Type := {
  incoming : W → Z → list Z;
  stored : W → Z → list Z;
  accepting : W → Z → Prop;
  read_takes fd n w r bs w' :
    sys_read fd n w = (r, bs, w') → 0 < n → incoming w fd ≠ [] →
    0 < r ∧ r = Z.of_nat (length bs) ∧ r ≤ n ∧ incoming w fd = bs ++ incoming w' fd;
  read_stored fd n w r bs w' fd' :
    sys_read fd n w = (r, bs, w') → stored w' fd' = stored w fd';
  read_accepting fd n w r bs w' fd' :
    sys_read fd n w = (r, bs, w') → accepting w fd' → accepting w' fd';
  write_appends fd bs w r w' :
    sys_write fd bs w = (r, w') → stored w' fd = stored w fd ++ take (Z.to_nat r) bs;
  write_incoming fd bs w r w' fd' :
    sys_write fd bs w = (r, w') → incoming w' fd' = incoming w fd';
  write_accepting fd bs w r w' :
    sys_write fd bs w = (r, w') → accepting w fd → bs ≠ [] → 0 < r ∧ accepting w' fd;
  open_truncates path flags mode w fd w' :
    sys_open path flags mode w = (fd, w') → Z.land flags O_TRUNC ≠ 0 → 0 ≤ fd → stored w' fd = [];
  open_incoming path flags mode w fd w' fd' :
    sys_open path flags mode w = (fd, w') → incoming w' fd' = incoming w fd';
  close_stored fd w r w' fd' :
    sys_close fd w = (r, w') → stored w' fd' = stored w fd'
}.

(** Names. [names w fd] is the path [fd] was opened at, [file_at w path] what the
    file of that name holds, if there is one: what was written through a
    descriptor open at it. Opening succeeds at the path given; sockets, reads
    and closing leave every file as it is. *)
Class PosixFiles (W : Type) `{PosixStreams W} : Type := {
  names : W → Z → option (list Z);
  file_at : W → list Z → option (list Z);
  names_stored w fd path : names w fd = Some path → file_at w path = Some (stored w fd);
  open_names path flags mode w fd w' :
    sys_open path flags mode w = (fd, w') → 0 ≤ fd → names w' fd = Some path;
  read_names fd n w r bs w' fd' : sys_read fd n w = (r, bs, w') → names w' fd' = names w fd';
  write_names fd bs w r w' fd' : sys_write fd bs w = (r, w') → names w' fd' = names w fd';
  socket_files d t p w fd w' path :
    sys_socket d t p w = (fd, w') → file_at w' path = file_at w path;
  connect_files fd a l w r w' path :
    sys_connect fd a l w = (r, w') → file_at w' path = file_at w path;
  read_files fd n w r bs w' path :
    sys_read fd n w = (r, bs, w') → file_at w' path = file_at w path;
  close_files fd w r w' path : sys_close fd w = (r, w') → file_at w' path = file_at w path
}.

(** A computer that sends its whole message at once and a disk with room: the
    connection is made, a read returns all the bytes it asks for, and files can
    be opened and written. *)
Class PosixReliable (W : Type) `{PosixStreams W} : Type := {
  ready : W → Prop;
  reliable : W → Z → Prop;
  reliable_dial d t p a l w :
    ready w → ∃ fd w1 r w2,
      sys_socket d t p w = (fd, w1) ∧ 0 ≤ fd ∧
      sys_connect fd a l w1 = (r, w2) ∧ 0 ≤ r ∧
      reliable w2 fd ∧ incoming w2 fd = incoming w fd;
  reliable_read fd bs rest w :
    reliable w fd → incoming w fd = bs ++ rest →
    ∃ w', sys_read fd (Z.of_nat (length bs)) w = (Z.of_nat (length bs), bs, w') ∧
      reliable w' fd ∧ incoming w' fd = rest;
  reliable_open path flags mode w fd :
    reliable w fd → ∃ f w', sys_open path flags mode w = (f, w') ∧ 0 ≤ f ∧ accepting w' f
}.

(** ** A scripted console *)

Module NetWorld.

(** The socket is descriptor 3, the opened file descriptor 4. [chunks] is what
    the computer sends, in the segments in which it arrives; [accepts] how many
    bytes each next write to the file takes (everything once it is empty, an
    error when negative). *)
Record t : Type := World {
  connects : bool;
  chunks : list (list Z);
  accepts : list Z;
  file : list Z;
  opened : list (list Z);
  closed : list Z
}.

Definition sock_fd : Z := 3.
Definition file_fd : Z := 4.

Fixpoint deliver (n : nat) (cs : list (list Z)) : list Z * list (list Z) :=
  match cs with
  | [] => ([], [])
  | [] :: cs => deliver n cs
  | c :: cs => (take n c, drop n c :: cs)
  end.

(** At most [n] bytes, and no more than there are. *)
Definition wanted (n : Z) (cs : list (list Z)) : nat :=
  Z.to_nat (Z.min n (Z.of_nat (length (mjoin cs)))).

Definition read (fd n : Z) (w : t) : Z * list Z * t :=
  if decide (fd = sock_fd) then
    let '(bs, cs) := deliver (wanted n (chunks w)) (chunks w) in
    (Z.of_nat (length bs), u8 <$> bs,
     World (connects w) cs (accepts w) (file w) (opened w) (closed w))
  else (-1, [], w).

Definition write (fd : Z) (bs : list Z) (w : t) : Z * t :=
  if decide (fd = file_fd) then
    let '(a, rest) := match accepts w with
                      | [] => (Z.of_nat (length bs), [])
                      | a :: rest => (a, rest)
                      end in
    let r := if decide (a < 0) then -1 else Z.min a (Z.of_nat (length bs)) in
    (r, World (connects w) (chunks w) rest (file w ++ take (Z.to_nat r) bs) (opened w) (closed w))
  else (-1, w).

#[global] Instance posix : Posix t := {
  sys_socket _ _ _ w := (sock_fd, w);
  sys_connect _ _ _ w := (if connects w then 0 else -1, w);
  sys_read := read;
  sys_write := write;
  sys_open path _ _ w :=
    (file_fd, World (connects w) (chunks w) (accepts w) [] (opened w ++ [path]) (closed w));
  sys_close fd w :=
    (0, World (connects w) (chunks w) (accepts w) (file w) (opened w) (closed w ++ [fd]))
}.

Lemma u8_is_u8 z : is_u8 (u8 z).
Proof. unfold is_u8, u8. apply Z.mod_pos_bound. lia. Qed.

Lemma bytes_ok_u8 bs : bytes_ok (u8 <$> bs).
Proof. apply Forall_fmap, Forall_true. intros. apply u8_is_u8. Qed.

Lemma deliver_app n cs bs cs' :
  deliver n cs = (bs, cs') → mjoin cs = bs ++ mjoin cs'.
Proof.
  induction cs as [|[|x c] cs IH]; simpl; intros E; simplify_eq/=; [done|auto|].
  by rewrite app_assoc, take_drop.
Qed.

Lemma deliver_length n cs bs cs' : deliver n cs = (bs, cs') → (length bs ≤ n)%nat.
Proof.
  induction cs as [|[|x c] cs IH]; simpl; intros E; simplify_eq/=; [lia|auto|].
  rewrite length_take. lia.
Qed.

Lemma deliver_progress n cs bs cs' :
  deliver n cs = (bs, cs') → (0 < n)%nat → mjoin cs ≠ [] → (0 < length bs)%nat.
Proof.
  induction cs as [|[|x c] cs IH]; simpl; intros E ??; simplify_eq/=; auto.
  rewrite length_take. simpl. lia.
Qed.

#[global] Instance bounds : PosixBounds t.
Proof.
  split.
  - intros fd n w r bs w' E Hn. simpl in E. unfold read in E. case_decide; [|simplify_eq; auto].
    destruct (deliver (wanted n (chunks w)) (chunks w)) as [bs0 cs] eqn:Hd. simplify_eq.
    split; [apply bytes_ok_u8|]. right. rewrite length_fmap.
    apply deliver_length in Hd. unfold wanted in Hd. lia.
  - intros fd bs w r w' E. simpl in E. unfold write in E. case_decide; [|simplify_eq; lia].
    destruct (accepts w); simplify_eq; case_decide; lia.
Qed.

(** What the computer has sent and the program has not read yet. *)
Definition pending (w : t) (fd : Z) : list Z :=
  if decide (fd = sock_fd) then u8 <$> mjoin (chunks w) else [].
Definition contents (w : t) (fd : Z) : list Z :=
  if decide (fd = file_fd) then file w else [].

Definition has_room (w : t) (fd : Z) : Prop := fd = file_fd ∧ Forall (λ a, 0 < a) (accepts w).

#[global] Program Instance streams : PosixStreams t := {
  incoming := pending;
  stored := contents;
  accepting := has_room
}.
Next Obligation.
  intros fd n w r bs w' E Hn Hne. simpl in *. unfold read, pending in *.
  case_decide; [|done]. destruct (deliver (wanted n (chunks w)) (chunks w)) as [bs0 cs] eqn:Hd.
  simplify_eq/=. rewrite length_fmap, <-fmap_app, <-(deliver_app _ _ _ _ Hd).
  assert (Hj : mjoin (chunks w) ≠ []) by (intros E; by rewrite E in Hne).
  assert (Hpos : (0 < length (mjoin (chunks w)))%nat) by (destruct (mjoin (chunks w)); [done|simpl; lia]).
  pose proof (deliver_length _ _ _ _ Hd) as Hl.
  pose proof (deliver_progress _ _ _ _ Hd ltac:(unfold wanted; lia) Hj).
  unfold wanted in Hl.
  split_and!; [lia|done|lia|done].
Qed.
Next Obligation.
  intros fd n w r bs w' fd' E. simpl in *. unfold read, contents in *.
  case_decide; [destruct (deliver _ _)|]; by simplify_eq.
Qed.
Next Obligation.
  intros fd n w r bs w' fd' E. simpl in *. unfold read, has_room in *.
  case_decide; [destruct (deliver _ _)|]; by simplify_eq.
Qed.
Next Obligation.
  intros fd bs w r w' E. simpl in *. unfold write, contents in *.
  case_decide; [destruct (accepts w)|]; by simplify_eq/=.
Qed.
Next Obligation.
  intros fd bs w r w' fd' E. simpl in *. unfold write, pending in *.
  case_decide; [destruct (accepts w)|]; by simplify_eq/=.
Qed.
Next Obligation.
  intros fd bs w r w' E [-> Ha] Hbs. simpl in *. unfold write, has_room in *.
  rewrite decide_True in E by done.
  assert (HL : 0 < Z.of_nat (length bs)) by (destruct bs; simpl; [done|lia]).
  revert E HL. generalize (Z.of_nat (length bs)). intros L E HL.
  destruct (accepts w) as [|a rest]; injection E as <- <-; simpl.
  - rewrite decide_False by lia. split; [lia|done].
  - apply Forall_cons in Ha as [??]. rewrite decide_False by lia. split; [lia|done].
Qed.
Next Obligation.
  intros path flags mode w fd w' E _ _. simpl in *. simplify_eq. done.
Qed.
Next Obligation. intros path flags mode w fd w' fd' E. simpl in *. by simplify_eq. Qed.
Next Obligation. intros fd w r w' fd' E. simpl in *. by simplify_eq. Qed.

(** The one file that is there is the one opened last. *)
Definition name_of (w : t) (fd : Z) : option (list Z) :=
  if decide (fd = file_fd) then last (opened w) else None.
Definition disk (w : t) (path : list Z) : option (list Z) :=
  if decide (last (opened w) = Some path) then Some (file w) else None.

Lemma read_keeps fd n w r bs w' :
  sys_read fd n w = (r, bs, w') → opened w' = opened w ∧ file w' = file w.
Proof. simpl. unfold read. case_decide; [destruct (deliver _ _)|]; intros E; by simplify_eq. Qed.

Lemma write_keeps fd bs w r w' : sys_write fd bs w = (r, w') → opened w' = opened w.
Proof. simpl. unfold write. case_decide; [destruct (accepts w)|]; intros E; by simplify_eq. Qed.

#[global] Program Instance named : PosixFiles t := { names := name_of; file_at := disk }.
Next Obligation.
  intros w fd path. unfold name_of, disk. simpl. unfold contents.
  case_decide; [|done]. intros ->. by rewrite decide_True.
Qed.
Next Obligation.
  intros path flags mode w fd w' E _. simpl in E. simplify_eq. unfold name_of. simpl.
  by rewrite last_snoc.
Qed.
Next Obligation.
  intros fd n w r bs w' fd' [E _]%read_keeps. unfold name_of. by rewrite E.
Qed.
Next Obligation. intros fd bs w r w' fd' E%write_keeps. unfold name_of. by rewrite E. Qed.
Next Obligation. intros d ty p w fd w' path E. simpl in E. by simplify_eq. Qed.
Next Obligation. intros fd a l w r w' path E. simpl in E. by simplify_eq. Qed.
Next Obligation.
  intros fd n w r bs w' path [E1 E2]%read_keeps. unfold disk. by rewrite E1, E2.
Qed.
Next Obligation. intros fd w r w' path E. simpl in E. by simplify_eq. Qed.

(** Everything in one segment, the connection accepted, the disk with room. *)
Definition dependable (w : t) : Prop :=
  connects w = true ∧ (length (chunks w) ≤ 1)%nat ∧ Forall (λ a, 0 < a) (accepts w).

Lemma deliver_one n c :
  deliver n [c] = (take n c, match c with [] => [] | _ => [drop n c] end).
Proof. destruct c; simpl; [by rewrite take_nil|done]. Qed.

#[global] Program Instance dependably : PosixReliable t := {
  ready := dependable;
  reliable w fd := dependable w ∧ fd = sock_fd
}.
Next Obligation.
  intros d ty p a l w Hw. exists sock_fd, w, 0, w. simpl.
  pose proof Hw as (-> & ? & ?). done.
Qed.
Next Obligation.
  intros fd bs rest w [(Hc & Hl & Ha) ->] Hin. simpl in *. unfold pending, read in *.
  change (u8 <$> mjoin (chunks w) = bs ++ rest) in Hin. rewrite decide_True by done.
  replace (wanted _ _) with (length bs).
  2:{ unfold wanted. apply (f_equal length) in Hin. rewrite length_fmap, length_app in Hin. lia. }
  destruct (chunks w) as [|c [|]]; simpl mjoin in *; simpl length in *; [| |lia].
  - destruct bs, rest; simplify_eq/=. eexists. split; [done|].
    split; [|done]. split; [by split_and!|done].
  - rewrite app_nil_r in Hin. rewrite deliver_one. simpl.
    pose proof (f_equal (take (length bs)) Hin) as Ht.
    pose proof (f_equal (drop (length bs)) Hin) as Hd.
    rewrite take_app_length, <-fmap_take in Ht. rewrite drop_app_length, <-fmap_drop in Hd.
    assert (Hlen : length (take (length bs) c) = length bs) by (by rewrite <-Ht at 2; rewrite length_fmap).
    eexists. split; [by rewrite Ht, Hlen|].
    split; [split; [|done]; split; [done|split; [by destruct c; simpl; lia|done]]|].
    simpl. rewrite <-Hd.
    destruct c; simpl; [by rewrite drop_nil|by rewrite app_nil_r].
Qed.
Next Obligation.
  intros path flags mode w fd [(_ & _ & Ha) _]. exists file_fd. eexists. by split_and!.
Qed.

End NetWorld.
