(* ===== verification/PayloadInfo.v ===== *)
(** * The payload's client side: src/Payload/info.c

    Reading one package description from the computer: fixed-width integers,
    length-prefixed strings, a length-prefixed icon that goes to a file, and
    [get_pkg_info], which does the whole exchange. The state is the objects of
    [CMem] and the world of [Posix]. *)

From S2P Require Import Prelude CMem Posix PayloadStrings.

(** ** Data: src/Payload/struct.h *)

Inductive bgft_task_option_t : Set :=
  | BGFT_TASK_OPTION_NONE
  | BGFT_TASK_OPTION_DELETE_AFTER_UPLOAD
  | BGFT_TASK_OPTION_INVISIBLE
  | BGFT_TASK_OPTION_ENABLE_PLAYGO
  | BGFT_TASK_OPTION_FORCE_UPDATE
  | BGFT_TASK_OPTION_REMOTE
  | BGFT_TASK_OPTION_COPY_CRASH_REPORT_FILES
  | BGFT_TASK_OPTION_DISABLE_INSERT_POPUP
  | BGFT_TASK_OPTION_DISABLE_CDN_QUERY_PARAM.

Definition bgft_task_option_value (o : bgft_task_option_t) : Z :=
  match o with
  | BGFT_TASK_OPTION_NONE => 0x0
  | BGFT_TASK_OPTION_DELETE_AFTER_UPLOAD => 0x1
  | BGFT_TASK_OPTION_INVISIBLE => 0x2
  | BGFT_TASK_OPTION_ENABLE_PLAYGO => 0x4
  | BGFT_TASK_OPTION_FORCE_UPDATE => 0x8
  | BGFT_TASK_OPTION_REMOTE => 0x10
  | BGFT_TASK_OPTION_COPY_CRASH_REPORT_FILES => 0x20
  | BGFT_TASK_OPTION_DISABLE_INSERT_POPUP => 0x40
  | BGFT_TASK_OPTION_DISABLE_CDN_QUERY_PARAM => 0x10000
  end.

Record bgft_download_param : Set := BgftDownloadParam {
  user_id : Z;
  entitlement_type : Z;
  id : ptr;
  content_url : ptr;
  content_ex_url : ptr;
  content_name : ptr;
  icon_path : ptr;
  sku_id : ptr;
  option_ : bgft_task_option_t;
  playgo_scenario_id : ptr;
  release_date : ptr;
  package_type : ptr;
  package_sub_type : ptr;
  package_size : Z
}.

(** [Connection]: the address the computer patches into the binary. *)
Record connection : Set := Connection { conn_addr : Z; conn_port : Z }.

Definition Connection_template : connection := Connection 0xb4b4b4b4 0xb4b4.

Module Info.
Section info.
Context {W : Type} `{Posix W}.

#[local] Abbreviation P := (M (cmem * W)).

Definition mem_op {A} (m : M cmem A) : P A := on_fst m.
Definition sys_op {A} (f : W → A * W) : P A := on_snd (λ w, Ok (f w)).

(** Block-scope arrays of functions that also make system calls. *)
Definition with_array {A} (init : list mbyte) (body : ptr → P A) : P A :=
  p ← mem_op (alloc init);
  a ← body p;
  _ ← mem_op (free p);
  mret a.

(** ** System calls on memory *)

Definition read (fd : Z) (buf : ptr) (nbytes : Z) : P Z :=
  '(r, bs) ← sys_op (sys_read fd nbytes);
  _ ← mem_op (store_list buf bs);
  mret r.

Definition write (fd : Z) (buf : ptr) (nbytes : Z) : P Z :=
  bs ← mem_op (load_list buf (Z.to_nat nbytes));
  sys_op (sys_write fd bs).

Definition load_cstring (p : ptr) : M cmem (list Z) :=
  n ← InfoStrings.strlen p; load_list p (Z.to_nat n).

Definition open (path : ptr) (flags mode : Z) : P Z :=
  s ← mem_op (load_cstring path);
  sys_op (sys_open s flags mode).

Definition close (fd : Z) : P Z := sys_op (sys_close fd).

(** ** Reading integers and strings *)

Definition get_uint32 (sock : Z) : P Z :=
  with_array (uninit 4) (λ dword,
    _ ← read sock dword 4;
    bs ← mem_op (load_list dword 4);
    mret (le_word bs)).

Definition get_uint64 (sock : Z) : P Z :=
  with_array (uninit 8) (λ qword,
    _ ← read sock qword 8;
    bs ← mem_op (load_list qword 8);
    mret (le_word bs)).

(** [str_len > MAX_SIZE] compares a [uint32_t] with an [int]: unsigned. *)
Definition get_string (sock : Z) (Buffer : ptr) (MAX_SIZE : Z) : P Z :=
  str_len ← get_uint32 sock;
  _ ← mem_op (store_char Buffer 0);
  if decide (str_len > u32 MAX_SIZE) then mret (-1)
  else
    _ ← read sock Buffer str_len;
    mret 0.

(** ** The icon file *)

(** [while (readed > 0) { written = write(...); ... }]: [true] when the whole
    chunk was written, [false] when the function returned from inside. *)
Fixpoint write_loop (fuel : nat) (hFile : Z) (pBuff : ptr) (readed : Z) : P bool :=
  match fuel with
  | O => out_of_fuel
  | S fuel =>
      if decide (readed > 0) then
        written ← write hFile pBuff readed;
        if decide (written ≤ 0) then mret false
        else write_loop fuel hFile (pBuff +ₚ written) (readed - written)
      else mret true
  end.

(** The outer [while]: [true] when it ends (by its condition or the [break]),
    [false] when [return 1] left the function without closing the file. *)
Fixpoint recv_loop (fuel : nat) (sock hFile : Z) (buffer : ptr) (buffer_size len : Z) : P bool :=
  match fuel with
  | O => out_of_fuel
  | S fuel =>
      readed ← read sock buffer (u64 (if decide (len < buffer_size) then len else buffer_size));
      if decide (readed > 0) then
        let len := i32 (len - readed) in
        finished ← write_loop (S (Z.to_nat readed)) hFile buffer readed;
        if finished : bool then
          if decide (len ≤ 0) then mret true
          else recv_loop fuel sock hFile buffer buffer_size len
        else mret false
      else mret true
  end.

Definition get_file (sock : Z) (out_path name : ptr) : P Z :=
  _ ← mem_op (store_char (out_path +ₚ 0) 0);
  len ← get_uint32 sock;
  let len := i32 len in
  if decide (len = 0) then mret 0
  else
    _ ← mem_op (InfoStrings.get_file_path out_path name);
    hFile ← open out_path (Z.lor (Z.lor O_WRONLY O_CREAT) O_TRUNC) 0x1FF;
    with_array (uninit 4096) (λ buffer,
      finished ← recv_loop (S (Z.to_nat (u32 len))) sock hFile buffer 4096 len;
      if finished : bool then
        _ ← close hFile;
        mret 1
      else mret 1).

(** ** The whole exchange *)

Definition conn_info (Conn : connection) : sockaddr_in :=
  SockaddrIn 0 AF_INET (conn_port Conn) (conn_addr Conn) (repeat 0 8).

(** The block-scope arrays of [get_pkg_info]. *)
Record info_buffers : Set := InfoBuffers {
  b_url : ptr; b_name : ptr; b_id : ptr; b_icon_name : ptr; b_icon_path : ptr; b_pkg_type : ptr
}.

Definition sizeof_url : Z := 0x800.
Definition sizeof_name : Z := 0x259.
Definition sizeof_id : Z := 0x30.
Definition sizeof_icon_name : Z := 100.
Definition sizeof_icon_path : Z := 0x800.
Definition sizeof_pkg_type : Z := 0x10.

(** From the package description on: URL, Name, ID, type, size, icon. *)
Definition recv_pkg_info (sock : Z) (b : info_buffers) (params : bgft_download_param) :
    P (Z * bgft_download_param) :=
  r ← get_string sock (b_url b) sizeof_url;
  if decide (r = -1) then mret (-1, params) else
  r ← get_string sock (b_name b) sizeof_name;
  if decide (r = -1) then mret (-1, params) else
  r ← get_string sock (b_id b) sizeof_id;
  if decide (r = -1) then mret (-1, params) else
  r ← get_string sock (b_pkg_type b) sizeof_pkg_type;
  if decide (r = -1) then mret (-1, params) else
  size ← get_uint64 sock;
  with_array (literal (chars ".png")) (λ icon_ext,
    _ ← mem_op (InfoStrings.append_string (b_icon_name b) (b_id b));
    _ ← mem_op (InfoStrings.append_string (b_icon_name b) icon_ext);
    r ← get_file sock (b_icon_path b) (b_icon_name b);
    (* [icon_path[0] == 0x00;] is a comparison whose value is dropped *)
    _ ← (if decide (r = 0) then _ ← mem_op (load_char (b_icon_path b +ₚ 0)); mret tt
         else mret tt);
    _ ← close sock;
    mret (0, {|
      user_id := user_id params;
      entitlement_type := entitlement_type params;
      id := b_id b;
      content_url := b_url b;
      content_ex_url := content_ex_url params;
      content_name := b_name b;
      icon_path := b_icon_path b;
      sku_id := sku_id params;
      option_ := option_ params;
      playgo_scenario_id := playgo_scenario_id params;
      release_date := release_date params;
      package_type := b_pkg_type b;
      package_sub_type := package_sub_type params;
      package_size := size
    |})).

Definition get_pkg_info_body (Conn : connection) (b : info_buffers)
    (params : bgft_download_param) : P (Z * bgft_download_param) :=
  sock ← sys_op (sys_socket AF_INET SOCK_STREAM IPPROTO_TCP);
  if decide (sock < 0) then mret (-1, params) else
  c ← sys_op (sys_connect sock (conn_info Conn) 16);
  if decide (c < 0) then _ ← close sock; mret (-1, params) else
  cmd ← get_uint32 sock;
  if decide (cmd = 0) then _ ← close sock; mret (1, params) else
  recv_pkg_info sock b params.

Definition with_info_buffers {A} (body : info_buffers → P A) : P A :=
  with_array (zeros (Z.to_nat sizeof_url)) (λ url,
  with_array (zeros (Z.to_nat sizeof_name)) (λ name,
  with_array (zeros (Z.to_nat sizeof_id)) (λ id,
  with_array (zeros (Z.to_nat sizeof_icon_name)) (λ icon_name,
  with_array (zeros (Z.to_nat sizeof_icon_path)) (λ icon_path,
  with_array (zeros (Z.to_nat sizeof_pkg_type)) (λ pkg_type,
    body (InfoBuffers url name id icon_name icon_path pkg_type))))))).

Definition get_pkg_info (Conn : connection) (params : bgft_download_param) :
    P (Z * bgft_download_param) :=
  with_info_buffers (λ b, get_pkg_info_body Conn b params).

End info.
End Info.
