(* ===== verification/PayloadInfoFacts.v ===== *)
(** * Lemmas on the client side of the payload

    Footprints (which objects a step may change), the single-step behaviour of
    the readers of info.c, and the loops of [get_file]. The properties are in
    [PayloadInfoSpec]. *)

From S2P Require Import Prelude CMem Posix PayloadStrings PayloadInfo.

(** ** Footprints *)

(** From [m] to [m'] only objects in [X] change; every object created on the
    way is gone. *)
Record frame (X : gset N) (m m' : cmem) : Prop := {
  frame_wf : cmem_wf m';
  frame_next : (c_next m ≤ c_next m')%N;
  frame_objs b : b ∉ X → c_objs m' !! b = c_objs m !! b
}.

Lemma frame_refl X m : cmem_wf m → frame X m m.
Proof. by split. Qed.

Lemma frame_trans X m1 m2 m3 : frame X m1 m2 → frame X m2 m3 → frame X m1 m3.
Proof.
  intros [_ ? H1] [? ? H2]. split; [done|lia|]. intros b Hb. by rewrite H2, H1.
Qed.

Lemma frame_weaken X Y m m' : frame X m m' → X ⊆ Y → frame Y m m'.
Proof. intros [? ? Hf] Hs. split; [done|done|]. intros b Hb. apply Hf. set_solver. Qed.

Section footprints.
Context {W : Type} `{Posix W}.

Definition modifies {A} (X : gset N) (prog : M (cmem * W) A) : Prop :=
  ∀ m w a m' w', cmem_wf m → prog (m, w) = Ok (a, (m', w')) → frame X m m'.

Lemma modifies_ret {A} X (a : A) : modifies X (mret a).
Proof. intros m w a' m' w' ? E. rewrite ret_ok in E. simplify_eq. by apply frame_refl. Qed.

Lemma modifies_bind {A B} X (p : M (cmem * W) A) (f : A → M (cmem * W) B) :
  modifies X p → (∀ a, modifies X (f a)) → modifies X (p ≫= f).
Proof.
  intros Hp Hf m w b m' w' Hwf E. apply bind_inv in E as (a & [m1 w1] & E1 & E2).
  pose proof (Hp _ _ _ _ _ Hwf E1) as Hfr. eapply frame_trans; [done|].
  eapply Hf; [|done]. apply Hfr.
Qed.

Lemma modifies_sys {A} X (f : W → A * W) : modifies X (Info.sys_op f).
Proof.
  intros m w a m' w' ? E. unfold Info.sys_op, on_snd in E.
  destruct (f w). simplify_eq. by apply frame_refl.
Qed.

Lemma modifies_fuel {A} X : modifies (A := A) X out_of_fuel.
Proof. intros m w a m' w' ? E. done. Qed.

(** Computations on the objects alone. *)
Definition mem_modifies {A} (X : gset N) (prog : M cmem A) : Prop :=
  ∀ m a m', cmem_wf m → prog m = Ok (a, m') → frame X m m'.

Lemma modifies_mem {A} X (prog : M cmem A) : mem_modifies X prog → modifies X (Info.mem_op prog).
Proof.
  intros Hp m w a m' w' Hwf E. unfold Info.mem_op in E.
  apply on_fst_inv in E as (a0 & s0 & E & ?). simplify_eq. eauto.
Qed.

Lemma modifies_if {A} X (P : Prop) `{Decision P} (p q : M (cmem * W) A) :
  modifies X p → modifies X q → modifies X (if decide P then p else q).
Proof. by destruct (decide P). Qed.

Lemma modifies_array {A} X init (body : ptr → M (cmem * W) A) :
  (∀ p, modifies ({[p_blk p]} ∪ X) (body p)) → modifies X (Info.with_array init body).
Proof.
  intros Hb m w a m' w' Hwf E. unfold Info.with_array in E.
  apply bind_inv in E as (p & [m0 w0] & E0 & E). unfold Info.mem_op, on_fst, alloc in E0.
  injection E0 as <- <- <-. apply bind_inv in E as (a1 & [m1 w1] & E1 & E).
  apply bind_inv in E as (? & [m2 w2] & E2 & E). rewrite ret_ok in E.
  unfold Info.mem_op, on_fst, free in E2. simplify_eq.
  pose proof (Hb _ _ _ _ _ _ (alloc_wf m init Hwf) E1) as [(H0 & Hn & Hf) Hle Hfr]. simpl in *.
  split; simpl; [|lia|].
  - unfold cmem_wf; simpl. split_and!; [done|..].
    + rewrite lookup_delete_ne; [done|]. destruct Hwf as (? & ?). lia.
    + intros b Hlt. destruct (decide (b = c_next m)) as [->|];
        [apply lookup_delete_eq|rewrite lookup_delete_ne by done; auto].
  - intros b Hb'. destruct (decide (b = c_next m)) as [->|].
    + rewrite lookup_delete_eq. destruct Hwf as (_ & _ & Hfr0). symmetry. apply Hfr0. lia.
    + rewrite lookup_delete_ne, Hfr by set_solver. by rewrite lookup_insert_ne.
Qed.
End footprints.

(** Footprints of the memory operations. *)
Lemma mem_modifies_ret {A} X (a : A) : mem_modifies X (mret a).
Proof. intros m a' m' ? E. rewrite ret_ok in E. simplify_eq. by apply frame_refl. Qed.
Lemma mem_modifies_get X : mem_modifies X get.
Proof. intros m a' m' ? E. unfold get in E. simplify_eq. by apply frame_refl. Qed.
Lemma mem_modifies_undef {A} X u : mem_modifies (A := A) X (undef u).
Proof. by intros m a m' ? E. Qed.
Lemma mem_modifies_fuel {A} X : mem_modifies (A := A) X out_of_fuel.
Proof. by intros m a m' ? E. Qed.

Lemma mem_modifies_bind {A B} X (p : M cmem A) (f : A → M cmem B) :
  mem_modifies X p → (∀ a, mem_modifies X (f a)) → mem_modifies X (p ≫= f).
Proof.
  intros Hp Hf m b m' Hwf E. apply bind_inv in E as (a & m1 & E1 & E2).
  pose proof (Hp _ _ _ Hwf E1) as Hfr. eapply frame_trans; [done|].
  eapply Hf; [|done]. apply Hfr.
Qed.

Lemma mem_modifies_load X p : mem_modifies X (load p).
Proof.
  intros m a m' ? E. unfold load in E. repeat case_match; simplify_eq. by apply frame_refl.
Qed.

Lemma mem_modifies_store X p b : p_blk p ∈ X → mem_modifies X (store p b).
Proof.
  intros HX m a m' Hwf E. unfold store in E. repeat case_match; simplify_eq.
  split; simpl; [by apply (set_obj_wf m)|done|].
  intros b' Hb'. rewrite lookup_insert_ne; [done|set_solver].
Qed.

Create HintDb footprint discriminated.
#[export] Hint Resolve modifies_ret modifies_bind modifies_sys modifies_fuel modifies_mem
  modifies_if modifies_array mem_modifies_ret mem_modifies_get mem_modifies_undef
  mem_modifies_fuel mem_modifies_bind mem_modifies_load mem_modifies_store : footprint.

Lemma mem_modifies_if {A} X (P : Prop) `{Decision P} (p q : M cmem A) :
  mem_modifies X p → mem_modifies X q → mem_modifies X (if decide P then p else q).
Proof. by destruct (decide P). Qed.

Lemma mem_modifies_load_char X p : mem_modifies X (load_char p).
Proof.
  apply mem_modifies_bind; [apply mem_modifies_load|].
  intros []; [apply mem_modifies_ret|apply mem_modifies_undef].
Qed.
#[export] Hint Resolve mem_modifies_if mem_modifies_load_char : footprint.

(** One step of the search: a structural rule, or a footprint already known. *)
Ltac footprint_step :=
  match goal with
  | |- ∀ _, _ => intro
  | |- modifies _ (mbind _ _) => apply modifies_bind
  | |- mem_modifies _ (mbind _ _) => apply mem_modifies_bind
  | |- modifies _ (if _ then _ else _) => first [apply modifies_if | case_match]
  | |- mem_modifies _ (if _ then _ else _) => first [apply mem_modifies_if | case_match]
  | |- modifies _ (Info.mem_op _) => apply modifies_mem
  | |- modifies _ (Info.with_array _ _) => apply modifies_array
  | |- mem_modifies _ (store_char _ _) => apply mem_modifies_store
  | |- modifies _ (let '_ := ?x in _) => destruct x
  | |- modifies _ _ => solve [auto with footprint]
  | |- mem_modifies _ _ => solve [auto with footprint]
  | |- _ ∈ _ => simpl; solve [auto | set_solver]
  end.
Ltac footprint := repeat footprint_step.

Lemma mem_modifies_store_list X p bs : p_blk p ∈ X → mem_modifies X (store_list p bs).
Proof. revert p. induction bs; simpl; intros; footprint. Qed.
Lemma mem_modifies_load_list X p n : mem_modifies X (load_list p n).
Proof. revert p. induction n; simpl; intros; footprint. Qed.
#[export] Hint Resolve mem_modifies_store_list mem_modifies_load_list : footprint.

Lemma mem_modifies_strlen X p : mem_modifies X (InfoStrings.strlen p).
Proof.
  unfold InfoStrings.strlen. footprint. generalize (S (obj_size a p)), 0. intros n.
  induction n; simpl; intros; footprint.
Qed.
#[export] Hint Resolve mem_modifies_strlen : footprint.

Lemma mem_modifies_append_string X p q :
  p_blk p ∈ X → mem_modifies X (InfoStrings.append_string p q).
Proof.
  intros HX. unfold InfoStrings.append_string. footprint. generalize (Z.to_nat a0), 0. intros n.
  induction n; simpl; intros; footprint.
Qed.
#[export] Hint Resolve mem_modifies_append_string : footprint.

Lemma mem_modifies_local {A} X init (body : ptr → M cmem A) :
  (∀ p, mem_modifies ({[p_blk p]} ∪ X) (body p)) → mem_modifies X (with_local init body).
Proof.
  intros Hb m a m' Hwf E.
  assert (Hm : modifies (W := unit) X (Info.with_array init (λ p, Info.mem_op (body p))))
    by footprint.
  apply (Hm m tt a m' tt Hwf). unfold Info.with_array, with_local in *.
  apply bind_inv in E as (p & m1 & E1 & E). apply bind_inv in E as (a1 & m2 & E2 & E).
  apply bind_inv in E as ([] & m3 & E3 & E). rewrite ret_ok in E. simplify_eq.
  erewrite bind_ok by (by apply on_fst_ok). erewrite bind_ok by (by apply on_fst_ok).
  by erewrite bind_ok by (by apply on_fst_ok).
Qed.

Lemma mem_modifies_get_file_path X p q :
  p_blk p ∈ X → mem_modifies X (InfoStrings.get_file_path p q).
Proof.
  intros HX. unfold InfoStrings.get_file_path. footprint.
  apply mem_modifies_local. intros. footprint.
  - apply mem_modifies_append_string. set_solver.
  - apply mem_modifies_append_string. set_solver.
Qed.
#[export] Hint Resolve mem_modifies_get_file_path : footprint.

Section info_footprints.
Context {W : Type} `{Posix W}.
Implicit Types X : gset N.

Lemma modifies_read X fd p n : p_blk p ∈ X → modifies X (Info.read fd p n).
Proof. intros. unfold Info.read. footprint. Qed.
Lemma modifies_write X fd p n : modifies X (Info.write fd p n).
Proof. unfold Info.write. footprint. Qed.
Lemma modifies_open X p f md : modifies X (Info.open p f md).
Proof. unfold Info.open, Info.load_cstring. footprint. Qed.
Lemma modifies_close X fd : modifies X (Info.close fd).
Proof. unfold Info.close. footprint. Qed.
#[local] Hint Resolve modifies_read modifies_write modifies_open modifies_close : footprint.

Lemma modifies_get_uint32 X sock : modifies X (Info.get_uint32 sock).
Proof. unfold Info.get_uint32. footprint. apply modifies_read. set_solver. Qed.
Lemma modifies_get_uint64 X sock : modifies X (Info.get_uint64 sock).
Proof. unfold Info.get_uint64. footprint. apply modifies_read. set_solver. Qed.
#[local] Hint Resolve modifies_get_uint32 modifies_get_uint64 : footprint.

Lemma modifies_get_string X sock p n : p_blk p ∈ X → modifies X (Info.get_string sock p n).
Proof. intros. unfold Info.get_string. footprint. Qed.
#[local] Hint Resolve modifies_get_string : footprint.

Lemma modifies_write_loop X fuel fd p n : modifies X (Info.write_loop fuel fd p n).
Proof. revert p n. induction fuel; simpl; intros; footprint. Qed.
#[local] Hint Resolve modifies_write_loop : footprint.

Lemma modifies_recv_loop X fuel sock fd p sz n :
  p_blk p ∈ X → modifies X (Info.recv_loop fuel sock fd p sz n).
Proof. intros HX. revert n. induction fuel; simpl; intros; footprint. Qed.

Lemma modifies_get_file X sock p q : p_blk p ∈ X → modifies X (Info.get_file sock p q).
Proof.
  intros HX. unfold Info.get_file. footprint.
  apply modifies_recv_loop. set_solver.
Qed.
#[local] Hint Resolve modifies_get_file : footprint.

Definition buffers_in (b : Info.info_buffers) X : Prop :=
  p_blk (Info.b_url b) ∈ X ∧ p_blk (Info.b_name b) ∈ X ∧ p_blk (Info.b_id b) ∈ X ∧
  p_blk (Info.b_icon_name b) ∈ X ∧ p_blk (Info.b_icon_path b) ∈ X ∧ p_blk (Info.b_pkg_type b) ∈ X.

Lemma modifies_get_pkg_info_body X Conn b params :
  buffers_in b X → modifies X (Info.get_pkg_info_body Conn b params).
Proof.
  intros (? & ? & ? & ? & ? & ?). unfold Info.get_pkg_info_body, Info.recv_pkg_info. footprint.
  - apply mem_modifies_append_string. set_solver.
  - apply mem_modifies_append_string. set_solver.
  - apply modifies_get_file. set_solver.
Qed.

Lemma modifies_get_pkg_info Conn params : modifies ∅ (Info.get_pkg_info Conn params).
Proof.
  unfold Info.get_pkg_info, Info.with_info_buffers. footprint.
  apply modifies_get_pkg_info_body. unfold buffers_in. simpl. set_solver.
Qed.
End info_footprints.

(** ** What is kept of the world

    A relation between the world before and after that every system call of a
    computation respects is respected by the computation. *)

Section keeps.
Context {W : Type} `{Posix W} (R : relation W) `{!PreOrder R}.

Definition keeps {A} (prog : M (cmem * W) A) : Prop :=
  ∀ s a s', prog s = Ok (a, s') → R s.2 s'.2.

Lemma keeps_ret {A} (a : A) : keeps (mret a).
Proof. intros s a' s' E. rewrite ret_ok in E. by simplify_eq. Qed.

Lemma keeps_bind {A B} (p : M (cmem * W) A) (f : A → M (cmem * W) B) :
  keeps p → (∀ a, keeps (f a)) → keeps (p ≫= f).
Proof.
  intros Hp Hf s b s' E. apply bind_inv in E as (a & s1 & E1 & E2).
  etransitivity; [by eapply Hp|by eapply Hf].
Qed.

Lemma keeps_mem {A} (prog : M cmem A) : keeps (Info.mem_op prog).
Proof.
  intros [m w] a [m' w'] E. unfold Info.mem_op in E.
  apply on_fst_inv in E as (? & ? & _ & ?). by simplify_eq.
Qed.

Lemma keeps_sys {A} (f : W → A * W) : (∀ w a w', f w = (a, w') → R w w') → keeps (Info.sys_op f).
Proof.
  intros Hf [m w] a [m' w'] E. unfold Info.sys_op, on_snd in E.
  destruct (f w) eqn:?. simplify_eq. by eapply Hf.
Qed.

Lemma keeps_fuel {A} : keeps (A := A) out_of_fuel.
Proof. by intros s a s' E. Qed.

Lemma keeps_if {A} (P : Prop) `{Decision P} (p q : M (cmem * W) A) :
  keeps p → keeps q → keeps (if decide P then p else q).
Proof. by destruct (decide P). Qed.

Lemma keeps_array {A} init (body : ptr → M (cmem * W) A) :
  (∀ p, keeps (body p)) → keeps (Info.with_array init body).
Proof.
  intros Hb. unfold Info.with_array. apply keeps_bind; [apply keeps_mem|]. intros p.
  apply keeps_bind; [done|]. intros a. apply keeps_bind; [apply keeps_mem|]. intros _. apply keeps_ret.
Qed.

Hypothesis Hread : ∀ fd n w r w', sys_read fd n w = (r, w') → R w w'.

Lemma keeps_read fd p n : keeps (Info.read fd p n).
Proof.
  unfold Info.read. apply keeps_bind; [apply keeps_sys; by eauto|]. intros [r bs].
  apply keeps_bind; [apply keeps_mem|]. intros _. apply keeps_ret.
Qed.

Lemma keeps_get_uint32 sock : keeps (Info.get_uint32 sock).
Proof.
  apply keeps_array. intros p. apply keeps_bind; [apply keeps_read|]. intros _.
  apply keeps_bind; [apply keeps_mem|]. intros. apply keeps_ret.
Qed.

Lemma keeps_get_uint64 sock : keeps (Info.get_uint64 sock).
Proof.
  apply keeps_array. intros p. apply keeps_bind; [apply keeps_read|]. intros _.
  apply keeps_bind; [apply keeps_mem|]. intros. apply keeps_ret.
Qed.

Lemma keeps_get_string sock p n : keeps (Info.get_string sock p n).
Proof.
  apply keeps_bind; [apply keeps_get_uint32|]. intros len.
  apply keeps_bind; [apply keeps_mem|]. intros _. apply keeps_if; [apply keeps_ret|].
  apply keeps_bind; [apply keeps_read|]. intros _. apply keeps_ret.
Qed.

Hypothesis Hwrite : ∀ fd bs w r w', sys_write fd bs w = (r, w') → R w w'.

Lemma keeps_write_loop fuel fd p n : keeps (Info.write_loop fuel fd p n).
Proof.
  revert p n. induction fuel as [|fuel IH]; intros p n; [apply keeps_fuel|]. simpl.
  apply keeps_if; [|apply keeps_ret]. apply keeps_bind.
  - apply keeps_bind; [apply keeps_mem|]. intros bs. apply keeps_sys. by eauto.
  - intros r. apply keeps_if; [apply keeps_ret|apply IH].
Qed.

Lemma keeps_recv_loop fuel sock fd p sz n : keeps (Info.recv_loop fuel sock fd p sz n).
Proof.
  revert n. induction fuel as [|fuel IH]; intros n; [apply keeps_fuel|].
  cbn [Info.recv_loop]. apply keeps_bind; [apply keeps_read|]. intros r. apply keeps_if; [|apply keeps_ret].
  apply keeps_bind; [apply keeps_write_loop|]. intros [|]; [|apply keeps_ret].
  apply keeps_if; [apply keeps_ret|apply IH].
Qed.
End keeps.

(** Two worlds with the same files, or the same names of open files. *)
Section kept_files.
Context {W : Type} `{PosixFiles W}.

Definition same_files (w w' : W) : Prop := ∀ path, file_at w' path = file_at w path.
Definition same_names (w w' : W) : Prop := ∀ fd, names w' fd = names w fd.

#[export] Instance same_files_preorder : PreOrder same_files.
Proof. split; [done|]. intros w1 w2 w3 H12 H23 path. by rewrite H23. Qed.
#[export] Instance same_names_preorder : PreOrder same_names.
Proof. split; [done|]. intros w1 w2 w3 H12 H23 fd. by rewrite H23. Qed.

Lemma read_same_files fd n (w : W) r w' : sys_read fd n w = (r, w') → same_files w w'.
Proof. destruct r as [r bs]. intros E path. by eapply read_files. Qed.

Lemma recv_loop_names fuel sock fd p sz n m (w : W) a m' w' :
  Info.recv_loop fuel sock fd p sz n (m, w) = Ok (a, (m', w')) → same_names w w'.
Proof.
  intros E. refine (keeps_recv_loop same_names _ _ _ _ _ _ _ _ (m, w) a (m', w') E).
  - intros fd' n' v [r bs] v' Ev fd2. by eapply read_names.
  - intros fd' bs v r v' Ev fd2. by eapply write_names.
Qed.

(** Receiving a number or a string leaves the files alone. *)
Lemma get_uint32_files sock m (w : W) a m' w' :
  Info.get_uint32 sock (m, w) = Ok (a, (m', w')) → same_files w w'.
Proof. intros E. by apply (keeps_get_uint32 same_files read_same_files sock (m, w) a (m', w')). Qed.
Lemma get_uint64_files sock m (w : W) a m' w' :
  Info.get_uint64 sock (m, w) = Ok (a, (m', w')) → same_files w w'.
Proof. intros E. by apply (keeps_get_uint64 same_files read_same_files sock (m, w) a (m', w')). Qed.
Lemma get_string_files sock p n m (w : W) a m' w' :
  Info.get_string sock p n (m, w) = Ok (a, (m', w')) → same_files w w'.
Proof. intros E. by apply (keeps_get_string same_files read_same_files sock p n (m, w) a (m', w')). Qed.
End kept_files.

(** ** Reading integers and strings *)

Section steps.
Context {W : Type} `{Posix W}.

Lemma with_array_ok {A} init (body : ptr → M (cmem * W) A) m w a m' w' :
  body (Ptr (c_next m) 0) (push m init, w) = Ok (a, (m', w')) →
  Info.with_array init body (m, w) = Ok (a, (pop (c_next m) m', w')).
Proof.
  intros E. unfold Info.with_array. erewrite bind_ok by (by apply on_fst_ok).
  erewrite bind_ok by exact E. by erewrite bind_ok by (by apply on_fst_ok).
Qed.

Lemma with_array_undef {A} init (body : ptr → M (cmem * W) A) m w u :
  body (Ptr (c_next m) 0) (push m init, w) = Undef u →
  Info.with_array init body (m, w) = Undef u.
Proof.
  intros E. unfold Info.with_array. erewrite bind_ok by (by apply on_fst_ok).
  by erewrite bind_undef by exact E.
Qed.

Lemma mem_op_ok {A} (p : M cmem A) m (w : W) a m' :
  p m = Ok (a, m') → Info.mem_op p (m, w) = Ok (a, (m', w)).
Proof. apply on_fst_ok. Qed.
Lemma mem_op_undef {A} (p : M cmem A) m (w : W) u :
  p m = Undef u → Info.mem_op p (m, w) = Undef u.
Proof. unfold Info.mem_op, on_fst. by intros ->. Qed.

Lemma sys_op_ok {A} (f : W → A * W) (m : cmem) w a w' :
  f w = (a, w') → Info.sys_op f (m, w) = Ok (a, (m, w')).
Proof. unfold Info.sys_op, on_snd. by intros ->. Qed.

Lemma read_ok fd b d (o : nat) n m w r bs w' :
  c_objs m !! b = Some d → (o + length bs ≤ length d)%nat → sys_read fd n w = (r, bs, w') →
  Info.read fd (Ptr b (Z.of_nat o)) n (m, w) =
    Ok (r, (set_obj m b (list_inserts o (Byte <$> bs) d), w')).
Proof.
  intros Hobj Hlen E. unfold Info.read. erewrite bind_ok by (by apply sys_op_ok).
  simpl. erewrite bind_ok; [done|]. apply mem_op_ok.
  rewrite (store_list_ok _ _ _ d) by (done || lia). by rewrite Nat2Z.id.
Qed.

Lemma read_overrun fd b d (o : nat) n m w r bs w' :
  c_objs m !! b = Some d → (o ≤ length d)%nat → (length d < o + length bs)%nat →
  sys_read fd n w = (r, bs, w') →
  Info.read fd (Ptr b (Z.of_nat o)) n (m, w) = Undef OutOfBounds.
Proof.
  intros Hobj Ho Hlen E. unfold Info.read. erewrite bind_ok by (by apply sys_op_ok).
  simpl. apply bind_undef, mem_op_undef. eapply store_list_oob; [done|lia|lia].
Qed.

(** The common body of [get_uint32] and [get_uint64]. *)
Definition get_uint (n : nat) (sock : Z) : M (cmem * W) Z :=
  Info.with_array (uninit n) (λ word,
    _ ← Info.read sock word (Z.of_nat n);
    bs ← Info.mem_op (load_list word n);
    mret (le_word bs)).

Lemma pop_push_set m init d :
  cmem_wf m → pop (c_next m) (set_obj (push m init) (c_next m) d) = tick m.
Proof.
  intros (_ & _ & Hf). unfold pop, set_obj, push. simpl. f_equal.
  rewrite insert_insert_eq, delete_insert_id; [done|]. apply Hf. lia.
Qed.

Lemma get_uint_full n sock m w r bs w' :
  cmem_wf m → sys_read sock (Z.of_nat n) w = (r, bs, w') → length bs = n →
  get_uint n sock (m, w) = Ok (le_word bs, (tick m, w')).
Proof.
  intros Hwf E Hlen. unfold get_uint.
  rewrite <-(pop_push_set m (uninit n) (list_inserts 0 (Byte <$> bs) (uninit n))) by done.
  apply with_array_ok. unfold uninit.
  erewrite bind_ok; [|apply (read_ok _ _ (uninit n) 0); [apply lookup_insert_eq| |done]].
  - simpl. erewrite bind_ok; [done|]. apply mem_op_ok. rewrite <-Hlen at 1.
    eapply load_list_ok; [apply set_obj_lookup|lia|]. intros i x Hi.
    apply (list_inserts_lookup_in _ _ 0);
      [by rewrite list_lookup_fmap, Hi|].
    unfold uninit. rewrite length_fmap, length_replicate. lia.
  - unfold uninit. rewrite length_replicate. lia.
Qed.

Lemma get_uint_short n sock m w r bs w' :
  sys_read sock (Z.of_nat n) w = (r, bs, w') → (length bs < n)%nat →
  get_uint n sock (m, w) = Undef Uninitialised.
Proof.
  intros E Hlen. unfold get_uint. apply with_array_undef.
  erewrite bind_ok; [|apply (read_ok _ _ (uninit n) 0); [apply lookup_insert_eq| |done]].
  - simpl. apply bind_undef, mem_op_undef.
    apply (load_list_junk _ _ _ _ 0 (length bs) (set_obj_lookup _ _ _)); [done|..].
    + rewrite list_inserts_lookup_out by (rewrite length_fmap; lia).
      by apply lookup_replicate_2.
    + intros i Hi. destruct (lookup_lt_is_Some_2 bs i Hi) as [z Hz]. exists z.
      apply list_inserts_lookup_in; [by rewrite list_lookup_fmap, Hz|].
      unfold uninit. rewrite length_fmap, length_replicate. lia.
  - unfold uninit. rewrite length_replicate. lia.
Qed.

Lemma tick_wf m : cmem_wf m → cmem_wf (tick m).
Proof. intros (? & ? & Hf). split_and!; simpl; [lia|done|]. intros. apply Hf. lia. Qed.

Section get_string.
Context (sock MAX_SIZE n : Z) (m : cmem) (b : N) (d : list mbyte) (w w1 : W).
Hypotheses (Hobj : c_objs m !! b = Some d) (Hd : (0 < length d)%nat).
Hypothesis Hlen : Info.get_uint32 sock (m, w) = Ok (n, (tick m, w1)).

Lemma get_string_too_long :
  u32 MAX_SIZE < n →
  Info.get_string sock (Ptr b 0) MAX_SIZE (m, w) =
    Ok (-1, (set_obj (tick m) b (<[0%nat := Byte 0]> d), w1)).
Proof.
  intros Hn. unfold Info.get_string. rewrite (bind_ok _ _ _ _ _ Hlen).
  erewrite bind_ok; [|apply mem_op_ok; apply (store_ok (tick m) b d Hobj 0); lia].
  by rewrite decide_True by lia.
Qed.

Lemma get_string_reads r bs w2 :
  n ≤ u32 MAX_SIZE → sys_read sock n w1 = (r, bs, w2) → (length bs ≤ length d)%nat →
  Info.get_string sock (Ptr b 0) MAX_SIZE (m, w) =
    Ok (0, (set_obj (tick m) b (list_inserts 0 (Byte <$> bs) (<[0%nat := Byte 0]> d)), w2)).
Proof.
  intros Hn Hread Hbs. unfold Info.get_string. rewrite (bind_ok _ _ _ _ _ Hlen).
  erewrite bind_ok; [|apply mem_op_ok; apply (store_ok (tick m) b d Hobj 0); lia].
  rewrite decide_False by lia.
  erewrite bind_ok;
    [|apply (read_ok _ _ (<[0%nat := Byte 0]> d) 0); [apply set_obj_lookup| |done]].
  - simpl. by rewrite set_obj_twice.
  - rewrite length_insert. lia.
Qed.
End get_string.
End steps.

(** ** The loops of [get_file] *)

Section loops.
Context {W : Type} `{!Posix W, !PosixBounds W, !PosixStreams W}.

Lemma write_loop_spec fuel hFile b d (o : nat) bs m w :
  c_objs m !! b = Some d →
  (∀ i x, bs !! i = Some x → d !! (o + i)%nat = Some (Byte x)) →
  (length bs < fuel)%nat →
  ∃ fin k w', Info.write_loop fuel hFile (Ptr b (Z.of_nat o)) (Z.of_nat (length bs)) (m, w) =
      Ok (fin, (m, w')) ∧
    (accepting w hFile → fin = true ∧ accepting w' hFile) ∧
    (k ≤ length bs)%nat ∧ (fin = true → k = length bs) ∧
    stored w' hFile = stored w hFile ++ take k bs ∧
    (∀ fd, incoming w' fd = incoming w fd).
Proof.
  intros Hobj. revert o bs w. induction fuel as [|fuel IH]; intros o bs w Hbs Hf; [lia|]. simpl.
  case_decide as Hpos.
  2:{ exists true, 0%nat, w. split_and!; [done|done|lia|lia| |done]. by rewrite app_nil_r. }
  unfold Info.write at 1. rewrite Nat2Z.id, bind_assoc.
  erewrite bind_ok;
    [|apply mem_op_ok; eapply load_list_ok; [done|lia|intros i x; rewrite Nat2Z.id; apply Hbs]].
  destruct (sys_write hFile bs w) as [r w1] eqn:Hw.
  erewrite bind_ok by (by apply sys_op_ok).
  pose proof (sys_write_bounds _ _ _ _ _ Hw) as Hr.
  pose proof (write_appends _ _ _ _ _ Hw) as Hst.
  assert (Hacc : accepting w hFile → 0 < r ∧ accepting w1 hFile).
  { intros Ha. apply (write_accepting _ _ _ _ _ Hw Ha). intros ->. simpl in *. lia. }
  case_decide as Hr0.
  { exists false, (Z.to_nat r), w1. split_and!; [done| |lia|done|done|].
    - intros []%Hacc. lia.
    - by eauto using write_incoming. }
  destruct (IH (o + Z.to_nat r)%nat (drop (Z.to_nat r) bs) w1)
    as (fin & k & w2 & E & Hacc2 & Hk & Hfin & Hst2 & Hin2).
  { intros i x Hi. rewrite lookup_drop in Hi. rewrite <-Nat.add_assoc. by apply Hbs. }
  { rewrite length_drop. lia. }
  exists fin, (Z.to_nat r + k)%nat, w2. rewrite length_drop in *. split_and!.
  - rewrite ptr_add_Ptr, <-E. f_equal; [f_equal|]; lia.
  - intros []%Hacc. auto.
  - lia.
  - intros Ht%Hfin. lia.
  - rewrite Hst2, Hst, <-app_assoc. by rewrite take_take_drop.
  - intros fd. rewrite Hin2. by eapply write_incoming.
Qed.

(** What [recv_loop] may have done after it ended with [fin]: [k] bytes of the
    [len] announced ones were stored, all of them when it ended normally. *)
Definition received (sock hFile : Z) (len : nat) (w w' : W) (fin : bool) (k : nat) : Prop :=
  (k ≤ len)%nat ∧
  stored w' hFile = stored w hFile ++ take k (incoming w sock) ∧
  (fin = true → k = len ∧ incoming w' sock = drop len (incoming w sock)).

Lemma received_step sock hFile len r bs w w1 w2 w' fin k :
  (r = length bs)%nat → (r ≤ len)%nat →
  incoming w sock = bs ++ incoming w1 sock → incoming w2 sock = incoming w1 sock →
  stored w2 hFile = stored w hFile ++ bs →
  received sock hFile (len - r) w2 w' fin k → received sock hFile len w w' fin (r + k).
Proof.
  intros -> Hr Hin Hin2 Hst (Hk & Hst' & Hfin). split_and!; [lia|..].
  - rewrite Hst', Hst, Hin2, Hin, <-app_assoc. f_equal.
    rewrite take_app, (take_ge bs) by lia. by replace (length bs + k - length bs)%nat with k by lia.
  - intros Ht. destruct (Hfin Ht) as [-> Hin']. split; [lia|].
    rewrite Hin', Hin2, Hin, drop_app, (drop_ge bs) by lia. done.
Qed.

Lemma recv_loop_spec fuel sock hFile b d (len : nat) m w :
  c_objs m !! b = Some d → length d = 4096%nat →
  (0 < len)%nat → Z.of_nat len < 2 ^ 31 → (len < fuel)%nat →
  (len ≤ length (incoming w sock))%nat →
  ∃ fin k d' w',
    Info.recv_loop fuel sock hFile (Ptr b 0) 4096 (Z.of_nat len) (m, w) =
      Ok (fin, (set_obj m b d', w')) ∧
    length d' = 4096%nat ∧ received sock hFile len w w' fin k ∧
    (accepting w hFile → fin = true).
Proof.
  revert len d m w. induction fuel as [|fuel IH]; intros len d m w Hobj Hd Hpos Hmax Hf Hin; [lia|].
  simpl Info.recv_loop. set (ask := u64 _).
  assert (Hask : ask = Z.min (Z.of_nat len) 4096).
  { unfold ask. case_decide; rewrite u64_id by (unfold is_u64; lia); lia. }
  destruct (sys_read sock ask w) as [[r bs] w1] eqn:Hr.
  destruct (read_takes _ _ _ _ _ _ Hr) as (Hr0 & Hrb & Hrn & Hin1);
    [lia|by intros E; rewrite E in Hin; simpl in Hin; lia|].
  erewrite bind_ok; [|apply (read_ok _ _ d 0); [done| |exact Hr]; lia].
  rewrite decide_True, i32_id by (unfold is_i32; lia).
  set (d1 := list_inserts 0 _ d). set (m1 := set_obj m b d1).
  assert (Hd1 : length d1 = 4096%nat) by (unfold d1; by rewrite length_inserts).
  destruct (write_loop_spec (S (Z.to_nat r)) hFile b d1 0 bs m1 w1)
    as (fin & k & w2 & E & Hacc & Hk & Hfin & Hst & Hin2); [apply set_obj_lookup| |lia|].
  { intros i x Hi. apply list_inserts_lookup_in; [by rewrite list_lookup_fmap, Hi|].
    rewrite length_fmap. lia. }
  rewrite <-Hrb in E. erewrite bind_ok by exact E. clear E.
  rewrite (read_stored _ _ _ _ _ _ _ Hr) in Hst.
  pose proof (λ Ha, Hacc (read_accepting _ _ _ _ _ _ _ Hr Ha)) as Hacc'. clear Hacc.
  destruct fin.
  2:{ exists false, k, d1, w2. split; [done|]. split; [done|]. split; [|naive_solver].
    split_and!; [lia| |done]. rewrite Hst, Hin1. f_equal. by rewrite take_app_le by lia. }
  rewrite Hfin, take_ge in Hst by done. case_decide as Hend.
  - exists true, len, d1, w2. split; [done|]. split; [done|]. split; [|done].
    replace len with (length bs + 0)%nat at 2 by lia.
    eapply received_step; [done|lia|done|by rewrite Hin2|done|].
    replace (len - length bs)%nat with 0%nat by lia.
    split_and!; [done|by rewrite take_0, app_nil_r|done].
  - destruct (IH (len - length bs)%nat d1 m1 w2) as (fin & k2 & d2 & w3 & E & Hd2 & Hrec & Hfin2);
      [apply set_obj_lookup|done|lia..| |].
    { rewrite Hin2. rewrite Hin1, length_app in Hin. lia. }
    exists fin, (length bs + k2)%nat, d2, w3. split_and!; [|done| |naive_solver].
    + replace (Z.of_nat len - r) with (Z.of_nat (len - length bs)) by lia.
      rewrite E. unfold m1. by rewrite set_obj_twice.
    + eapply received_step; [done|lia|done|by rewrite Hin2|done|done].
Qed.
End loops.

(** ** [get_file] *)

Section get_file.
Context {W : Type} `{!Posix W, !PosixBounds W, !PosixStreams W}.

Lemma load_cstring_ok m b d (o : nat) s :
  c_objs m !! b = Some d → has_str d o s →
  Info.load_cstring (Ptr b (Z.of_nat o)) m = Ok (s, m).
Proof.
  intros Hobj Hs. unfold Info.load_cstring. rewrite (bind_ok _ _ _ _ _ (strlen_ok m b d o s Hobj Hs)).
  rewrite Nat2Z.id. eapply load_list_ok; [done|lia|]. intros i x Hi. rewrite Nat2Z.id.
  by eapply has_str_char.
Qed.

Lemma open_ok m b d (o : nat) s flags mode (w : W) fd w' :
  c_objs m !! b = Some d → has_str d o s → sys_open s flags mode w = (fd, w') →
  Info.open (Ptr b (Z.of_nat o)) flags mode (m, w) = Ok (fd, (m, w')).
Proof.
  intros Hobj Hs E. unfold Info.open.
  erewrite bind_ok by (apply mem_op_ok; by eapply load_cstring_ok). by apply sys_op_ok.
Qed.

Definition open_flags : Z := Z.lor (Z.lor O_WRONLY O_CREAT) O_TRUNC.

(** What is left of [get_file] once the output file is open. *)
Definition receive (sock hFile len : Z) : M (cmem * W) Z :=
  Info.with_array (uninit 4096) (λ buffer,
    finished ← Info.recv_loop (S (Z.to_nat (u32 len))) sock hFile buffer 4096 len;
    if finished : bool then
      _ ← Info.close hFile;
      mret 1
    else mret 1).

Section run.
Context (sock hFile : Z) (m : cmem) (bp bn : N) (dp dn : list mbyte) (f : list Z).
Context (w w1 w2 : W) (lb : list Z).
Hypotheses (Hwf : cmem_wf m) (Hp : c_objs m !! bp = Some dp) (Hn : c_objs m !! bn = Some dn).
Hypotheses (Hne : bn ≠ bp) (Hf : has_str dn 0 f) (Hfb : bytes_ok f).
Hypotheses (Hr : has_str dp 15 []) (Hr' : has_str dp (15 + length f) []).
Hypothesis Hread : sys_read sock 4 w = (4, lb, w1).
Hypothesis Hlb : length lb = 4%nat.
Hypothesis Hopen : sys_open (InfoStrings.tmp_dir ++ f) open_flags 0x1FF w1 = (hFile, w2).

(** The path buffer and the memory when the file has been opened. *)
Definition opened_path : list mbyte := path_with_name (<[0%nat := Byte 0]> dp) 0 [] f.
Definition opened_mem : cmem := CMem (<[bp := opened_path]> (c_objs m)) (c_next m + 2).

Lemma opened_path_str :
  length opened_path = length dp ∧ has_str opened_path 0 (InfoStrings.tmp_dir ++ f).
Proof.
  unfold opened_path. split; [by rewrite path_with_name_length, length_insert|].
  pose proof (path_with_name_str (<[0%nat := Byte 0]> dp) 0 [] f []) as E.
  rewrite app_nil_r in E. apply E; [|apply Hf|];
    (apply (has_str_inserts_after dp 0 [Byte 0]); [simpl; lia|done]).
Qed.

Lemma opened_mem_wf : cmem_wf opened_mem.
Proof.
  unfold opened_mem. replace (c_next m + 2)%N with (c_next (tick m) + 1)%N by (simpl; lia).
  apply (set_obj_tick_wf (tick m)); [by apply tick_wf|by eexists].
Qed.

Lemma get_file_opens :
  i32 (le_word lb) ≠ 0 →
  Info.get_file sock (Ptr bp 0) (Ptr bn 0) (m, w) =
    receive sock hFile (i32 (le_word lb)) (opened_mem, w2).
Proof.
  intros Hlen. pose proof (has_str_length _ _ _ Hr') as Hl. simpl in Hl.
  set (d0 := <[0%nat := Byte 0]> dp). set (m0 := tick (set_obj m bp d0)).
  assert (Hwf0 : cmem_wf m0) by (by apply tick_wf, set_obj_wf).
  unfold Info.get_file. rewrite ptr_add_0.
  erewrite bind_ok; [|apply mem_op_ok, (store_ok m bp dp Hp 0); lia]. fold d0.
  rewrite (bind_ok _ _ _ _ _ (get_uint_full 4 sock (set_obj m bp d0) w _ _ _
    ltac:(by apply set_obj_wf) Hread Hlb)). fold m0.
  rewrite decide_False by done.
  erewrite bind_ok; [|apply mem_op_ok, (get_file_path_run m0 bp bn d0 dn 0 0 f []); [done|
    apply set_obj_lookup|by simpl; rewrite lookup_insert_ne|done..| |
    unfold d0; rewrite length_insert; simpl; lia]].
  2:{ apply (has_str_inserts_after dp 0 [Byte 0]); [simpl; lia|done]. }
  replace (CMem _ (c_next m0 + 1)) with opened_mem.
  2:{ unfold opened_mem, m0, tick, set_obj. simpl. rewrite insert_insert_eq. f_equal. lia. }
  erewrite bind_ok; [done|]. apply (open_ok opened_mem bp opened_path 0 (InfoStrings.tmp_dir ++ f));
    [apply lookup_insert_eq|apply opened_path_str|done].
Qed.

Section transfer.
Context (len : nat).
Hypotheses (Hlen : le_word lb = Z.of_nat len) (Hpos : (0 < len)%nat) (Hmax : Z.of_nat len < 2 ^ 31).
Hypothesis Hin : (len ≤ length (incoming w1 sock))%nat.

Lemma get_file_run :
  ∃ fin k w3 w',
    Info.get_file sock (Ptr bp 0) (Ptr bn 0) (m, w) = Ok (1, (tick opened_mem, w')) ∧
    received sock hFile len w2 w3 fin k ∧ (accepting w2 hFile → fin = true) ∧
    (∀ fd, stored w' fd = stored w3 fd) ∧
    (∃ fuel p sz m1 m2,
      Info.recv_loop fuel sock hFile p sz (Z.of_nat len) (m1, w2) = Ok (fin, (m2, w3))) ∧
    (w' = w3 ∨ ∃ rc, sys_close hFile w3 = (rc, w')).
Proof.
  destruct (recv_loop_spec (S (Z.to_nat (u32 (Z.of_nat len)))) sock hFile (c_next opened_mem)
    (uninit 4096) len (push opened_mem (uninit 4096)) w2) as (fin & k & d' & w3 & E & Hd' & Hrec & Hacc);
    [apply lookup_insert_eq|apply length_replicate|done|done| |
     by rewrite (open_incoming _ _ _ _ _ _ _ Hopen)|].
  { rewrite u32_id by (unfold is_u32; lia). lia. }
  destruct (sys_close hFile w3) as [rc w4] eqn:Hclose.
  exists fin, k, w3, (if fin then w4 else w3).
  split; [|split_and!; [done..|by destruct fin; [intros fd; eapply close_stored|]|by eauto 10|
    destruct fin; [right; by exists rc|by left]]].
  rewrite get_file_opens; rewrite Hlen, i32_id by (unfold is_i32; lia); [|lia].
  rewrite <-(pop_push_set opened_mem (uninit 4096) d' opened_mem_wf).
  apply with_array_ok. erewrite bind_ok by exact E. destruct fin; [|done].
  by erewrite bind_ok by (by apply sys_op_ok).
Qed.
End transfer.

(** A length with the top bit set is a negative [int]: the first read is
    asked for almost 2^64 bytes into a buffer of 4096. *)
Lemma get_file_overruns r bs w3 :
  2 ^ 31 ≤ le_word lb < 2 ^ 32 → sys_read sock (u64 (i32 (le_word lb))) w2 = (r, bs, w3) →
  (4096 < length bs)%nat →
  Info.get_file sock (Ptr bp 0) (Ptr bn 0) (m, w) = Undef OutOfBounds.
Proof.
  intros Hneg Hbig Hbs. assert (i32 (le_word lb) < 0) by (rewrite i32_neg; lia).
  rewrite get_file_opens by lia. apply with_array_undef, bind_undef.
  simpl Info.recv_loop. rewrite decide_True by lia.
  apply bind_undef. eapply (read_overrun sock _ (uninit 4096) 0);
    [apply lookup_insert_eq|lia| |exact Hbig].
  unfold uninit. rewrite length_replicate. lia.
Qed.
End run.
End get_file.

(** ** [get_pkg_info] *)

Section pkg_info.
Context {W : Type} `{!Posix W}.

Lemma with_array_inv {A} init (body : ptr → M (cmem * W) A) m w a m' w' :
  Info.with_array init body (m, w) = Ok (a, (m', w')) →
  ∃ m1, body (Ptr (c_next m) 0) (push m init, w) = Ok (a, (m1, w')) ∧ m' = pop (c_next m) m1.
Proof.
  intros E. unfold Info.with_array in E. apply bind_inv in E as (p & [m0 w0] & E0 & E).
  unfold Info.mem_op, on_fst, alloc in E0. injection E0 as <- <- <-.
  apply bind_inv in E as (a1 & [m1 w1] & E1 & E). apply bind_inv in E as (? & [m2 w2] & E2 & E).
  unfold Info.mem_op, on_fst, free in E2. injection E2 as <- <- <-. rewrite ret_ok in E.
  injection E as <- <- <-. by exists m1.
Qed.

(** The arrays of [get_pkg_info] and the memory in which its body runs. *)
Definition info_bufs (m : cmem) : Info.info_buffers :=
  Info.InfoBuffers (Ptr (c_next m) 0) (Ptr (c_next m + 1) 0) (Ptr (c_next m + 1 + 1) 0)
    (Ptr (c_next m + 1 + 1 + 1) 0) (Ptr (c_next m + 1 + 1 + 1 + 1) 0)
    (Ptr (c_next m + 1 + 1 + 1 + 1 + 1) 0).

Definition info_mem (m : cmem) : cmem :=
  push (push (push (push (push (push m (zeros 0x800)) (zeros 0x259)) (zeros 0x30)) (zeros 100))
    (zeros 0x800)) (zeros 0x10).

(** Each array is there, cleared. *)
Lemma info_mem_objs m :
  c_objs (info_mem m) !! c_next m = Some (zeros 0x800) ∧
  c_objs (info_mem m) !! (c_next m + 1)%N = Some (zeros 0x259) ∧
  c_objs (info_mem m) !! (c_next m + 1 + 1)%N = Some (zeros 0x30) ∧
  c_objs (info_mem m) !! (c_next m + 1 + 1 + 1)%N = Some (zeros 100) ∧
  c_objs (info_mem m) !! (c_next m + 1 + 1 + 1 + 1)%N = Some (zeros 0x800) ∧
  c_objs (info_mem m) !! (c_next m + 1 + 1 + 1 + 1 + 1)%N = Some (zeros 0x10).
Proof.
  unfold info_mem, push. cbn [c_objs c_next].
  split_and!; repeat first [by apply lookup_insert_eq | rewrite lookup_insert_ne by lia].
Qed.

Definition info_pop (m m' : cmem) : cmem :=
  pop (c_next m) (pop (c_next m + 1) (pop (c_next m + 1 + 1) (pop (c_next m + 1 + 1 + 1)
    (pop (c_next m + 1 + 1 + 1 + 1) (pop (c_next m + 1 + 1 + 1 + 1 + 1) m'))))).

Lemma with_info_buffers_ok {A} (body : Info.info_buffers → M (cmem * W) A) m w a m' w' :
  body (info_bufs m) (info_mem m, w) = Ok (a, (m', w')) →
  Info.with_info_buffers body (m, w) = Ok (a, (info_pop m m', w')).
Proof.
  intros E. unfold Info.with_info_buffers. do 6 apply with_array_ok. exact E.
Qed.

Lemma with_info_buffers_undef {A} (body : Info.info_buffers → M (cmem * W) A) m w u :
  body (info_bufs m) (info_mem m, w) = Undef u →
  Info.with_info_buffers body (m, w) = Undef u.
Proof.
  intros E. unfold Info.with_info_buffers. do 6 apply with_array_undef. exact E.
Qed.

Lemma with_info_buffers_inv {A} (body : Info.info_buffers → M (cmem * W) A) m w a m' w' :
  Info.with_info_buffers body (m, w) = Ok (a, (m', w')) →
  ∃ m1, body (info_bufs m) (info_mem m, w) = Ok (a, (m1, w')) ∧ m' = info_pop m m1.
Proof.
  intros E. unfold Info.with_info_buffers in E.
  do 6 (apply with_array_inv in E as (? & E & ->)). eexists. split; [exact E|done].
Qed.

Lemma info_mem_wf m : cmem_wf m → cmem_wf (info_mem m).
Proof. intros. unfold info_mem. by repeat apply alloc_wf. Qed.

(** The arrays are gone once [get_pkg_info] has returned. *)
Lemma info_pop_dead m m' p :
  p ∈ [Info.b_url (info_bufs m); Info.b_name (info_bufs m); Info.b_id (info_bufs m);
       Info.b_icon_name (info_bufs m); Info.b_icon_path (info_bufs m);
       Info.b_pkg_type (info_bufs m)] → ¬ live (info_pop m m') p.
Proof.
  intros Hp [d Hd]. unfold info_pop, pop in Hd. cbn [c_objs c_next] in Hd.
  rewrite !lookup_delete in Hd. repeat case_decide; try done.
  rewrite !elem_of_cons, elem_of_nil in Hp. simpl in Hp. naive_solver.
Qed.

(** What the body of [get_pkg_info] makes of the caller's structure. *)
Definition points_into (b : Info.info_buffers) (params : bgft_download_param) : Prop :=
  id params = Info.b_id b ∧ content_url params = Info.b_url b ∧
  content_name params = Info.b_name b ∧ icon_path params = Info.b_icon_path b ∧
  package_type params = Info.b_pkg_type b.

Lemma get_pkg_info_body_result Conn b params s r params' s' :
  Info.get_pkg_info_body Conn b params s = Ok ((r, params'), s') →
  (r = -1 ∨ r = 1) ∧ params' = params ∨ r = 0 ∧ points_into b params'.
Proof.
  unfold Info.get_pkg_info_body, Info.recv_pkg_info, points_into. intros E.
  repeat lazymatch type of E with
  | mbind _ _ _ = _ => apply bind_inv in E as (? & ? & _ & E)
  | (if _ then _ else _) _ = _ => case_decide
  | mret _ _ = _ => rewrite ret_ok in E; injection E; intros; subst; clear E; auto
  end.
  match type of E with Info.with_array _ _ ?st = _ => destruct st end. destruct s' as [m' w'].
  apply with_array_inv in E as (? & E & ?). simpl in *.
  do 5 (apply bind_inv in E as (? & ? & _ & E)). injection E as <- <- _.
  right. simpl. auto 10.
Qed.
End pkg_info.
