(* ===== verification/PayloadInfoSpec.v ===== *)
(** * Properties of src/Payload/info.c

    What each reader of the payload guarantees for every kernel obeying the
    laws of [Posix], and where it does not. *)

From S2P Require Import Prelude CMem Posix PayloadStrings PayloadInfo PayloadInfoFacts.

(** ** Integers *)

(** [get_uint32] is the little-endian value of the next four bytes when
    one [read] delivers them all, and otherwise uses an indeterminate value:
    short reads are not retried. These are its only two outcomes; it leaves
    the program's objects as they were. *)
Theorem get_uint32_decodes {W} `{!Posix W, !PosixBounds W} (sock : Z) (m : cmem) (w w' : W)
    (r : Z) (bs : list Z) (Hwf : cmem_wf m) (Hread : sys_read sock 4 w = (r, bs, w')) :
  Info.get_uint32 sock (m, w) =
    if decide (length bs = 4%nat) then Ok (le_word bs, (tick m, w')) else Undef Uninitialised.
Proof.
  destruct (sys_read_bounds _ _ _ _ _ _ Hread) as [_ Hb]; [lia|]. case_decide as Hl.
  - by apply (get_uint_full 4 _ _ _ r).
  - eapply (get_uint_short 4); [done|].
    destruct Hb as [[_ ->]|[Hr Hle]]; [simpl; lia|]. lia.
Qed.

Lemma get_uint32_decodes_witness :
  let w := NetWorld.World true [[0x86; 0x00]; [0x99; 0x80]] [] [] [] [] in
  let w' := NetWorld.World true [[]; [0x99; 0x80]] [] [] [] [] in
  Info.get_uint32 3 (empty_cmem, w) =
    if decide (length [0x86; 0x00] = 4%nat) then Ok (le_word [0x86; 0x00], (tick empty_cmem, w'))
    else Undef Uninitialised.
Proof. intros w w'. by apply (get_uint32_decodes 3 empty_cmem w w' 2 [0x86; 0x00]). Defined.

(** ** Strings *)

(** With a buffer of at least [MAX_SIZE] bytes, [get_string] is memory
    safe for every behaviour of the kernel: it returns 0 or -1, changes only
    its buffer, keeps the buffer's size, and on -1 leaves the empty string
    there. Its only other outcome is a length prefix that arrived short. *)
Theorem get_string_memory_safe {W} `{!Posix W, !PosixBounds W} (sock MAX_SIZE : Z) (m : cmem)
    (b : N) (d : list mbyte) (w : W) (Hwf : cmem_wf m) (Hobj : c_objs m !! b = Some d)
    (Hsize : (0 < length d)%nat ∧ u32 MAX_SIZE ≤ Z.of_nat (length d)) :
  Info.get_string sock (Ptr b 0) MAX_SIZE (m, w) = Undef Uninitialised ∨
  ∃ r m' w' d',
    Info.get_string sock (Ptr b 0) MAX_SIZE (m, w) = Ok (r, (m', w')) ∧
    (r = 0 ∨ r = -1 ∧ has_str d' 0 []) ∧
    frame {[b]} m m' ∧ c_objs m' !! b = Some d' ∧ length d' = length d.
Proof.
  destruct Hsize as [Hd Hmax]. destruct (sys_read sock 4 w) as [[r0 lb] w1] eqn:Hr.
  destruct (sys_read_bounds _ _ _ _ _ _ Hr) as [Hlb Hb]; [lia|].
  destruct (decide (length lb = 4%nat)) as [Hl|Hl].
  2:{ left. unfold Info.get_string. apply bind_undef. eapply (get_uint_short 4); [done|].
      destruct Hb as [[_ ->]|[? ?]]; simpl; lia. }
  right. pose proof (get_uint_full 4 _ _ _ _ _ _ Hwf Hr Hl) as Hlen.
  destruct (decide (u32 MAX_SIZE < le_word lb)) as [Hn|Hn].
  - pose proof (get_string_too_long _ _ _ _ _ _ _ _ Hobj Hd Hlen Hn) as E.
    eexists _, _, _, (<[0%nat := Byte 0]> d). split; [exact E|]. split_and!.
    + right. split; [done|]. apply has_str_nul_here, list_lookup_insert_eq. lia.
    + eapply modifies_get_string, E; [simpl; set_solver|done].
    + apply set_obj_lookup.
    + apply length_insert.
  - destruct (sys_read sock (le_word lb) w1) as [[r2 bs] w2] eqn:Hr2.
    pose proof (le_word_range lb Hlb) as Hrange.
    destruct (sys_read_bounds _ _ _ _ _ _ Hr2) as [_ Hb2]; [lia|].
    assert (Hbs : (length bs ≤ length d)%nat). { destruct Hb2 as [[_ ->]|[? ?]]; [simpl; lia|]. lia. }
    pose proof (get_string_reads _ _ _ _ _ _ _ _ Hobj Hd Hlen r2 bs w2
      ltac:(by apply Z.nlt_ge) Hr2 Hbs) as E.
    do 4 eexists. split; [exact E|]. split_and!.
    + by left.
    + eapply modifies_get_string, E; [simpl; set_solver|done].
    + apply set_obj_lookup.
    + by rewrite length_inserts, length_insert.
Qed.

Definition one_buffer (n : nat) : cmem := CMem {[ 1%N := zeros n ]} 2.

Lemma one_buffer_wf n : cmem_wf (one_buffer n).
Proof.
  unfold cmem_wf, one_buffer. simpl. split_and!; [lia|done|].
  intros b Hb. rewrite lookup_singleton_ne; [done|lia].
Qed.

Lemma get_string_memory_safe_witness :
  let w := NetWorld.World true [le_bytes 4 0x31 ++ replicate 0x31 65] [] [] [] [] in
  Info.get_string 3 (Ptr 1 0) 0x30 (one_buffer 0x30, w) = Undef Uninitialised ∨
  ∃ r m' w' d', Info.get_string 3 (Ptr 1 0) 0x30 (one_buffer 0x30, w) = Ok (r, (m', w')) ∧
    (r = 0 ∨ r = -1 ∧ has_str d' 0 []) ∧
    frame {[ 1%N ]} (one_buffer 0x30) m' ∧ c_objs m' !! 1%N = Some d' ∧
    length d' = length (zeros 0x30).
Proof.
  intros w. apply (get_string_memory_safe 3 0x30 (one_buffer 0x30) 1 (zeros 0x30) w).
  - apply one_buffer_wf.
  - reflexivity.
  - vm_compute. split; [lia|discriminate].
Defined.

(** [get_string] accepts a string that exactly fills its buffer
    and stores no terminator. Scanning such a buffer, as [append_string] does
    with the package's identifier, leaves its bounds. *)
Theorem get_string_full_buffer_unterminated {W} `{!Posix W, !PosixBounds W} (sock : Z) (m : cmem)
    (b : N) (d : list mbyte) (w w1 w2 : W) (r0 r : Z) (lb bs : list Z) (Hwf : cmem_wf m)
    (Hobj : c_objs m !! b = Some d) (Hd : (0 < length d)%nat ∧ Z.of_nat (length d) < 2 ^ 32)
    (Hlen : sys_read sock 4 w = (r0, lb, w1) ∧ length lb = 4%nat ∧ le_word lb = Z.of_nat (length d))
    (Hdata : sys_read sock (Z.of_nat (length d)) w1 = (r, bs, w2) ∧ length bs = length d)
    (Hnz : Forall (λ z, z ≠ 0) bs) :
  ∃ m', Info.get_string sock (Ptr b 0) (Z.of_nat (length d)) (m, w) = Ok (0, (m', w2)) ∧
    InfoStrings.strlen (Ptr b 0) m' = Undef OutOfBounds.
Proof.
  destruct Hd as [Hd Hd'], Hlen as (Hr & Hl & Hn), Hdata as [Hr2 Hbs].
  pose proof (get_uint_full 4 _ _ _ _ _ _ Hwf Hr Hl) as Hlen. rewrite Hn in Hlen.
  eexists. split.
  - eapply get_string_reads; [done|done|exact Hlen| |done|lia].
    rewrite u32_id by (unfold is_u32; lia). lia.
  - apply (strlen_no_nul _ b _ 0 (set_obj_lookup _ _ _)); [lia|].
    rewrite length_inserts, length_insert. intros i [_ Hi].
    destruct (lookup_lt_is_Some_2 bs i) as [z Hz]; [lia|]. exists z.
    split; [|by eapply Forall_lookup_1 in Hnz].
    apply (list_inserts_lookup_in _ _ 0); [by rewrite list_lookup_fmap, Hz|].
    rewrite length_fmap, length_insert. lia.
Qed.

Lemma get_string_full_buffer_unterminated_witness :
  let w := NetWorld.World true [le_bytes 4 0x30 ++ replicate 0x30 65] [] [] [] [] in
  let w2 := NetWorld.World true [[]] [] [] [] [] in
  ∃ m', Info.get_string 3 (Ptr 1 0) (Z.of_nat (length (zeros 0x30))) (one_buffer 0x30, w) =
      Ok (0, (m', w2)) ∧
    InfoStrings.strlen (Ptr 1 0) m' = Undef OutOfBounds.
Proof.
  intros w w2.
  apply (get_string_full_buffer_unterminated 3 (one_buffer 0x30) 1 (zeros 0x30) w
    (NetWorld.World true [replicate 0x30 65] [] [] [] []) w2 4 0x30 (le_bytes 4 0x30)
    (replicate 0x30 65)).
  - apply one_buffer_wf.
  - reflexivity.
  - vm_compute. split; [lia|done].
  - vm_compute. done.
  - vm_compute. done.
  - apply Forall_replicate. lia.
Defined.

(** ** The icon file *)

(** C4: [get_file] with a length prefix of [len] (below 2^31) stores exactly
    the next [len] bytes of the stream in the file whose name it builds,
    whatever the sizes in which the stream arrives and in which the disk takes
    them; if a write fails it stores a prefix of them. It terminates in both
    cases, and of the program's objects only the path buffer changes. *)
Theorem get_file_stores_the_icon {W} `{!Posix W, !PosixBounds W, !PosixStreams W}
    (sock hFile : Z) (m : cmem) (bp bn : N) (dp dn : list mbyte) (f lb : list Z) (len : nat)
    (w w1 w2 : W) (Hwf : cmem_wf m)
    (Hpath : c_objs m !! bp = Some dp ∧ has_str dp 15 [] ∧ has_str dp (15 + length f) [])
    (Hname : c_objs m !! bn = Some dn ∧ bn ≠ bp ∧ has_str dn 0 f ∧ bytes_ok f)
    (Hprefix : sys_read sock 4 w = (4, lb, w1) ∧ length lb = 4%nat ∧ le_word lb = Z.of_nat len)
    (Hlen : (0 < len)%nat ∧ Z.of_nat len < 2 ^ 31 ∧ (len ≤ length (incoming w1 sock))%nat)
    (Hopen : sys_open (InfoStrings.tmp_dir ++ f) open_flags 0x1FF w1 = (hFile, w2) ∧ 0 ≤ hFile) :
  ∃ m' w' dp',
    Info.get_file sock (Ptr bp 0) (Ptr bn 0) (m, w) = Ok (1, (m', w')) ∧
    c_objs m' = <[bp := dp']> (c_objs m) ∧ has_str dp' 0 (InfoStrings.tmp_dir ++ f) ∧
    (∃ k, (k ≤ len)%nat ∧ stored w' hFile = take k (incoming w1 sock)) ∧
    (accepting w2 hFile → stored w' hFile = take len (incoming w1 sock)).
Proof.
  destruct Hpath as (Hp & Hr & Hr'), Hname as (Hn & Hne & Hf & Hfb), Hprefix as (Hrd & Hlb & Hle).
  destruct Hlen as (Hpos & Hmax & Hin), Hopen as [Hopen Hfd].
  destruct (get_file_run sock hFile m bp bn dp dn f w w1 w2 lb Hwf Hp Hn Hne Hf Hfb Hr Hr' Hrd Hlb
    Hopen len Hle Hpos Hmax Hin) as (fin & k & w3 & w' & E & (Hk & Hst & Hfin) & Hacc & Hcl & _).
  rewrite (open_truncates _ _ _ _ _ _ Hopen), (open_incoming _ _ _ _ _ _ _ Hopen) in Hst by done.
  eexists _, w', (opened_path dp f). split; [exact E|]. split_and!.
  - done.
  - by eapply opened_path_str.
  - exists k. by rewrite Hcl, Hst.
  - intros Ha. destruct (Hfin (Hacc Ha)) as [-> _]. by rewrite Hcl, Hst.
Qed.

Definition icon_mem : cmem :=
  CMem (<[1%N := zeros 0x800]> {[ 2%N := literal (chars "HI.png") ]}) 3.

Lemma icon_mem_wf : cmem_wf icon_mem.
Proof.
  unfold cmem_wf, icon_mem. simpl. split_and!; [lia|done|].
  intros b Hb. rewrite lookup_insert_ne, lookup_singleton_ne; [done|lia|lia].
Qed.

Lemma get_file_stores_the_icon_witness :
  let w1 := NetWorld.World true [[]; [1; 2]; [3; 4; 5; 6]] [2; 1] [] [] [] in
  let w2 := NetWorld.World true [[]; [1; 2]; [3; 4; 5; 6]] [2; 1] []
              [InfoStrings.tmp_dir ++ chars "HI.png"] [] in
  let w := NetWorld.World true [le_bytes 4 6; [1; 2]; [3; 4; 5; 6]] [2; 1] [] [] [] in
  ∃ m' w' dp',
    Info.get_file 3 (Ptr 1 0) (Ptr 2 0) (icon_mem, w) = Ok (1, (m', w')) ∧
    c_objs m' = <[1%N := dp']> (c_objs icon_mem) ∧
    has_str dp' 0 (InfoStrings.tmp_dir ++ chars "HI.png") ∧
    (∃ k, (k ≤ 6)%nat ∧ stored w' 4 = take k (incoming w1 3)) ∧
    (accepting w2 4 → stored w' 4 = take 6 (incoming w1 3)).
Proof.
  intros w1 w2 w.
  apply (get_file_stores_the_icon 3 4 icon_mem 1 2 (zeros 0x800) (literal (chars "HI.png"))
    (chars "HI.png") (le_bytes 4 6) 6 w w1 w2).
  - apply icon_mem_wf.
  - split_and!; [reflexivity|by apply has_str_nul_here|by apply has_str_nul_here].
  - split_and!; [reflexivity|done|apply has_str_literal; repeat constructor; done|
      repeat constructor; lia].
  - split_and!; reflexivity.
  - split_and!; [lia|done|vm_compute; lia].
  - split; [reflexivity|lia].
Defined.

(** A length prefix of 2^31 or more is a negative [int]. It passes
    the [len < buffer_size] test and is then converted to a [size_t] near 2^64,
    so the first [read] may put more than 4096 bytes into [buffer]. *)
Theorem get_file_negative_length_overruns {W} `{!Posix W, !PosixBounds W, !PosixStreams W}
    (sock hFile r : Z) (m : cmem) (bp bn : N) (dp dn : list mbyte) (f lb bs : list Z)
    (w w1 w2 w3 : W) (Hwf : cmem_wf m)
    (Hpath : c_objs m !! bp = Some dp ∧ has_str dp 15 [] ∧ has_str dp (15 + length f) [])
    (Hname : c_objs m !! bn = Some dn ∧ bn ≠ bp ∧ has_str dn 0 f ∧ bytes_ok f)
    (Hprefix : sys_read sock 4 w = (4, lb, w1) ∧ length lb = 4%nat ∧ 2 ^ 31 ≤ le_word lb < 2 ^ 32)
    (Hopen : sys_open (InfoStrings.tmp_dir ++ f) open_flags 0x1FF w1 = (hFile, w2))
    (Hbig : sys_read sock (le_word lb + (2 ^ 64 - 2 ^ 32)) w2 = (r, bs, w3) ∧ (4096 < length bs)%nat) :
  Info.get_file sock (Ptr bp 0) (Ptr bn 0) (m, w) = Undef OutOfBounds.
Proof.
  destruct Hpath as (Hp & Hr & Hr'), Hname as (Hn & Hne & Hf & Hfb), Hprefix as (Hrd & Hlb & Hle).
  destruct Hbig as [Hbig Hbs].
  apply (get_file_overruns sock hFile m bp bn dp dn f w w1 w2 lb Hwf Hp Hn Hne Hf Hfb Hr Hr' Hrd
    Hlb Hopen r bs w3 Hle); [|done].
  rewrite <-Hbig. f_equal. rewrite i32_neg by done. unfold u64.
  symmetry. apply (Z.mod_unique _ _ (-1)); lia.
Qed.

Lemma get_file_negative_length_overruns_witness :
  let big := replicate 5000 7 in
  Info.get_file 3 (Ptr 1 0) (Ptr 2 0)
    (icon_mem, NetWorld.World true [le_bytes 4 0xFFFFFFFF; big] [] [] [] []) = Undef OutOfBounds.
Proof.
  intros big.
  apply (get_file_negative_length_overruns 3 4 5000 icon_mem 1 2 (zeros 0x800)
    (literal (chars "HI.png")) (chars "HI.png") (le_bytes 4 0xFFFFFFFF) (u8 <$> big)
    (NetWorld.World true [le_bytes 4 0xFFFFFFFF; big] [] [] [] [])
    (NetWorld.World true [[]; big] [] [] [] [])
    (NetWorld.World true [[]; big] [] [] [InfoStrings.tmp_dir ++ chars "HI.png"] [])
    (NetWorld.World true [[]] [] [] [InfoStrings.tmp_dir ++ chars "HI.png"] [])).
  - apply icon_mem_wf.
  - split_and!; [reflexivity|by apply has_str_nul_here|by apply has_str_nul_here].
  - split_and!; [reflexivity|done|apply has_str_literal; repeat constructor; done|
      repeat constructor; lia].
  - split_and!; [reflexivity|reflexivity|by vm_compute|by vm_compute].
  - reflexivity.
  - split; [reflexivity|vm_compute; lia].
Defined.

(** ** [get_pkg_info] *)

(** [get_pkg_info] never changes an object of its caller, and when
    it returns 0 the five strings of the description it fills in are pointers to
    its own arrays, whose lifetime has just ended: every one of them dangles. *)
Theorem get_pkg_info_dangling {W} `{!Posix W} (Conn : connection) (params params' : bgft_download_param)
    (m m' : cmem) (w w' : W) (r : Z) (Hwf : cmem_wf m)
    (Hret : Info.get_pkg_info Conn params (m, w) = Ok ((r, params'), (m', w'))) :
  c_objs m' = c_objs m ∧
  (r ≠ 0 → params' = params) ∧
  (r = 0 → Forall (λ p, ¬ live m' p)
     [id params'; content_url params'; content_name params'; icon_path params'; package_type params']).
Proof.
  pose proof (modifies_get_pkg_info Conn params _ _ _ _ _ Hwf Hret) as Hfr.
  apply with_info_buffers_inv in Hret as (m1 & Hbody & ->).
  apply get_pkg_info_body_result in Hbody. split_and!.
  - apply map_eq. intros b. by apply (frame_objs _ _ _ Hfr).
  - destruct Hbody as [[_ ->]|[-> _]]; done.
  - intros ->. destruct Hbody as [[[] _]|[_ (-> & -> & -> & -> & ->)]]; [done..|].
    repeat constructor; apply info_pop_dead; set_solver.
Qed.

Definition sample_message : list Z :=
  le_bytes 4 1 ++ le_bytes 4 3 ++ chars "url" ++ le_bytes 4 2 ++ chars "GO" ++
  le_bytes 4 2 ++ chars "HI" ++ le_bytes 4 5 ++ chars "PS4GD" ++ le_bytes 8 12345 ++
  le_bytes 4 6 ++ [1; 2; 3; 4; 5; 6].

Definition no_params : bgft_download_param :=
  BgftDownloadParam 0 5 null_ptr null_ptr null_ptr null_ptr null_ptr null_ptr
    BGFT_TASK_OPTION_DISABLE_CDN_QUERY_PARAM null_ptr null_ptr null_ptr null_ptr 0.

Definition sample_result : (Z * bgft_download_param) * (cmem * NetWorld.t) :=
  match Info.get_pkg_info Connection_template no_params
          (empty_cmem, NetWorld.World true [sample_message] [] [] [] []) with
  | Ok x => x
  | _ => ((-2, no_params), (empty_cmem, NetWorld.World false [] [] [] [] []))
  end.

Lemma get_pkg_info_dangling_witness :
  let params' := snd (fst sample_result) in
  let m' := fst (snd sample_result) in
  fst (fst sample_result) = 0 ∧
  c_objs m' = c_objs empty_cmem ∧
  (0 ≠ 0 → params' = no_params) ∧
  (0 = 0 → Forall (λ p, ¬ live m' p)
     [id params'; content_url params'; content_name params'; icon_path params'; package_type params']).
Proof.
  intros params' m'. split; [by vm_compute|].
  apply (get_pkg_info_dangling Connection_template no_params params' empty_cmem m'
    (NetWorld.World true [sample_message] [] [] [] []) (snd (snd sample_result)) 0).
  - apply empty_cmem_wf.
  - by vm_compute.
Defined.

(** C40: how [get_pkg_info] ends before a package description: a socket that
    cannot be made gives -1; a refused connection gives -1 and closes the
    socket; the command 0 gives 1, the order to exit, and closes the socket.
    The caller's structure is untouched in each case. *)
Theorem get_pkg_info_early_exits {W} `{!Posix W} (Conn : connection) (params : bgft_download_param)
    (m : cmem) (w w1 w2 w3 w4 : W) (sock c rc r : Z) (lb : list Z) (Hwf : cmem_wf m)
    (Hsock : sys_socket AF_INET SOCK_STREAM IPPROTO_TCP w = (sock, w1))
    (Hconn : sys_connect sock (Info.conn_info Conn) 16 w1 = (c, w2)) :
  (sock < 0 → ∃ m', Info.get_pkg_info Conn params (m, w) = Ok ((-1, params), (m', w1))) ∧
  (0 ≤ sock → c < 0 → sys_close sock w2 = (rc, w3) →
     ∃ m', Info.get_pkg_info Conn params (m, w) = Ok ((-1, params), (m', w3))) ∧
  (0 ≤ sock → 0 ≤ c → sys_read sock 4 w2 = (r, lb, w3) → lb = [0; 0; 0; 0] →
     sys_close sock w3 = (rc, w4) →
     ∃ m', Info.get_pkg_info Conn params (m, w) = Ok ((1, params), (m', w4))).
Proof.
  pose proof (sys_op_ok _ (info_mem m) _ _ _ Hsock) as E1.
  pose proof (sys_op_ok _ (info_mem m) _ _ _ Hconn) as E2.
  split_and!; intros; eexists; apply with_info_buffers_ok; unfold Info.get_pkg_info_body, Info.close;
    rewrite (bind_ok _ _ _ _ _ E1).
  - by rewrite decide_True by lia.
  - rewrite decide_False by lia. rewrite (bind_ok _ _ _ _ _ E2), decide_True by lia.
    by erewrite bind_ok by (by apply sys_op_ok).
  - rewrite decide_False by lia. rewrite (bind_ok _ _ _ _ _ E2), decide_False by lia.
    subst. erewrite bind_ok by (by eapply (get_uint_full 4); [apply info_mem_wf|eassumption|]).
    rewrite decide_True by done. by erewrite bind_ok by (by apply sys_op_ok).
Qed.

Lemma get_pkg_info_early_exits_witness :
  let w := NetWorld.World true [le_bytes 4 0] [] [] [] [] in
  let w3 := NetWorld.World true [[]] [] [] [] [] in
  let w4 := NetWorld.World true [[]] [] [] [] [3] in
  (3 < 0 → ∃ m', Info.get_pkg_info Connection_template no_params (empty_cmem, w) =
     Ok ((-1, no_params), (m', w))) ∧
  (0 ≤ 3 → 0 < 0 → sys_close 3 w = (0, w3) →
     ∃ m', Info.get_pkg_info Connection_template no_params (empty_cmem, w) =
       Ok ((-1, no_params), (m', w3))) ∧
  (0 ≤ 3 → 0 ≤ 0 → sys_read 3 4 w = (4, [0; 0; 0; 0], w3) → [0; 0; 0; 0] = [0; 0; 0; 0] →
     sys_close 3 w3 = (0, w4) →
     ∃ m', Info.get_pkg_info Connection_template no_params (empty_cmem, w) =
       Ok ((1, no_params), (m', w4))).
Proof.
  intros w w3 w4.
  apply (get_pkg_info_early_exits Connection_template no_params empty_cmem w w w w3 w4 3 0 0 4
    [0; 0; 0; 0]).
  - apply empty_cmem_wf.
  - reflexivity.
  - reflexivity.
Defined.

(** When a string of the description is longer than its buffer,
    [get_pkg_info] returns -1 without closing the socket: no system call follows
    the read of the refused length. *)
Theorem get_pkg_info_leaks_socket {W} `{!Posix W} (Conn : connection) (params : bgft_download_param)
    (m : cmem) (w w1 w2 w3 w4 : W) (sock c r r' : Z) (lb lb' : list Z) (Hwf : cmem_wf m)
    (Hsock : sys_socket AF_INET SOCK_STREAM IPPROTO_TCP w = (sock, w1) ∧ 0 ≤ sock)
    (Hconn : sys_connect sock (Info.conn_info Conn) 16 w1 = (c, w2) ∧ 0 ≤ c)
    (Hcmd : sys_read sock 4 w2 = (r, lb, w3) ∧ length lb = 4%nat ∧ le_word lb ≠ 0)
    (Hurl : sys_read sock 4 w3 = (r', lb', w4) ∧ length lb' = 4%nat ∧ 0x800 < le_word lb') :
  ∃ m', Info.get_pkg_info Conn params (m, w) = Ok ((-1, params), (m', w4)).
Proof.
  destruct Hsock as [Hsock ?], Hconn as [Hconn ?], Hcmd as (Hcmd & Hlb & ?), Hurl as (Hurl & Hlb' & ?).
  pose proof (info_mem_wf m Hwf) as Hwf1.
  pose proof (get_uint_full 4 _ _ _ _ _ _ Hwf1 Hcmd Hlb) as E3.
  pose proof (get_uint_full 4 _ _ _ _ _ _ (tick_wf _ Hwf1) Hurl Hlb') as E4.
  assert (Hobj : c_objs (tick (info_mem m)) !! c_next m = Some (zeros 0x800)).
  { simpl. rewrite !lookup_insert_ne by lia. apply lookup_insert_eq. }
  eexists. apply with_info_buffers_ok. unfold Info.get_pkg_info_body.
  rewrite (bind_ok _ _ _ _ _ (sys_op_ok _ (info_mem m) _ _ _ Hsock)), decide_False by lia.
  rewrite (bind_ok _ _ _ _ _ (sys_op_ok _ (info_mem m) _ _ _ Hconn)), decide_False by lia.
  erewrite bind_ok by exact E3. rewrite decide_False by done. unfold Info.recv_pkg_info.
  erewrite bind_ok; [|eapply get_string_too_long; [exact Hobj|simpl; lia|exact E4|done]].
  by rewrite decide_True by done.
Qed.

Lemma get_pkg_info_leaks_socket_witness :
  let w := NetWorld.World true [le_bytes 4 1; le_bytes 4 0x801] [] [] [] [] in
  let w4 := NetWorld.World true [[]] [] [] [] [] in
  ∃ m', Info.get_pkg_info Connection_template no_params (empty_cmem, w) =
    Ok ((-1, no_params), (m', w4)).
Proof.
  intros w w4.
  apply (get_pkg_info_leaks_socket Connection_template no_params empty_cmem w w w
    (NetWorld.World true [[]; le_bytes 4 0x801] [] [] [] []) w4 3 0 4 4 (le_bytes 4 1)
    (le_bytes 4 0x801)).
  - apply empty_cmem_wf.
  - split; [reflexivity|lia].
  - split; [reflexivity|lia].
  - split_and!; [reflexivity|reflexivity|by vm_compute].
  - split_and!; [reflexivity|reflexivity|by vm_compute].
Defined.
