(* ===== verification/KMem.v ===== *)
(** * Flat memory: the address space the kernel code works on

    A partial map from 64-bit addresses to byte values, user pages and kernel
    pages alike; an address that is not in the map is not mapped by the
    machine. Addresses are integers, so disjointness is arithmetic. *)

From S2P Require Import Prelude.

#[local] Coercion Z.of_nat : nat >-> Z.

Abbreviation kmemory := (gmap Z Z).

Fixpoint store_bytes (m : kmemory) (a : Z) (bs : list Z) : kmemory :=
  match bs with
  | [] => m
  | b :: bs => store_bytes (<[a := b]> m) (a + 1) bs
  end.

Fixpoint load_bytes (m : kmemory) (a : Z) (n : nat) : option (list Z) :=
  match n with
  | O => Some []
  | S n => b ← m !! a; bs ← load_bytes m (a + 1) n; Some (b :: bs)
  end.

(** Every address of [a, a + n) is backed by a page. *)
Definition mapped (m : kmemory) (a n : Z) : Prop := ∀ k, a ≤ k < a + n → is_Some (m !! k).

(** Every byte of the memory is a byte. *)
Definition kmem_wf (m : kmemory) : Prop := ∀ k b, m !! k = Some b → is_u8 b.

(** ** Lookup *)

Lemma store_bytes_lookup m a bs k :
  store_bytes m a bs !! k =
  if decide (a ≤ k < a + length bs) then bs !! Z.to_nat (k - a) else m !! k.
Proof.
  revert m a. induction bs as [|b bs IH]; intros m a; simpl.
  - by rewrite decide_False by lia.
  - rewrite IH. destruct (decide (k = a)) as [->|Hne].
    + rewrite decide_False, decide_True by lia.
      by rewrite Z.sub_diag, lookup_insert_eq.
    + rewrite lookup_insert_ne by done.
      destruct (decide (a + 1 ≤ k < a + 1 + length bs)).
      * rewrite decide_True by lia.
        by replace (Z.to_nat (k - a)) with (S (Z.to_nat (k - (a + 1)))) by lia.
      * by rewrite decide_False by lia.
Qed.

Lemma store_bytes_in m a bs k :
  a ≤ k < a + length bs → store_bytes m a bs !! k = bs !! Z.to_nat (k - a).
Proof. intros. by rewrite store_bytes_lookup, decide_True. Qed.

Lemma store_bytes_out m a bs k :
  ¬ (a ≤ k < a + length bs) → store_bytes m a bs !! k = m !! k.
Proof. intros. by rewrite store_bytes_lookup, decide_False. Qed.

Lemma load_bytes_length m a n bs : load_bytes m a n = Some bs → length bs = n.
Proof.
  revert a bs. induction n as [|n IH]; intros a bs E; simpl in E; simplify_option_eq; [done|].
  simpl. f_equal. eauto.
Qed.

Lemma load_bytes_lookup m a (n : nat) bs k :
  load_bytes m a n = Some bs → a ≤ k < a + n → m !! k = bs !! Z.to_nat (k - a).
Proof.
  revert a bs. induction n as [|n IH]; intros a bs E Hk; simpl in E; simplify_option_eq; [lia|].
  destruct (decide (k = a)) as [->|].
  - by rewrite Z.sub_diag.
  - replace (Z.to_nat (k - a)) with (S (Z.to_nat (k - (a + 1)))) by lia.
    simpl. apply IH; [done|lia].
Qed.

Lemma load_bytes_intro m a (n : nat) bs :
  length bs = n → (∀ k, a ≤ k < a + n → m !! k = bs !! Z.to_nat (k - a)) →
  load_bytes m a n = Some bs.
Proof.
  revert a bs. induction n as [|n IH]; intros a [|b bs] Hl H; try done. simpl.
  rewrite (H a) by lia. rewrite Z.sub_diag. simpl.
  rewrite (IH (a + 1) bs); [done|simpl in *; lia|].
  intros k Hk. rewrite (H k) by lia.
  by replace (Z.to_nat (k - a)) with (S (Z.to_nat (k - (a + 1)))) by lia.
Qed.

Lemma load_bytes_ext m m' a (n : nat) :
  (∀ k, a ≤ k < a + n → m' !! k = m !! k) → load_bytes m' a n = load_bytes m a n.
Proof.
  revert a. induction n as [|n IH]; intros a H; [done|]. simpl.
  rewrite (H a) by lia. destruct (m !! a); [|done]. simpl.
  rewrite IH; [done|]. intros k Hk. apply H. lia.
Qed.

(** ** Loads and stores together *)

Lemma load_store_same m a bs n : length bs = n → load_bytes (store_bytes m a bs) a n = Some bs.
Proof.
  intros Hl. apply load_bytes_intro; [done|]. intros k Hk. apply store_bytes_in. lia.
Qed.

Lemma load_store_ne m a bs a' (n : nat) :
  a' + n ≤ a ∨ a + length bs ≤ a' →
  load_bytes (store_bytes m a bs) a' n = load_bytes m a' n.
Proof. intros H. apply load_bytes_ext. intros k Hk. apply store_bytes_out. lia. Qed.

Lemma store_load_id m a n bs : load_bytes m a n = Some bs → store_bytes m a bs = m.
Proof.
  intros E. pose proof (load_bytes_length _ _ _ _ E). apply map_eq. intros k.
  rewrite store_bytes_lookup. case_decide; [|done].
  symmetry. eapply load_bytes_lookup; [done|lia].
Qed.

Lemma store_store_same m a bs bs' :
  length bs = length bs' → store_bytes (store_bytes m a bs) a bs' = store_bytes m a bs'.
Proof. intros H. apply map_eq. intros k. rewrite !store_bytes_lookup. by repeat case_decide; try lia. Qed.

Lemma store_store_comm m a bs a' bs' :
  a' + length bs' ≤ a ∨ a + length bs ≤ a' →
  store_bytes (store_bytes m a bs) a' bs' = store_bytes (store_bytes m a' bs') a bs.
Proof. intros H. apply map_eq. intros k. rewrite !store_bytes_lookup. by repeat case_decide; try lia. Qed.

Lemma store_bytes_app m a bs bs' :
  store_bytes m a (bs ++ bs') = store_bytes (store_bytes m a bs) (a + length bs) bs'.
Proof.
  apply map_eq. intros k. rewrite !store_bytes_lookup, length_app.
  destruct (decide (a ≤ k < a + length bs)).
  - rewrite decide_True, decide_False by lia. by rewrite lookup_app_l by lia.
  - destruct (decide (a + length bs ≤ k < a + length bs + length bs')).
    + rewrite decide_True by lia. rewrite lookup_app_r by lia. f_equal. lia.
    + rewrite !decide_False by lia. done.
Qed.

Lemma load_bytes_app m a n1 n2 :
  load_bytes m a (n1 + n2) =
  (bs1 ← load_bytes m a n1; bs2 ← load_bytes m (a + n1) n2; Some (bs1 ++ bs2)).
Proof.
  revert a. induction n1 as [|n1 IH]; intros a; simpl.
  - rewrite Z.add_0_r. by destruct (load_bytes m a n2).
  - destruct (m !! a) as [b|]; [simpl|done]. rewrite IH.
    destruct (load_bytes m (a + 1) n1) as [bs1|]; [simpl|done].
    replace (a + 1 + n1) with (a + S n1) by lia. by destruct (load_bytes m (a + S n1) n2).
Qed.

Lemma load_bytes_app_intro m a n1 n2 bs1 bs2 :
  load_bytes m a n1 = Some bs1 → load_bytes m (a + n1) n2 = Some bs2 →
  load_bytes m a (n1 + n2) = Some (bs1 ++ bs2).
Proof. intros E1 E2. by rewrite load_bytes_app, E1; simpl; rewrite E2. Qed.

Lemma load_bytes_take m a n bs k :
  load_bytes m a n = Some bs → (k ≤ n)%nat → load_bytes m a k = Some (take k bs).
Proof.
  intros E Hk. replace n with (k + (n - k))%nat in E by lia.
  rewrite load_bytes_app in E. apply bind_Some in E as (b1 & E1 & E). apply bind_Some in E as (b2 & E2 & E).
  simplify_eq. pose proof (load_bytes_length _ _ _ _ E1) as Hl.
  rewrite E1, take_app_length'; [done|congruence].
Qed.

Lemma load_bytes_drop m a n bs k :
  load_bytes m a n = Some bs → (k ≤ n)%nat → load_bytes m (a + k) (n - k) = Some (drop k bs).
Proof.
  intros E Hk. replace n with (k + (n - k))%nat in E by lia.
  rewrite load_bytes_app in E. apply bind_Some in E as (b1 & E1 & E). apply bind_Some in E as (b2 & E2 & E).
  simplify_eq. pose proof (load_bytes_length _ _ _ _ E1) as Hl.
  rewrite drop_app_length'; [done|congruence].
Qed.

(** ** Mapped ranges *)

Lemma load_bytes_mapped m a (n : nat) : is_Some (load_bytes m a n) ↔ mapped m a n.
Proof.
  split.
  - intros [bs E] k Hk. rewrite (load_bytes_lookup _ _ _ _ _ E Hk).
    apply lookup_lt_is_Some. pose proof (load_bytes_length _ _ _ _ E). lia.
  - revert a. induction n as [|n IH]; intros a H; [by eexists|]. simpl.
    destruct (H a) as [b ->]; [lia|].
    destruct (IH (a + 1)) as [bs ->]; [intros k Hk; apply H; lia|]. by eexists.
Qed.

Lemma mapped_load m a n (k : nat) : mapped m a n → n = k → ∃ bs, load_bytes m a k = Some bs.
Proof. intros H ->. by apply load_bytes_mapped. Qed.

Lemma mapped_store m a bs a' n : mapped m a' n → mapped (store_bytes m a bs) a' n.
Proof.
  intros H k Hk. rewrite store_bytes_lookup. case_decide; [|auto].
  apply lookup_lt_is_Some. lia.
Qed.

Lemma mapped_sub m a n a' n' : mapped m a n → a ≤ a' → a' + n' ≤ a + n → mapped m a' n'.
Proof. intros H ?? k Hk. apply H. lia. Qed.

Lemma kmem_wf_store m a bs : kmem_wf m → bytes_ok bs → kmem_wf (store_bytes m a bs).
Proof.
  intros Hm Hb k b. rewrite store_bytes_lookup. case_decide.
  - intros Hl. by eapply Forall_lookup_1 in Hb.
  - eauto.
Qed.

Lemma load_bytes_ok m a n bs : kmem_wf m → load_bytes m a n = Some bs → bytes_ok bs.
Proof.
  intros Hm E. apply Forall_lookup_2. intros i b Hi.
  pose proof (load_bytes_length _ _ _ _ E). pose proof (lookup_lt_Some _ _ _ Hi).
  apply (Hm (a + i)). rewrite (load_bytes_lookup _ _ _ _ _ E) by lia.
  by replace (Z.to_nat (a + i - a)) with i by lia.
Qed.

#[export] Hint Resolve mapped_store kmem_wf_store : cint.
