(* ===== verification/KernelRW.v ===== *)
(** * Kernel memory access: src/Payload/ps4-libjbc/kernelrw.c

    The console's memory is a partial map from 64-bit addresses to bytes: user
    pages and kernel pages alike. [jbc_krw_memcpy] copies between the two, by
    running [k_kcpy] in kernel mode through [kexec], or, when the Mira
    homebrew enabler is loaded, by passing the bytes through a socket pair whose
    [read] and [write] accept kernel addresses. *)

From S2P Require Import Prelude KMem.

(** ** The machine below the payload *)

(** Addresses of the two routines run in kernel mode and the current thread. *)
Class KernelText : Type := {
  k_get_td : Z;
  k_kcpy : Z;
  k_text_distinct : k_get_td ≠ k_kcpy
}.

(** Addresses of the locals and file-scope variables whose address the code
    takes: where the compiler puts them is not the model's business. *)
Class Locals : Type := {
  addr_c : Z;           (** [char c] of [do_check_mira] *)
  addr_ans : Z;         (** [uint64_t ans] of [jbc_krw_read64] *)
  addr_val : Z;         (** the parameter [val] of [jbc_krw_write64] *)
  addr_pid : Z;         (** [int pid] of [resolve] *)
  addr_prison0 : Z;     (** [static uintptr_t prison0] *)
  addr_rootvnode : Z;   (** [static uintptr_t rootvnode] *)
  addr_cred : Z;        (** [struct jbc_cred cred] of [jbc_run_as_root] *)
  addr_root_cred : Z    (** [struct jbc_cred root_cred] of [jbc_run_as_root] *)
}.

(** Sockets: [socketpair], [write] and [read] on raw addresses. *)
Class SockOS (OS : Type) : Type := {
  os_socketpair : OS → Z * (Z * Z) * OS;
  os_write : Z → kmemory → Z → Z → OS → Z * OS;
  os_read : Z → kmemory → Z → Z → OS → Z * kmemory * OS
}.

Inductive KmemKind : Set := USERSPACE | KERNEL_HEAP | KERNEL_TEXT.
#[global] Instance KmemKind_eq_dec : EqDecision KmemKind.
Proof. solve_decision. Defined.

Record kst (OS : Type) : Type := KSt {
  kmem : kmemory;
  curthread : Z;          (** [%gs:0] in kernel mode *)
  have_mira : Z;
  mira_socket : Z * Z;
  os : OS
}.
Arguments KSt {_}. Arguments kmem {_}. Arguments curthread {_}. Arguments have_mira {_}.
Arguments mira_socket {_}. Arguments os {_}.

Definition set_kmem {OS} (m : kmemory) (s : kst OS) : kst OS :=
  KSt m (curthread s) (have_mira s) (mira_socket s) (os s).

Module Krw.
Section krw.
Context `{!KernelText, !Locals} {OS : Type} `{!SockOS OS}.

#[local] Abbreviation K := (M (kst OS)).

(** ** Kernel-mode execution *)

(** [mov %rdx, %rcx; rep movsb]: ascending byte copies. *)
Fixpoint rep_movsb (rcx : nat) (rdi rsi : Z) : K unit :=
  match rcx with
  | O => mret tt
  | S rcx =>
      s ← get;
      match kmem s !! rsi, kmem s !! rdi with
      | Some b, Some _ =>
          _ ← put (set_kmem (<[rdi := b]> (kmem s)) s);
          rep_movsb rcx (u64 (rdi + 1)) (u64 (rsi + 1))
      | _, _ => undef KernelFault
      end
  end.

(** Calling the address [args[0]] on [args[1..6]]. The value left in [rax] by
    [k_kcpy] is not used by any caller; it is given as 0. *)
Definition call_kernel (args : list Z) : K Z :=
  match args with
  | fn :: rdi :: rsi :: rdx :: _ =>
      if decide (fn = k_get_td) then s ← get; mret (curthread s)
      else if decide (fn = k_kcpy) then _ ← rep_movsb (Z.to_nat rdx) rdi rsi; mret 0
      else undef BadKernelFunction
  | _ => undef BadKernelFunction
  end.

(** [k_kcall]: replace [args[0]] by the result of the call. *)
Definition k_kcall (args : list Z) : K (list Z) :=
  r ← call_kernel args;
  mret (match args with [] => [] | _ :: rest => r :: rest end).

(** [kexec(k_kcall, uap)]: system call 11 runs its argument in kernel mode. *)
Definition kexec (uap : list Z) : K (list Z) := k_kcall uap.

(** [uap] holds [fn] and six variadic arguments; those the caller did not pass
    are whatever the registers held, given as 0: no routine reads them. *)
Definition jbc_krw_kcall (fn : Z) (args : list Z) : K Z :=
  uap ← kexec (fn :: take 6 (args ++ replicate 6 0));
  mret (default 0 (head uap)).

Definition jbc_krw_get_td : K Z := jbc_krw_kcall k_get_td [].

(** ** Mira *)

Definition sock_socketpair : K Z := λ s,
  let '(r, fds, o) := os_socketpair (os s) in
  Ok (r, KSt (kmem s) (curthread s) (have_mira s) fds o).
Definition sock_write (fd src n : Z) : K Z := λ s,
  let '(r, o) := os_write fd (kmem s) src n (os s) in
  Ok (r, KSt (kmem s) (curthread s) (have_mira s) (mira_socket s) o).
Definition sock_read (fd dst n : Z) : K Z := λ s,
  let '(r, m, o) := os_read fd (kmem s) dst n (os s) in
  Ok (r, KSt m (curthread s) (have_mira s) (mira_socket s) o).

Definition do_check_mira : K Z :=
  r ← sock_socketpair;
  if decide (r ≠ 0) then mret 0
  else
    td ← jbc_krw_get_td;
    s ← get;
    w ← sock_write (snd (mira_socket s)) td 1;
    if decide (w = 1) then
      s ← get;
      _ ← sock_read (fst (mira_socket s)) addr_c 1;
      mret 1
    else mret 0.

Definition check_mira : K bool :=
  s ← get;
  _ ← (if decide (have_mira s < 0) then
         h ← do_check_mira;
         s ← get;
         put (KSt (kmem s) (curthread s) h (mira_socket s) (os s))
       else mret tt);
  s ← get;
  mret (bool_decide (have_mira s ≠ 0)).

(** ** Copying *)

Definition check_ptr (p : Z) (kind : KmemKind) : bool :=
  match kind with
  | USERSPACE => bool_decide (p < 0x800000000000)
  | KERNEL_HEAP => bool_decide (0xffff800000000000 ≤ p) && bool_decide (p < 0xffffffff00000000)
  | KERNEL_TEXT => bool_decide (0xffffffff00000000 ≤ p) && bool_decide (p < 0xfffffffffffff000)
  end.

Fixpoint kcpy_mira_loop (fuel : nat) (dst src sz : Z) : K Z :=
  match fuel with
  | O => out_of_fuel
  | S fuel =>
      if decide (0 < sz) then
        let chk := if decide (64 < sz) then 64 else sz in
        s ← get;
        w ← sock_write (snd (mira_socket s)) src chk;
        if decide (w ≠ chk) then mret (-1)
        else
          s ← get;
          r ← sock_read (fst (mira_socket s)) dst chk;
          if decide (r ≠ chk) then mret (-1)
          else kcpy_mira_loop fuel (u64 (dst + chk)) (u64 (src + chk)) (sz - chk)
      else mret 0
  end.

Definition kcpy_mira (dst src sz : Z) : K Z := kcpy_mira_loop (S (Z.to_nat sz)) dst src sz.

(** The four range tests of [jbc_krw_memcpy]. *)
Definition range_ok (p sz : Z) (kind : KmemKind) : bool :=
  check_ptr p kind && check_ptr (u64 (p + sz - 1)) kind.

(** What the tests together admit. *)
Definition memcpy_allowed (dst src sz : Z) (kind : KmemKind) : bool :=
  let u1 := range_ok dst sz USERSPACE in
  let ok1 := range_ok dst sz kind in
  let u2 := range_ok src sz USERSPACE in
  let ok2 := range_ok src sz kind in
  ((u1 || ok1) && (u2 || ok2)) && negb (u1 && u2).

Definition jbc_krw_memcpy (dst src sz : Z) (kind : KmemKind) : K Z :=
  if decide (sz = 0) then mret 0
  else if negb (memcpy_allowed dst src sz kind) then mret (-1)
  else
    mira ← check_mira;
    if mira : bool then kcpy_mira dst src sz
    else
      _ ← jbc_krw_kcall k_kcpy [dst; src; sz];
      mret 0.

(** The payload's own accesses to an object of [n] bytes. *)
Definition load_word (n : nat) (a : Z) : K Z := λ s,
  match load_bytes (kmem s) a n with
  | Some bs => Ok (le_word bs, s)
  | None => Undef OutOfBounds
  end.
Definition store_word (n : nat) (a v : Z) : K unit := λ s,
  match load_bytes (kmem s) a n with
  | Some _ => Ok (tt, set_kmem (store_bytes (kmem s) a (le_bytes (Z.of_nat n) v)) s)
  | None => Undef OutOfBounds
  end.

Definition jbc_krw_read64 (p : Z) (kind : KmemKind) : K Z :=
  r ← jbc_krw_memcpy addr_ans p 8 kind;
  if decide (r ≠ 0) then mret (u64 (-1)) else load_word 8 addr_ans.

Definition jbc_krw_write64 (p : Z) (kind : KmemKind) (val : Z) : K Z :=
  _ ← store_word 8 addr_val val;
  jbc_krw_memcpy p addr_val 8 kind.

End krw.
End Krw.
