(* ===== verification/KernelRWFacts.v ===== *)
(** * Kernel memory access: what callers may rely on

    The sockets under the Mira path, the address ranges the guard admits, and
    the specification of [jbc_krw_memcpy] every client uses: whichever of the two
    paths runs, an admitted copy of mapped memory is exactly that copy. *)

From S2P Require Import Prelude KMem KernelRW.
Import Krw.

#[local] Coercion Z.of_nat : nat >-> Z.

(** ** Sockets and the Mira patch

    [linked o fds q]: [fds] are the two ends of a stream socket pair and [q] the
    bytes written to the second end and not yet read from the first.
    [patched o]: the kernel's [copyin] and [copyout] accept kernel
    addresses, which is what Mira's patch does. *)
Class MiraLaws (OS : Type) `{!SockOS OS} : Type := {
  linked : OS → Z * Z → list Z → Prop;
  patched : OS → bool;
  socketpair_law o r fds o' :
    os_socketpair o = (r, fds, o') → (r = 0 → linked o' fds []) ∧ patched o' = patched o;
  write_law o fds q m src n bs :
    linked o fds q → patched o = true ∨ src + n ≤ 2 ^ 47 → 0 < n →
    load_bytes m src (Z.to_nat n) = Some bs → (length q + length bs ≤ 64)%nat →
    ∃ o', os_write (snd fds) m src n o = (n, o') ∧ linked o' fds (q ++ bs) ∧ patched o' = patched o;
  write_fault_law o fd m src n :
    patched o = false → 2 ^ 47 ≤ src → 0 < n →
    ∃ o', os_write fd m src n o = (-1, o') ∧ patched o' = patched o;
  read_law o fds q m dst n bs :
    linked o fds (bs ++ q) → patched o = true ∨ dst + n ≤ 2 ^ 47 → 0 < n →
    Z.of_nat (length bs) = n → mapped m dst n →
    ∃ o', os_read (fst fds) m dst n o = (n, store_bytes m dst bs, o') ∧
          linked o' fds q ∧ patched o' = patched o
}.

(** ** The guard on addresses *)

Section ranges.

(** A guarded range that is not longer than the gap around the regions stays
    inside its region. *)
Lemma range_ok_inside p sz kind :
  is_u64 p → 0 < sz ≤ 2 ^ 64 - 2 ^ 47 → range_ok p sz kind = true →
  p + sz ≤ 2 ^ 64 ∧ ∀ k, p ≤ k < p + sz → check_ptr k kind = true.
Proof.
  unfold is_u64, range_ok, u64. intros Hp Hsz [H1 H2]%andb_true_iff.
  assert (p + sz ≤ 2 ^ 64) as Hend.
  { destruct (decide (p + sz ≤ 2 ^ 64)) as [|Hgt]; [done|].
    replace (p + sz - 1) with ((p + sz - 1 - 2 ^ 64) + 1 * 2 ^ 64) in H2 by lia.
    rewrite Z.mod_add, Z.mod_small in H2 by lia.
    destruct kind; simpl in *; repeat rewrite ?andb_true_iff, ?bool_decide_eq_true in *; lia. }
  rewrite Z.mod_small in H2 by lia. split; [done|]. intros k Hk.
  destruct kind; simpl in *; repeat rewrite ?andb_true_iff, ?bool_decide_eq_true in *; lia.
Qed.

Lemma range_ok_intro p sz kind :
  is_u64 p → 0 < sz → p + sz ≤ 2 ^ 64 →
  check_ptr p kind = true → check_ptr (p + sz - 1) kind = true → range_ok p sz kind = true.
Proof.
  unfold is_u64, range_ok, u64. intros. rewrite Z.mod_small by lia. by apply andb_true_iff.
Qed.

Lemma check_ptr_user p kind :
  kind ≠ USERSPACE → check_ptr p kind = true → check_ptr p USERSPACE = true → False.
Proof.
  destruct kind; [done|..]; intros _; simpl;
    rewrite andb_true_iff, !bool_decide_eq_true; lia.
Qed.

(** The parts of a copy the guard admits, for a kernel [kind]. *)
Lemma memcpy_allowed_cases dst src sz kind :
  kind ≠ USERSPACE → memcpy_allowed dst src sz kind = true →
  (range_ok dst sz USERSPACE = true ∧ range_ok src sz kind = true) ∨
  (range_ok dst sz kind = true ∧ range_ok src sz USERSPACE = true) ∨
  (range_ok dst sz kind = true ∧ range_ok src sz kind = true).
Proof.
  unfold memcpy_allowed. intros _ [H1 H2]%andb_true_iff.
  apply andb_true_iff in H1 as [H0 H1].
  destruct (range_ok dst sz USERSPACE), (range_ok dst sz kind),
    (range_ok src sz USERSPACE), (range_ok src sz kind); naive_solver.
Qed.

End ranges.

(** ** Copies *)

Section copies.
Context `{!KernelText, !Locals} {OS : Type} `{!SockOS OS, !MiraLaws OS}.
Implicit Types (s : kst OS) (m : kmemory) (bs : list Z).

(** The state in which [check_mira] has nothing left to find out: no Mira, or
    a patched kernel and an empty socket pair. *)
Definition mira_ready s : Prop :=
  have_mira s = 0 ∨
  0 < have_mira s ∧ patched (os s) = true ∧ linked (os s) (mira_socket s) [].

(** [s'] is [s] with memory [m]; the sockets may have been used. *)
Definition mem_step s m s' : Prop :=
  kmem s' = m ∧ curthread s' = curthread s ∧ mira_ready s'.

Lemma rep_movsb_copies n dst src s bs :
  0 ≤ dst → 0 ≤ src → dst + Z.of_nat n ≤ 2 ^ 64 → src + Z.of_nat n ≤ 2 ^ 64 →
  dst + Z.of_nat n ≤ src ∨ src + Z.of_nat n ≤ dst →
  load_bytes (kmem s) src n = Some bs → mapped (kmem s) dst (Z.of_nat n) →
  rep_movsb n dst src s = Ok (tt, set_kmem (store_bytes (kmem s) dst bs) s).
Proof.
  revert dst src s bs. induction n as [|n IH]; intros dst src s bs Hd Hs Hd64 Hs64 Hdis Hl Hm.
  - simpl in Hl. simplify_eq. simpl. by destruct s.
  - simpl in Hl. apply bind_Some in Hl as (b & Hb & Hl).
    apply bind_Some in Hl as (bs' & Hl & [= <-]). simpl.
    unfold get, mbind at 1, M_bind at 1. rewrite Hb.
    destruct (Hm dst) as [? ->]; [lia|]. unfold put, mbind, M_bind.
    destruct n as [|n']; [simpl in Hl; simplify_eq; by destruct s|].
    unfold u64. rewrite !Z.mod_small by lia.
    rewrite (IH (dst + 1) (src + 1) _ bs'); [by destruct s|lia..| |].
    + simpl kmem. change (<[dst:=b]> (kmem s)) with (store_bytes (kmem s) dst [b]).
      rewrite load_store_ne; [done|simpl; lia].
    + simpl kmem. change (<[dst:=b]> (kmem s)) with (store_bytes (kmem s) dst [b]).
      apply mapped_store. eapply mapped_sub; [exact Hm|lia..].
Qed.

(** One round trip of a chunk through the socket pair. *)
Lemma mira_chunk dst src n s bs :
  patched (os s) = true → linked (os s) (mira_socket s) [] → 0 < n ≤ 64 →
  load_bytes (kmem s) src (Z.to_nat n) = Some bs → mapped (kmem s) dst n →
  ∃ s1 s2,
    sock_write (snd (mira_socket s)) src n s = Ok (n, s1) ∧
    mira_socket s1 = mira_socket s ∧
    sock_read (fst (mira_socket s1)) dst n s1 = Ok (n, s2) ∧
    kmem s2 = store_bytes (kmem s) dst bs ∧ curthread s2 = curthread s ∧
    have_mira s2 = have_mira s ∧ patched (os s2) = true ∧
    linked (os s2) (mira_socket s2) [].
Proof.
  intros Hp Hlk Hn Hl Hm. pose proof (load_bytes_length _ _ _ _ Hl) as Hlen.
  destruct (write_law (os s) (mira_socket s) [] (kmem s) src n bs) as (o1 & Hw & Hlk1 & Hp1);
    [done|by left|lia|done|simpl; lia|]. simpl in Hlk1.
  rewrite <- (app_nil_r bs) in Hlk1.
  destruct (read_law o1 (mira_socket s) [] (kmem s) dst n bs) as (o2 & Hr & Hlk2 & Hp2);
    [done|left; congruence|lia|lia|done|].
  exists (KSt (kmem s) (curthread s) (have_mira s) (mira_socket s) o1),
    (KSt (store_bytes (kmem s) dst bs) (curthread s) (have_mira s) (mira_socket s) o2).
  unfold sock_write, sock_read. rewrite Hw. simpl. rewrite Hr. split_and!; try done. congruence.
Qed.

Lemma kcpy_mira_loop_copies fuel dst src sz s bs :
  0 < have_mira s → patched (os s) = true → linked (os s) (mira_socket s) [] →
  0 ≤ dst → 0 ≤ src → 0 ≤ sz → dst + sz ≤ 2 ^ 64 → src + sz ≤ 2 ^ 64 →
  dst + sz ≤ src ∨ src + sz ≤ dst → (Z.to_nat sz < fuel)%nat →
  load_bytes (kmem s) src (Z.to_nat sz) = Some bs → mapped (kmem s) dst sz →
  ∃ s', kcpy_mira_loop fuel dst src sz s = Ok (0, s') ∧
        mem_step s (store_bytes (kmem s) dst bs) s'.
Proof.
  revert dst src sz s bs.
  induction fuel as [|fuel IH]; intros dst src sz s bs Hh Hp Hlk Hd Hs Hz Hd64 Hs64 Hdis Hf Hl Hm; [lia|].
  cbn [kcpy_mira_loop]. case_decide as Hsz.
  2: { replace sz with 0 in Hl by lia. simpl in Hl. simplify_eq.
       exists s. split; [done|]. split_and!; [done..|by right]. }
  cbv zeta. set (chk := if decide (64 < sz) then 64 else sz).
  assert (0 < chk ≤ 64 ∧ chk ≤ sz) as [Hc Hcs] by (unfold chk; case_decide; lia).
  pose proof (load_bytes_length _ _ _ _ Hl) as Hlen.
  destruct (mira_chunk dst src chk s (take (Z.to_nat chk) bs))
    as (s1 & s2 & Hw & Hs1 & Hr & Hk & Ht & Hh2 & Hp2 & Hlk2);
    [done..|eapply load_bytes_take; [done|lia]|eapply mapped_sub; [done|lia..]|].
  rewrite get_bind. erewrite bind_ok by exact Hw.
  rewrite decide_False by (intros E; by apply E).
  rewrite get_bind. erewrite bind_ok by exact Hr.
  rewrite decide_False by (intros E; by apply E).
  assert (length (take (Z.to_nat chk) bs) = Z.to_nat chk) as Htk by (rewrite length_take; lia).
  destruct (decide (chk = sz)) as [He|Hne].
  - (* the last chunk *)
    rewrite He, Z.sub_diag. destruct fuel as [|fuel]; [lia|].
    exists s2. split; [done|].
    split_and!; [|done|right; rewrite Hh2; split_and!; try done].
    rewrite Hk, take_ge by lia. done.
  - unfold u64. rewrite !Z.mod_small by lia.
    destruct (IH (dst + chk) (src + chk) (sz - chk) s2 (drop (Z.to_nat chk) bs))
      as (s' & E & Hk' & Ht' & Hr'); [congruence|done|done|lia..| | |].
    + rewrite Hk, load_store_ne by lia.
      replace (Z.to_nat (sz - chk)) with (Z.to_nat sz - Z.to_nat chk)%nat by lia.
      replace (src + chk) with (src + Z.of_nat (Z.to_nat chk)) by lia.
      apply load_bytes_drop; [done|lia].
    + rewrite Hk. apply mapped_store. eapply mapped_sub; [done|lia..].
    + exists s'. split; [done|]. split_and!; [|congruence|done].
      rewrite Hk', Hk. rewrite <- (take_drop (Z.to_nat chk) bs) at 3.
      rewrite store_bytes_app, Htk. by replace (Z.of_nat (Z.to_nat chk)) with chk by lia.
Qed.

Lemma kexec_kcpy dst src sz s s' :
  rep_movsb (Z.to_nat sz) dst src s = Ok (tt, s') →
  jbc_krw_kcall k_kcpy [dst; src; sz] s = Ok (0, s').
Proof.
  intros E. unfold jbc_krw_kcall, kexec, k_kcall, call_kernel. simpl.
  pose proof k_text_distinct. rewrite decide_False, decide_True by done.
  rewrite !bind_assoc. by erewrite bind_ok by exact E.
Qed.

Lemma get_td_spec s : jbc_krw_get_td s = Ok (curthread s, s).
Proof.
  unfold jbc_krw_get_td, jbc_krw_kcall, kexec, k_kcall, call_kernel. simpl.
  by rewrite decide_True.
Qed.

Lemma check_mira_ready s :
  mira_ready s → check_mira s = Ok (bool_decide (have_mira s ≠ 0), s).
Proof.
  intros Hr. unfold check_mira. rewrite get_bind.
  rewrite decide_False by (destruct Hr as [|[]]; lia). done.
Qed.

(** The specification of a copy the guard admits. *)
Lemma memcpy_spec dst src sz kind s bs :
  mira_ready s → is_u64 dst → is_u64 src → 0 < sz ≤ 2 ^ 47 →
  memcpy_allowed dst src sz kind = true → kind ≠ USERSPACE →
  dst + sz ≤ src ∨ src + sz ≤ dst →
  load_bytes (kmem s) src (Z.to_nat sz) = Some bs → mapped (kmem s) dst sz →
  ∃ s', jbc_krw_memcpy dst src sz kind s = Ok (0, s') ∧
        mem_step s (store_bytes (kmem s) dst bs) s'.
Proof.
  intros Hr Hd Hs Hz Ha Hk Hdis Hl Hm.
  assert (dst + sz ≤ 2 ^ 64 ∧ src + sz ≤ 2 ^ 64) as [Hd64 Hs64].
  { destruct (memcpy_allowed_cases _ _ _ _ Hk Ha) as [[H1 H2]|[[H1 H2]|[H1 H2]]];
      apply range_ok_inside in H1, H2; try done; lia. }
  unfold is_u64 in *. unfold jbc_krw_memcpy. rewrite decide_False, Ha by lia. cbn [negb].
  erewrite bind_ok by (by apply check_mira_ready).
  case_bool_decide as Hh.
  - destruct Hr as [|(? & ? & ?)]; [done|].
    eapply kcpy_mira_loop_copies; try done; lia.
  - exists (set_kmem (store_bytes (kmem s) dst bs) s). split; [|split_and!; [done..|]].
    + erewrite bind_ok; [done|]. apply kexec_kcpy.
      apply rep_movsb_copies; rewrite ?Z2Nat.id by lia; (done || lia).
    + by left.
Qed.

Lemma memcpy_refused dst src sz kind s :
  sz ≠ 0 → memcpy_allowed dst src sz kind = false →
  jbc_krw_memcpy dst src sz kind s = Ok (-1, s).
Proof. intros Hz Ha. unfold jbc_krw_memcpy. by rewrite decide_False, Ha. Qed.

(** What the first [check_mira] finds. *)
Lemma check_mira_fresh s td :
  have_mira s < 0 → curthread s = td → 2 ^ 47 ≤ td → mapped (kmem s) td 1 →
  addr_c + 1 ≤ 2 ^ 47 → mapped (kmem s) addr_c 1 →
  ∃ s', check_mira s = Ok (bool_decide (have_mira s' ≠ 0), s') ∧ mira_ready s' ∧
        curthread s' = td ∧ (have_mira s' ≠ 0 → patched (os s) = true) ∧
        (∀ k, k ≠ addr_c → kmem s' !! k = kmem s !! k) ∧
        (∀ k, is_Some (kmem s !! k) → is_Some (kmem s' !! k)).
Proof.
  intros Hh Ht Htd Hm Hc Hcm. unfold check_mira. rewrite get_bind, decide_True by done.
  rewrite bind_assoc. unfold do_check_mira. rewrite bind_assoc.
  destruct (os_socketpair (os s)) as [[r fds] o1] eqn:Esp.
  destruct (socketpair_law _ _ _ _ Esp) as [Hlk Hp1].
  erewrite bind_ok by (unfold sock_socketpair; by rewrite Esp).
  destruct (decide (r = 0)) as [->|Hr0].
  2: { rewrite decide_True by done.
       exists (KSt (kmem s) (curthread s) 0 fds o1). split_and!; try done. by left. }
  rewrite decide_False by (intros E; by apply E). specialize (Hlk eq_refl).
  rewrite bind_assoc. erewrite bind_ok by apply get_td_spec. rewrite bind_assoc, get_bind, bind_assoc.
  simpl curthread. rewrite Ht. simpl mira_socket.
  destruct (patched (os s)) eqn:Hp.
  - destruct (mapped_load (kmem s) td 1 1 Hm eq_refl) as [bs Hl].
    pose proof (load_bytes_length _ _ _ _ Hl) as Hlen.
    destruct (write_law o1 fds [] (kmem s) td 1 bs) as (o2 & Hw & Hlk2 & Hp2);
      [done|by left|lia|done|rewrite Hlen; simpl; lia|].
    erewrite bind_ok by (unfold sock_write; simpl; by rewrite Hw). rewrite decide_True by done.
    simpl in Hlk2. rewrite <- (app_nil_r bs) in Hlk2.
    destruct (read_law o2 fds [] (kmem s) addr_c 1 bs) as (o3 & Hrd & Hlk3 & Hp3);
      [done|by right|lia|lia|done|].
    rewrite bind_assoc, get_bind, bind_assoc. simpl mira_socket.
    erewrite bind_ok by (unfold sock_read; simpl; by rewrite Hrd). rewrite ret_bind.
    exists (KSt (store_bytes (kmem s) addr_c bs) td 1 fds o3). split_and!; try done.
    + right. simpl. split_and!; [lia|congruence|done].
    + intros k Hk. simpl. apply store_bytes_out. lia.
    + intros k Hk. simpl. rewrite store_bytes_lookup. case_decide; [|done].
      apply lookup_lt_is_Some. lia.
  - destruct (write_fault_law o1 (snd fds) (kmem s) td 1) as (o2 & Hw & Hp2); [congruence|lia..|].
    erewrite bind_ok by (unfold sock_write; simpl; by rewrite Hw).
    rewrite decide_False by lia. rewrite ret_bind.
    exists (KSt (kmem s) td 0 fds o2). split_and!; try done. by left.
Qed.

(** ** Copies between the payload and the kernel heap *)

Definition heap_at (p n : Z) : Prop := 0xffff800000000000 ≤ p ∧ p + n ≤ 0xffffffff00000000.
Definition user_at (a n : Z) : Prop := 0 ≤ a ∧ a + n ≤ 2 ^ 47.

Lemma range_ok_heap p n : 0 < n → heap_at p n → range_ok p n KERNEL_HEAP = true.
Proof.
  unfold heap_at. intros. apply range_ok_intro; unfold is_u64; simpl; try lia;
    apply andb_true_iff; rewrite !bool_decide_eq_true; lia.
Qed.
Lemma range_ok_user a n : 0 < n → user_at a n → range_ok a n USERSPACE = true.
Proof.
  unfold user_at. intros. apply range_ok_intro; unfold is_u64; simpl; try lia;
    apply bool_decide_eq_true; lia.
Qed.
Lemma range_ok_user_heap a n : 0 < n → user_at a n → range_ok a n KERNEL_HEAP = false.
Proof.
  unfold user_at, range_ok. intros. apply andb_false_iff. left. simpl.
  apply andb_false_iff. left. apply bool_decide_eq_false. lia.
Qed.
Lemma range_ok_heap_user p n : 0 < n → heap_at p n → range_ok p n USERSPACE = false.
Proof.
  unfold heap_at, range_ok. intros. apply andb_false_iff. left. simpl.
  apply bool_decide_eq_false. lia.
Qed.

Lemma allowed_out dst src n :
  0 < n → user_at dst n → heap_at src n → memcpy_allowed dst src n KERNEL_HEAP = true.
Proof.
  intros. unfold memcpy_allowed.
  by rewrite (range_ok_user dst), (range_ok_user_heap dst), (range_ok_heap src), (range_ok_heap_user src).
Qed.
Lemma allowed_in dst src n :
  0 < n → heap_at dst n → user_at src n → memcpy_allowed dst src n KERNEL_HEAP = true.
Proof.
  intros. unfold memcpy_allowed.
  by rewrite (range_ok_heap dst), (range_ok_heap_user dst), (range_ok_user src), (range_ok_user_heap src).
Qed.

Lemma refused_out dst src n :
  0 < n ≤ 2 ^ 47 → user_at dst n → is_u64 src → ¬ heap_at src n →
  memcpy_allowed dst src n KERNEL_HEAP = false.
Proof.
  intros Hn Hd Hs Hh. apply not_true_is_false. intros Ha.
  apply memcpy_allowed_cases in Ha as [[H1 H2]|[[H1 _]|[H1 _]]]; [| | |done];
    [|rewrite range_ok_user_heap in H1 by (done || lia); done..].
  apply Hh. apply range_ok_inside in H2 as [He Hk]; [|done|lia].
  pose proof (Hk src ltac:(lia)) as Hlo. pose proof (Hk (src + n - 1) ltac:(lia)) as Hhi.
  simpl in Hlo, Hhi. rewrite !andb_true_iff, !bool_decide_eq_true in Hlo, Hhi.
  unfold heap_at. lia.
Qed.

Lemma copy_out_spec dst src n s bs :
  mira_ready s → 0 < n → user_at dst n → heap_at src n →
  load_bytes (kmem s) src (Z.to_nat n) = Some bs → mapped (kmem s) dst n →
  ∃ s', jbc_krw_memcpy dst src n KERNEL_HEAP s = Ok (0, s') ∧
        mem_step s (store_bytes (kmem s) dst bs) s'.
Proof.
  intros Hr Hn Hu Hh Hl Hm. pose proof (allowed_out _ _ _ Hn Hu Hh).
  unfold user_at, heap_at in *. apply memcpy_spec; unfold is_u64; (done || lia).
Qed.
Lemma copy_in_spec dst src n s bs :
  mira_ready s → 0 < n → heap_at dst n → user_at src n → n ≤ 2 ^ 47 →
  load_bytes (kmem s) src (Z.to_nat n) = Some bs → mapped (kmem s) dst n →
  ∃ s', jbc_krw_memcpy dst src n KERNEL_HEAP s = Ok (0, s') ∧
        mem_step s (store_bytes (kmem s) dst bs) s'.
Proof.
  intros Hr Hn Hh Hu Hle Hl Hm. pose proof (allowed_in _ _ _ Hn Hh Hu).
  unfold user_at, heap_at in *. apply memcpy_spec; unfold is_u64; (done || lia).
Qed.

(** The word of [n] bytes at [a]. *)
Definition word_at (n : nat) m (a w : Z) : Prop :=
  load_bytes m a n = Some (le_bytes n w) ∧ 0 ≤ w < 2 ^ (n * 8).

Lemma word_at_le n m a w bs : word_at n m a w → load_bytes m a n = Some bs → le_word bs = w.
Proof.
  intros [Hl Hw] E. rewrite Hl in E. simplify_eq. apply le_word_bytes_small; [lia|done].
Qed.

Lemma word_at_intro n m a bs :
  load_bytes m a n = Some bs → bytes_ok bs → word_at n m a (le_word bs).
Proof.
  intros Hl Hb. pose proof (load_bytes_length _ _ _ _ Hl) as Hlen. split.
  - rewrite le_bytes_word; [done|lia|done].
  - rewrite <- Hlen. by apply le_word_range.
Qed.

Lemma word_at_stored n m a w :
  0 ≤ w < 2 ^ (Z.of_nat n * 8) → word_at n (store_bytes m a (le_bytes n w)) a w.
Proof.
  intros Hw. split; [|done]. apply load_store_same. rewrite length_le_bytes; lia.
Qed.

Lemma word_at_ne n m a w a' bs :
  a + Z.of_nat n ≤ a' ∨ a' + Z.of_nat (length bs) ≤ a →
  word_at n m a w → word_at n (store_bytes m a' bs) a w.
Proof. intros Hd [Hl Hw]. split; [|done]. by rewrite load_store_ne. Qed.

Lemma word_at_mapped n m a w : word_at n m a w → mapped m a (Z.of_nat n).
Proof. intros [Hl _]. apply load_bytes_mapped. by eexists. Qed.

Lemma word_at_fun n m a w w' : word_at n m a w → word_at n m a w' → w = w'.
Proof. intros H1 [H2 Hw]. rewrite <- (word_at_le _ _ _ _ _ H1 H2). apply le_word_bytes_small; lia. Qed.

Lemma load_word_spec n a s w :
  word_at n (kmem s) a w → load_word n a s = Ok (w, s).
Proof.
  intros Hw. unfold load_word. destruct Hw as [Hl Hw]. rewrite Hl.
  rewrite le_word_bytes_small; [done|lia|done].
Qed.
Lemma store_word_spec n a v s :
  mapped (kmem s) a (Z.of_nat n) →
  store_word n a v s = Ok (tt, set_kmem (store_bytes (kmem s) a (le_bytes (Z.of_nat n) v)) s).
Proof.
  intros Hm. unfold store_word. by destruct (proj2 (load_bytes_mapped _ _ _) Hm) as [bs ->].
Qed.

Lemma read64_spec p s w :
  mira_ready s → user_at addr_ans 8 → mapped (kmem s) addr_ans 8 →
  heap_at p 8 → word_at 8 (kmem s) p w →
  ∃ s', jbc_krw_read64 p KERNEL_HEAP s = Ok (w, s') ∧
        mem_step s (store_bytes (kmem s) addr_ans (le_bytes 8 w)) s'.
Proof.
  intros Hr Hu Hm Hh Hw.
  destruct (copy_out_spec addr_ans p 8 s (le_bytes 8 w)) as (s' & E & Hk & Ht & Hr');
    [done|lia|done..|apply Hw|done|].
  exists s'. split; [|done]. unfold jbc_krw_read64. erewrite bind_ok by exact E.
  rewrite decide_False by (intros E'; by apply E').
  apply load_word_spec. rewrite Hk. apply word_at_stored. apply Hw.
Qed.

(** A pointer the guard rejects reads as all ones. *)
Lemma read64_refused p s :
  memcpy_allowed addr_ans p 8 KERNEL_HEAP = false →
  jbc_krw_read64 p KERNEL_HEAP s = Ok (2 ^ 64 - 1, s).
Proof.
  intros Ha. unfold jbc_krw_read64.
  erewrite bind_ok by (by apply memcpy_refused). by rewrite decide_True.
Qed.

Lemma write64_spec p v s :
  mira_ready s → user_at addr_val 8 → mapped (kmem s) addr_val 8 →
  heap_at p 8 → mapped (kmem s) p 8 →
  ∃ s', jbc_krw_write64 p KERNEL_HEAP v s = Ok (0, s') ∧
        mem_step s (store_bytes (store_bytes (kmem s) addr_val (le_bytes 8 v)) p (le_bytes 8 v)) s'.
Proof.
  intros Hr Hu Hm Hh Hp. unfold jbc_krw_write64.
  erewrite bind_ok by (by apply store_word_spec).
  destruct (copy_in_spec p addr_val 8 (set_kmem (store_bytes (kmem s) addr_val (le_bytes 8 v)) s)
              (le_bytes 8 v)) as (s' & E & Hk & Ht & Hr'); [done|lia|done|done|lia| | |].
  - cbn [kmem set_kmem]. apply load_store_same. by rewrite length_le_bytes.
  - cbn [kmem set_kmem]. by apply mapped_store.
  - exists s'. split; [exact E|]. by split_and!.
Qed.

End copies.
