(* ===== verification/KernelRWSpec.v ===== *)
(** * Properties of src/Payload/ps4-libjbc/kernelrw.c

    What [jbc_krw_memcpy] and its clients guarantee, on both of its paths, and
    a concrete pair of sockets that obeys the laws they rest on. *)

From S2P Require Import Prelude KMem KernelRW KernelRWFacts.
Import Krw.

(** ** A concrete socket pair *)

Module MiraWorld.

Record t : Type := World {
  has_sockets : bool;   (** [socketpair] succeeds *)
  is_patched : bool;    (** Mira is loaded *)
  is_open : bool;       (** the pair exists *)
  queue : list Z        (** bytes between its ends *)
}.

Definition fd0 : Z := 3.
Definition fd1 : Z := 4.

Definition socketpair (w : t) : Z * (Z * Z) * t :=
  if has_sockets w then (0, (fd0, fd1), World true (is_patched w) true [])
  else (-1, (0, 0), w).

Definition reachable (w : t) (a n : Z) : bool := is_patched w || bool_decide (a + n ≤ 2 ^ 47).

Definition write (fd : Z) (m : kmemory) (src n : Z) (w : t) : Z * t :=
  if is_open w && bool_decide (fd = fd1) && reachable w src n then
    match load_bytes m src (Z.to_nat n) with
    | Some bs => (n, World (has_sockets w) (is_patched w) true (queue w ++ bs))
    | None => (-1, w)
    end
  else (-1, w).

Definition read (fd : Z) (m : kmemory) (dst n : Z) (w : t) : Z * kmemory * t :=
  if is_open w && bool_decide (fd = fd0) && reachable w dst n then
    let k := (Z.to_nat n `min` length (queue w))%nat in
    match load_bytes m dst k with
    | Some _ => (Z.of_nat k, store_bytes m dst (take k (queue w)),
                 World (has_sockets w) (is_patched w) true (drop k (queue w)))
    | None => (-1, m, w)
    end
  else (-1, m, w).

#[global] Instance sockos : SockOS t := {
  os_socketpair := socketpair; os_write := write; os_read := read
}.

#[global] Program Instance laws : MiraLaws t := {
  linked w fds q := is_open w = true ∧ fds = (fd0, fd1) ∧ queue w = q;
  patched := is_patched
}.
Next Obligation.
  intros o r fds o' E. simpl in *. unfold socketpair in E.
  case_match; simplify_eq; split; done.
Qed.
Next Obligation.
  intros o fds q m src n bs (Ho & -> & Hq) Hp Hn Hl Hs. simpl in *. unfold write, reachable.
  rewrite Ho. assert (is_patched o || bool_decide (src + n ≤ 2 ^ 47) = true) as ->.
  { destruct Hp as [->|]; [done|]. rewrite bool_decide_true by done. apply orb_true_r. }
  simpl. rewrite Hl. eexists. split; [done|]. by rewrite Hq.
Qed.
Next Obligation.
  intros o fd m src n Hp Hs Hn. simpl in *. unfold write, reachable. rewrite Hp.
  rewrite (bool_decide_false (src + n ≤ 2 ^ 47)) by lia. rewrite andb_false_r.
  by eexists.
Qed.
Next Obligation.
  intros o fds q m dst n bs (Ho & -> & Hq) Hp Hn Hl Hm. simpl in *. unfold read, reachable.
  rewrite Ho. assert (is_patched o || bool_decide (dst + n ≤ 2 ^ 47) = true) as ->.
  { destruct Hp as [->|]; [done|]. rewrite bool_decide_true by done. apply orb_true_r. }
  simpl. replace (Z.to_nat n `min` length (queue o))%nat with (length bs)
    by (rewrite Hq, length_app; lia).
  destruct (mapped_load m dst n (length bs) Hm) as [bs' ->]; [lia|].
  rewrite Hl, Hq, take_app_length, drop_app_length. eexists. by split; [reflexivity|].
Qed.

End MiraWorld.

(** A console for the witnesses: a user page at 0x1000, the locals at 0x2000,
    kernel heap at 0xffff800000010000. *)
Module Console.

#[global] Instance text : KernelText := { k_get_td := 0x400100; k_kcpy := 0x400110; k_text_distinct := ltac:(done) }.
#[global] Instance locals : Locals := {
  addr_c := 0x2000; addr_ans := 0x2008; addr_val := 0x2010; addr_pid := 0x2018;
  addr_prison0 := 0x2020; addr_rootvnode := 0x2028; addr_cred := 0x2030; addr_root_cred := 0x2080
}.

Definition heap : Z := 0xffff800000010000.

Definition memory : kmemory :=
  store_bytes (store_bytes (store_bytes ∅ 0x1000 (replicate 16 7)) 0x2000 (replicate 208 0))
    heap (replicate 16 9).

(** Before the first call; without Mira; with Mira. *)
Definition fresh (mira : bool) : kst MiraWorld.t :=
  KSt memory heap (-1) (0, 0) (MiraWorld.World true mira false []).
Definition plain : kst MiraWorld.t :=
  KSt memory heap 0 (3, 4) (MiraWorld.World true false true []).
Definition with_mira : kst MiraWorld.t :=
  KSt memory heap 1 (3, 4) (MiraWorld.World true true true []).

Lemma plain_ready : mira_ready plain.
Proof. by left. Qed.
Lemma with_mira_ready : mira_ready with_mira.
Proof. right. by split_and!. Qed.

Lemma mapped_by_load m a n (k : nat) bs : load_bytes m a k = Some bs → n = Z.of_nat k → mapped m a n.
Proof. intros E ->. apply load_bytes_mapped. by eexists. Qed.

End Console.

(** ** The guard *)

(** Every address of [p, p + sz) is of the given kind. *)
Definition all_of (p sz : Z) (kind : KmemKind) : Prop :=
  p + sz ≤ 2 ^ 64 ∧ ∀ k, p ≤ k < p + sz → check_ptr k kind = true.

Lemma range_ok_iff p sz kind :
  is_u64 p → 0 < sz ≤ 2 ^ 64 - 2 ^ 47 → range_ok p sz kind = true ↔ all_of p sz kind.
Proof.
  intros Hp Hsz. split; [by apply range_ok_inside|].
  intros [He Ha]. apply range_ok_intro; [done|lia|done|apply Ha; lia..].
Qed.

(** C22: the guard of [jbc_krw_memcpy] for sizes up to 2^64 - 2^47. A copy it
    lets through has each side wholly in user space or wholly in the asked
    kernel region, and not both sides in user space; every other copy returns
    -1 and changes nothing. *)
Theorem memcpy_guard `{!KernelText, !Locals} {OS} `{!SockOS OS} (dst src sz : Z) (kind : KmemKind)
    (s : kst OS) (Hd : is_u64 dst) (Hs : is_u64 src) (Hsz : 0 < sz ≤ 2 ^ 64 - 2 ^ 47) :
  (memcpy_allowed dst src sz kind = true ↔
    kind ≠ USERSPACE ∧
    ((all_of dst sz USERSPACE ∧ all_of src sz kind) ∨
     (all_of dst sz kind ∧ all_of src sz USERSPACE) ∨
     (all_of dst sz kind ∧ all_of src sz kind))) ∧
  (memcpy_allowed dst src sz kind = false → jbc_krw_memcpy dst src sz kind s = Ok (-1, s)).
Proof.
  split; [|intros; apply memcpy_refused; [lia|done]].
  rewrite <- !range_ok_iff by done. split.
  - intros Ha. assert (kind ≠ USERSPACE) as Hk.
    { intros ->. unfold memcpy_allowed in Ha.
      by destruct (range_ok dst sz USERSPACE), (range_ok src sz USERSPACE). }
    split; [done|]. by apply memcpy_allowed_cases.
  - intros [Hk Hc]. unfold memcpy_allowed.
    assert (∀ p, is_u64 p → range_ok p sz kind = true → range_ok p sz USERSPACE = false) as Hx.
    { intros p Hp [H1 _]%andb_true_iff. apply not_true_is_false. intros [H2 _]%andb_true_iff.
      by eapply check_ptr_user. }
    destruct Hc as [[H1 H2]|[[H1 H2]|[H1 H2]]]; rewrite H1, H2, ?(Hx dst), ?(Hx src) by done;
      simpl; by rewrite ?orb_true_r.
Qed.

Lemma memcpy_guard_witness :
  memcpy_allowed 0x1000 0x1008 8 KERNEL_HEAP = false ∧
  jbc_krw_memcpy 0x1000 0x1008 8 KERNEL_HEAP Console.plain = Ok (-1, Console.plain).
Proof.
  split; [done|].
  by apply (memcpy_guard 0x1000 0x1008 8 KERNEL_HEAP Console.plain).
Defined.

(** A size within 2^47 of 2^64 defeats the guard: it looks at the first and
    the last byte only, and the last byte of such a range lies just below the
    first. The admitted range then leaves its region. *)
Theorem memcpy_guard_wraps (dst src : Z) (Hd : 8 < dst < 2 ^ 47)
    (Hs : 0xffff800000000000 + 8 < src < 0xffffffff00000000) :
  memcpy_allowed dst src (2 ^ 64 - 8) KERNEL_HEAP = true ∧
  ∃ k, dst ≤ k < dst + (2 ^ 64 - 8) ∧ check_ptr k USERSPACE = false.
Proof.
  split.
  - assert (range_ok dst (2 ^ 64 - 8) USERSPACE = true) as H1.
    { unfold range_ok, u64.
      replace (dst + (2 ^ 64 - 8) - 1) with ((dst - 9) + 1 * 2 ^ 64) by lia.
      rewrite Z.mod_add, Z.mod_small by lia. simpl.
      apply andb_true_iff; rewrite !bool_decide_eq_true; lia. }
    assert (range_ok src (2 ^ 64 - 8) KERNEL_HEAP = true) as H2.
    { unfold range_ok, u64.
      replace (src + (2 ^ 64 - 8) - 1) with ((src - 9) + 1 * 2 ^ 64) by lia.
      rewrite Z.mod_add, Z.mod_small by lia. simpl.
      rewrite !andb_true_iff, !bool_decide_eq_true; lia. }
    assert (range_ok src (2 ^ 64 - 8) USERSPACE = false) as H3.
    { unfold range_ok. simpl. rewrite (bool_decide_false (src < _)) by lia. done. }
    unfold memcpy_allowed. rewrite H1, H2, H3. done.
  - exists (2 ^ 47). split; [lia|]. done.
Qed.

Lemma memcpy_guard_wraps_witness :
  memcpy_allowed 0x1000 0xffff800000001000 (2 ^ 64 - 8) KERNEL_HEAP = true.
Proof. apply (memcpy_guard_wraps 0x1000 0xffff800000001000); lia. Defined.

(** ** Copies *)

(** C2: an admitted copy of mapped memory between disjoint ranges copies exactly
    the bytes asked for, writes nothing else, and leaves the module ready for the
    next call; in 64-byte chunks through the sockets or by [k_kcpy], it makes no
    difference. *)
Theorem memcpy_copies_exactly `{!KernelText, !Locals} {OS} `{!SockOS OS, !MiraLaws OS}
    (dst src sz : Z) (kind : KmemKind) (s : kst OS) (bs : list Z) (Hready : mira_ready s)
    (Hkind : kind ≠ USERSPACE) (Hrange : is_u64 dst ∧ is_u64 src ∧ 0 < sz ≤ 2 ^ 47)
    (Hguard : memcpy_allowed dst src sz kind = true)
    (Hdisjoint : dst + sz ≤ src ∨ src + sz ≤ dst)
    (Hsrc : load_bytes (kmem s) src (Z.to_nat sz) = Some bs) (Hdst : mapped (kmem s) dst sz) :
  ∃ s', jbc_krw_memcpy dst src sz kind s = Ok (0, s') ∧
        load_bytes (kmem s') dst (Z.to_nat sz) = Some bs ∧
        (∀ k, ¬ (dst ≤ k < dst + sz) → kmem s' !! k = kmem s !! k) ∧
        curthread s' = curthread s ∧ mira_ready s'.
Proof.
  destruct Hrange as (Hd & Hs & Hsz).
  destruct (memcpy_spec dst src sz kind s bs) as (s' & E & Hk & Ht & Hr); try done.
  pose proof (load_bytes_length _ _ _ _ Hsrc) as Hlen.
  exists s'. split; [done|]. rewrite Hk. split_and!; try done.
  - by apply load_store_same.
  - intros k Hout. apply store_bytes_out. lia.
Qed.

Lemma memcpy_copies_exactly_witness :
  ∃ s', jbc_krw_memcpy 0x1000 Console.heap 8 KERNEL_HEAP Console.with_mira = Ok (0, s') ∧
        load_bytes (kmem s') 0x1000 8 = Some (replicate 8 9) ∧
        (∀ k, ¬ (0x1000 ≤ k < 0x1000 + 8) → kmem s' !! k = kmem Console.with_mira !! k) ∧
        curthread s' = curthread Console.with_mira ∧ mira_ready s'.
Proof.
  apply (memcpy_copies_exactly 0x1000 Console.heap 8 KERNEL_HEAP Console.with_mira).
  - apply Console.with_mira_ready.
  - done.
  - unfold is_u64, Console.heap. lia.
  - vm_compute. reflexivity.
  - left. unfold Console.heap. lia.
  - vm_compute. reflexivity.
  - eapply (Console.mapped_by_load _ _ _ 8); [vm_compute; reflexivity|lia].
Defined.

(** The two paths agree. From the same memory, a console with Mira
    and one without return the same code and leave the same memory. *)
Theorem mira_path_equals_kexec_path `{!KernelText, !Locals} {OS} `{!SockOS OS, !MiraLaws OS}
    (dst src sz : Z) (kind : KmemKind) (s1 s2 : kst OS)
    (Hmem : kmem s1 = kmem s2)
    (Hmira : 0 < have_mira s1 ∧ patched (os s1) = true ∧ linked (os s1) (mira_socket s1) [])
    (Hplain : have_mira s2 = 0)
    (Hkind : kind ≠ USERSPACE) (Hrange : is_u64 dst ∧ is_u64 src ∧ 0 ≤ sz ≤ 2 ^ 47)
    (Hdisjoint : dst + sz ≤ src ∨ src + sz ≤ dst)
    (Hmapped : mapped (kmem s1) dst sz ∧ mapped (kmem s1) src sz) :
  ∃ r s1' s2', jbc_krw_memcpy dst src sz kind s1 = Ok (r, s1') ∧
               jbc_krw_memcpy dst src sz kind s2 = Ok (r, s2') ∧ kmem s1' = kmem s2'.
Proof.
  destruct Hrange as (Hd & Hs & Hsz), Hmapped as [Hmd Hms].
  destruct (decide (sz = 0)) as [->|Hnz]; [by exists 0, s1, s2|].
  destruct (memcpy_allowed dst src sz kind) eqn:Ha.
  2: { exists (-1), s1, s2. by rewrite !memcpy_refused. }
  destruct (mapped_load (kmem s1) src sz (Z.to_nat sz) Hms) as [bs Hl]; [lia|].
  destruct (memcpy_spec dst src sz kind s1 bs) as (s1' & E1 & Hk1 & _);
    [by right|done|done|lia|done..|].
  destruct (memcpy_spec dst src sz kind s2 bs) as (s2' & E2 & Hk2 & _);
    [by left|done|done|lia|done|done|done|by rewrite <- Hmem|by rewrite <- Hmem|].
  exists 0, s1', s2'. split_and!; [done|done|]. by rewrite Hk1, Hk2, Hmem.
Qed.

Lemma mira_path_equals_kexec_path_witness :
  ∃ r s1' s2',
    jbc_krw_memcpy 0x1000 Console.heap 16 KERNEL_HEAP Console.with_mira = Ok (r, s1') ∧
    jbc_krw_memcpy 0x1000 Console.heap 16 KERNEL_HEAP Console.plain = Ok (r, s2') ∧
    kmem s1' = kmem s2'.
Proof.
  apply mira_path_equals_kexec_path.
  - done.
  - by split_and!.
  - done.
  - done.
  - unfold is_u64, Console.heap. lia.
  - left. unfold Console.heap. lia.
  - split; (eapply (Console.mapped_by_load _ _ _ 16); [vm_compute; reflexivity|lia]).
Defined.

(** The first call settles whether Mira is loaded: it reports Mira only on a
    kernel that is patched, touches only its own local, and leaves a state in
    which asking again answers the same and changes nothing. *)
Theorem check_mira_settles `{!KernelText, !Locals} {OS} `{!SockOS OS, !MiraLaws OS} (s : kst OS)
    (Hfresh : have_mira s < 0) (Htd : 2 ^ 47 ≤ curthread s ∧ mapped (kmem s) (curthread s) 1)
    (Hc : addr_c + 1 ≤ 2 ^ 47 ∧ mapped (kmem s) addr_c 1) :
  ∃ b s', check_mira s = Ok (b, s') ∧ (b = true → patched (os s) = true) ∧
          (∀ k, k ≠ addr_c → kmem s' !! k = kmem s !! k) ∧
          mira_ready s' ∧ check_mira s' = Ok (b, s').
Proof.
  destruct Htd as [Ht Hmt], Hc as [Hc Hmc].
  destruct (check_mira_fresh s (curthread s)) as (s' & E & Hr & Htd' & Hp & Hfr & _); try done.
  eexists _, s'. split; [exact E|]. split_and!; try done.
  - intros Hb%bool_decide_eq_true. by apply Hp.
  - by apply check_mira_ready.
Qed.

Lemma check_mira_settles_witness :
  ∃ b s', check_mira (Console.fresh true) = Ok (b, s') ∧
          (b = true → patched (os (Console.fresh true)) = true) ∧
          (∀ k, k ≠ addr_c → kmem s' !! k = kmem (Console.fresh true) !! k) ∧
          mira_ready s' ∧ check_mira s' = Ok (b, s').
Proof.
  apply check_mira_settles; [done|split|split].
  - cbn [Console.fresh curthread]. unfold Console.heap. lia.
  - eapply (Console.mapped_by_load _ _ _ 1); [vm_compute; reflexivity|lia].
  - simpl. lia.
  - eapply (Console.mapped_by_load _ _ _ 1); [vm_compute; reflexivity|lia].
Defined.

(** On the kernel heap [jbc_krw_read64] reads back what [jbc_krw_write64]
    wrote, and between them only the two locals and the word itself have
    changed. *)
Theorem write64_read64 `{!KernelText, !Locals} {OS} `{!SockOS OS, !MiraLaws OS} (s : kst OS) (p v : Z)
    (Hready : mira_ready s) (Hlocals : user_at addr_ans 8 ∧ user_at addr_val 8)
    (Hmapped : mapped (kmem s) addr_ans 8 ∧ mapped (kmem s) addr_val 8)
    (Hp : heap_at p 8 ∧ mapped (kmem s) p 8) (Hv : is_u64 v) :
  ∃ s1 s2, jbc_krw_write64 p KERNEL_HEAP v s = Ok (0, s1) ∧
           jbc_krw_read64 p KERNEL_HEAP s1 = Ok (v, s2) ∧ mira_ready s2 ∧
           ∀ k, ¬ (p ≤ k < p + 8) → ¬ (addr_ans ≤ k < addr_ans + 8) →
                ¬ (addr_val ≤ k < addr_val + 8) → kmem s2 !! k = kmem s !! k.
Proof.
  destruct Hlocals as [Hua Huv], Hmapped as [Hma Hmv], Hp as [Hh Hmp].
  destruct (write64_spec p v s) as (s1 & E1 & Hk1 & Ht1 & Hr1); try done.
  destruct (read64_spec p s1 v) as (s2 & E2 & Hk2 & Ht2 & Hr2); try done.
  - rewrite Hk1. by do 2 apply mapped_store.
  - rewrite Hk1. apply word_at_stored. exact Hv.
  - exists s1, s2. split_and!; try done. intros k H1 H2 H3.
    rewrite Hk2, Hk1. by rewrite !store_bytes_out by (rewrite length_le_bytes; lia).
Qed.

Lemma write64_read64_witness :
  ∃ s1 s2, jbc_krw_write64 Console.heap KERNEL_HEAP 0x1122334455667788 Console.with_mira = Ok (0, s1) ∧
           jbc_krw_read64 Console.heap KERNEL_HEAP s1 = Ok (0x1122334455667788, s2) ∧ mira_ready s2 ∧
           ∀ k, ¬ (Console.heap ≤ k < Console.heap + 8) → ¬ (addr_ans ≤ k < addr_ans + 8) →
                ¬ (addr_val ≤ k < addr_val + 8) → kmem s2 !! k = kmem Console.with_mira !! k.
Proof.
  apply write64_read64.
  - apply Console.with_mira_ready.
  - split; unfold user_at; simpl; lia.
  - split; (eapply (Console.mapped_by_load _ _ _ 8); [vm_compute; reflexivity|lia]).
  - split; [unfold heap_at, Console.heap; lia|].
    eapply (Console.mapped_by_load _ _ _ 8); [vm_compute; reflexivity|lia].
  - unfold is_u64. lia.
Defined.
