(* ===== verification/CStruct.v ===== *)
(** * Layout of C structures

    The System V x86-64 rules for the size, the alignment and the member offsets
    of C types, so that the offsets the payload hard-codes can be compared with
    the declarations they come from. *)

From S2P Require Import Prelude.
From Stdlib Require Import String.
#[local] Close Scope string_scope.

(** A C object type: a scalar of the given size (aligned to its size), an array,
    a structure, a union. *)
Inductive cty : Type :=
  | CScalar (size : Z)
  | CArray (n : Z) (t : cty)
  | CRecord (fs : list (string * cty))
  | CUnion (fs : list (string * cty)).

Definition round_up (n a : Z) : Z := (n + (a - 1)) `div` a * a.

Fixpoint align_of (t : cty) : Z :=
  match t with
  | CScalar n => n
  | CArray _ t => align_of t
  | CRecord fs | CUnion fs =>
      (fix go (fs : list (string * cty)) : Z :=
         match fs with [] => 1 | (_, t) :: fs => Z.max (align_of t) (go fs) end) fs
  end.

Fixpoint size_of (t : cty) : Z :=
  match t with
  | CScalar n => n
  | CArray n t => n * size_of t
  | CRecord fs =>
      round_up ((fix go (at_ : Z) (fs : list (string * cty)) : Z :=
         match fs with
         | [] => at_
         | (_, t) :: fs => go (round_up at_ (align_of t) + size_of t) fs
         end) 0 fs) (align_of t)
  | CUnion fs =>
      round_up ((fix go (fs : list (string * cty)) : Z :=
         match fs with [] => 0 | (_, t) :: fs => Z.max (size_of t) (go fs) end) fs) (align_of t)
  end.

(** The members of a structure with their offsets, from [at_] on. *)
Fixpoint members_from (at_ : Z) (fs : list (string * cty)) : list (string * Z * cty) :=
  match fs with
  | [] => []
  | (x, t) :: fs =>
      let o := round_up at_ (align_of t) in
      (x, o, t) :: members_from (o + size_of t) fs
  end.

Definition members (t : cty) : list (string * Z * cty) :=
  match t with
  | CRecord fs => members_from 0 fs
  | CUnion fs => map (λ '(x, t), (x, 0, t)) fs
  | _ => []
  end.

Definition offset_of (t : cty) (x : string) : option Z :=
  match List.find (λ '(y, _, _), String.eqb y x) (members t) with
  | Some (_, o, _) => Some o
  | None => None
  end.

(** The scalar types of the payload's headers. *)
Definition c_char : cty := CScalar 1.
Definition c_u8 : cty := CScalar 1.
Definition c_u16 : cty := CScalar 2.
Definition c_short : cty := CScalar 2.
Definition c_int : cty := CScalar 4.
Definition c_u32 : cty := CScalar 4.
Definition c_long : cty := CScalar 8.
Definition c_u64 : cty := CScalar 8.
Definition c_ptr : cty := CScalar 8.
Definition c_size_t : cty := CScalar 8.

(** ** Lemmas *)

Lemma round_up_spec n a : 0 < a → n ≤ round_up n a < n + a ∧ (a | round_up n a).
Proof.
  intros Ha. unfold round_up. pose proof (Z.div_mod (n + (a - 1)) a ltac:(lia)).
  pose proof (Z.mod_pos_bound (n + (a - 1)) a Ha). split; [lia|]. apply Z.divide_factor_r.
Qed.

Lemma round_up_id n a : 0 < a → (a | n) → round_up n a = n.
Proof.
  intros Ha [k ->]. unfold round_up. rewrite Z.div_add_l by lia.
  rewrite Z.div_small by lia. lia.
Qed.

(** Every scalar in the type has a positive size, and arrays are not negative. *)
Fixpoint cty_ok (t : cty) : Prop :=
  match t with
  | CScalar n => 0 < n
  | CArray n t => 0 ≤ n ∧ cty_ok t
  | CRecord fs | CUnion fs =>
      (fix go (fs : list (string * cty)) : Prop :=
         match fs with [] => True | (_, t) :: fs => cty_ok t ∧ go fs end) fs
  end.

Fixpoint fields_ok (fs : list (string * cty)) : Prop :=
  match fs with [] => True | (_, t) :: fs => cty_ok t ∧ fields_ok fs end.

Lemma fields_align_pos fs :
  1 ≤ (fix go (fs : list (string * cty)) : Z :=
         match fs with [] => 1 | (_, t) :: fs => Z.max (align_of t) (go fs) end) fs.
Proof. induction fs as [|[x t] fs IH]; simpl; lia. Qed.

Lemma align_of_pos t : cty_ok t → 0 < align_of t.
Proof.
  induction t as [n|n t IH|fs|fs]; simpl; [done| |..].
  - intros [_ ?]. auto.
  - intros _. pose proof (fields_align_pos fs). lia.
  - intros _. pose proof (fields_align_pos fs). lia.
Qed.
