(* ===== verification/Jailbreak.v ===== *)
(** * Credentials: src/Payload/ps4-libjbc/jailbreak.c

    Finding process 1 on the kernel's process list, and reading, replacing and
    elevating the credentials of the calling process, all through
    [jbc_krw_memcpy]. *)

From S2P Require Import Prelude KMem CStruct KernelRW.
Import Krw.
#[local] Open Scope string_scope.
#[local] Open Scope Z_scope.

(** ** [struct jbc_cred] *)

Definition jbc_cred : cty := CRecord [
  ("uid", c_u32); ("ruid", c_u32); ("svuid", c_u32); ("rgid", c_u32); ("svgid", c_u32);
  ("prison", c_u64); ("cdir", c_u64); ("rdir", c_u64); ("jdir", c_u64);
  ("sceProcType", c_u64); ("sonyCred", c_u64); ("sceProcCap", c_u64)].

Definition uid : Z := Eval vm_compute in default 0 (offset_of jbc_cred "uid").
Definition ruid : Z := Eval vm_compute in default 0 (offset_of jbc_cred "ruid").
Definition svuid : Z := Eval vm_compute in default 0 (offset_of jbc_cred "svuid").
Definition rgid : Z := Eval vm_compute in default 0 (offset_of jbc_cred "rgid").
Definition svgid : Z := Eval vm_compute in default 0 (offset_of jbc_cred "svgid").
Definition prison : Z := Eval vm_compute in default 0 (offset_of jbc_cred "prison").
Definition cdir : Z := Eval vm_compute in default 0 (offset_of jbc_cred "cdir").
Definition rdir : Z := Eval vm_compute in default 0 (offset_of jbc_cred "rdir").
Definition jdir : Z := Eval vm_compute in default 0 (offset_of jbc_cred "jdir").
Definition sceProcType : Z := Eval vm_compute in default 0 (offset_of jbc_cred "sceProcType").
Definition sonyCred : Z := Eval vm_compute in default 0 (offset_of jbc_cred "sonyCred").
Definition sceProcCap : Z := Eval vm_compute in default 0 (offset_of jbc_cred "sceProcCap").
Definition sizeof_jbc_cred : Z := Eval vm_compute in size_of jbc_cred.

(** Short-circuit [a || b || ...] of calls that return an error code. *)
Fixpoint any_fails {S} (l : list (M S Z)) : M S bool :=
  match l with
  | [] => mret false
  | m :: l => r ← m; if decide (r ≠ 0) then mret true else any_fails l
  end.

Module Jbc.
Section jbc.
Context `{!KernelText, !Locals} {OS : Type} `{!SockOS OS}.

#[local] Abbreviation K := (M (kst OS)).

(** The loop of [resolve]; [None] is its [restart] label, [Some proc] the head of
    the [for]. *)
Fixpoint find_pid1 (fuel : nat) (at_ : option Z) : K Z :=
  match fuel with
  | 0%nat => out_of_fuel
  | S fuel =>
      proc ← match at_ with
             | Some proc => mret proc
             | None =>
                 td ← jbc_krw_get_td;
                 jbc_krw_read64 (u64 (td + 8)) KERNEL_HEAP
             end;
      r ← jbc_krw_memcpy addr_pid (u64 (proc + 0xb0)) 4 KERNEL_HEAP;
      if decide (r ≠ 0) then find_pid1 fuel None
      else
        pid ← load_word 4 addr_pid;
        if decide (i32 pid = 1) then mret proc
        else
          proc2 ← jbc_krw_read64 proc KERNEL_HEAP;
          proc1 ← jbc_krw_read64 (u64 (proc2 + 8)) KERNEL_HEAP;
          if decide (proc1 ≠ proc) then find_pid1 fuel None
          else find_pid1 fuel (Some proc2)
  end.

Definition resolve (fuel : nat) : K Z :=
  proc ← find_pid1 fuel None;
  pid1_ucred ← jbc_krw_read64 (u64 (proc + 0x40)) KERNEL_HEAP;
  pid1_fd ← jbc_krw_read64 (u64 (proc + 0x48)) KERNEL_HEAP;
  r ← jbc_krw_memcpy addr_prison0 (u64 (pid1_ucred + 0x30)) 8 KERNEL_HEAP;
  if decide (r ≠ 0) then mret (-1)
  else
    r ← jbc_krw_memcpy addr_rootvnode (u64 (pid1_fd + 0x18)) 8 KERNEL_HEAP;
    if decide (r ≠ 0) then
      _ ← store_word 8 addr_prison0 0;
      mret (-1)
    else mret 0.

Definition jbc_get_prison0 (fuel : nat) : K Z :=
  p ← load_word 8 addr_prison0;
  _ ← (if decide (p = 0) then resolve fuel else mret 0);
  load_word 8 addr_prison0.

Definition jbc_get_rootvnode (fuel : nat) : K Z :=
  v ← load_word 8 addr_rootvnode;
  _ ← (if decide (v = 0) then resolve fuel else mret 0);
  load_word 8 addr_rootvnode.

Definition ppcopyout (u1 u2 k : Z) : K Z := jbc_krw_memcpy u1 k (u64 (u2 - u1)) KERNEL_HEAP.
Definition ppcopyin (u1 u2 k : Z) : K Z := jbc_krw_memcpy k u1 (u64 (u2 - u1)) KERNEL_HEAP.

(** The credential and the file table of the calling process. *)
Definition cred_pointers : K (Z * Z) :=
  td ← jbc_krw_get_td;
  proc ← jbc_krw_read64 (u64 (td + 8)) KERNEL_HEAP;
  ucred ← jbc_krw_read64 (u64 (proc + 0x40)) KERNEL_HEAP;
  fd ← jbc_krw_read64 (u64 (proc + 0x48)) KERNEL_HEAP;
  mret (ucred, fd).

Definition jbc_get_cred (ans : Z) : K Z :=
  '(ucred, fd) ← cred_pointers;
  failed ← any_fails [
    ppcopyout (ans + uid) (4 + (ans + svuid)) (u64 (ucred + 4));
    ppcopyout (ans + rgid) (4 + (ans + svgid)) (u64 (ucred + 20));
    ppcopyout (ans + prison) (8 + (ans + prison)) (u64 (ucred + 0x30));
    ppcopyout (ans + cdir) (8 + (ans + jdir)) (u64 (fd + 0x10));
    ppcopyout (ans + sceProcType) (8 + (ans + sceProcCap)) (u64 (ucred + 88))];
  mret (if failed : bool then -1 else 0).

Definition jbc_set_cred (ans : Z) : K Z :=
  '(ucred, fd) ← cred_pointers;
  failed ← any_fails [
    ppcopyin (ans + uid) (4 + (ans + svuid)) (u64 (ucred + 4));
    ppcopyin (ans + rgid) (4 + (ans + svgid)) (u64 (ucred + 20));
    ppcopyin (ans + prison) (8 + (ans + prison)) (u64 (ucred + 0x30));
    ppcopyin (ans + cdir) (8 + (ans + jdir)) (u64 (fd + 0x10));
    ppcopyin (ans + sceProcType) (8 + (ans + sceProcCap)) (u64 (ucred + 88))];
  mret (if failed : bool then -1 else 0).

Definition jbc_jailbreak_cred (fuel : nat) (ans : Z) : K Z :=
  prison0 ← jbc_get_prison0 fuel;
  if decide (prison0 = 0) then mret (-1)
  else
    rootvnode ← jbc_get_rootvnode fuel;
    if decide (rootvnode = 0) then mret (-1)
    else
      _ ← store_word 8 (ans + sceProcCap) 0xffffffffffffffff;
      _ ← store_word 8 (ans + sceProcType) 0x3801000000000013;
      _ ← store_word 8 (ans + sonyCred) 0xffffffffffffffff;
      _ ← store_word 4 (ans + svgid) 0;
      _ ← store_word 4 (ans + rgid) 0;
      _ ← store_word 4 (ans + svuid) 0;
      _ ← store_word 4 (ans + ruid) 0;
      _ ← store_word 4 (ans + uid) 0;
      _ ← store_word 8 (ans + prison) prison0;
      _ ← store_word 8 (ans + jdir) rootvnode;
      _ ← store_word 8 (ans + rdir) rootvnode;
      _ ← store_word 8 (ans + cdir) rootvnode;
      mret 0.

End jbc.
End Jbc.
