(* ===== verification/JailbreakFacts.v ===== *)
(** * Credentials: lemmas

    What the functions of [Jailbreak] rely on in kernel memory (the process
    list, the credential of a process), and how they change it. *)

From S2P Require Import Prelude KMem CStruct KernelRW KernelRWFacts Jailbreak.
Import Krw Jbc.

(** The offsets of [struct jbc_cred] as numbers. *)
Ltac cred_offsets := unfold uid, ruid, svuid, rgid, svgid, prison, cdir, rdir, jdir, sceProcType,
  sonyCred, sceProcCap in *.

(** ** Footprints *)

Abbreviation regions := (list (Z * Z)).

Definition outside (rs : regions) (k : Z) : Prop := Forall (λ r : Z * Z, ¬ (r.1 ≤ k < r.1 + r.2)) rs.

(** [m'] differs from [m] only inside the regions, and unmaps nothing. *)
Record changes (rs : regions) (m m' : kmemory) : Prop := {
  changes_same k : outside rs k → m' !! k = m !! k;
  changes_mapped k : is_Some (m !! k) → is_Some (m' !! k)
}.

Lemma changes_refl rs m : changes rs m m.
Proof. done. Qed.

Lemma changes_trans rs1 rs2 m1 m2 m3 :
  changes rs1 m1 m2 → changes rs2 m2 m3 → changes (rs1 ++ rs2) m1 m3.
Proof.
  intros [Hs1 Hm1] [Hs2 Hm2]. split; [|auto].
  intros k [H1 H2]%Forall_app. by rewrite Hs2, Hs1.
Qed.

Lemma changes_weaken rs rs' m m' :
  changes rs m m' → (∀ k, outside rs' k → outside rs k) → changes rs' m m'.
Proof. intros [Hs Hm] H. split; auto. Qed.

Lemma changes_incl rs rs' m m' : changes rs m m' → rs ⊆ rs' → changes rs' m m'.
Proof.
  intros H Hi. eapply changes_weaken; [done|]. intros k Hk.
  apply Forall_forall. intros r Hr. eapply Forall_forall in Hk; [done|]. by apply Hi.
Qed.

Lemma changes_trans_same rs m1 m2 m3 : changes rs m1 m2 → changes rs m2 m3 → changes rs m1 m3.
Proof. intros [Hs1 Hm1] [Hs2 Hm2]. split; [|auto]. intros k Hk. by rewrite Hs2, Hs1. Qed.

Lemma changes_store m a bs n : n = Z.of_nat (length bs) → changes [(a, n)] m (store_bytes m a bs).
Proof.
  intros ->. split.
  - intros k [Hk _]%Forall_cons. apply store_bytes_out. exact Hk.
  - intros k Hk. rewrite store_bytes_lookup. case_decide; [|done].
    apply lookup_lt_is_Some. lia.
Qed.

Lemma mapped_changes rs m m' a n : changes rs m m' → mapped m a n → mapped m' a n.
Proof. intros [_ H] Hm k Hk. auto. Qed.

(** [a, a + n) meets none of the regions. *)
Definition clear_of (rs : regions) (a n : Z) : Prop :=
  Forall (λ r : Z * Z, a + n ≤ r.1 ∨ r.1 + r.2 ≤ a) rs.

Lemma clear_outside rs a n k : clear_of rs a n → a ≤ k < a + n → outside rs k.
Proof. unfold clear_of, outside. rewrite !Forall_forall. intros H Hk r Hr. specialize (H r Hr). lia. Qed.

Lemma load_changes rs m m' a (n : nat) :
  changes rs m m' → clear_of rs a (Z.of_nat n) → load_bytes m' a n = load_bytes m a n.
Proof.
  intros [Hs _] Hc. apply load_bytes_ext. intros k Hk. apply Hs. eapply clear_outside; [done|lia].
Qed.

Lemma word_at_changes rs n m m' a w :
  changes rs m m' → clear_of rs a (Z.of_nat n) → word_at n m a w → word_at n m' a w.
Proof. intros Hch Hc [Hl Hw]. split; [|done]. by erewrite load_changes. Qed.

(** Regions that lie in user space: no kernel word is in them. *)
Definition user_regions (rs : regions) : Prop := Forall (λ r : Z * Z, user_at r.1 r.2) rs.

Lemma heap_clear rs a n : user_regions rs → heap_at a n → clear_of rs a n.
Proof.
  unfold user_regions, clear_of, user_at, heap_at. rewrite !Forall_forall.
  intros H Ha r Hr. specialize (H r Hr). lia.
Qed.

(** A word of the kernel heap. *)
Definition heap_word (n : nat) (m : kmemory) (a w : Z) : Prop :=
  heap_at a (Z.of_nat n) ∧ word_at n m a w.

Lemma heap_word_changes rs n m m' a w :
  user_regions rs → changes rs m m' → heap_word n m a w → heap_word n m' a w.
Proof.
  intros Hu Hch [Ha Hw]. split; [done|]. eapply word_at_changes; [done| |done].
  by apply heap_clear.
Qed.

(** Above user space one is outside of them. *)
Lemma user_outside rs k : user_regions rs → 2 ^ 47 ≤ k → outside rs k.
Proof. intros Hrs ?. eapply Forall_impl; [exact Hrs|]. unfold user_at. simpl. lia. Qed.

#[export] Instance outside_dec rs k : Decision (outside rs k).
Proof. unfold outside. apply _. Defined.

Lemma user_regions_app rs rs' : user_regions rs → user_regions rs' → user_regions (rs ++ rs').
Proof. intros. by apply Forall_app. Qed.

(** ** Where the locals are *)

(** The compiler gives every local its own place in user space. *)
Class LocalsOk `{!Locals} : Prop := {
  locals_user : user_regions [(addr_c, 1); (addr_ans, 8); (addr_val, 8); (addr_pid, 4);
                              (addr_prison0, 8); (addr_rootvnode, 8)];
  ans_apart : clear_of [(addr_pid, 4); (addr_prison0, 8); (addr_rootvnode, 8)] addr_ans 8;
  globals_apart : clear_of [(addr_pid, 4); (addr_rootvnode, 8)] addr_prison0 8;
  pid_apart : clear_of [(addr_rootvnode, 8)] addr_pid 4
}.

Section locals.
Context `{!Locals, !LocalsOk}.
Lemma ans_user : user_at addr_ans 8.
Proof. pose proof locals_user as Hu. by do 2 apply Forall_cons in Hu as [? Hu]. Qed.
Lemma pid_user : user_at addr_pid 4.
Proof. pose proof locals_user as Hu. by do 4 apply Forall_cons in Hu as [? Hu]. Qed.
Lemma prison0_user : user_at addr_prison0 8.
Proof. pose proof locals_user as Hu. by do 5 apply Forall_cons in Hu as [? Hu]. Qed.
Lemma rootvnode_user : user_at addr_rootvnode 8.
Proof. pose proof locals_user as Hu. by do 6 apply Forall_cons in Hu as [? Hu]. Qed.
End locals.

(** ** Steps of the payload *)

Section steps.
Context {KT : KernelText} {LC : Locals} {LOK : LocalsOk} {OS : Type} {SOS : SockOS OS} {ML : MiraLaws OS}.
Implicit Types (s : kst OS) (m : kmemory).

Record steps (rs : regions) s s' : Prop := {
  steps_mem : changes rs (kmem s) (kmem s');
  steps_td : curthread s' = curthread s;
  steps_ready : mira_ready s'
}.

Lemma steps_refl rs s : mira_ready s → steps rs s s.
Proof. done. Qed.

Lemma steps_trans rs1 rs2 s1 s2 s3 : steps rs1 s1 s2 → steps rs2 s2 s3 → steps (rs1 ++ rs2) s1 s3.
Proof. intros [? ? ?] [? ? ?]. split; [by eapply changes_trans|congruence|done]. Qed.

Lemma steps_incl rs rs' s s' : steps rs s s' → rs ⊆ rs' → steps rs' s s'.
Proof. intros [? ? ?] ?. split; [by eapply changes_incl|done..]. Qed.

Lemma steps_trans_same rs s1 s2 s3 : steps rs s1 s2 → steps rs s2 s3 → steps rs s1 s3.
Proof. intros H1 H2. eapply steps_incl; [by eapply steps_trans|]. set_solver. Qed.

Lemma steps_heap rs n s s' a w :
  user_regions rs → steps rs s s' → heap_word n (kmem s) a w → heap_word n (kmem s') a w.
Proof. intros Hu [Hc _ _]. by apply heap_word_changes with rs. Qed.

Lemma steps_mapped rs s s' a n : steps rs s s' → mapped (kmem s) a n → mapped (kmem s') a n.
Proof. intros [Hc _ _]. by eapply mapped_changes. Qed.

(** The locals the module uses are on mapped pages. *)
Definition locals_mapped m : Prop :=
  mapped m addr_ans 8 ∧ mapped m addr_pid 4 ∧ mapped m addr_prison0 8 ∧ mapped m addr_rootvnode 8.

Lemma steps_locals rs s s' : steps rs s s' → locals_mapped (kmem s) → locals_mapped (kmem s').
Proof. intros Hs (?&?&?&?). split_and!; by eapply steps_mapped. Qed.

Lemma heap_word_addr n m a w k : heap_word n m (a + k) w → 0 ≤ k → 0 ≤ a → u64 (a + k) = a + k.
Proof. intros [[? ?] _] ??. apply u64_id. unfold is_u64. lia. Qed.

Lemma heap_read s p w :
  mira_ready s → locals_mapped (kmem s) → heap_word 8 (kmem s) p w →
  ∃ s', jbc_krw_read64 p KERNEL_HEAP s = Ok (w, s') ∧ steps [(addr_ans, 8)] s s'.
Proof.
  intros Hr (Hm & _) [Ha Hw].
  destruct (read64_spec p s w) as (s' & E & Hk & Ht & Hr'); [done|apply ans_user|done..|].
  exists s'. split; [done|]. split; [|done..]. rewrite Hk.
  apply changes_store. by rewrite length_le_bytes.
Qed.

(** Copying one word of the heap to a word of the payload. *)
Lemma heap_copy n s a p w :
  mira_ready s → (0 < n)%nat → user_at a (Z.of_nat n) → mapped (kmem s) a (Z.of_nat n) →
  heap_word n (kmem s) p w →
  ∃ s', jbc_krw_memcpy a p (Z.of_nat n) KERNEL_HEAP s = Ok (0, s') ∧
        steps [(a, Z.of_nat n)] s s' ∧ word_at n (kmem s') a w.
Proof.
  intros Hr Hn Hu Hm [Ha Hw].
  destruct (copy_out_spec a p (Z.of_nat n) s (le_bytes (Z.of_nat n) w)) as (s' & E & Hk & Ht & Hr');
    [done|lia|done|done|rewrite Nat2Z.id; apply Hw|done|].
  exists s'. split; [done|]. split; [split; [|done..]|]; rewrite Hk.
  - apply changes_store. rewrite length_le_bytes; lia.
  - apply word_at_stored, Hw.
Qed.

(** ** The process list *)

(** From [p], following [p_list], process 1 is found at [q] after [n] steps: each
    process on the way has another pid, and its successor points back. *)
Inductive proc_list m : Z → Z → nat → Prop :=
  | proc_here p :
      heap_word 4 m (p + 0xb0) 1 → proc_list m p p 0
  | proc_next p next q n pid :
      heap_word 4 m (p + 0xb0) pid → pid ≠ 1 →
      heap_word 8 m p next → heap_word 8 m (next + 8) p →
      proc_list m next q n → proc_list m p q (S n).

Lemma proc_list_changes rs m m' p q n :
  user_regions rs → changes rs m m' → proc_list m p q n → proc_list m' p q n.
Proof.
  intros Hu Hc. induction 1; econstructor; try done; by eapply heap_word_changes.
Qed.

Definition scratch : regions := [(addr_ans, 8); (addr_pid, 4)].
Lemma scratch_user : user_regions scratch.
Proof. constructor; [apply ans_user|]. constructor; [apply pid_user|done]. Qed.

Lemma steps_ans s s' : steps [(addr_ans, 8)] s s' → steps scratch s s'.
Proof. intros. eapply steps_incl; [done|unfold scratch; set_solver]. Qed.
Lemma steps_pid s s' : steps [(addr_pid, 4)] s s' → steps scratch s s'.
Proof. intros. eapply steps_incl; [done|unfold scratch; set_solver]. Qed.
Hint Resolve steps_ans steps_pid steps_trans_same : core.

Lemma i32_pid pid : 0 ≤ pid < 2 ^ (4 * 8) → i32 pid = 1 ↔ pid = 1.
Proof.
  intros Hp. split; [|by intros ->]. unfold i32. intros E.
  destruct (decide (pid < 2 ^ 31)).
  - rewrite Z.mod_small in E; lia.
  - replace (pid + 2 ^ 31) with (pid - 2 ^ 31 + 1 * 2 ^ 32) in E by lia.
    rewrite Z.mod_add, Z.mod_small in E; lia.
Qed.

Lemma proc_pid m p q n : proc_list m p q n → ∃ pid, heap_word 4 m (p + 0xb0) pid ∧ (pid = 1 → n = 0%nat).
Proof. destruct 1; eexists; (split; [done|]); done. Qed.

Lemma proc_ptr m p w k n : heap_word n m (p + k) w → is_u64 p → 0 ≤ k → u64 (p + k) = p + k.
Proof. intros ? [? ?] ?. by eapply heap_word_addr. Qed.

Lemma find_pid1_at fuel s p q n :
  mira_ready s → locals_mapped (kmem s) → is_u64 p →
  proc_list (kmem s) p q n → (n < fuel)%nat →
  ∃ s', find_pid1 fuel (Some p) s = Ok (q, s') ∧ steps scratch s s'.
Proof.
  revert s p n. induction fuel as [|fuel IH]; intros s p n Hr Hl Hp Hpl Hf; [lia|].
  destruct (proc_pid _ _ _ _ Hpl) as (pid & Hpid & Hn0). cbn [find_pid1].
  rewrite ret_bind. erewrite (proc_ptr _ p) by (done || lia).
  destruct (heap_copy 4 s addr_pid (p + 0xb0) pid) as (s1 & E1 & St1 & Hw1);
    [done|lia|apply pid_user|apply Hl|done|].
  erewrite bind_ok by exact E1. rewrite decide_False by (intros E; by apply E).
  erewrite bind_ok by (by apply load_word_spec).
  assert (steps scratch s s1) as St1' by auto.
  destruct Hpl as [p Hone|p next q n pid' Hpid' Hne Hnext Hback Hrest].
  - assert (pid = 1) as -> by (by eapply word_at_fun; [apply Hpid|apply Hone]).
    exists s1. by split.
  - assert (pid = pid') as <- by (by eapply word_at_fun; [apply Hpid|apply Hpid']).
    rewrite decide_False by (rewrite i32_pid; [done|apply Hpid]).
    destruct (heap_read s1 p next) as (s2 & E2 & St2);
      [apply St1|by eapply steps_locals|by eapply steps_heap; [apply scratch_user|..]|].
    erewrite bind_ok by exact E2.
    assert (is_u64 next) as Hnx by apply Hnext.
    erewrite (proc_ptr _ next) by (done || lia).
    assert (steps scratch s s2) as St2' by eauto.
    destruct (heap_read s2 (next + 8) p) as (s3 & E3 & St3);
      [apply St2|by eapply steps_locals|by eapply steps_heap; [apply scratch_user|..]|].
    erewrite bind_ok by exact E3. rewrite decide_False by (intros E; by apply E).
    assert (steps scratch s s3) as St3' by eauto.
    destruct (IH s3 next n) as (s' & E & St);
      [apply St3|by eapply steps_locals|done|..|lia|].
    { eapply proc_list_changes; [apply scratch_user|apply St3'|done]. }
    exists s'. split; [done|]. by eapply steps_trans_same.
Qed.

(** The process list of the caller: its own process comes first. *)
Definition own_list m td q n : Prop :=
  ∃ proc, heap_word 8 m (td + 8) proc ∧ is_u64 proc ∧ proc_list m proc q n.

Lemma own_list_changes rs m m' td q n :
  user_regions rs → changes rs m m' → own_list m td q n → own_list m' td q n.
Proof.
  intros Hu Hc (p & Hp & Hp' & Hl). exists p. split_and!; [|done|].
  - by eapply heap_word_changes.
  - by eapply proc_list_changes.
Qed.

Lemma find_pid1_finds fuel s td q n :
  mira_ready s → locals_mapped (kmem s) → curthread s = td → is_u64 td →
  own_list (kmem s) td q n → (n < fuel)%nat →
  ∃ s', find_pid1 fuel None s = Ok (q, s') ∧ steps scratch s s'.
Proof.
  intros Hr Hl Htd Ht (p & Hp & Hp64 & Hpl) Hf. destruct fuel as [|fuel]; [lia|].
  destruct (heap_read s (td + 8) p) as (s1 & E1 & St1); [done..|].
  assert (steps scratch s s1) as St1' by auto.
  destruct (find_pid1_at (S fuel) s1 p q n) as (s' & E & St);
    [apply St1|by eapply steps_locals|done| |done|].
  { eapply proc_list_changes; [apply scratch_user|apply St1'|done]. }
  exists s'. split; [|by eapply steps_trans_same].
  rewrite <- E. cbn [find_pid1]. rewrite ret_bind.
  rewrite bind_assoc. erewrite bind_ok by apply get_td_spec. rewrite Htd.
  erewrite (proc_ptr _ td) by (done || lia). by erewrite bind_ok by exact E1.
Qed.

(** A list on which process 1 does not come. *)
Inductive no_pid1 m : Z → Prop :=
  | no_pid1_end p pid :
      heap_word 4 m (p + 0xb0) pid → pid ≠ 1 → heap_word 8 m p 0 → no_pid1 m p
  | no_pid1_next p next pid :
      heap_word 4 m (p + 0xb0) pid → pid ≠ 1 →
      heap_word 8 m p next → heap_word 8 m (next + 8) p →
      no_pid1 m next → no_pid1 m p.

Lemma no_pid1_changes rs m m' p :
  user_regions rs → changes rs m m' → no_pid1 m p → no_pid1 m' p.
Proof.
  intros Hu Hc. induction 1.
  - eapply no_pid1_end; [|done|]; by eapply heap_word_changes.
  - eapply no_pid1_next; [|done|..|done]; by eapply heap_word_changes.
Qed.

Lemma no_pid1_cases m p :
  no_pid1 m p → ∃ pid next, heap_word 4 m (p + 0xb0) pid ∧ pid ≠ 1 ∧ heap_word 8 m p next ∧
    (next = 0 ∨ heap_word 8 m (next + 8) p ∧ no_pid1 m next).
Proof. destruct 1; eexists _, _; eauto 10. Qed.

(** One round of the loop on such a list: it restarts or goes on. *)
Lemma find_pid1_round fuel s p :
  mira_ready s → locals_mapped (kmem s) → is_u64 p → no_pid1 (kmem s) p →
  ∃ at_ s', find_pid1 (S fuel) (Some p) s = find_pid1 fuel at_ s' ∧ steps scratch s s' ∧
            ∀ p', at_ = Some p' → is_u64 p' ∧ no_pid1 (kmem s') p'.
Proof.
  intros Hr Hl Hp Hno. destruct (no_pid1_cases _ _ Hno) as (pid & next & Hpid & Hne & Hnext & Hor).
  cbn [find_pid1]. rewrite ret_bind. erewrite (proc_ptr _ p) by (done || lia).
  destruct (heap_copy 4 s addr_pid (p + 0xb0) pid) as (s1 & E1 & St1 & Hw1);
    [done|lia|apply pid_user|apply Hl|done|].
  erewrite bind_ok by exact E1. rewrite decide_False by (intros E; by apply E).
  erewrite bind_ok by (by apply load_word_spec).
  assert (steps scratch s s1) as St1' by auto.
  rewrite decide_False by (rewrite i32_pid; [done|apply Hpid]).
  destruct (heap_read s1 p next) as (s2 & E2 & St2);
    [apply St1|by eapply steps_locals|by eapply steps_heap; [apply scratch_user|..]|].
  erewrite bind_ok by exact E2.
  assert (steps scratch s s2) as St2' by eauto.
  destruct Hor as [->|[Hback Hrest]].
  - erewrite bind_ok by (apply read64_refused; unfold memcpy_allowed;
      rewrite (range_ok_user addr_ans) by (lia || apply ans_user); reflexivity).
    rewrite decide_True; [|intros E; destruct Hnext as [[? ?] _]; lia].
    exists None, s2. by split_and!.
  - assert (is_u64 next) as Hnx by apply Hnext.
    erewrite (proc_ptr _ next) by (done || lia).
    destruct (heap_read s2 (next + 8) p) as (s3 & E3 & St3);
      [apply St2|by eapply steps_locals|by eapply steps_heap; [apply scratch_user|..]|].
    erewrite bind_ok by exact E3. rewrite decide_False by (intros E; by apply E).
    assert (steps scratch s s3) as St3' by eauto.
    exists (Some next), s3. split_and!; [done|done|]. intros ? [= <-]. split; [done|].
    eapply no_pid1_changes; [apply scratch_user|apply St3'|done].
Qed.

Lemma find_pid1_diverges fuel s td proc at_ :
  mira_ready s → locals_mapped (kmem s) → curthread s = td → is_u64 td → is_u64 proc →
  heap_word 8 (kmem s) (td + 8) proc → no_pid1 (kmem s) proc →
  (∀ p, at_ = Some p → is_u64 p ∧ no_pid1 (kmem s) p) →
  find_pid1 fuel at_ s = OutOfFuel.
Proof.
  revert s at_. induction fuel as [|fuel IH]; intros s at_ Hr Hl Htd Ht Hp64 Hp Hno Hat; [done|].
  assert (∀ s, mira_ready s → locals_mapped (kmem s) → curthread s = td →
            heap_word 8 (kmem s) (td + 8) proc → no_pid1 (kmem s) proc →
            ∀ p, is_u64 p → no_pid1 (kmem s) p → find_pid1 (S fuel) (Some p) s = OutOfFuel) as Hsome.
  { clear s Hr Hl Htd Hp Hno Hat. intros s Hr Hl Htd Hp Hno p Hp' Hnop.
    destruct (find_pid1_round fuel s p Hr Hl Hp' Hnop) as (at' & s' & -> & St & Hat').
    apply IH; [apply St|by eapply steps_locals|by rewrite (steps_td _ _ _ St)|done|done|..|done].
    - eapply steps_heap; [apply scratch_user|done..].
    - eapply no_pid1_changes; [apply scratch_user|apply St|done]. }
  destruct at_ as [p|]; [destruct (Hat p eq_refl); by apply Hsome|].
  destruct (heap_read s (td + 8) proc) as (s1 & E1 & St1); [done..|].
  assert (steps scratch s s1) as St1' by auto.
  cbn [find_pid1]. rewrite bind_assoc. erewrite bind_ok by apply get_td_spec. rewrite Htd.
  erewrite (proc_ptr _ td) by (done || lia). erewrite bind_ok by exact E1.
  rewrite <- (Hsome s1 (steps_ready _ _ _ St1) (steps_locals _ _ _ St1 Hl)
    ltac:(by rewrite (steps_td _ _ _ St1)) ltac:(by eapply steps_heap; [apply scratch_user|..])
    ltac:(eapply no_pid1_changes; [apply scratch_user|apply St1'|done]) proc Hp64
    ltac:(eapply no_pid1_changes; [apply scratch_user|apply St1'|done])).
  done.
Qed.

(** ** [resolve] and its cache *)

(** Process 1, its jail and its root directory, as the kernel has them. *)
Definition init_process m td p0 rv n : Prop :=
  ∃ q ucred fd, own_list m td q n ∧ is_u64 q ∧
    heap_word 8 m (q + 0x40) ucred ∧ heap_word 8 m (q + 0x48) fd ∧
    heap_word 8 m (ucred + 0x30) p0 ∧ heap_word 8 m (fd + 0x18) rv.

Lemma init_process_changes rs m m' td p0 rv n :
  user_regions rs → changes rs m m' → init_process m td p0 rv n → init_process m' td p0 rv n.
Proof.
  intros Hu Hc (q & ucred & fd & Ho & Hq & H1 & H2 & H3 & H4). exists q, ucred, fd.
  split_and!; [|done|..]; [by eapply own_list_changes|by eapply heap_word_changes..].
Qed.

Definition globals : regions :=
  [(addr_ans, 8); (addr_pid, 4); (addr_prison0, 8); (addr_rootvnode, 8)].
Lemma globals_user : user_regions globals.
Proof.
  constructor; [apply ans_user|]. constructor; [apply pid_user|].
  constructor; [apply prison0_user|]. constructor; [apply rootvnode_user|done].
Qed.
Lemma steps_globals rs s s' : steps rs s s' → rs ⊆ globals → steps globals s s'.
Proof. apply steps_incl. Qed.

Lemma resolve_spec fuel s td p0 rv n :
  mira_ready s → locals_mapped (kmem s) → curthread s = td → is_u64 td →
  init_process (kmem s) td p0 rv n → (n < fuel)%nat →
  ∃ s', resolve fuel s = Ok (0, s') ∧ steps globals s s' ∧
        word_at 8 (kmem s') addr_prison0 p0 ∧ word_at 8 (kmem s') addr_rootvnode rv.
Proof.
  intros Hr Hl Htd Ht (q & ucred & fd & Ho & Hq & Hu & Hf & Hp & Hv) Hfuel. unfold resolve.
  destruct (find_pid1_finds fuel s td q n) as (s1 & E1 & St1); [done..|].
  erewrite bind_ok by exact E1. pose proof scratch_user as Hsu.
  rewrite (proc_ptr _ q _ _ _ Hu), (proc_ptr _ q _ _ _ Hf) by (done || lia).
  destruct (heap_read s1 (q + 0x40) ucred) as (s2 & E2 & St2);
    [apply St1|by eapply steps_locals|by eapply steps_heap|].
  erewrite bind_ok by exact E2. assert (steps scratch s s2) as St2' by eauto.
  destruct (heap_read s2 (q + 0x48) fd) as (s3 & E3 & St3);
    [apply St2|by eapply steps_locals|by eapply steps_heap|].
  erewrite bind_ok by exact E3. assert (steps scratch s s3) as St3' by eauto.
  assert (is_u64 ucred ∧ is_u64 fd) as [Hu64 Hf64] by (split; [apply Hu|apply Hf]).
  rewrite (proc_ptr _ ucred _ _ _ Hp), (proc_ptr _ fd _ _ _ Hv) by (done || lia).
  destruct (heap_copy 8 s3 addr_prison0 (ucred + 0x30) p0) as (s4 & E4 & St4 & Hw4);
    [apply St3|lia|apply prison0_user|eapply steps_mapped; [done|apply Hl]|by eapply steps_heap|].
  erewrite bind_ok by exact E4. rewrite decide_False by (intros E; by apply E).
  assert (steps globals s s4) as St4'.
  { eapply steps_globals; [by eapply steps_trans|unfold globals, scratch; set_solver]. }
  destruct (heap_copy 8 s4 addr_rootvnode (fd + 0x18) rv) as (s5 & E5 & St5 & Hw5);
    [apply St4|lia|apply rootvnode_user|eapply steps_mapped; [done|apply Hl]
    |eapply steps_heap; [apply globals_user|done..]|].
  erewrite bind_ok by exact E5. rewrite decide_False by (intros E; by apply E).
  exists s5. split_and!; [done| | |done].
  - eapply steps_trans_same; [done|]. eapply steps_globals; [done|unfold globals; set_solver].
  - eapply word_at_changes; [apply St5| |done].
    pose proof globals_apart as Hg. by apply Forall_cons in Hg as [_ ?].
Qed.

(** What the two getters leave behind: the cached values. *)
Definition cached m p0 rv : Prop :=
  word_at 8 m addr_prison0 p0 ∧ word_at 8 m addr_rootvnode rv.

Lemma get_prison0_spec fuel s td p0 rv n :
  mira_ready s → locals_mapped (kmem s) → curthread s = td → is_u64 td →
  init_process (kmem s) td p0 rv n → (n < fuel)%nat → p0 ≠ 0 →
  word_at 8 (kmem s) addr_prison0 0 ∨ cached (kmem s) p0 rv →
  ∃ s', jbc_get_prison0 fuel s = Ok (p0, s') ∧ steps globals s s' ∧ cached (kmem s') p0 rv.
Proof.
  intros Hr Hl Htd Ht Hi Hf Hnz Hc. unfold jbc_get_prison0. destruct Hc as [Hz|[Hp Hv]].
  - erewrite bind_ok by (by apply load_word_spec). rewrite decide_True by done.
    destruct (resolve_spec fuel s td p0 rv n) as (s' & E & St & Hp & Hv); [done..|].
    erewrite bind_ok by exact E. exists s'. split; [by apply load_word_spec|]. by split.
  - erewrite bind_ok by (by apply load_word_spec). rewrite decide_False by done.
    rewrite ret_bind. exists s. split; [by apply load_word_spec|]. by split.
Qed.

Lemma get_rootvnode_cached fuel s p0 rv :
  cached (kmem s) p0 rv → rv ≠ 0 → jbc_get_rootvnode fuel s = Ok (rv, s).
Proof.
  intros [_ Hv] Hnz. unfold jbc_get_rootvnode.
  erewrite bind_ok by (by apply load_word_spec). rewrite decide_False by done.
  rewrite ret_bind. by apply load_word_spec.
Qed.

(** ** Sequences of copies *)

(** [(dst, src, n)]. *)
Definition copy : Type := Z * Z * Z.
Definition run_copy (c : copy) : M (kst OS) Z :=
  jbc_krw_memcpy c.1.1 c.1.2 c.2 KERNEL_HEAP.

Definition apart (a n b k : Z) : Prop := a + n ≤ b ∨ b + k ≤ a.

(** One side of the copy is in user space, the other on the kernel heap. *)
Definition crosses (c : copy) : Prop :=
  0 < c.2 ≤ 2 ^ 20 ∧
  ((user_at c.1.1 c.2 ∧ heap_at c.1.2 c.2) ∨ (heap_at c.1.1 c.2 ∧ user_at c.1.2 c.2)).

(** The copies cross, their memory is mapped, and none writes where a later one
    reads or writes. *)
Fixpoint copies_ok m (l : list copy) : Prop :=
  match l with
  | [] => True
  | c :: l =>
      crosses c ∧ mapped m c.1.1 c.2 ∧ mapped m c.1.2 c.2 ∧
      Forall (λ c' : copy, apart c.1.1 c.2 c'.1.1 c'.2 ∧ apart c.1.1 c.2 c'.1.2 c'.2) l ∧
      copies_ok m l
  end.

Definition written (l : list copy) : regions := map (λ c : copy, (c.1.1, c.2)) l.

Lemma copies_ok_changes rs m m' l : changes rs m m' → copies_ok m l → copies_ok m' l.
Proof.
  intros Hc. induction l as [|c l IH]; [done|]. intros (?&?&?&?&?).
  split_and!; [done|by eapply mapped_changes..|done|auto].
Qed.

Lemma run_copy_spec c s bs :
  mira_ready s → crosses c → mapped (kmem s) c.1.1 c.2 →
  load_bytes (kmem s) c.1.2 (Z.to_nat c.2) = Some bs →
  ∃ s', run_copy c s = Ok (0, s') ∧ mem_step s (store_bytes (kmem s) c.1.1 bs) s'.
Proof.
  intros Hr [Hn [[Hu Hh]|[Hh Hu]]] Hm Hl; unfold run_copy.
  - apply copy_out_spec; (done || lia).
  - apply copy_in_spec; (done || lia).
Qed.

Lemma copies_spec l s :
  mira_ready s → copies_ok (kmem s) l →
  ∃ s', any_fails (map run_copy l) s = Ok (false, s') ∧ steps (written l) s s' ∧
        Forall (λ c : copy, ∀ i, 0 ≤ i < c.2 → kmem s' !! (c.1.1 + i) = kmem s !! (c.1.2 + i)) l.
Proof.
  revert s. induction l as [|c l IH]; intros s Hr Hok; [by exists s|].
  destruct Hok as (Hx & Hmd & Hms & Hap & Hok).
  destruct (mapped_load _ _ _ (Z.to_nat c.2) Hms) as [bs Hl]; [destruct Hx; lia|].
  pose proof (load_bytes_length _ _ _ _ Hl) as Hlen. assert (0 < c.2) as Hpos by apply Hx.
  destruct (run_copy_spec c s bs Hr Hx Hmd Hl) as (s1 & E1 & Hk1 & Ht1 & Hr1).
  assert (changes [(c.1.1, c.2)] (kmem s) (kmem s1)) as Hc1.
  { rewrite Hk1. apply changes_store. lia. }
  destruct (IH s1) as (s2 & E2 & St2 & Hall); [done|by eapply copies_ok_changes|].
  exists s2. split; [|split; [|constructor]].
  - cbn [map any_fails]. erewrite bind_ok by exact E1.
    rewrite decide_False by (intros E; by apply E). exact E2.
  - change (written (c :: l)) with ([(c.1.1, c.2)] ++ written l).
    eapply steps_trans; [|done]. by split.
  - intros i Hi. rewrite (changes_same _ _ _ (steps_mem _ _ _ St2)).
    + rewrite Hk1, store_bytes_in by lia. symmetry.
      replace (Z.to_nat (c.1.1 + i - c.1.1)) with (Z.to_nat (c.1.2 + i - c.1.2)) by lia.
      eapply load_bytes_lookup; [done|lia].
    + apply Forall_map. eapply Forall_impl; [exact Hap|]. simpl. unfold apart. intros c' ?. lia.
  - rewrite Forall_forall in Hall, Hap. apply Forall_forall. intros c' Hc' i Hi.
    rewrite Hall by done. apply (changes_same _ _ _ Hc1).
    constructor; [|done]. destruct (Hap c' Hc') as [_ Hap']. unfold apart in Hap'. simpl. lia.
Qed.

(** A word is copied with the bytes around it. *)
Lemma word_at_copied n m m' a a' w :
  (∀ i, 0 ≤ i < Z.of_nat n → m' !! (a' + i) = m !! (a + i)) → word_at n m a w → word_at n m' a' w.
Proof.
  intros Hb [Hl Hw]. split; [|done]. apply load_bytes_intro; [by eapply load_bytes_length|].
  intros k Hk. replace k with (a' + (k - a')) at 1 by lia. rewrite Hb by lia.
  rewrite (load_bytes_lookup _ _ _ _ (a + (k - a')) Hl) by lia. f_equal. lia.
Qed.

(** ** Credentials *)

Record cred : Type := Cred {
  c_uid : Z; c_ruid : Z; c_svuid : Z; c_rgid : Z; c_svgid : Z; c_prison : Z;
  c_cdir : Z; c_rdir : Z; c_jdir : Z; c_type : Z; c_sony : Z; c_cap : Z
}.

(** Where each member is: in [struct jbc_cred], and at the credential or (when
    the flag is set) the file table; its size and value. *)
Definition cred_rows (c : cred) : list (Z * (bool * Z) * nat * Z) := [
  (uid, (false, 4), 4%nat, c_uid c); (ruid, (false, 8), 4%nat, c_ruid c);
  (svuid, (false, 12), 4%nat, c_svuid c); (rgid, (false, 20), 4%nat, c_rgid c);
  (svgid, (false, 24), 4%nat, c_svgid c); (prison, (false, 0x30), 8%nat, c_prison c);
  (cdir, (true, 0x10), 8%nat, c_cdir c); (rdir, (true, 0x18), 8%nat, c_rdir c);
  (jdir, (true, 0x20), 8%nat, c_jdir c); (sceProcType, (false, 88), 8%nat, c_type c);
  (sonyCred, (false, 96), 8%nat, c_sony c); (sceProcCap, (false, 104), 8%nat, c_cap c)].

Definition user_cred m (ans : Z) (c : cred) : Prop :=
  Forall (λ '(u, _, n, v), word_at n m (ans + u) v) (cred_rows c).
Definition kernel_cred m (ucred fd : Z) (c : cred) : Prop :=
  Forall (λ '(_, (f, k), n, v), word_at n m ((if f : bool then fd else ucred) + k) v) (cred_rows c).

(** The calling process: its credential and file table are objects of the heap,
    apart from each other and from the pointers that lead to them. *)
Record process m (td ucred fd proc : Z) : Prop := {
  pr_td : is_u64 td;
  pr_proc : heap_word 8 m (td + 8) proc;
  pr_ucred : heap_word 8 m (proc + 0x40) ucred;
  pr_fd : heap_word 8 m (proc + 0x48) fd;
  pr_ucred_at : heap_at ucred 112 ∧ mapped m ucred 112;
  pr_fd_at : heap_at fd 40 ∧ mapped m fd 40;
  pr_objects : apart ucred 112 fd 40;
  pr_td_apart : clear_of [(ucred, 112); (fd, 40)] (td + 8) 8;
  pr_proc_apart : clear_of [(ucred, 112); (fd, 40)] (proc + 0x40) 16
}.

Lemma process_changes rs m m' td ucred fd proc :
  user_regions rs → changes rs m m' → process m td ucred fd proc → process m' td ucred fd proc.
Proof.
  intros Hu Hc [? ? ? ? [? ?] [? ?] ? ? ?].
  split; try done; try (by eapply heap_word_changes); (split; [done|by eapply mapped_changes]).
Qed.

Lemma cred_pointers_spec s td ucred fd proc :
  mira_ready s → locals_mapped (kmem s) → curthread s = td → process (kmem s) td ucred fd proc →
  ∃ s', cred_pointers s = Ok ((ucred, fd), s') ∧ steps scratch s s'.
Proof.
  intros Hr Hl Htd [Ht Hp Hu Hf _ _ _ _ _]. unfold cred_pointers. pose proof scratch_user as Hsu.
  erewrite bind_ok by apply get_td_spec. rewrite Htd. rewrite (proc_ptr _ td _ _ _ Hp) by (done || lia).
  destruct (heap_read s (td + 8) proc) as (s1 & E1 & St1); [done..|].
  erewrite bind_ok by exact E1. assert (steps scratch s s1) as St1' by auto.
  assert (is_u64 proc) as Hp64 by apply Hp.
  rewrite (proc_ptr _ proc _ _ _ Hu), (proc_ptr _ proc _ _ _ Hf) by (done || lia).
  destruct (heap_read s1 (proc + 0x40) ucred) as (s2 & E2 & St2);
    [apply St1|by eapply steps_locals|by eapply steps_heap|].
  erewrite bind_ok by exact E2. assert (steps scratch s s2) as St2' by eauto.
  destruct (heap_read s2 (proc + 0x48) fd) as (s3 & E3 & St3);
    [apply St2|by eapply steps_locals|by eapply steps_heap|].
  erewrite bind_ok by exact E3. exists s3. split; [done|]. eauto.
Qed.

(** The five copies of [jbc_get_cred]; [jbc_set_cred] makes them backwards. *)
Definition cred_copies (ans ucred fd : Z) : list copy :=
  [(ans + uid, ucred + 4, 12); (ans + rgid, ucred + 20, 8); (ans + prison, ucred + 0x30, 8);
   (ans + cdir, fd + 0x10, 24); (ans + sceProcType, ucred + 88, 24)].
Definition swap (c : copy) : copy := (c.1.2, c.1.1, c.2).

Lemma copies_of_get ans ucred fd :
  is_u64 ucred → ucred + 112 ≤ 2 ^ 64 → is_u64 fd → fd + 40 ≤ 2 ^ 64 →
  [ppcopyout (OS := OS) (ans + uid) (4 + (ans + svuid)) (u64 (ucred + 4));
   ppcopyout (ans + rgid) (4 + (ans + svgid)) (u64 (ucred + 20));
   ppcopyout (ans + prison) (8 + (ans + prison)) (u64 (ucred + 0x30));
   ppcopyout (ans + cdir) (8 + (ans + jdir)) (u64 (fd + 0x10));
   ppcopyout (ans + sceProcType) (8 + (ans + sceProcCap)) (u64 (ucred + 88))] =
  map run_copy (cred_copies ans ucred fd).
Proof.
  unfold is_u64. intros. unfold ppcopyout, run_copy, cred_copies, u64, uid, svuid, rgid, svgid,
    prison, cdir, jdir, sceProcType, sceProcCap. cbn [map fst snd].
  repeat f_equal; rewrite Z.mod_small by lia; lia.
Qed.

Lemma copies_of_set ans ucred fd :
  is_u64 ucred → ucred + 112 ≤ 2 ^ 64 → is_u64 fd → fd + 40 ≤ 2 ^ 64 →
  [ppcopyin (OS := OS) (ans + uid) (4 + (ans + svuid)) (u64 (ucred + 4));
   ppcopyin (ans + rgid) (4 + (ans + svgid)) (u64 (ucred + 20));
   ppcopyin (ans + prison) (8 + (ans + prison)) (u64 (ucred + 0x30));
   ppcopyin (ans + cdir) (8 + (ans + jdir)) (u64 (fd + 0x10));
   ppcopyin (ans + sceProcType) (8 + (ans + sceProcCap)) (u64 (ucred + 88))] =
  map run_copy (map swap (cred_copies ans ucred fd)).
Proof.
  unfold is_u64. intros. unfold ppcopyin, run_copy, cred_copies, swap, u64, uid, svuid, rgid, svgid,
    prison, cdir, jdir, sceProcType, sceProcCap. cbn [map fst snd].
  repeat f_equal; rewrite Z.mod_small by lia; lia.
Qed.

Lemma cred_copies_ok m ans ucred fd :
  user_at ans 80 → mapped m ans 80 → heap_at ucred 112 → mapped m ucred 112 →
  heap_at fd 40 → mapped m fd 40 → apart ucred 112 fd 40 →
  copies_ok m (cred_copies ans ucred fd) ∧ copies_ok m (map swap (cred_copies ans ucred fd)).
Proof.
  unfold user_at, heap_at, apart. intros Ha Hma Hu Hmu Hf Hmf Hap.
  split; unfold copies_ok, cred_copies, swap, crosses, user_at, heap_at, apart, uid, rgid, prison,
    cdir, sceProcType; cbn [map fst snd]; repeat apply conj; try done;
    rewrite ?Forall_cons, ?Forall_nil; cbn [fst snd]; try lia;
    first [eapply mapped_sub; [exact Hma|lia..]|eapply mapped_sub; [exact Hmu|lia..]
          |eapply mapped_sub; [exact Hmf|lia..]].
Qed.

(** A word inside a copied range. *)
Lemma copied_word (c : copy) n o w m m' a b :
  (∀ i, 0 ≤ i < c.2 → m' !! (c.1.1 + i) = m !! (c.1.2 + i)) →
  0 ≤ o → o + Z.of_nat n ≤ c.2 → a = c.1.1 + o → b = c.1.2 + o →
  word_at n m b w → word_at n m' a w.
Proof.
  intros Hb Ho Hn -> ->. apply word_at_copied. intros i Hi.
  rewrite <- !Z.add_assoc. apply Hb. lia.
Qed.

(** [m'] has at the destination of every copy what [m] has at its source. *)
Definition copied (l : list copy) m m' : Prop :=
  Forall (λ c : copy, ∀ i, 0 ≤ i < c.2 → m' !! (c.1.1 + i) = m !! (c.1.2 + i)) l.

(** Find the copied range a word is in. *)
Ltac copied_words H :=
  unfold copied, cred_copies, swap in H; cbn [map] in H; rewrite !Forall_cons, Forall_nil in H;
  destruct H as (C1 & C2 & C3 & C4 & C5 & _);
  cred_offsets;
  let fits C o := (eapply (copied_word _ _ o _ _ _ _ _ C); [| | | |eassumption]; cbn [fst snd] in *; lia) in
  split_and!; try done;
  first [fits C1 0|fits C1 4|fits C1 8|fits C2 0|fits C2 4|fits C3 0|fits C4 0|fits C4 8
        |fits C4 16|fits C5 0|fits C5 8|fits C5 16].

Lemma cred_copied_out m m' ans ucred fd c :
  copied (cred_copies ans ucred fd) m m' → kernel_cred m ucred fd c → user_cred m' ans c.
Proof.
  unfold kernel_cred, user_cred, cred_rows. rewrite !Forall_cons, !Forall_nil.
  intros Hc (?&?&?&?&?&?&?&?&?&?&?&?&_). copied_words Hc.
Qed.

Lemma cred_copied_in m m' ans ucred fd c :
  copied (map swap (cred_copies ans ucred fd)) m m' → user_cred m ans c → kernel_cred m' ucred fd c.
Proof.
  unfold kernel_cred, user_cred, cred_rows. rewrite !Forall_cons, !Forall_nil.
  intros Hc (?&?&?&?&?&?&?&?&?&?&?&?&_). copied_words Hc.
Qed.

Lemma written_user ans ucred fd : user_at ans 80 → user_regions (written (cred_copies ans ucred fd)).
Proof.
  unfold user_at, user_regions, written, cred_copies, uid, rgid, prison, cdir, sceProcType. intros.
  cbn [map]. rewrite !Forall_cons, Forall_nil. unfold user_at. cbn [fst snd]. lia.
Qed.

Lemma process_ranges m td ucred fd proc :
  process m td ucred fd proc →
  is_u64 ucred ∧ ucred + 112 ≤ 2 ^ 64 ∧ is_u64 fd ∧ fd + 40 ≤ 2 ^ 64.
Proof. intros [_ _ [_ [_ ?]] [_ [_ ?]] [[? ?] _] [[? ?] _] _ _ _]. unfold is_u64. lia. Qed.

Lemma clear_of_sub rs a n a' n' : clear_of rs a n → a ≤ a' → a' + n' ≤ a + n → clear_of rs a' n'.
Proof. unfold clear_of. rewrite !Forall_forall. intros Hc ?? r Hr. specialize (Hc r Hr). lia. Qed.

Lemma kernel_cred_changes rs m m' ucred fd c :
  changes rs m m' → clear_of rs ucred 112 → clear_of rs fd 40 →
  kernel_cred m ucred fd c → kernel_cred m' ucred fd c.
Proof.
  intros Hch Hu Hf. unfold kernel_cred, cred_rows. rewrite !Forall_cons, !Forall_nil.
  intros (?&?&?&?&?&?&?&?&?&?&?&?&_).
  split_and!; try done; (eapply word_at_changes; [exact Hch| |eassumption]);
    first [eapply clear_of_sub; [exact Hu|lia..]|eapply clear_of_sub; [exact Hf|lia..]].
Qed.

Lemma user_cred_changes rs m m' ans c :
  changes rs m m' → clear_of rs ans 80 → user_cred m ans c → user_cred m' ans c.
Proof.
  intros Hch Hu. unfold user_cred, cred_rows. rewrite !Forall_cons, !Forall_nil.
  intros (?&?&?&?&?&?&?&?&?&?&?&?&_).
  cred_offsets.
  split_and!; try done; (eapply word_at_changes; [exact Hch| |eassumption]);
    (eapply clear_of_sub; [exact Hu|lia..]).
Qed.

Lemma get_cred_spec s td ucred fd proc ans c :
  mira_ready s → locals_mapped (kmem s) → curthread s = td → process (kmem s) td ucred fd proc →
  user_at ans 80 → mapped (kmem s) ans 80 → kernel_cred (kmem s) ucred fd c →
  ∃ s', jbc_get_cred ans s = Ok (0, s') ∧
        steps (scratch ++ written (cred_copies ans ucred fd)) s s' ∧ user_cred (kmem s') ans c.
Proof.
  intros Hr Hl Htd Hp Ha Hm Hc. unfold jbc_get_cred.
  destruct (cred_pointers_spec s td ucred fd proc) as (s1 & E1 & St1); [done..|].
  erewrite bind_ok by exact E1. cbn beta iota.
  destruct (process_ranges _ _ _ _ _ Hp) as (?&?&?&?). rewrite copies_of_get by done.
  assert (process (kmem s1) td ucred fd proc) as [_ _ _ _ [? ?] [? ?] ? _ _]
    by (eapply process_changes; [apply scratch_user|apply St1|done]).
  destruct (copies_spec (cred_copies ans ucred fd) s1) as (s2 & E2 & St2 & Hcp);
    [apply St1|apply cred_copies_ok; try done; by eapply steps_mapped|].
  erewrite bind_ok by exact E2. exists s2. split; [done|]. split; [by eapply steps_trans|].
  eapply cred_copied_out; [exact Hcp|].
  eapply kernel_cred_changes; [apply St1|by apply heap_clear; [apply scratch_user|]..|done].
Qed.

Lemma set_cred_spec s td ucred fd proc ans c :
  mira_ready s → locals_mapped (kmem s) → curthread s = td → process (kmem s) td ucred fd proc →
  user_at ans 80 → mapped (kmem s) ans 80 → clear_of scratch ans 80 → user_cred (kmem s) ans c →
  ∃ s', jbc_set_cred ans s = Ok (0, s') ∧
        steps (scratch ++ written (map swap (cred_copies ans ucred fd))) s s' ∧
        kernel_cred (kmem s') ucred fd c.
Proof.
  intros Hr Hl Htd Hp Ha Hm Hcl Hc. unfold jbc_set_cred.
  destruct (cred_pointers_spec s td ucred fd proc) as (s1 & E1 & St1); [done..|].
  erewrite bind_ok by exact E1. cbn beta iota.
  destruct (process_ranges _ _ _ _ _ Hp) as (?&?&?&?). rewrite copies_of_set by done.
  assert (process (kmem s1) td ucred fd proc) as [_ _ _ _ [? ?] [? ?] ? _ _]
    by (eapply process_changes; [apply scratch_user|apply St1|done]).
  destruct (copies_spec (map swap (cred_copies ans ucred fd)) s1) as (s2 & E2 & St2 & Hcp);
    [apply St1|apply cred_copies_ok; try done; by eapply steps_mapped|].
  erewrite bind_ok by exact E2. exists s2. split; [done|]. split; [by eapply steps_trans|].
  eapply cred_copied_in; [exact Hcp|]. eapply user_cred_changes; [apply St1|done|done].
Qed.

(** Where the twelve members are in the kernel; [jbc_set_cred] writes to these
    bytes only. *)
Definition members (ucred fd : Z) : regions := [
  (ucred + 4, 4); (ucred + 8, 4); (ucred + 12, 4); (ucred + 20, 4); (ucred + 24, 4);
  (ucred + 0x30, 8); (fd + 0x10, 8); (fd + 0x18, 8); (fd + 0x20, 8);
  (ucred + 88, 8); (ucred + 96, 8); (ucred + 104, 8)].

Lemma members_rows ucred fd c :
  members ucred fd =
    map (λ '(_, (f, k), n, _), ((if f : bool then fd else ucred) + k, Z.of_nat n)) (cred_rows c).
Proof. done. Qed.

Lemma written_in_members ans ucred fd k :
  outside (members ucred fd) k → outside (written (map swap (cred_copies ans ucred fd))) k.
Proof.
  unfold outside, members, written, cred_copies, swap. cbn [map fst snd].
  rewrite !Forall_cons, !Forall_nil. cbn [fst snd]. lia.
Qed.

Lemma members_in_objects ucred fd k :
  outside [(ucred, 112); (fd, 40)] k → outside (members ucred fd) k.
Proof.
  unfold outside, members. rewrite !Forall_cons, !Forall_nil. cbn [fst snd]. lia.
Qed.

Lemma members_clear ucred fd a n :
  clear_of [(ucred, 112); (fd, 40)] a n → clear_of (members ucred fd) a n.
Proof.
  unfold clear_of, members. rewrite !Forall_cons, !Forall_nil. cbn [fst snd]. lia.
Qed.

(** Two memories with the same credential agree on the members, byte by byte. *)
Lemma kernel_cred_bytes m m' ucred fd c k :
  kernel_cred m ucred fd c → kernel_cred m' ucred fd c → ¬ outside (members ucred fd) k →
  m' !! k = m !! k.
Proof.
  intros Hc Hc' Hk. rewrite (members_rows _ _ c) in Hk. unfold kernel_cred, outside in *.
  revert Hk Hc Hc'. generalize (cred_rows c). intros l. induction l as [|[[[u [f o]] n] v] l IH].
  { intros Hk. by destruct Hk. }
  cbn [map]. rewrite !Forall_cons. intros Hk [[Hl _] Hr] [[Hl' _] Hr'].
  set (a := (if f : bool then fd else ucred) + o) in *.
  destruct (decide (a ≤ k < a + Z.of_nat n)) as [Hin|Hout].
  - rewrite (load_bytes_lookup _ _ _ _ _ Hl), (load_bytes_lookup _ _ _ _ _ Hl'); (done || lia).
  - apply IH; [|done..]. intros Ho. apply Hk. by split.
Qed.

(** The pointers that lead to the credential survive what leaves them alone. *)
Lemma process_kept rs m m' td ucred fd proc :
  changes rs m m' → clear_of rs (td + 8) 8 → clear_of rs (proc + 0x40) 16 →
  process m td ucred fd proc → process m' td ucred fd proc.
Proof.
  intros Hch Htd Hproc [? [? ?] [? ?] [? ?] [? ?] [? ?] ? ? ?].
  split; try done; try (split; [done|by eapply mapped_changes]);
    (split; [done|]; eapply word_at_changes; [exact Hch| |done]).
  - done.
  - eapply clear_of_sub; [exact Hproc|lia..].
  - eapply clear_of_sub; [exact Hproc|lia..].
Qed.

(** So they survive whatever happens to the members and in user space. *)
Lemma process_after_set rs m m' td ucred fd proc :
  user_regions rs → changes (rs ++ members ucred fd) m m' →
  process m td ucred fd proc → process m' td ucred fd proc.
Proof.
  intros Hrs Hch Hp. pose proof Hp as [_ [Ha _] [Hb _] [Hc _] _ _ _ Ht Hpr].
  eapply process_kept; [exact Hch|..|done]; (apply Forall_app; split; [|by apply members_clear]);
    apply heap_clear; try done.
  unfold heap_at in *. lia.
Qed.

(** [jbc_set_cred] in terms of the members it writes. *)
Lemma set_cred_changes s s' ans ucred fd :
  steps (scratch ++ written (map swap (cred_copies ans ucred fd))) s s' →
  changes (scratch ++ members ucred fd) (kmem s) (kmem s').
Proof.
  intros St. eapply changes_weaken; [apply St|]. intros k [H1 H2]%Forall_app. apply Forall_app.
  split; [done|]. by apply written_in_members.
Qed.

Lemma get_cred_changes s s' ans ucred fd :
  steps (scratch ++ written (cred_copies ans ucred fd)) s s' →
  changes (scratch ++ [(ans, 80)]) (kmem s) (kmem s').
Proof.
  intros St. eapply changes_weaken; [apply St|]. intros k [H1 H2]%Forall_app. apply Forall_app.
  split; [done|]. revert H2. unfold outside, written, cred_copies. cbn [map].
  rewrite !Forall_cons, !Forall_nil. cred_offsets. cbn [fst snd]. lia.
Qed.

(** ** Sequences of stores *)

Definition run_stores (l : list (nat * Z * Z)) : M (kst OS) Z :=
  foldr (λ '(n, a, v) k, store_word n a v ≫= λ _, k) (mret 0) l.

Definition stored_in m (l : list (nat * Z * Z)) : kmemory :=
  foldl (λ m '(n, a, v), store_bytes m a (le_bytes (Z.of_nat n) v)) m l.

Lemma run_stores_spec l s :
  Forall (λ '(n, a, _), mapped (kmem s) a (Z.of_nat n)) l →
  run_stores l s = Ok (0, set_kmem (stored_in (kmem s) l) s).
Proof.
  revert s. induction l as [|[[n a] v] l IH]; intros s Hm; [by destruct s|].
  apply Forall_cons in Hm as [Hm Hl]. unfold run_stores. cbn [foldr].
  erewrite bind_ok by (by apply store_word_spec). etransitivity; [apply IH|done].
  eapply Forall_impl; [exact Hl|]. intros [[n' a'] v'] ?. by apply mapped_store.
Qed.

Lemma stored_in_changes l m :
  changes (map (λ '(n, a, _), (a, Z.of_nat n)) l) m (stored_in m l).
Proof.
  revert m. induction l as [|[[n a] v] l IH]; intros m; [apply changes_refl|].
  change (map _ ((n, a, v) :: l)) with ([(a, Z.of_nat n)] ++ map (λ '(n, a, _), (a, Z.of_nat n)) l).
  eapply changes_trans; [|apply IH]. apply changes_store. rewrite length_le_bytes; lia.
Qed.

(** Stores to words that do not overlap all last. *)
Fixpoint stores_apart (l : list (nat * Z * Z)) : Prop :=
  match l with
  | [] => True
  | (n, a, v) :: l =>
      0 ≤ v < 2 ^ (Z.of_nat n * 8) ∧ clear_of (map (λ '(n, a, _), (a, Z.of_nat n)) l) a (Z.of_nat n) ∧
      stores_apart l
  end.

Lemma stored_in_words l m :
  stores_apart l → Forall (λ '(n, a, v), word_at n (stored_in m l) a v) l.
Proof.
  revert m. induction l as [|[[n a] v] l IH]; intros m; [constructor|].
  intros (Hv & Hcl & Hap). constructor; [|by apply IH].
  change (stored_in m ((n, a, v) :: l))
    with (stored_in (store_bytes m a (le_bytes (Z.of_nat n) v)) l).
  eapply word_at_changes; [apply stored_in_changes|exact Hcl|]. by apply word_at_stored.
Qed.

(** ** [jbc_jailbreak_cred] *)

Definition root_of (p0 rv : Z) : cred :=
  Cred 0 0 0 0 0 p0 rv rv rv 0x3801000000000013 0xffffffffffffffff 0xffffffffffffffff.

Definition root_stores (ans p0 rv : Z) : list (nat * Z * Z) := [
  (8%nat, ans + sceProcCap, 0xffffffffffffffff); (8%nat, ans + sceProcType, 0x3801000000000013);
  (8%nat, ans + sonyCred, 0xffffffffffffffff); (4%nat, ans + svgid, 0); (4%nat, ans + rgid, 0);
  (4%nat, ans + svuid, 0); (4%nat, ans + ruid, 0); (4%nat, ans + uid, 0);
  (8%nat, ans + prison, p0); (8%nat, ans + jdir, rv); (8%nat, ans + rdir, rv); (8%nat, ans + cdir, rv)].

Lemma root_stores_apart ans p0 rv : is_u64 p0 → is_u64 rv → stores_apart (root_stores ans p0 rv).
Proof.
  unfold is_u64. intros. unfold root_stores, stores_apart, clear_of. cbn [map].
  rewrite !Forall_cons, !Forall_nil. cred_offsets. cbn [fst snd]. lia.
Qed.

Lemma root_stores_mapped m ans p0 rv :
  mapped m ans 80 → Forall (λ '(n, a, _), mapped m a (Z.of_nat n)) (root_stores ans p0 rv).
Proof.
  intros Hm. unfold root_stores. rewrite !Forall_cons, Forall_nil. cred_offsets.
  split_and!; try done; (eapply mapped_sub; [exact Hm|lia..]).
Qed.

Lemma root_stores_within ans p0 rv k :
  outside [(ans, 80)] k → outside (map (λ '(n, a, _), (a, Z.of_nat n)) (root_stores ans p0 rv)) k.
Proof.
  unfold outside, root_stores. cbn [map]. rewrite !Forall_cons, !Forall_nil. cred_offsets.
  cbn [fst snd]. lia.
Qed.

Lemma root_stores_user ans p0 rv :
  user_at ans 80 → user_regions (map (λ '(n, a, _), (a, Z.of_nat n)) (root_stores ans p0 rv)).
Proof.
  unfold user_regions, root_stores, user_at. intros Ha. cbn [map]. rewrite !Forall_cons, !Forall_nil.
  cred_offsets. cbn [fst snd]. lia.
Qed.

Lemma jailbreak_cred_spec fuel s td p0 rv n ans :
  mira_ready s → locals_mapped (kmem s) → curthread s = td → is_u64 td →
  init_process (kmem s) td p0 rv n → (n < fuel)%nat → p0 ≠ 0 → rv ≠ 0 →
  word_at 8 (kmem s) addr_prison0 0 ∨ cached (kmem s) p0 rv →
  mapped (kmem s) ans 80 →
  ∃ s', jbc_jailbreak_cred fuel ans s = Ok (0, s') ∧ steps (globals ++ [(ans, 80)]) s s' ∧
        user_cred (kmem s') ans (root_of p0 rv) ∧
        (clear_of [(addr_prison0, 8); (addr_rootvnode, 8)] ans 80 → cached (kmem s') p0 rv).
Proof.
  intros Hr Hl Htd Ht Hi Hf Hp Hv Hc Hm. unfold jbc_jailbreak_cred.
  destruct (get_prison0_spec fuel s td p0 rv n) as (s1 & E1 & St1 & Hc1); [done..|].
  erewrite bind_ok by exact E1. rewrite decide_False by done.
  erewrite bind_ok by (by apply (get_rootvnode_cached fuel s1 p0 rv)). rewrite decide_False by done.
  assert (mapped (kmem s1) ans 80) as Hm1 by (by eapply steps_mapped).
  change (∃ s', run_stores (root_stores ans p0 rv) s1 = Ok (0, s') ∧
    steps (globals ++ [(ans, 80)]) s s' ∧ user_cred (kmem s') ans (root_of p0 rv) ∧
    (clear_of [(addr_prison0, 8); (addr_rootvnode, 8)] ans 80 → cached (kmem s') p0 rv)).
  rewrite run_stores_spec by (by apply root_stores_mapped).
  assert (changes [(ans, 80)] (kmem s1) (stored_in (kmem s1) (root_stores ans p0 rv))) as Hch.
  { eapply changes_weaken; [apply stored_in_changes|]. apply root_stores_within. }
  assert (is_u64 p0 ∧ is_u64 rv) as [Hp64 Hv64] by (split; [apply Hc1|apply Hc1]).
  eexists. split; [done|]. split_and!.
  - eapply steps_trans; [exact St1|]. split; [done|done|]. apply St1.
  - cbn [kmem set_kmem]. pose proof (stored_in_words _ (kmem s1) (root_stores_apart ans p0 rv Hp64 Hv64)) as Hw.
    revert Hw. unfold user_cred, cred_rows. generalize (stored_in (kmem s1) (root_stores ans p0 rv)).
    intros m. unfold root_stores. rewrite !Forall_cons, !Forall_nil. cbn. tauto.
  - intros Hcl. cbn [kmem set_kmem]. apply Forall_cons in Hcl as [Hc2 [Hc3 _]%Forall_cons].
    cbn [fst snd] in *.
    split; (eapply word_at_changes; [exact Hch| |apply Hc1]); constructor; try done; cbn [fst snd]; lia.
Qed.

(** Storing what is there already. *)
Lemma stored_in_id l m :
  Forall (λ '(n, a, v), word_at n m a v) l → stored_in m l = m.
Proof.
  induction l as [|[[n a] v] l IH]; [done|]. intros [[Hl Hv] Hr]%Forall_cons.
  change (stored_in m ((n, a, v) :: l)) with (stored_in (store_bytes m a (le_bytes (Z.of_nat n) v)) l).
  erewrite store_load_id by exact Hl. by apply IH.
Qed.

Lemma root_stores_again m ans p0 rv :
  user_cred m ans (root_of p0 rv) → stored_in m (root_stores ans p0 rv) = m.
Proof.
  intros Hc. apply stored_in_id. revert Hc. unfold user_cred, cred_rows, root_stores.
  rewrite !Forall_cons, !Forall_nil. cbn. tauto.
Qed.

End steps.
