(* ===== verification/JailbreakSpec.v ===== *)
(** * Properties of src/Payload/ps4-libjbc/jailbreak.c

    Finding process 1, and reading, replacing and elevating credentials, for
    every kernel whose memory has the structures the offsets stand for. *)

From S2P Require Import Prelude KMem CStruct KernelRW KernelRWFacts KernelRWSpec Jailbreak JailbreakFacts.
Import Krw Jbc.

(** ** A console for the witnesses *)

Module Kernel.

Definition base : Z := 0xffff800000010000.
Definition own : Z := base + 0x100.
Definition init : Z := base + 0x300.
Definition ucred : Z := base + 0x500.
Definition fd : Z := base + 0x600.
Definition prison0 : Z := base + 0x900.
Definition rootvnode : Z := base + 0xa00.

Definition words (own_next : Z) : list (nat * Z * Z) := [
  (8%nat, base + 8, own);
  (8%nat, own, own_next); (8%nat, own + 0x40, ucred); (8%nat, own + 0x48, fd); (4%nat, own + 0xb0, 77);
  (8%nat, init + 8, own); (8%nat, init + 0x40, base + 0x700); (8%nat, init + 0x48, base + 0x800);
  (4%nat, init + 0xb0, 1);
  (8%nat, base + 0x730, prison0); (8%nat, base + 0x818, rootvnode);
  (4%nat, ucred + 4, 1); (4%nat, ucred + 8, 2); (4%nat, ucred + 12, 3); (4%nat, ucred + 20, 4);
  (4%nat, ucred + 24, 5); (8%nat, ucred + 0x30, 6); (8%nat, ucred + 88, 10); (8%nat, ucred + 96, 11);
  (8%nat, ucred + 104, 12); (8%nat, fd + 0x10, 7); (8%nat, fd + 0x18, 8); (8%nat, fd + 0x20, 9)].

(** Kernel heap from [base], the payload's locals at 0x2000, a buffer at 0x1000. *)
Definition memory (own_next : Z) : kmemory :=
  stored_in (store_bytes (store_bytes (store_bytes ∅ 0x1000 (replicate 80 7))
    0x2000 (replicate 208 0)) base (replicate 0xb00 0)) (words own_next).

Definition console : kst MiraWorld.t :=
  KSt (memory init) base 0 (3, 4) (MiraWorld.World true false true []).
(** The process list ends with the calling process. *)
Definition orphan : kst MiraWorld.t :=
  KSt (memory 0) base 0 (3, 4) (MiraWorld.World true false true []).

Definition own_cred : cred := Cred 1 2 3 4 5 6 7 8 9 10 11 12.

#[global] Instance locals_ok : LocalsOk.
Proof.
  split; unfold user_regions, user_at, clear_of; rewrite ?Forall_cons, ?Forall_nil; simpl; lia.
Qed.

Ltac ranges := vm_compute; repeat split; (reflexivity || discriminate).
Ltac pages n := eapply (Console.mapped_by_load _ _ _ n); [vm_compute; reflexivity|lia].
Ltac word := split; [vm_compute; reflexivity|ranges].
Ltac kword := split; [ranges|word].

Lemma console_ready : mira_ready console.
Proof. by left. Qed.
Lemma orphan_ready : mira_ready orphan.
Proof. by left. Qed.
Lemma console_locals : locals_mapped (kmem console).
Proof. split_and!; [pages 8%nat|pages 4%nat|pages 8%nat|pages 8%nat]. Qed.
Lemma orphan_locals : locals_mapped (kmem orphan).
Proof. split_and!; [pages 8%nat|pages 4%nat|pages 8%nat|pages 8%nat]. Qed.

Lemma console_init : init_process (kmem console) base prison0 rootvnode 1.
Proof.
  exists init, (base + 0x700), (base + 0x800). split_and!; [|ranges|kword..].
  exists own. split_and!; [kword|ranges|]. econstructor.
  - instantiate (1 := 77). kword.
  - done.
  - instantiate (1 := init). kword.
  - kword.
  - constructor. kword.
Qed.

Lemma console_process : process (kmem console) base ucred fd own.
Proof.
  split; [ranges|kword|kword|kword|..].
  - split; [ranges|pages 112%nat].
  - split; [ranges|pages 40%nat].
  - left. vm_compute. discriminate.
  - unfold clear_of. rewrite !Forall_cons, Forall_nil. vm_compute. repeat split; left; discriminate.
  - unfold clear_of. rewrite !Forall_cons, Forall_nil. vm_compute. repeat split; left; discriminate.
Qed.

Lemma console_cred : kernel_cred (kmem console) ucred fd own_cred.
Proof.
  unfold kernel_cred, cred_rows. rewrite !Forall_cons, Forall_nil. split_and!; try done; simpl; word.
Qed.

End Kernel.

(** ** Process 1 *)

(** When process 1 comes after the caller on the process list, [resolve]
    returns 0 with the jail and the root directory of process 1 in [prison0] and
    [rootvnode]; one step of fuel per process is enough. Nothing outside the
    module's own variables changes. *)
Theorem resolve_finds_init {KT : KernelText} {LC : Locals} {LOK : LocalsOk} {OS} {SOS : SockOS OS}
    {ML : MiraLaws OS} (fuel : nat) (s : kst OS) (p0 rv : Z) (n : nat)
    (Hready : mira_ready s) (Hlocals : locals_mapped (kmem s)) (Htd : is_u64 (curthread s))
    (Hinit : init_process (kmem s) (curthread s) p0 rv n) (Hfuel : (n < fuel)%nat) :
  ∃ s', resolve fuel s = Ok (0, s') ∧ word_at 8 (kmem s') addr_prison0 p0 ∧
        word_at 8 (kmem s') addr_rootvnode rv ∧
        (∀ k, outside globals k → kmem s' !! k = kmem s !! k) ∧ mira_ready s'.
Proof.
  destruct (resolve_spec fuel s (curthread s) p0 rv n) as (s' & E & St & Hp & Hv); [done..|].
  exists s'. split_and!; [done..| |apply St]. apply (changes_same _ _ _ (steps_mem _ _ _ St)).
Qed.

Lemma resolve_finds_init_witness :
  ∃ s', resolve 2 Kernel.console = Ok (0, s') ∧ word_at 8 (kmem s') addr_prison0 Kernel.prison0 ∧
        word_at 8 (kmem s') addr_rootvnode Kernel.rootvnode ∧
        (∀ k, outside globals k → kmem s' !! k = kmem Kernel.console !! k) ∧ mira_ready s'.
Proof.
  apply (resolve_finds_init 2 Kernel.console _ _ 1); [apply Kernel.console_ready
    |apply Kernel.console_locals|Kernel.ranges|apply Kernel.console_init|lia].
Defined.

(** When process 1 does not come after the caller, [resolve] never
    returns: at the end of the list it follows the null link, reads all ones
    behind it, and restarts. No amount of fuel is enough. *)
Theorem resolve_diverges {KT : KernelText} {LC : Locals} {LOK : LocalsOk} {OS} {SOS : SockOS OS}
    {ML : MiraLaws OS} (fuel : nat) (s : kst OS) (proc : Z)
    (Hready : mira_ready s) (Hlocals : locals_mapped (kmem s)) (Htd : is_u64 (curthread s))
    (Hproc : heap_word 8 (kmem s) (curthread s + 8) proc) (Hno : no_pid1 (kmem s) proc) :
  resolve fuel s = OutOfFuel.
Proof.
  unfold resolve. apply bind_out_of_fuel. eapply (find_pid1_diverges _ _ _ proc); try done; apply Hproc.
Qed.

Lemma resolve_diverges_witness : resolve 1000 Kernel.orphan = OutOfFuel.
Proof.
  apply (resolve_diverges 1000 Kernel.orphan Kernel.own); [apply Kernel.orphan_ready
    |apply Kernel.orphan_locals|Kernel.ranges|Kernel.kword|].
  apply (no_pid1_end _ _ 77); [Kernel.kword|done|Kernel.kword].
Defined.

(** ** Credentials *)

(** [jbc_get_cred] returns 0 with every member of the caller's credential
    and file table in the structure, and changes only the structure and the
    module's locals. *)
Theorem get_cred_reads {KT : KernelText} {LC : Locals} {LOK : LocalsOk} {OS} {SOS : SockOS OS}
    {ML : MiraLaws OS} (s : kst OS) (ans ucred fd proc : Z) (c : cred)
    (Hready : mira_ready s) (Hlocals : locals_mapped (kmem s))
    (Hproc : process (kmem s) (curthread s) ucred fd proc) (Hc : kernel_cred (kmem s) ucred fd c)
    (Hans : user_at ans 80 ∧ mapped (kmem s) ans 80) :
  ∃ s', jbc_get_cred ans s = Ok (0, s') ∧ user_cred (kmem s') ans c ∧
        (∀ k, outside ((ans, 80) :: scratch) k → kmem s' !! k = kmem s !! k) ∧ mira_ready s'.
Proof.
  destruct Hans as [Hu Hm].
  destruct (get_cred_spec s (curthread s) ucred fd proc ans c) as (s' & E & St & Hc'); [done..|].
  exists s'. split_and!; [done..| |apply St]. intros k [Hk Hs]%Forall_cons.
  apply (changes_same _ _ _ (get_cred_changes _ _ _ _ _ St)). apply Forall_app.
  split; [done|by constructor].
Qed.

Lemma get_cred_reads_witness :
  ∃ s', jbc_get_cred 0x1000 Kernel.console = Ok (0, s') ∧ user_cred (kmem s') 0x1000 Kernel.own_cred ∧
        (∀ k, outside ((0x1000, 80) :: scratch) k → kmem s' !! k = kmem Kernel.console !! k) ∧
        mira_ready s'.
Proof.
  apply (get_cred_reads Kernel.console 0x1000 Kernel.ucred Kernel.fd Kernel.own Kernel.own_cred);
    [apply Kernel.console_ready|apply Kernel.console_locals|apply Kernel.console_process
    |apply Kernel.console_cred|split; [Kernel.ranges|Kernel.pages 80%nat]].
Defined.

(** C8: a credential written with [jbc_set_cred] is read back by
    [jbc_get_cred], into any other structure, and of the kernel only the bytes
    of the twelve members have changed. *)
Theorem set_cred_get_cred {KT : KernelText} {LC : Locals} {LOK : LocalsOk} {OS} {SOS : SockOS OS}
    {ML : MiraLaws OS} (s : kst OS) (src ans ucred fd proc : Z) (c : cred)
    (Hready : mira_ready s) (Hlocals : locals_mapped (kmem s))
    (Hproc : process (kmem s) (curthread s) ucred fd proc)
    (Hsrc : user_at src 80 ∧ mapped (kmem s) src 80 ∧ clear_of scratch src 80)
    (Hc : user_cred (kmem s) src c) (Hans : user_at ans 80 ∧ mapped (kmem s) ans 80) :
  ∃ s1 s2, jbc_set_cred src s = Ok (0, s1) ∧ jbc_get_cred ans s1 = Ok (0, s2) ∧
           user_cred (kmem s2) ans c ∧
           ∀ k, 2 ^ 47 ≤ k → outside (members ucred fd) k → kmem s2 !! k = kmem s !! k.
Proof.
  destruct Hsrc as (Hu & Hm & Hcl), Hans as [Hau Ham].
  destruct (set_cred_spec s (curthread s) ucred fd proc src c) as (s1 & E1 & St1 & Hk); [done..|].
  pose proof (set_cred_changes _ _ _ _ _ St1) as Hch.
  destruct (get_cred_spec s1 (curthread s) ucred fd proc ans c) as (s2 & E2 & St2 & Hc2);
    [apply St1|by eapply steps_locals|apply St1|eapply process_after_set; [apply scratch_user|done..]|done
    |by eapply steps_mapped|done|].
  exists s1, s2. split_and!; [done..|]. intros k Hk47 Ho.
  assert (∀ rs, user_regions rs → outside rs k) as Hus.
  { intros rs Hrs. eapply Forall_impl; [exact Hrs|]. unfold user_at. simpl. intros r ?. lia. }
  rewrite (changes_same _ _ _ (steps_mem _ _ _ St2)).
  - apply (changes_same _ _ _ Hch). apply Forall_app. split; [apply Hus, scratch_user|done].
  - apply Hus. apply user_regions_app; [apply scratch_user|by apply written_user].
Qed.

(** The buffer holding the credential the process has. *)
Definition Kernel_loaded : kst MiraWorld.t :=
  set_kmem (stored_in (kmem Kernel.console) (root_stores 0x1000 6 9)) Kernel.console.

Lemma Kernel_loaded_cred : user_cred (kmem Kernel_loaded) 0x1000 (root_of 6 9).
Proof.
  unfold user_cred, cred_rows. rewrite !Forall_cons, Forall_nil.
  split_and!; try done; simpl; Kernel.word.
Qed.
Lemma Kernel_loaded_process : process (kmem Kernel_loaded) Kernel.base Kernel.ucred Kernel.fd Kernel.own.
Proof.
  eapply process_changes; [|apply stored_in_changes|apply Kernel.console_process].
  apply root_stores_user. Kernel.ranges.
Qed.
Lemma Kernel_loaded_locals : locals_mapped (kmem Kernel_loaded).
Proof. split_and!; [Kernel.pages 8%nat|Kernel.pages 4%nat|Kernel.pages 8%nat|Kernel.pages 8%nat]. Qed.

Lemma set_cred_get_cred_witness :
  ∃ s1 s2, jbc_set_cred 0x1000 Kernel_loaded = Ok (0, s1) ∧ jbc_get_cred 0x1000 s1 = Ok (0, s2) ∧
           user_cred (kmem s2) 0x1000 (root_of 6 9) ∧
           ∀ k, 2 ^ 47 ≤ k → outside (members Kernel.ucred Kernel.fd) k →
                kmem s2 !! k = kmem Kernel_loaded !! k.
Proof.
  apply (set_cred_get_cred Kernel_loaded 0x1000 0x1000 Kernel.ucred Kernel.fd Kernel.own (root_of 6 9)).
  - by left.
  - apply Kernel_loaded_locals.
  - apply Kernel_loaded_process.
  - split_and!; [Kernel.ranges|Kernel.pages 80%nat|].
    unfold clear_of, scratch. rewrite !Forall_cons, Forall_nil. simpl. lia.
  - apply Kernel_loaded_cred.
  - split; [Kernel.ranges|Kernel.pages 80%nat].
Defined.

(** [jbc_jailbreak_cred] returns 0 and turns the structure into the
    credential of process 1: all ids zero, its jail, its root as the three
    directories, every Sony capability. It resolves process 1 at most once: the
    two addresses are cached, so calling it again gives the same structure
    without any fuel. *)
Theorem jailbreak_cred_is_root {KT : KernelText} {LC : Locals} {LOK : LocalsOk} {OS}
    {SOS : SockOS OS} {ML : MiraLaws OS} (fuel : nat) (s : kst OS) (p0 rv : Z) (n : nat) (ans : Z)
    (Hready : mira_ready s) (Hlocals : locals_mapped (kmem s)) (Htd : is_u64 (curthread s))
    (Hinit : init_process (kmem s) (curthread s) p0 rv n) (Hfuel : (n < fuel)%nat)
    (Hnz : p0 ≠ 0 ∧ rv ≠ 0)
    (Hcache : word_at 8 (kmem s) addr_prison0 0 ∨ cached (kmem s) p0 rv)
    (Hans : mapped (kmem s) ans 80 ∧ clear_of [(addr_prison0, 8); (addr_rootvnode, 8)] ans 80) :
  ∃ s1 s2, jbc_jailbreak_cred fuel ans s = Ok (0, s1) ∧ user_cred (kmem s1) ans (root_of p0 rv) ∧
           (∀ k, outside (globals ++ [(ans, 80)]) k → kmem s1 !! k = kmem s !! k) ∧
           jbc_jailbreak_cred 0 ans s1 = Ok (0, s2) ∧ kmem s2 = kmem s1.
Proof.
  destruct Hnz as [Hp Hv], Hans as [Hm Hcl].
  destruct (jailbreak_cred_spec fuel s (curthread s) p0 rv n ans) as (s1 & E1 & St1 & Hc1 & Hca);
    [done..|]. specialize (Hca Hcl). pose proof Hca as [Hcp Hcv].
  exists s1, (set_kmem (stored_in (kmem s1) (root_stores ans p0 rv)) s1). split_and!; [done|done| |..].
  - apply (changes_same _ _ _ (steps_mem _ _ _ St1)).
  - unfold jbc_jailbreak_cred, jbc_get_prison0. rewrite bind_assoc.
    erewrite bind_ok by (by apply load_word_spec).
    rewrite decide_False, ret_bind by done. erewrite bind_ok by (by apply load_word_spec).
    rewrite decide_False by done.
    erewrite bind_ok by (by apply (get_rootvnode_cached 0 s1 p0 rv)). rewrite decide_False by done.
    apply (run_stores_spec (root_stores ans p0 rv) s1). apply root_stores_mapped.
    by eapply steps_mapped.
  - cbn [kmem set_kmem]. by apply root_stores_again.
Qed.

Lemma jailbreak_cred_is_root_witness :
  ∃ s1 s2, jbc_jailbreak_cred 2 0x1000 Kernel.console = Ok (0, s1) ∧
           user_cred (kmem s1) 0x1000 (root_of Kernel.prison0 Kernel.rootvnode) ∧
           (∀ k, outside (globals ++ [(0x1000, 80)]) k → kmem s1 !! k = kmem Kernel.console !! k) ∧
           jbc_jailbreak_cred 0 0x1000 s1 = Ok (0, s2) ∧ kmem s2 = kmem s1.
Proof.
  apply (jailbreak_cred_is_root 2 Kernel.console _ _ 1); [apply Kernel.console_ready
    |apply Kernel.console_locals|Kernel.ranges|apply Kernel.console_init|lia|split; done
    |left; Kernel.word|split; [Kernel.pages 80%nat|]].
  unfold clear_of. rewrite !Forall_cons, Forall_nil. simpl. lia.
Defined.

(** A thread pointer that does not lead into the kernel heap makes
    [jbc_get_cred] return -1 and leave every byte of memory as it was: the failed
    reads answer all ones, and the addresses computed from all ones wrap around
    to user space, where the guard rejects them again. *)
Theorem get_cred_fails_safe {KT : KernelText} {LC : Locals} {LOK : LocalsOk} {OS}
    {SOS : SockOS OS} (s : kst OS) (ans : Z) (Htd : ¬ heap_at (u64 (curthread s + 8)) 8)
    (Hans : user_at ans 80) :
  jbc_get_cred ans s = Ok (-1, s).
Proof.
  assert (∀ p, is_u64 p → ¬ heap_at p 8 → jbc_krw_read64 p KERNEL_HEAP s = Ok (2 ^ 64 - 1, s)) as Hread.
  { intros p Hp Hn. apply read64_refused, refused_out; [lia|apply ans_user|done|done]. }
  unfold jbc_get_cred, cred_pointers. rewrite bind_assoc. erewrite bind_ok by apply get_td_spec.
  rewrite bind_assoc. erewrite bind_ok by (by apply Hread; [apply u64_range|]).
  rewrite bind_assoc. erewrite bind_ok by (apply Hread; [apply u64_range|by vm_compute; intros []]).
  rewrite bind_assoc. erewrite bind_ok by (apply Hread; [apply u64_range|by vm_compute; intros []]).
  rewrite ret_bind. cbn beta iota. cbn [any_fails].
  assert (ppcopyout (ans + uid) (4 + (ans + svuid)) (u64 (2 ^ 64 - 1 + 4)) s = Ok (-1, s)) as Hc.
  { unfold ppcopyout. apply memcpy_refused; cred_offsets;
      replace (u64 (4 + (ans + 8) - (ans + 0))) with 12 by (unfold u64; rewrite Z.mod_small; lia); [done|].
    apply refused_out; [lia| |apply u64_range|by vm_compute; intros []]. unfold user_at in *. lia. }
  rewrite bind_assoc. by erewrite bind_ok by exact Hc.
Qed.

Lemma get_cred_fails_safe_witness :
  jbc_get_cred 0x1000 (KSt (kmem Kernel.console) 0 0 (3, 4) (os Kernel.console)) =
    Ok (-1, KSt (kmem Kernel.console) 0 0 (3, 4) (os Kernel.console)).
Proof. apply get_cred_fails_safe; [by vm_compute; intros []|Kernel.ranges]. Defined.
