(* ===== verification/Sandbox.v ===== *)
(** * Running as root and mounting: src/Payload/ps4-libjbc/utils.c

    [jbc_run_as_root] runs a function under the credential of process 1 and puts
    the caller's own back; [do_mount_in_sandbox] makes a directory below the
    current one and mounts on it, or undoes that. Strings are C strings in the
    same flat memory as everything else; the system calls are parameters. *)

From S2P Require Import Prelude KMem CStruct KernelRW Jailbreak.
Import Krw Jbc.
#[local] Open Scope string_scope.
#[local] Open Scope Z_scope.

(** [enum { CWD_KEEP, CWD_ROOT, CWD_RESET }]; the mode is an [int]. *)
Definition CWD_KEEP : Z := 0.
Definition CWD_ROOT : Z := 1.
Definition CWD_RESET : Z := 2.

Definition EINVAL : Z := 22.
Definition MAX_PATH : Z := 1024.

(** [struct mount_in_sandbox_param]: [path], [name], [ans]. *)
Definition mount_in_sandbox_param : cty :=
  CRecord [("path", c_ptr); ("name", c_ptr); ("ans", c_int)].
Definition p_path : Z := Eval vm_compute in default 0 (offset_of mount_in_sandbox_param "path").
Definition p_name : Z := Eval vm_compute in default 0 (offset_of mount_in_sandbox_param "name").
Definition p_ans : Z := Eval vm_compute in default 0 (offset_of mount_in_sandbox_param "ans").

(** An [iovec] as [nmount] reads it: a pointer, or the address of a string
    constant, given as its text; and a size. *)
Inductive iov_base : Type := Text (s : list Z) | At (p : Z).
Record iovec : Type := Iovec { iov_ptr : iov_base; iov_size : Z }.

(** The system calls of this file, on raw addresses of the payload's memory. *)
Class SandboxSys (OS : Type) : Type := {
  os_unmount : Z → Z → kmemory → OS → Z * OS;
  os_mkdir : Z → Z → kmemory → OS → Z * OS;
  os_rmdir : Z → kmemory → OS → Z * OS;
  os_getcwd : Z → Z → kmemory → OS → Z * kmemory * OS;
  os_nmount : list iovec → Z → kmemory → OS → Z * OS
}.

Module Sandbox.
Section sandbox.
Context {KT : KernelText} {LC : Locals} {OS : Type} {SOS : SockOS OS} {SS : SandboxSys OS}.

#[local] Abbreviation K := (M (kst OS)).

(** ** [jbc_run_as_root] *)

(** Structure assignment. *)
Definition copy_struct (dst src n : Z) : K unit := λ s,
  match load_bytes (kmem s) src (Z.to_nat n), load_bytes (kmem s) dst (Z.to_nat n) with
  | Some bs, Some _ => Ok (tt, set_kmem (store_bytes (kmem s) dst bs) s)
  | _, _ => Undef OutOfBounds
  end.

(** [cred] and [root_cred] are at [addr_cred] and [addr_root_cred]. *)
Definition jbc_run_as_root (fuel : nat) (fn : Z → K unit) (arg : Z) (cwd_mode : Z) : K unit :=
  _ ← jbc_get_cred addr_cred;
  _ ← copy_struct addr_root_cred addr_cred sizeof_jbc_cred;
  _ ← jbc_jailbreak_cred fuel addr_root_cred;
  dir ← (if decide (cwd_mode = CWD_ROOT) then load_word 8 (addr_cred + rdir)
         else if decide (cwd_mode = CWD_RESET) then load_word 8 (addr_root_cred + rdir)
         else load_word 8 (addr_cred + cdir));
  _ ← store_word 8 (addr_root_cred + cdir) dir;
  _ ← jbc_set_cred addr_root_cred;
  _ ← fn arg;
  _ ← jbc_set_cred addr_cred;
  mret tt.

(** ** System calls *)

Definition sys (f : kmemory → OS → Z * OS) : K Z := λ s,
  let '(r, o) := f (kmem s) (os s) in
  Ok (r, KSt (kmem s) (curthread s) (have_mira s) (mira_socket s) o).

Definition unmount (path flags : Z) : K Z := sys (os_unmount path flags).
Definition mkdir (path mode : Z) : K Z := sys (os_mkdir path mode).
Definition rmdir (path : Z) : K Z := sys (os_rmdir path).
Definition nmount (iov : list iovec) (flags : Z) : K Z := sys (os_nmount iov flags).
Definition getcwd (buf sz : Z) : K Z := λ s,
  let '(r, m, o) := os_getcwd buf sz (kmem s) (os s) in
  Ok (r, KSt m (curthread s) (have_mira s) (mira_socket s) o).

(** ** [do_mount_in_sandbox] *)

(** [while(p[l]) l++;] *)
Fixpoint length_loop (fuel : nat) (p l : Z) : K Z :=
  match fuel with
  | 0%nat => out_of_fuel
  | S fuel =>
      c ← load_word 1 (p + l);
      if decide (c ≠ 0) then length_loop fuel p (l + 1) else mret l
  end.

Definition slash : Z := 0x2f.
Definition dot : Z := 0x2e.

(** [for(size_t i = 0; i <= l2; i++)]: [None] is [goto invalid], [Some dots] the
    value of [dots] after the loop. [to] is [path + l1 + 1]. *)
Fixpoint name_loop (n : nat) (name to i dots : Z) : K (option Z) :=
  match n with
  | 0%nat => mret (Some dots)
  | S n =>
      c ← load_word 1 (name + i);
      if decide (c = slash) then mret None
      else
        let dots := if decide (c ≠ dot) then 0 else dots in
        _ ← store_word 1 (to + i) c;
        name_loop n name to (i + 1) dots
  end.

(** [error] at [err_out]; [None] is the early [return]. *)
Definition mount_at (fuel : nat) (path sys_path l1 l2 : Z) : K (option Z) :=
  if decide (sys_path ≠ 0) then
    error ← mkdir path 0x1FF;
    if decide (error ≠ 0) then mret (Some error)
    else
      l3 ← length_loop fuel sys_path 0;
      error ← nmount [
        Iovec (Text (chars "fstype")) 7; Iovec (Text (chars "nullfs")) 7;
        Iovec (Text (chars "fspath")) 7; Iovec (At path) (l1 + l2 + 2);
        Iovec (Text (chars "target")) 7; Iovec (At sys_path) (l3 + 1)] 0;
      if decide (error ≠ 0) then _ ← rmdir path; mret (Some error)
      else mret None
  else
    error ← unmount path 0;
    if decide (error ≠ 0) then mret (Some error)
    else
      error ← rmdir path;
      if decide (error ≠ 0) then mret (Some error) else mret None.

(** The body up to [err_out], with [char path[MAX_PATH+1]] at [path]. *)
Definition mount_error (fuel : nat) (path op : Z) : K (option Z) :=
  _ ← store_word 1 (path + MAX_PATH) 0;
  error ← getcwd path MAX_PATH;
  if decide (error ≠ 0) then mret (Some error)
  else
    l1 ← length_loop fuel path 0;
    name ← load_word 8 (op + p_name);
    l2 ← length_loop fuel name 0;
    if decide (MAX_PATH ≤ u64 (l1 + l2 + 1)) then mret (Some EINVAL)
    else
      _ ← store_word 1 (path + l1) slash;
      r ← name_loop (Z.to_nat (l2 + 1)) name (path + l1 + 1) 0 1;
      match r with
      | None => mret (Some EINVAL)
      | Some dots =>
          if decide (dots ≠ 0 ∧ l2 ≤ 2) then mret (Some EINVAL)
          else
            sys_path ← load_word 8 (op + p_path);
            mount_at fuel path sys_path l1 l2
      end.

Definition do_mount_in_sandbox (fuel : nat) (path op : Z) : K unit :=
  r ← mount_error fuel path op;
  match r with
  | Some error => store_word 4 (op + p_ans) error
  | None => mret tt
  end.

(** [op] is at [op], the buffer of the callee at [path]. *)
Definition jbc_mount_in_sandbox (fuel : nat) (path op system_path mnt_name : Z) : K Z :=
  _ ← store_word 8 (op + p_path) system_path;
  _ ← store_word 8 (op + p_name) mnt_name;
  _ ← store_word 4 (op + p_ans) 0;
  _ ← jbc_run_as_root fuel (do_mount_in_sandbox fuel path) op CWD_ROOT;
  r ← load_word 4 (op + p_ans);
  mret (i32 r).

Definition jbc_unmount_in_sandbox (fuel : nat) (path op mnt_name : Z) : K Z :=
  jbc_mount_in_sandbox fuel path op 0 mnt_name.

End sandbox.
End Sandbox.
