(* ===== verification/SandboxSpec.v ===== *)
(** * Properties of src/Payload/ps4-libjbc/utils.c

    Running as root restores the caller; the mount point that is built from the
    working directory and the name, and the names that are refused. *)

From S2P Require Import Prelude KMem CStruct KernelRW KernelRWFacts KernelRWSpec Jailbreak JailbreakFacts JailbreakSpec.
From S2P Require Import Sandbox.
Import Krw Jbc Sandbox.

(** ** C strings in flat memory *)

Definition c_string (m : kmemory) (a : Z) (s : list Z) : Prop :=
  Forall (λ c, 0 < c < 256) s ∧ load_bytes m a (S (length s)) = Some (s ++ [0]).

Lemma c_string_char m a s i :
  c_string m a s → (i ≤ length s)%nat →
  load_bytes m (a + Z.of_nat i) 1 = Some [default 0 (s !! i)].
Proof.
  intros [_ Hl] Hi. apply load_bytes_intro; [done|]. intros k Hk.
  replace k with (a + Z.of_nat i) by lia.
  rewrite (load_bytes_lookup _ _ _ _ _ Hl) by lia.
  replace (Z.to_nat (a + Z.of_nat i - a)) with i by lia.
  replace (Z.to_nat (a + Z.of_nat i - (a + Z.of_nat i))) with 0%nat by lia.
  destruct (decide (i = length s)) as [->|].
  - rewrite lookup_app_r by lia. by rewrite Nat.sub_diag, (lookup_ge_None_2 s) by lia.
  - rewrite lookup_app_l by lia. destruct (lookup_lt_is_Some_2 s i) as [c Hc]; [lia|]. by rewrite Hc.
Qed.

Lemma c_string_byte m a s i :
  c_string m a s → (i ≤ length s)%nat → word_at 1 m (a + Z.of_nat i) (default 0 (s !! i)).
Proof.
  intros Hs Hi. pose proof (c_string_char _ _ _ _ Hs Hi) as Hl. destruct Hs as [Hc _].
  assert (is_u8 (default 0 (s !! i))) as Hb.
  { destruct (s !! i) as [c|] eqn:E; [|split; done].
    eapply Forall_lookup_1 in Hc; [|done]. unfold is_u8. simpl. lia. }
  pose proof (word_at_intro 1 m (a + Z.of_nat i) _ Hl (Forall_cons_2 _ _ _ Hb (Forall_nil_2 _))) as Hw.
  by rewrite le_word_1 in Hw.
Qed.

Lemma c_string_changes rs m m' a s :
  changes rs m m' → clear_of rs a (Z.of_nat (S (length s))) → c_string m a s → c_string m' a s.
Proof. intros Hc Hcl [? ?]. split; [done|]. by erewrite load_changes. Qed.

(** A directory, a slash and a name, written one after the other. *)
Lemma c_string_joined m path cwd nm :
  c_string m path cwd → Forall (λ c, 0 < c < 256) nm →
  let l1 := Z.of_nat (length cwd) in
  c_string (store_bytes (store_bytes m (path + l1) [0x2f]) (path + l1 + 1) (nm ++ [0]))
    path (cwd ++ 0x2f :: nm).
Proof.
  intros [Hc Hl] Hn l1. split; [apply Forall_app; split; [done|by constructor]|].
  replace (S (length (cwd ++ 0x2f :: nm))) with (length cwd + (1 + S (length nm)))%nat
    by (rewrite length_app; simpl; lia).
  rewrite <- app_assoc. apply load_bytes_app_intro; [|apply (load_bytes_app_intro _ _ _ _ [0x2f])].
  - rewrite !load_store_ne by (subst l1; rewrite ?length_app; simpl; lia).
    eapply load_bytes_take in Hl; [|by apply (Nat.le_succ_diag_r (length cwd))].
    by rewrite take_app_length in Hl.
  - rewrite load_store_ne by (subst l1; simpl; lia). by apply load_store_same.
  - change (Z.of_nat 1) with 1. apply load_store_same. rewrite length_app. simpl. lia.
Qed.

Section sandbox.
Context {KT : KernelText} {LC : Locals} {OS : Type} {SOS : SockOS OS} {SS : SandboxSys OS}.
Implicit Types (s : kst OS) (m : kmemory).

Lemma length_loop_spec fuel a l s str :
  c_string (kmem s) a str → (l ≤ length str)%nat → (length str - l < fuel)%nat →
  length_loop fuel a (Z.of_nat l) s = Ok (Z.of_nat (length str), s).
Proof.
  intros Hs. revert l. induction fuel as [|fuel IH]; intros l Hl Hf; [lia|].
  cbn [length_loop]. erewrite bind_ok by (eapply load_word_spec, c_string_byte; [done|lia]).
  destruct (decide (l = length str)) as [->|].
  - rewrite lookup_ge_None_2 by lia. simpl. done.
  - destruct (lookup_lt_is_Some_2 str l) as [c Hc]; [lia|]. rewrite Hc. simpl.
    destruct Hs as [Hnz _]. eapply Forall_lookup_1 in Hnz; [|done].
    rewrite decide_True by lia. replace (Z.of_nat l + 1) with (Z.of_nat (S l)) by lia.
    apply IH; lia.
Qed.

(** The copy of the name, up to and with its terminator, when it has no slash;
    [dots] ends as 0 because the terminator is not a dot. *)
Lemma name_loop_copies str n i to a s dots :
  c_string (kmem s) a str → slash ∉ str → (i + n = S (length str))%nat → (0 < n)%nat →
  mapped (kmem s) to (Z.of_nat (S (length str))) →
  apart to (Z.of_nat (S (length str))) a (Z.of_nat (S (length str))) →
  name_loop n a to (Z.of_nat i) dots s =
    Ok (Some 0, set_kmem (store_bytes (kmem s) (to + Z.of_nat i) (drop i (str ++ [0]))) s).
Proof.
  revert i s dots. induction n as [|n IH]; intros i s dots Hs Hsl Hi Hn Hm Hap; [lia|].
  cbn [name_loop]. erewrite bind_ok by (eapply load_word_spec, c_string_byte; [done|lia]).
  set (c := default 0 (str !! i)).
  assert ((str ++ [0]) !! i = Some c) as Hci.
  { unfold c. destruct (decide (i = length str)) as [->|].
    - rewrite lookup_app_r, Nat.sub_diag by lia. by rewrite (lookup_ge_None_2 str) by lia.
    - rewrite lookup_app_l by lia. destruct (lookup_lt_is_Some_2 str i) as [x Hx]; [lia|]. by rewrite Hx. }
  assert (c ≠ slash ∧ 0 ≤ c < 256) as [Hcs Hc8].
  { unfold c. destruct (str !! i) as [x|] eqn:E; [|done]. simpl. split.
    - intros ->. apply Hsl. by eapply list_elem_of_lookup_2.
    - destruct Hs as [Hs _]. eapply Forall_lookup_1 in Hs; [|done]. lia. }
  rewrite decide_False by done.
  erewrite bind_ok by (apply store_word_spec; eapply mapped_sub; [exact Hm|lia..]).
  change (Z.of_nat 1) with 1. rewrite le_bytes_1 by (unfold is_u8; lia).
  erewrite (drop_S _ _ i Hci).
  change (store_bytes (kmem s) (to + Z.of_nat i) (c :: drop (S i) (str ++ [0])))
    with (store_bytes (store_bytes (kmem s) (to + Z.of_nat i) [c]) (to + Z.of_nat i + 1) (drop (S i) (str ++ [0]))).
  destruct (decide (i = length str)) as [Hil|Hne].
  - (* the terminator *)
    replace n with 0%nat by lia. cbn [name_loop].
    assert (c = 0) as -> by (unfold c; by rewrite (lookup_ge_None_2 str) by lia).
    rewrite decide_True by done. rewrite drop_ge by (rewrite length_app; simpl; lia). done.
  - replace (Z.of_nat i + 1) with (Z.of_nat (S i)) by lia.
    set (s1 := set_kmem (store_bytes (kmem s) (to + Z.of_nat i) [c]) s).
    assert (changes [(to, Z.of_nat (S (length str)))] (kmem s) (kmem s1)) as Hch.
    { eapply changes_weaken; [apply (changes_store _ (to + Z.of_nat i) [c] 1); done|].
      intros k. unfold outside. rewrite !Forall_cons, !Forall_nil. cbn [fst snd]. lia. }
    rewrite (IH (S i) s1); [|..|done|lia|lia|by eapply mapped_changes|done].
    + replace (to + Z.of_nat (S i)) with (to + Z.of_nat i + 1) by lia. done.
    + eapply c_string_changes; [exact Hch| |done]. unfold apart in Hap.
      constructor; [cbn [fst snd]; lia|done].
Qed.

Lemma name_loop_slash str n i to a s dots :
  c_string (kmem s) a str → slash ∈ drop i str → (i + n = S (length str))%nat →
  mapped (kmem s) to (Z.of_nat (S (length str))) →
  apart to (Z.of_nat (S (length str))) a (Z.of_nat (S (length str))) →
  ∃ s', name_loop n a to (Z.of_nat i) dots s = Ok (None, s') ∧ os s' = os s ∧
        changes [(to, Z.of_nat (S (length str)))] (kmem s) (kmem s').
Proof.
  revert i s dots. induction n as [|n IH]; intros i s dots Hs Hsl Hi Hm Hap.
  { rewrite drop_ge in Hsl by lia. by apply not_elem_of_nil in Hsl. }
  destruct (decide (i = length str)) as [->|Hne].
  { rewrite drop_ge in Hsl by lia. by apply not_elem_of_nil in Hsl. }
  cbn [name_loop]. erewrite bind_ok by (eapply load_word_spec, c_string_byte; [done|lia]).
  destruct (lookup_lt_is_Some_2 str i) as [c Hc]; [lia|]. rewrite Hc. cbn [default].
  rewrite (drop_S _ _ _ Hc) in Hsl.
  case_decide as Hcs; [by exists s|].
  apply elem_of_cons in Hsl as [|Hsl]; [by subst|].
  erewrite bind_ok by (apply store_word_spec; eapply mapped_sub; [exact Hm|lia..]).
  set (s1 := set_kmem _ s).
  assert (changes [(to, Z.of_nat (S (length str)))] (kmem s) (kmem s1)) as Hch.
  { eapply changes_weaken; [apply (changes_store _ (to + Z.of_nat i) _ 1); by rewrite length_le_bytes|].
    intros k. unfold outside. rewrite !Forall_cons, !Forall_nil. cbn [fst snd]. lia. }
  replace (Z.of_nat i + 1) with (Z.of_nat (S i)) by lia.
  destruct (IH (S i) s1 (if decide (c ≠ dot) then 0 else dots)) as (s' & E & Ho & Hch').
  - eapply c_string_changes; [exact Hch| |done]. unfold apart in Hap.
    constructor; [cbn [fst snd]; lia|done].
  - done.
  - lia.
  - by eapply mapped_changes.
  - done.
  - exists s'. split_and!; [done|done|].
    eapply changes_weaken; [by eapply changes_trans|]. intros k Hk. by apply Forall_app.
Qed.

(** ** The mount point *)

(** [getcwd] as documented: the directory, as a C string, in a buffer that is
    long enough. *)
Definition cwd_is (o : OS) (buf sz : Z) (m : kmemory) (cwd : list Z) (m' : kmemory) (o' : OS) : Prop :=
  os_getcwd buf sz m o = (0, m', o') ∧ changes [(buf, sz)] m m' ∧ c_string m' buf cwd ∧
  Z.of_nat (length cwd) < sz.

(** The memory [do_mount_in_sandbox] starts from: its buffer, the name and the
    parameters lie apart. *)
Record mount_ready (s : kst OS) (path op name sys_path : Z) (nm : list Z) : Prop := {
  mr_path : mapped (kmem s) path 1025;
  mr_op : word_at 8 (kmem s) (op + p_path) sys_path ∧ word_at 8 (kmem s) (op + p_name) name;
  mr_name : c_string (kmem s) name nm;
  mr_apart : apart path 1025 op 24 ∧ apart path 1025 name (Z.of_nat (S (length nm)))
}.

(** The state after [getcwd]. *)
Lemma mount_prefix fuel s path op name sys_path nm cwd m1 o1 :
  mount_ready s path op name sys_path nm →
  cwd_is (os s) path MAX_PATH (store_bytes (kmem s) (path + MAX_PATH) [0]) cwd m1 o1 →
  (length cwd < fuel)%nat → (length nm < fuel)%nat →
  let s1 := KSt m1 (curthread s) (have_mira s) (mira_socket s) o1 in
  mount_ready s1 path op name sys_path nm ∧ changes [(path, 1025)] (kmem s) m1 ∧
  mount_error fuel path op s =
    (if decide (MAX_PATH ≤ u64 (Z.of_nat (length cwd) + Z.of_nat (length nm) + 1)) then mret (Some EINVAL)
     else
       _ ← store_word 1 (path + Z.of_nat (length cwd)) slash;
       r ← name_loop (S (length nm)) name (path + Z.of_nat (length cwd) + 1) 0 1;
       match r with
       | None => mret (Some EINVAL)
       | Some dots =>
           if decide (dots ≠ 0 ∧ Z.of_nat (length nm) ≤ 2) then mret (Some EINVAL)
           else
             sys_path ← load_word 8 (op + p_path);
             mount_at fuel path sys_path (Z.of_nat (length cwd)) (Z.of_nat (length nm))
       end) s1.
Proof.
  intros [Hp [Hop1 Hop2] Hnm [Ha1 Ha2]] (Hg & Hch & Hcwd & Hlen) Hf1 Hf2 s1.
  assert (changes [(path, 1025)] (kmem s) m1) as Hch1.
  { eapply changes_weaken; [eapply changes_trans; [|exact Hch];
      apply (changes_store _ (path + MAX_PATH) [0] 1); done|].
    intros k. unfold outside, MAX_PATH. simpl. rewrite !Forall_cons, !Forall_nil. cbn [fst snd]. lia. }
  unfold apart in Ha1, Ha2.
  assert (mount_ready s1 path op name sys_path nm) as Hr.
  { split; cbn [kmem s1].
    - by eapply mapped_changes.
    - split; (eapply word_at_changes; [exact Hch1| |done]); unfold p_path, p_name;
        constructor; try done; cbn [fst snd]; lia.
    - eapply c_string_changes; [exact Hch1| |done]. constructor; [cbn [fst snd]; lia|done].
    - done. }
  split; [done|]. split; [done|]. destruct Hr as [_ [_ Hop2'] Hnm' _]. unfold mount_error.
  erewrite bind_ok by (apply store_word_spec; eapply mapped_sub; [exact Hp|unfold MAX_PATH; lia..]).
  change (Z.of_nat 1) with 1. rewrite le_bytes_1 by done.
  erewrite bind_ok by (unfold getcwd; cbn [kmem set_kmem os]; by rewrite Hg).
  rewrite decide_False by (intros E; by apply E).
  erewrite bind_ok by (eapply (length_loop_spec _ _ 0); [exact Hcwd|lia..]).
  erewrite bind_ok by (apply load_word_spec; exact Hop2').
  erewrite bind_ok by (eapply (length_loop_spec _ _ 0); [exact Hnm'|lia..]).
  replace (Z.to_nat (Z.of_nat (length nm) + 1)) with (S (length nm)) by lia. done.
Qed.

End sandbox.

(** C29: what [do_mount_in_sandbox] mounts on. For a name without a slash that
    fits, the buffer holds the working directory, a slash and the name when the
    mount or unmount itself starts, and nothing else has been done. This is so
    for every such name: the loop copies the terminator too and the terminator
    is not a dot, so the test that should refuse the names [.] and [..] never
    does, and the empty name is accepted as well. *)
Theorem mount_point_built {KT : KernelText} {LC : Locals} {OS} {SOS : SockOS OS} {SS : SandboxSys OS}
    (fuel : nat) (s : kst OS) (path op name sys_path : Z) (nm cwd : list Z) (m1 : kmemory) (o1 : OS)
    (Hready : mount_ready s path op name sys_path nm)
    (Hcwd : cwd_is (os s) path MAX_PATH (store_bytes (kmem s) (path + MAX_PATH) [0]) cwd m1 o1)
    (Hfuel : (length cwd < fuel)%nat ∧ (length nm < fuel)%nat)
    (Hfits : Z.of_nat (length cwd) + Z.of_nat (length nm) + 1 < MAX_PATH) (Hslash : slash ∉ nm) :
  ∃ s', mount_error fuel path op s =
          mount_at fuel path sys_path (Z.of_nat (length cwd)) (Z.of_nat (length nm)) s' ∧
        c_string (kmem s') path (cwd ++ slash :: nm) ∧ os s' = o1 ∧
        changes [(path, 1025)] (kmem s) (kmem s').
Proof.
  destruct Hfuel as [Hf1 Hf2].
  destruct (mount_prefix fuel s path op name sys_path nm cwd m1 o1)
    as ([Hp [Hop1 Hop2] Hnm [Ha1 Ha2]] & Hch & E); [done..|].
  destruct Hcwd as (_ & _ & Hcwd & _). set (s1 := KSt m1 _ _ _ o1) in *. cbn [kmem s1] in *.
  set (l1 := Z.of_nat (length cwd)) in *. unfold MAX_PATH, apart in *.
  rewrite decide_False in E by (rewrite u64_id; unfold is_u64; lia).
  erewrite bind_ok in E by (apply store_word_spec; eapply mapped_sub; [exact Hp|lia..]).
  change (Z.of_nat 1) with 1 in E. rewrite le_bytes_1 in E by done.
  set (m2 := store_bytes m1 (path + l1) [slash]) in *.
  assert (changes [(path, 1025)] m1 m2) as Hch2.
  { eapply changes_weaken; [by apply (changes_store _ (path + l1) [slash] 1)|].
    intros k. unfold outside. rewrite !Forall_cons, !Forall_nil. cbn [fst snd]. lia. }
  set (m3 := store_bytes m2 (path + l1 + 1) (nm ++ [0])) in *.
  assert (changes [(path, 1025)] m2 m3) as Hch3.
  { eapply changes_weaken; [by apply (changes_store _ (path + l1 + 1) (nm ++ [0]) (Z.of_nat (length nm) + 1));
      rewrite length_app; simpl; lia|].
    intros k. unfold outside. rewrite !Forall_cons, !Forall_nil. cbn [fst snd]. lia. }
  erewrite bind_ok in E.
  2:{ apply (name_loop_copies nm (S (length nm)) 0 (path + l1 + 1) name _ 1).
      - cbn [kmem set_kmem s1]. eapply c_string_changes; [exact Hch2| |done].
        constructor; [cbn [fst snd]; lia|done].
      - done.
      - lia.
      - lia.
      - cbn [kmem set_kmem s1]. eapply mapped_changes; [exact Hch2|]. eapply mapped_sub; [exact Hp|lia..].
      - unfold apart. lia. }
  replace (path + l1 + 1 + Z.of_nat 0) with (path + l1 + 1) in E by lia.
  cbn [drop kmem set_kmem s1] in E. fold m2 in E. fold m3 in E. cbv iota in E.
  rewrite decide_False in E by (intros [? _]; done).
  erewrite bind_ok in E.
  2:{ apply load_word_spec. cbn [kmem set_kmem].
      eapply word_at_changes; [eapply changes_trans; [exact Hch2|exact Hch3]| |exact Hop1].
      unfold clear_of, p_path. cbn [app]. rewrite !Forall_cons, Forall_nil. cbn [fst snd]. lia. }
  eexists. split; [exact E|]. cbn [kmem os set_kmem]. split_and!; [|done|].
  2:{ do 2 (eapply changes_trans_same; [eassumption|]). done. }
  apply (c_string_joined m1 path cwd nm); [done|apply Hnm].
Qed.

(** A kernel whose working directory is [/s]: the witnesses' file system. *)
Module Files.

Definition getcwd (buf sz : Z) (m : kmemory) (w : MiraWorld.t) : Z * kmemory * MiraWorld.t :=
  (0, store_bytes m buf [0x2f; 0x73; 0], w).

#[global] Instance sys : SandboxSys MiraWorld.t := {
  os_unmount _ _ _ w := (0, w); os_mkdir _ _ _ w := (0, w); os_rmdir _ _ w := (0, w);
  os_getcwd := getcwd; os_nmount _ _ _ w := (0, w)
}.

(** The parameters at 0x1000, the name [..] at 0x1018, the buffer at 0x3000. *)
Definition memory (nm : list Z) : kmemory :=
  store_bytes (store_bytes (store_bytes (store_bytes (store_bytes ∅ 0x1000 (replicate 24 0))
    0x1000 (le_bytes 8 0x1020)) 0x1008 (le_bytes 8 0x1018)) 0x1018 (nm ++ [0]))
    0x3000 (replicate 1025 0).
Definition console (nm : list Z) : kst MiraWorld.t :=
  KSt (memory nm) 0 0 (3, 4) (MiraWorld.World true false true []).

Definition after_getcwd (nm : list Z) : kmemory :=
  store_bytes (store_bytes (memory nm) (0x3000 + MAX_PATH) [0]) 0x3000 [0x2f; 0x73; 0].

Lemma sandbox_console_ready nm : nm = [dot; dot] ∨ nm = [0x61; slash] → mount_ready (console nm) 0x3000 0x1000 0x1018 0x1020 nm.
Proof.
  intros [-> | ->]; (split;
    [eapply (Console.mapped_by_load _ _ _ 1025); [vm_compute; reflexivity|lia]
    |split; (split; [vm_compute; reflexivity|unfold p_path, p_name; simpl; lia])
    |split; [repeat constructor|vm_compute; reflexivity]
    |split; unfold apart; simpl; lia]).
Qed.

Lemma console_cwd nm :
  cwd_is (os (console nm)) 0x3000 MAX_PATH (store_bytes (kmem (console nm)) (0x3000 + MAX_PATH) [0])
    [0x2f; 0x73] (after_getcwd nm) (MiraWorld.World true false true []).
Proof.
  split_and!.
  - done.
  - eapply changes_weaken; [by apply (changes_store _ 0x3000 [0x2f; 0x73; 0] 3)|].
    intros k. unfold outside, MAX_PATH. rewrite !Forall_cons, !Forall_nil. cbn [fst snd]. lia.
  - split; [repeat constructor|]. by apply load_store_same.
  - unfold MAX_PATH. simpl. lia.
Qed.

End Files.

Lemma mount_point_built_witness :
  ∃ s', mount_error 10 0x3000 0x1000 (Files.console [dot; dot]) = mount_at 10 0x3000 0x1020 2 2 s' ∧
        c_string (kmem s') 0x3000 (chars "/s/..") ∧ os s' = MiraWorld.World true false true [] ∧
        changes [(0x3000, 1025)] (kmem (Files.console [dot; dot])) (kmem s').
Proof.
  apply (mount_point_built 10 (Files.console [dot; dot]) 0x3000 0x1000 0x1018 0x1020 [dot; dot] [0x2f; 0x73]
    (Files.after_getcwd [dot; dot])).
  - apply Files.sandbox_console_ready. by left.
  - apply Files.console_cwd.
  - simpl. lia.
  - unfold MAX_PATH. simpl. lia.
  - unfold slash, dot. rewrite !not_elem_of_cons. split_and!; [done|done|apply not_elem_of_nil].
Defined.

(** A name with a slash in it, or one that does not fit the buffer with the
    working directory, is refused with [EINVAL] in [ans], before any
    system call other than [getcwd]. *)
Theorem mount_bad_name_refused {KT : KernelText} {LC : Locals} {OS} {SOS : SockOS OS} {SS : SandboxSys OS}
    (fuel : nat) (s : kst OS) (path op name sys_path : Z) (nm cwd : list Z) (m1 : kmemory) (o1 : OS)
    (Hready : mount_ready s path op name sys_path nm) (Hans : mapped (kmem s) (op + p_ans) 4)
    (Hcwd : cwd_is (os s) path MAX_PATH (store_bytes (kmem s) (path + MAX_PATH) [0]) cwd m1 o1)
    (Hfuel : (length cwd < fuel)%nat ∧ (length nm < fuel)%nat)
    (Hlen : Z.of_nat (length cwd) + Z.of_nat (length nm) + 1 < 2 ^ 64)
    (Hbad : slash ∈ nm ∨ MAX_PATH ≤ Z.of_nat (length cwd) + Z.of_nat (length nm) + 1) :
  ∃ s', do_mount_in_sandbox fuel path op s = Ok (tt, s') ∧
        word_at 4 (kmem s') (op + p_ans) EINVAL ∧ os s' = o1.
Proof.
  destruct Hfuel as [Hf1 Hf2].
  assert (∃ s2, mount_error fuel path op s = Ok (Some EINVAL, s2) ∧ os s2 = o1 ∧
                changes [(path, 1025)] (kmem s) (kmem s2)) as (s2 & E2 & Ho & Hch2).
  { destruct (mount_prefix fuel s path op name sys_path nm cwd m1 o1)
      as ([Hp _ Hnm [_ Ha2]] & Hch & ->); [done..|].
    destruct Hcwd as (_ & _ & _ & Hl). unfold MAX_PATH, apart in *.
    case_decide as Hfit; [by eexists|]. rewrite u64_id in Hfit by (unfold is_u64; lia).
    destruct Hbad as [Hsl|]; [|done]. set (s1 := KSt m1 _ _ _ o1) in *. cbn [kmem s1] in *.
    erewrite bind_ok by (apply store_word_spec; eapply mapped_sub; [exact Hp|lia..]).
    set (st := set_kmem _ s1).
    assert (changes [(path, 1025)] m1 (kmem st)) as Hch1.
    { eapply changes_weaken; [apply (changes_store _ (path + Z.of_nat (length cwd)) _ 1); by rewrite length_le_bytes|].
      intros k. unfold outside. rewrite !Forall_cons, !Forall_nil. cbn [fst snd]. lia. }
    destruct (name_loop_slash nm (S (length nm)) 0 (path + Z.of_nat (length cwd) + 1) name st 1)
      as (s3 & E3 & Ho3 & Hch3); [|done|lia| |unfold apart; lia|].
    - eapply c_string_changes; [exact Hch1| |done]. constructor; [cbn [fst snd]; lia|done].
    - eapply mapped_changes; [exact Hch1|]. eapply mapped_sub; [exact Hp|lia..].
    - erewrite bind_ok by exact E3. exists s3. split_and!; [done|done|].
      do 2 (eapply changes_trans_same; [eassumption|]). eapply changes_weaken; [exact Hch3|].
      intros k. unfold outside. rewrite !Forall_cons, !Forall_nil. cbn [fst snd]. lia. }
  unfold do_mount_in_sandbox. erewrite bind_ok by exact E2. cbv iota beta.
  rewrite store_word_spec by (by eapply mapped_changes). eexists. split; [done|].
  split; [|done]. cbn [kmem set_kmem]. apply (word_at_stored 4). done.
Qed.

Lemma mount_bad_name_refused_witness :
  ∃ s', do_mount_in_sandbox 10 0x3000 0x1000 (Files.console [0x61; slash]) = Ok (tt, s') ∧
        word_at 4 (kmem s') (0x1000 + p_ans) EINVAL ∧ os s' = MiraWorld.World true false true [].
Proof.
  apply (mount_bad_name_refused 10 (Files.console [0x61; slash]) 0x3000 0x1000 0x1018 0x1020
    [0x61; slash] [0x2f; 0x73] (Files.after_getcwd [0x61; slash])).
  - apply Files.sandbox_console_ready. by right.
  - eapply (Console.mapped_by_load _ _ _ 4); [vm_compute; reflexivity|lia].
  - apply Files.console_cwd.
  - simpl. lia.
  - simpl. lia.
  - left. right. left.
Defined.

(** ** [jbc_run_as_root] *)

(** Where the locals are, as inequalities. *)
Ltac clears :=
  pose proof ans_apart; pose proof globals_apart; pose proof pid_apart;
  unfold clear_of, globals, scratch in *; cbn [app] in *;
  repeat rewrite ?Forall_cons, ?Forall_nil in *; cbn [fst snd] in *; lia.

Section run_as_root.
Context {KT : KernelText} {LC : Locals} {LOK : LocalsOk} {OS : Type} {SOS : SockOS OS} {ML : MiraLaws OS}.
Implicit Types (s : kst OS) (m : kmemory).

Lemma copy_struct_spec dst src n s bs :
  load_bytes (kmem s) src (Z.to_nat n) = Some bs → mapped (kmem s) dst n → 0 ≤ n →
  copy_struct dst src n s = Ok (tt, set_kmem (store_bytes (kmem s) dst bs) s).
Proof.
  intros Hl Hm Hn. unfold copy_struct. rewrite Hl.
  destruct (mapped_load _ _ _ (Z.to_nat n) Hm) as [bs' ->]; [lia|done].
Qed.

(** The working directory each mode gives the function. *)
Definition root_cwd (mode : Z) (c : cred) (rv : Z) : Z :=
  if decide (mode = CWD_ROOT) then c_rdir c else if decide (mode = CWD_RESET) then rv else c_cdir c.

Definition root_with (p0 rv dir : Z) : cred :=
  Cred 0 0 0 0 0 p0 dir rv rv 0x3801000000000013 0xffffffffffffffff 0xffffffffffffffff.

(** A structure whose [cdir] is stored over. *)
Lemma user_cred_cdir m ans p0 rv dir :
  user_cred m ans (root_of p0 rv) → is_u64 dir →
  user_cred (store_bytes m (ans + cdir) (le_bytes 8 dir)) ans (root_with p0 rv dir).
Proof.
  unfold user_cred, cred_rows. rewrite !Forall_cons, !Forall_nil.
  intros (?&?&?&?&?&?&?&?&?&?&?&?&_) Hd. cred_offsets.
  split_and!; try done; try (by apply (word_at_stored 8));
    (apply word_at_ne; [rewrite length_le_bytes by lia; lia|done]).
Qed.

(** The caller's locals. *)
Definition root_locals m : Prop :=
  user_at addr_cred 80 ∧ user_at addr_root_cred 80 ∧
  mapped m addr_cred 80 ∧ mapped m addr_root_cred 80 ∧
  clear_of (globals ++ [(addr_root_cred, 80)]) addr_cred 80 ∧ clear_of globals addr_root_cred 80.

Lemma globals_scratch a n : clear_of globals a n → clear_of scratch a n.
Proof. unfold clear_of, globals, scratch. rewrite !Forall_cons, !Forall_nil. tauto. Qed.

Definition cache_ok m p0 rv : Prop := word_at 8 m addr_prison0 0 ∨ cached m p0 rv.

Lemma cache_ok_changes rs m m' p0 rv :
  changes rs m m' → clear_of rs addr_prison0 8 → clear_of rs addr_rootvnode 8 →
  cache_ok m p0 rv → cache_ok m' p0 rv.
Proof.
  intros Hch H1 H2 [Hz|[Hp Hv]]; [left|right; split]; by eapply word_at_changes.
Qed.

Lemma root_locals_changes rs m m' : changes rs m m' → root_locals m → root_locals m'.
Proof. intros Hch (?&?&?&?&?&?). split_and!; try done; by eapply mapped_changes. Qed.

Lemma cred_rows_64 m ans c :
  user_cred m ans c → word_at 8 m (ans + cdir) (c_cdir c) ∧ word_at 8 m (ans + rdir) (c_rdir c).
Proof. unfold user_cred, cred_rows. rewrite !Forall_cons. tauto. Qed.

(** Reading the caller's credential, copying and elevating it. *)
Lemma run_as_root_elevates fuel s ucred fd proc c p0 rv n :
  mira_ready s → locals_mapped (kmem s) → root_locals (kmem s) →
  process (kmem s) (curthread s) ucred fd proc → kernel_cred (kmem s) ucred fd c →
  init_process (kmem s) (curthread s) p0 rv n → (n < fuel)%nat → p0 ≠ 0 → rv ≠ 0 →
  cache_ok (kmem s) p0 rv →
  ∃ s1 s2 s3, jbc_get_cred addr_cred s = Ok (0, s1) ∧
    copy_struct addr_root_cred addr_cred sizeof_jbc_cred s1 = Ok (tt, s2) ∧
    jbc_jailbreak_cred fuel addr_root_cred s2 = Ok (0, s3) ∧
    user_cred (kmem s3) addr_root_cred (root_of p0 rv) ∧ user_cred (kmem s3) addr_cred c ∧
    steps (globals ++ [(addr_cred, 80); (addr_root_cred, 80)]) s s3.
Proof.
  intros Hr Hl HR Hp Hk Hi Hf Hp0 Hrv Hca. pose proof HR as (Hu1 & Hu2 & Hm1 & Hm2 & Hc1 & Hc2).
  (* the caller's credential *)
  destruct (get_cred_spec s (curthread s) ucred fd proc addr_cred c) as (s1 & E1 & St1 & Hcr1); [done..|].
  pose proof (get_cred_changes _ _ _ _ _ St1) as Hch1.
  assert (user_regions (scratch ++ [(addr_cred, 80)])) as Hur1.
  { apply user_regions_app; [apply scratch_user|]. by apply Forall_cons_2. }
  pose proof (root_locals_changes _ _ _ Hch1 HR) as (_ & _ & Hm1' & Hm2' & _).
  (* its copy *)
  destruct (mapped_load _ _ _ 80 Hm1' eq_refl) as [bs Hbs].
  pose proof (copy_struct_spec addr_root_cred addr_cred 80 s1 bs Hbs Hm2' ltac:(lia)) as E2.
  set (s2 := set_kmem (store_bytes (kmem s1) addr_root_cred bs) s1) in E2.
  assert (changes [(addr_root_cred, 80)] (kmem s1) (kmem s2)) as Hch2.
  { apply changes_store. by rewrite (load_bytes_length _ _ _ _ Hbs). }
  assert (changes (scratch ++ [(addr_cred, 80); (addr_root_cred, 80)]) (kmem s) (kmem s2)) as Hch12.
  { eapply changes_weaken; [by eapply changes_trans|]. intros k.
    unfold outside. rewrite !Forall_app, !Forall_cons, !Forall_nil. tauto. }
  assert (user_regions (scratch ++ [(addr_cred, 80); (addr_root_cred, 80)])) as Hur2.
  { apply user_regions_app; [apply scratch_user|]. by apply Forall_cons_2, Forall_cons_2. }
  (* elevated *)
  destruct (jailbreak_cred_spec fuel s2 (curthread s) p0 rv n addr_root_cred)
    as (s3 & E3 & St3 & Hcr3 & _).
  { apply St1. }
  { eapply steps_locals; [|exact Hl]. split; [exact Hch12|apply St1|apply St1]. }
  { apply St1. }
  { apply Hp. }
  { eapply init_process_changes; [exact Hur2|exact Hch12|done]. }
  { done. } { done. } { done. }
  { eapply (cache_ok_changes _ _ _ p0 rv); [exact Hch12|clears|clears|exact Hca]. }
  { by eapply mapped_changes. }
  assert (changes (globals ++ [(addr_cred, 80); (addr_root_cred, 80)]) (kmem s) (kmem s3)) as Hch13.
  { eapply changes_weaken; [eapply changes_trans; [exact Hch12|apply St3]|]. intros k.
    unfold outside, globals, scratch. rewrite !Forall_app, !Forall_cons, !Forall_nil. tauto. }
  exists s1, s2, s3. split_and!; [done|done|done|done| |split; [done|..]].
  - eapply user_cred_changes; [apply St3|exact Hc1|].
    eapply user_cred_changes; [exact Hch2| |exact Hcr1]. clears.
  - rewrite <- (steps_td _ _ _ St1). apply St3.
  - apply St3.
Qed.

(** Everything up to the call of the function. *)
Lemma run_as_root_prefix fuel s mode ucred fd proc c p0 rv n :
  mira_ready s → locals_mapped (kmem s) → root_locals (kmem s) →
  process (kmem s) (curthread s) ucred fd proc → kernel_cred (kmem s) ucred fd c →
  init_process (kmem s) (curthread s) p0 rv n → (n < fuel)%nat → p0 ≠ 0 → rv ≠ 0 →
  word_at 8 (kmem s) addr_prison0 0 ∨ cached (kmem s) p0 rv →
  ∃ s5, (∀ fn arg, jbc_run_as_root fuel fn arg mode s =
           (_ ← fn arg; _ ← jbc_set_cred addr_cred; mret tt) s5) ∧
        user_cred (kmem s5) addr_cred c ∧
        kernel_cred (kmem s5) ucred fd (root_with p0 rv (root_cwd mode c rv)) ∧
        steps (globals ++ [(addr_cred, 80); (addr_root_cred, 80)] ++ members ucred fd) s s5.
Proof.
  intros Hr Hl HR Hp Hk Hi Hf Hp0 Hrv Hca. pose proof HR as (Hu1 & Hu2 & Hm1 & Hm2 & Hc1 & Hc2).
  destruct (run_as_root_elevates fuel s ucred fd proc c p0 rv n)
    as (s1 & s2 & s3 & E1 & E2 & E3 & Hcr3 & Hcr13 & St3); [done..|].
  pose proof (steps_mem _ _ _ St3) as Hch13.
  assert (user_regions (globals ++ [(addr_cred, 80); (addr_root_cred, 80)])) as Hur3.
  { apply user_regions_app; [apply globals_user|]. by apply Forall_cons_2, Forall_cons_2. }
  (* the working directory *)
  destruct (cred_rows_64 _ _ _ Hcr13) as [Hcd Hrd]. destruct (cred_rows_64 _ _ _ Hcr3) as [_ Hrr].
  assert ((if decide (mode = CWD_ROOT) then load_word 8 (addr_cred + rdir)
           else if decide (mode = CWD_RESET) then load_word 8 (addr_root_cred + rdir)
           else load_word 8 (addr_cred + cdir)) s3 = Ok (root_cwd mode c rv, s3)) as E4.
  { unfold root_cwd. repeat case_decide; by apply load_word_spec. }
  assert (is_u64 (root_cwd mode c rv)) as Hd64.
  { unfold root_cwd. repeat case_decide; [apply Hrd|apply Hrr|apply Hcd]. }
  assert (mapped (kmem s3) addr_root_cred 80) as Hm3 by (by eapply mapped_changes).
  assert (store_word 8 (addr_root_cred + cdir) (root_cwd mode c rv) s3 =
    Ok (tt, set_kmem (store_bytes (kmem s3) (addr_root_cred + cdir) (le_bytes 8 (root_cwd mode c rv))) s3)) as E5.
  { apply store_word_spec. eapply mapped_sub; [exact Hm3|unfold cdir; lia..]. }
  set (s4 := set_kmem _ s3) in E5.
  assert (changes [(addr_root_cred, 80)] (kmem s3) (kmem s4)) as Hch4.
  { eapply changes_weaken; [by apply (changes_store _ (addr_root_cred + cdir) _ 8); rewrite length_le_bytes|].
    intros k. unfold outside, cdir. rewrite !Forall_cons, !Forall_nil. cbn [fst snd]. lia. }
  assert (changes (globals ++ [(addr_cred, 80); (addr_root_cred, 80)]) (kmem s) (kmem s4)) as Hch14.
  { eapply changes_weaken; [eapply changes_trans; [exact Hch13|exact Hch4]|]. intros k.
    unfold outside. rewrite !Forall_app, !Forall_cons, !Forall_nil. tauto. }
  pose proof (user_cred_cdir _ _ _ _ _ Hcr3 Hd64) as Hcr4.
  (* written to the kernel *)
  assert (curthread s4 = curthread s) as Htd4 by apply St3.
  destruct (set_cred_spec s4 (curthread s) ucred fd proc addr_root_cred
    (root_with p0 rv (root_cwd mode c rv)))
    as (s5 & E6 & St6 & Hk6); [apply St3| |exact Htd4| |exact Hu2|by eapply mapped_changes|clears|exact Hcr4|].
  { eapply steps_locals; [|exact Hl]. split; [exact Hch14|exact Htd4|apply St3]. }
  { eapply process_changes; [exact Hur3|exact Hch14|exact Hp]. }
  exists s5. pose proof (set_cred_changes _ _ _ _ _ St6) as Hch6. split_and!; [| |exact Hk6|split].
  - intros fn arg. unfold jbc_run_as_root. erewrite bind_ok by exact E1. erewrite bind_ok by exact E2.
    erewrite bind_ok by exact E3. erewrite bind_ok by exact E4. erewrite bind_ok by exact E5.
    by erewrite bind_ok by exact E6.
  - eapply user_cred_changes; [exact Hch6| |].
    { apply Forall_app. split; [clears|]. apply members_clear.
      destruct Hp as [_ _ _ _ [[? ?] _] [[? ?] _] _ _ _]. unfold user_at in Hu1.
      repeat constructor; cbn [fst snd]; lia. }
    eapply user_cred_changes; [exact Hch4| |exact Hcr13]. clears.
  - eapply changes_weaken; [eapply changes_trans; [exact Hch14|exact Hch6]|]. intros k.
    unfold outside, globals, scratch. rewrite !Forall_app, !Forall_cons, !Forall_nil. tauto.
  - rewrite <- Htd4. apply St6.
  - apply St6.
Qed.
End run_as_root.

(** C6: [jbc_run_as_root] runs the function as root and undoes that. The function
    is assumed to return from every state with the root credential, to leave
    alone the saved credential, the thread and the pointers from the thread to
    the credential and the file table, to unmap nothing and to keep Mira usable.
    It is called with the credential of process 1 (the working directory chosen
    by the mode) in the kernel, of which nothing else has changed; afterwards
    each byte of the twelve members is what it was before the call, and each
    other byte of the kernel what the function left there. So the whole kernel
    is as before when the function changed no more of it than these members. *)
Theorem run_as_root_restores {KT : KernelText} {LC : Locals} {LOK : LocalsOk} {OS} {SOS : SockOS OS}
    {ML : MiraLaws OS} (fuel : nat) (fn : Z → M (kst OS) unit) (arg mode : Z) (s : kst OS)
    (ucred fd proc p0 rv : Z) (c : cred) (n : nat) (own : regions)
    (Hready : mira_ready s) (Hlocals : locals_mapped (kmem s) ∧ root_locals (kmem s))
    (Hproc : process (kmem s) (curthread s) ucred fd proc) (Hcred : kernel_cred (kmem s) ucred fd c)
    (Hinit : init_process (kmem s) (curthread s) p0 rv n) (Hfuel : (n < fuel)%nat)
    (Hnz : p0 ≠ 0 ∧ rv ≠ 0) (Hcache : cache_ok (kmem s) p0 rv)
    (Hown : clear_of own addr_cred 80 ∧ clear_of own (curthread s + 8) 8 ∧ clear_of own (proc + 0x40) 16)
    (Hfn : ∀ s1, mira_ready s1 → curthread s1 = curthread s →
      kernel_cred (kmem s1) ucred fd (root_with p0 rv (root_cwd mode c rv)) →
      ∃ s2, fn arg s1 = Ok (tt, s2) ∧ steps own s1 s2) :
  ∃ s1 s2 s',
    kernel_cred (kmem s1) ucred fd (root_with p0 rv (root_cwd mode c rv)) ∧
    (∀ k, 2 ^ 47 ≤ k → outside (members ucred fd) k → kmem s1 !! k = kmem s !! k) ∧
    fn arg s1 = Ok (tt, s2) ∧ jbc_run_as_root fuel fn arg mode s = Ok (tt, s') ∧
    kernel_cred (kmem s') ucred fd c ∧
    (∀ k, ¬ outside (members ucred fd) k → kmem s' !! k = kmem s !! k) ∧
    (∀ k, 2 ^ 47 ≤ k → outside (members ucred fd) k → kmem s' !! k = kmem s2 !! k) ∧
    ((∀ k, 2 ^ 47 ≤ k → outside (members ucred fd) k → kmem s2 !! k = kmem s1 !! k) →
     ∀ k, 2 ^ 47 ≤ k → kmem s' !! k = kmem s !! k) ∧
    mira_ready s'.
Proof.
  destruct Hlocals as [Hl HR], Hnz as [Hp0 Hrv], Hown as (Hoc & Hot & Hop).
  pose proof HR as (Hu1 & _ & Hm1 & _ & Hc1 & _).
  destruct (run_as_root_prefix fuel s mode ucred fd proc c p0 rv n) as (s5 & E & Hcr & Hk & St5); [done..|].
  destruct (Hfn s5) as (s6 & E6 & St6); [apply St5|apply St5|done|].
  assert (curthread s6 = curthread s) as Htd by (rewrite <- (steps_td _ _ _ St5); apply St6).
  pose proof (steps_trans _ _ _ _ _ St5 St6) as St56.
  assert (user_regions (globals ++ [(addr_cred, 80); (addr_root_cred, 80)])) as Hur.
  { apply user_regions_app; [apply globals_user|]. apply Forall_cons_2; [done|]. apply Forall_cons_2; [apply HR|done]. }
  destruct (set_cred_spec s6 (curthread s) ucred fd proc addr_cred c)
    as (s7 & E7 & St7 & Hk7); [apply St6|by eapply steps_locals|done| |done|by eapply steps_mapped|clears| |].
  - eapply process_kept; [apply St6|done..|].
    eapply process_after_set; [exact Hur| |exact Hproc].
    eapply changes_weaken; [apply St5|]. intros k. by rewrite app_assoc.
  - eapply user_cred_changes; [apply St6|done|exact Hcr].
  - assert (∀ k, 2 ^ 47 ≤ k → outside (members ucred fd) k → kmem s5 !! k = kmem s !! k) as Hk5.
    { intros k Hk47 Ho. apply (changes_same _ _ _ (steps_mem _ _ _ St5)). rewrite app_assoc.
      apply Forall_app. split; [by apply user_outside|done]. }
    assert (∀ k, 2 ^ 47 ≤ k → outside (members ucred fd) k → kmem s7 !! k = kmem s6 !! k) as Hk67.
    { intros k Hk47 Ho. apply (changes_same _ _ _ (set_cred_changes _ _ _ _ _ St7)).
      apply Forall_app. split; [by apply user_outside; [apply scratch_user|]|done]. }
    assert (∀ k, ¬ outside (members ucred fd) k → kmem s7 !! k = kmem s !! k) as Hkm
      by (intros k; by apply kernel_cred_bytes with (c := c)).
    exists s5, s6, s7. rewrite E. erewrite bind_ok by exact E6. erewrite bind_ok by exact E7.
    split_and!; try done; [|apply St7].
    intros Hsame k Hk47. destruct (decide (outside (members ucred fd) k)) as [Ho|Ho]; [|by apply Hkm].
    by rewrite Hk67, Hsame, Hk5.
Qed.

(** The witness runs a function that does nothing, from a sandbox. *)
Definition idle (_ : Z) : M (kst MiraWorld.t) unit := mret tt.

Lemma run_as_root_restores_witness :
  ∃ s1 s2 s' : kst MiraWorld.t,
    kernel_cred (kmem s1) Kernel.ucred Kernel.fd
      (root_with Kernel.prison0 Kernel.rootvnode (root_cwd CWD_ROOT Kernel.own_cred Kernel.rootvnode)) ∧
    (∀ k, 2 ^ 47 ≤ k → outside (members Kernel.ucred Kernel.fd) k →
      kmem s1 !! k = kmem Kernel.console !! k) ∧
    idle 0 s1 = Ok (tt, s2) ∧
    jbc_run_as_root 2 idle 0 CWD_ROOT Kernel.console = Ok (tt, s') ∧
    kernel_cred (kmem s') Kernel.ucred Kernel.fd Kernel.own_cred ∧
    (∀ k, ¬ outside (members Kernel.ucred Kernel.fd) k → kmem s' !! k = kmem Kernel.console !! k) ∧
    (∀ k, 2 ^ 47 ≤ k → outside (members Kernel.ucred Kernel.fd) k → kmem s' !! k = kmem s2 !! k) ∧
    ((∀ k, 2 ^ 47 ≤ k → outside (members Kernel.ucred Kernel.fd) k → kmem s2 !! k = kmem s1 !! k) →
     ∀ k, 2 ^ 47 ≤ k → kmem s' !! k = kmem Kernel.console !! k) ∧
    mira_ready s'.
Proof.
  apply (run_as_root_restores 2 idle 0 CWD_ROOT Kernel.console Kernel.ucred Kernel.fd Kernel.own
    Kernel.prison0 Kernel.rootvnode Kernel.own_cred 1 []).
  - apply Kernel.console_ready.
  - split; [apply Kernel.console_locals|].
    split_and!; [Kernel.ranges|Kernel.ranges|Kernel.pages 80%nat|Kernel.pages 80%nat|..];
      unfold clear_of, globals; cbn [app]; rewrite !Forall_cons, Forall_nil; simpl; lia.
  - apply Kernel.console_process.
  - apply Kernel.console_cred.
  - apply Kernel.console_init.
  - lia.
  - done.
  - left. Kernel.word.
  - split_and!; constructor.
  - intros s1 Hr Ht _. exists s1. done.
Defined.
