(* ===== verification/DynLink.v ===== *)
(** * Dynamic libraries: src/Payload/lib/dl.c

    [dlopen], [dlopen_ex] and [dlsym] on top of the console's [dynlib_*] system
    calls, which are parameters. A loaded module is initialised by its first
    user. *)

From S2P Require Import Prelude CStruct.
#[local] Open Scope string_scope.
#[local] Open Scope Z_scope.

(** ** Data *)

Record module_segment : Type := ModuleSegment { seg_addr : Z; seg_size : Z; seg_flags : Z }.

Record module_info_ex : Type := ModuleInfoEx {
  st_size : Z;
  mi_name : list Z;
  mi_id : Z;
  tls_index : Z;
  tls_init_addr : Z;
  tls_init_size : Z;
  tls_size : Z;
  tls_offset : Z;
  tls_align : Z;
  init_proc_addr : Z;
  fini_proc_addr : Z;
  reserved1 : Z;
  reserved2 : Z;
  eh_frame_hdr_addr : Z;
  eh_frame_addr : Z;
  eh_frame_hdr_size : Z;
  eh_frame_size : Z;
  segments : list module_segment;
  segment_count : Z;
  ref_count : Z
}.

(** The same declaration as a layout. *)
Definition module_segment_t : cty := CRecord [("addr", c_u64); ("size", c_u32); ("flags", c_u32)].
Definition module_info_ex_t : cty := CRecord [
  ("st_size", c_size_t); ("name", CArray 256 c_char); ("id", c_int); ("tls_index", c_u32);
  ("tls_init_addr", c_u64); ("tls_init_size", c_u32); ("tls_size", c_u32); ("tls_offset", c_u32);
  ("tls_align", c_u32); ("init_proc_addr", c_u64); ("fini_proc_addr", c_u64); ("reserved1", c_u64);
  ("reserved2", c_u64); ("eh_frame_hdr_addr", c_u64); ("eh_frame_addr", c_u64);
  ("eh_frame_hdr_size", c_u32); ("eh_frame_size", c_u32); ("segments", CArray 4 module_segment_t);
  ("segment_count", c_u32); ("ref_count", c_u32)].

Definition sizeof_module_info_ex : Z := Eval vm_compute in size_of module_info_ex_t.

(** ** The console's side

    [dynlib_load_prx path] returns a status and writes a handle when it
    succeeds; [dynlib_get_info_ex handle st_size] fills the structure;
    [dynlib_dlsym handle name] writes an address when it finds the name;
    [call_init addr data_len data] runs an initialiser. *)
Class Dynlib (D : Type) : Type := {
  dynlib_load_prx : list Z → D → Z * option Z * D;
  dynlib_get_info_ex : Z → Z → D → Z * module_info_ex * D;
  dynlib_dlsym : Z → list Z → D → Z * option Z * D;
  call_init : Z → Z → Z → D → D
}.

Module Dl.
Section dl.
Context {D : Type} {DL : Dynlib D}.

(** [mode] is ignored; [data] is an address. *)
Definition dlopen_ex (path : list Z) (mode data data_len : Z) : M D Z := λ d,
  let '(r, h, d) := dynlib_load_prx path d in
  let handle := default 0 h in
  if decide (r ≠ 0) then Ok (0, d)
  else
    let '(r, mi, d) := dynlib_get_info_ex handle sizeof_module_info_ex d in
    if decide (r ≠ 0) then Ok (0, d)
    else if decide (ref_count mi < 2) then
      if decide (init_proc_addr mi = 0) then Undef NullCall
      else Ok (u64 handle, call_init (init_proc_addr mi) data_len data d)
    else Ok (u64 handle, d).

Definition dlopen (path : list Z) (mode : Z) : M D Z := dlopen_ex path mode 0 0.

(** The address starts as 0 and the status of [dynlib_dlsym] is dropped. *)
Definition dlsym (handle : Z) (name : list Z) : M D Z := λ d,
  let '(_, addr, d) := dynlib_dlsym (i32 handle) name d in
  Ok (default 0 addr, d).

End dl.
End Dl.

(** ** What the loader promises *)

(** [refs d path]: how often [path] has been loaded; [inits d]: the initialisers
    that ran, oldest first; [symbols path]: what the library exports. *)
Class DynlibLaws (D : Type) {DL : Dynlib D} : Type := {
  refs : D → list Z → Z;
  inits : D → list Z;
  lib_handle : list Z → Z;
  lib_init : list Z → Z;
  exports : list Z → list Z → option Z;
  loadable : list Z → Prop;
  handle_law path : loadable path → is_i32 (lib_handle path) ∧ lib_init path ≠ 0;
  load_law path d : loadable path →
    ∃ d', dynlib_load_prx path d = (0, Some (lib_handle path), d') ∧
          refs d' path = refs d path + 1 ∧ (∀ p, p ≠ path → refs d' p = refs d p) ∧ inits d' = inits d;
  load_fail_law path d : ¬ loadable path →
    ∃ r d', dynlib_load_prx path d = (r, None, d') ∧ r ≠ 0 ∧ inits d' = inits d ∧
            ∀ p, refs d' p = refs d p;
  info_law path n d : loadable path → n = sizeof_module_info_ex →
    ∃ mi d', dynlib_get_info_ex (lib_handle path) n d = (0, mi, d') ∧
             ref_count mi = refs d path ∧ init_proc_addr mi = lib_init path ∧
             (∀ p, refs d' p = refs d p) ∧ inits d' = inits d;
  init_law a n x d : inits (call_init a n x d) = inits d ++ [a] ∧
                     ∀ p, refs (call_init a n x d) p = refs d p;
  dlsym_law path name d : loadable path →
    ∃ r d', dynlib_dlsym (lib_handle path) name d = (r, exports path name, d') ∧
            inits d' = inits d ∧ ∀ p, refs d' p = refs d p;
  dlsym_bad_law name d : ∃ r d', dynlib_dlsym 0 name d = (r, None, d') ∧
            inits d' = inits d ∧ ∀ p, refs d' p = refs d p
}.

(** ** Lemmas *)

Lemma i32_u64 z : is_i32 z → i32 (u64 z) = z.
Proof.
  intros Hz. unfold is_i32 in Hz. unfold i32, u64.
  destruct (decide (0 ≤ z)).
  - rewrite (Z.mod_small z) by lia. rewrite Z.mod_small; lia.
  - replace (z `mod` 2 ^ 64) with (z + 2 ^ 64).
    2:{ symmetry. rewrite <- (Z.mod_add z 1 (2 ^ 64)) by lia. rewrite Z.mod_small; lia. }
    replace (z + 2 ^ 64 + 2 ^ 31) with (z + 2 ^ 31 + 2 ^ 32 * 2 ^ 32) by lia.
    rewrite Z.mod_add by lia. rewrite Z.mod_small; lia.
Qed.

Section laws.
Context {D : Type} {DL : Dynlib D} {LW : DynlibLaws D}.
Import Dl.

Lemma dlopen_spec path mode d :
  loadable path → 0 ≤ refs d path →
  ∃ d', dlopen path mode d = Ok (u64 (lib_handle path), d') ∧ refs d' path = refs d path + 1 ∧
        inits d' = inits d ++ (if decide (refs d path = 0) then [lib_init path] else []).
Proof.
  intros Hl Hr. unfold dlopen, dlopen_ex.
  destruct (handle_law path Hl) as [_ Hi].
  destruct (load_law path d Hl) as (d1 & -> & Hr1 & _ & Hi1).
  rewrite decide_False by (intros E; by apply E).
  change (default 0 (Some (lib_handle path))) with (lib_handle path).
  destruct (info_law path _ d1 Hl eq_refl) as (mi & d2 & -> & Hrc & Hia & Hr2 & Hi2).
  rewrite decide_False by (intros E; by apply E). rewrite Hrc, Hr1, Hia.
  destruct (decide (refs d path = 0)) as [Hz|Hnz].
  - rewrite decide_True, decide_False by (done || lia).
    destruct (init_law (lib_init path) 0 0 d2) as [Hin Hrn].
    eexists. split; [done|]. rewrite Hrn, Hr2, Hin, Hi2, Hi1. done.
  - rewrite decide_False by lia. eexists. split; [done|].
    rewrite Hr2, Hi2, Hi1, app_nil_r. done.
Qed.

(** What a handle can be: that of a library, or null. *)
Definition handle_of (path : list Z) (h : Z) : Prop :=
  (loadable path ∧ h = u64 (lib_handle path)) ∨ (¬ loadable path ∧ h = 0).

(** Opening and looking up never go wrong, and never lose a reference. *)
Lemma dlopen_total path mode d :
  (∀ p, 0 ≤ refs d p) → loadable path ∨ ¬ loadable path →
  ∃ h d', dlopen path mode d = Ok (h, d') ∧ handle_of path h ∧ ∀ p, 0 ≤ refs d' p.
Proof.
  intros Hr [Hl|Hn].
  - unfold dlopen, dlopen_ex. destruct (handle_law path Hl) as [_ Hi].
    destruct (load_law path d Hl) as (d1 & -> & Hr1 & Hro & _).
    rewrite decide_False by (intros E; by apply E).
    change (default 0 (Some (lib_handle path))) with (lib_handle path).
    destruct (info_law path _ d1 Hl eq_refl) as (mi & d2 & -> & Hrc & Hia & Hr2 & _).
    rewrite decide_False by (intros E; by apply E). rewrite Hia.
    assert (∀ p, 0 ≤ refs d2 p) as Hnn.
    { intros p. rewrite Hr2. destruct (decide (p = path)) as [->|]; [specialize (Hr path); lia|].
      by rewrite Hro. }
    destruct (decide (ref_count mi < 2)); [rewrite decide_False by done|]; eexists _, _;
      (split; [done|]); (split; [by left|]); [|done].
    intros p. destruct (init_law (lib_init path) 0 0 d2) as [_ ->]. done.
  - unfold dlopen, dlopen_ex. destruct (load_fail_law path d Hn) as (r & d1 & -> & Hr0 & _ & Hr1).
    rewrite decide_True by done. eexists _, _. split; [done|]. split; [by right|].
    intros p. by rewrite Hr1.
Qed.

Lemma dlsym_total path h name d :
  (∀ p, 0 ≤ refs d p) → handle_of path h →
  ∃ a d', dlsym h name d = Ok (a, d') ∧ (¬ loadable path → a = 0) ∧
          (loadable path → a = default 0 (exports path name)) ∧ ∀ p, 0 ≤ refs d' p.
Proof.
  intros Hr [[Hl ->]|[Hn ->]]; unfold dlsym.
  - rewrite i32_u64 by (by apply handle_law).
    destruct (dlsym_law path name d Hl) as (r & d' & -> & _ & Hr').
    eexists _, _. split_and!; [done|done|done|]. intros p. by rewrite Hr'.
  - change (i32 0) with 0. destruct (dlsym_bad_law name d) as (r & d' & -> & _ & Hr').
    eexists _, _. split_and!; [done|done|done|]. intros p. by rewrite Hr'.
Qed.

(** Opening a library several times in a row. *)
Fixpoint dlopen_times (n : nat) (path : list Z) (mode : Z) : M D (list Z) :=
  match n with
  | 0%nat => mret []
  | S n => h ← dlopen path mode; hs ← dlopen_times n path mode; mret (h :: hs)
  end.

Lemma dlopen_times_spec n path mode d :
  loadable path → 0 ≤ refs d path →
  ∃ d', dlopen_times n path mode d = Ok (replicate n (u64 (lib_handle path)), d') ∧
        refs d' path = refs d path + Z.of_nat n ∧
        inits d' = inits d ++
          (if decide (refs d path = 0 ∧ n ≠ 0%nat) then [lib_init path] else []).
Proof.
  intros Hl. revert d. induction n as [|n IH]; intros d Hr.
  - exists d. rewrite decide_False by (intros [_ E]; done). rewrite app_nil_r. split_and!; [done|lia|done].
  - destruct (dlopen_spec path mode d Hl Hr) as (d1 & E1 & Hr1 & Hi1).
    destruct (IH d1) as (d2 & E2 & Hr2 & Hi2); [lia|].
    exists d2. cbn [dlopen_times]. erewrite bind_ok by exact E1. erewrite bind_ok by exact E2.
    split_and!; [done|lia|]. rewrite Hi2, Hi1, Hr1.
    rewrite (decide_False (P := refs d path + 1 = 0 ∧ n ≠ 0%nat)) by lia.
    rewrite app_nil_r. f_equal. by repeat case_decide; try lia.
Qed.

End laws.

(** ** Properties *)

(** A loader with two libraries, for the witnesses. *)
Module Loader.

Record t : Type := World { counts : list Z → Z; log : list Z }.

Definition libc : list Z := chars "libc.sprx".
Definition bgft : list Z := chars "libSceBgft.sprx".
Definition known (path : list Z) : bool := bool_decide (path = libc) || bool_decide (path = bgft).
Definition handle (path : list Z) : Z := if decide (path = libc) then 1 else 2.
Definition init_of (path : list Z) : Z := if decide (path = libc) then 0x100 else 0x200.
Definition symbol (path name : list Z) : option Z :=
  if decide (name = chars "sceBgftServiceIntInit" ∧ path = bgft) then Some 0x210 else None.

Definition load (path : list Z) (w : t) : Z * option Z * t :=
  if known path then
    (0, Some (handle path),
     World (λ p, if decide (p = path) then counts w p + 1 else counts w p) (log w))
  else (-1, None, w).

Definition path_of (h : Z) : option (list Z) :=
  if decide (h = 1) then Some libc else if decide (h = 2) then Some bgft else None.

Definition info (h n : Z) (w : t) : Z * module_info_ex * t :=
  match path_of h with
  | Some p => (0, ModuleInfoEx n p h 0 0 0 0 0 0 (init_of p) 0 0 0 0 0 0 0 [] 0 (counts w p), w)
  | None => (-1, ModuleInfoEx n [] h 0 0 0 0 0 0 0 0 0 0 0 0 0 0 [] 0 0, w)
  end.

Definition dlsym_ (h : Z) (name : list Z) (w : t) : Z * option Z * t :=
  match path_of h with
  | Some p => (0, symbol p name, w)
  | None => (-1, None, w)
  end.

#[global] Instance dynlib : Dynlib t := {
  dynlib_load_prx := load; dynlib_get_info_ex := info; dynlib_dlsym := dlsym_;
  call_init a _ _ w := World (counts w) (log w ++ [a])
}.

Lemma path_of_handle path : known path = true → path_of (handle path) = Some path.
Proof.
  unfold known, handle. intros [->%bool_decide_eq_true | ->%bool_decide_eq_true]%orb_true_iff; done.
Qed.

#[global] Program Instance laws : DynlibLaws t := {
  refs := counts; inits := log; lib_handle := handle; lib_init := init_of; exports := symbol;
  loadable path := known path = true
}.
Next Obligation. intros path _. unfold handle, init_of, is_i32. split; case_decide; done. Qed.
Next Obligation.
  intros path d Hk. simpl. unfold load. rewrite Hk. eexists. split; [done|]. simpl.
  rewrite decide_True by done. split_and!; [done| |done]. intros p Hp. by rewrite decide_False.
Qed.
Next Obligation.
  intros path d Hk. simpl. unfold load. apply not_true_is_false in Hk. rewrite Hk. by eexists _, _.
Qed.
Next Obligation.
  intros path n d Hk _. simpl. unfold info. rewrite path_of_handle by done. by eexists _, _.
Qed.
Next Obligation. done. Qed.
Next Obligation.
  intros path name d Hk. simpl. unfold dlsym_. rewrite path_of_handle by done. by eexists _, _.
Qed.
Next Obligation. intros name d. by eexists _, _. Qed.

End Loader.

(** C39: however often a library is opened, its initialiser runs exactly once, on
    the first opening, and every opening returns the library's handle. *)
Theorem dlopen_initialises_once {D} {DL : Dynlib D} {LW : DynlibLaws D} (n : nat) (path : list Z)
    (mode : Z) (d : D) (Hload : loadable path) (Hfresh : refs d path = 0) (Hn : (0 < n)%nat) :
  ∃ d', dlopen_times n path mode d = Ok (replicate n (u64 (lib_handle path)), d') ∧
        inits d' = inits d ++ [lib_init path].
Proof.
  destruct (dlopen_times_spec n path mode d) as (d' & E & _ & Hi); [done|lia|].
  exists d'. split; [done|]. rewrite Hi, decide_True by (split; [done|lia]). done.
Qed.

Lemma dlopen_initialises_once_witness :
  ∃ d', dlopen_times 3 Loader.bgft 0 (Loader.World (λ _, 0) []) = Ok ([2; 2; 2], d') ∧
        inits d' = [0x200].
Proof.
  destruct (dlopen_initialises_once 3 Loader.bgft 0 (Loader.World (λ _, 0) [])) as (d' & E & Hi);
    [done|done|lia|].
  exists d'. split; [exact E|exact Hi].
Defined.

(** A symbol looked up in an opened library is the one the library exports,
    or null; the handle survives its trip through [void*]. In a library
    that cannot be opened every symbol is null, and no error is reported. *)
Theorem dlsym_after_dlopen {D} {DL : Dynlib D} {LW : DynlibLaws D} (path name : list Z) (mode : Z)
    (d : D) (Hrefs : 0 ≤ refs d path) :
  (loadable path → ∃ d', (Dl.dlopen path mode ≫= λ h, Dl.dlsym h name) d =
                         Ok (default 0 (exports path name), d')) ∧
  (¬ loadable path → ∃ d', (Dl.dlopen path mode ≫= λ h, Dl.dlsym h name) d = Ok (0, d') ∧
                           inits d' = inits d).
Proof.
  split.
  - intros Hl. destruct (dlopen_spec path mode d Hl Hrefs) as (d1 & E1 & _ & _).
    erewrite bind_ok by exact E1. unfold Dl.dlsym.
    rewrite i32_u64 by (by apply handle_law).
    destruct (dlsym_law path name d1 Hl) as (r & d2 & -> & _). by eexists.
  - intros Hn. destruct (load_fail_law path d Hn) as (r & d1 & E & Hr & Hi & _).
    erewrite bind_ok by (unfold Dl.dlopen, Dl.dlopen_ex; rewrite E; by rewrite decide_True).
    unfold Dl.dlsym. change (i32 0) with 0.
    destruct (dlsym_bad_law name d1) as (r2 & d2 & -> & Hi2 & _).
    eexists. split; [done|]. by rewrite Hi2, Hi.
Qed.

Lemma dlsym_after_dlopen_witness :
  ∃ d', (Dl.dlopen Loader.bgft 0 ≫= λ h, Dl.dlsym h (chars "sceBgftServiceIntInit"))
          (Loader.World (λ _, 0) []) = Ok (0x210, d').
Proof.
  destruct (dlsym_after_dlopen Loader.bgft (chars "sceBgftServiceIntInit") 0 (Loader.World (λ _, 0) []))
    as [[d' E] _]; [done|done|]. exists d'. exact E.
Defined.
