(* ===== verification/PayloadMain.v ===== *)
(** * The payload's entry point: src/Payload/main.c

    Elevating the process, looking up the console's services, and the loop that
    receives package descriptions and hands them to the download service. The
    functions behind the looked-up pointers are parameters; a call through a
    null pointer is [NullCall]. [clear_stack], which zeroes memory below the
    stack pointer, changes no object and is left out. *)

From S2P Require Import Prelude KMem KernelRW Jailbreak CMem PayloadStrings Posix PayloadInfo DynLink.
Import Krw Jbc.

(** [ORBIS_KERNEL_PRIO_FIFO_NORMAL], [BGFT_INVALID_TASK_ID]: struct.h. *)
Definition ORBIS_KERNEL_PRIO_FIFO_NORMAL : Z := 0x2BC.
Definition BGFT_INVALID_TASK_ID : Z := -1.

(** The functions of the console's libraries, by address. Strings are passed
    as the text the callee reads; the download service is given the parameter
    block and the memory its pointers lead into. *)
Class Sce (W : Type) : Type := {
  sce_notify : Z → Z → list Z → W → Z * W;
  sce_user_init : Z → Z → W → Z * W;
  sce_get_user : Z → Z → W → (Z * Z) * W;
  sce_call : Z → W → Z * W;
  sce_mmap : Z → Z → Z → W → Z * W;
  sce_bgft_init : Z → Z → Z → W → Z * W;
  sce_register : Z → bgft_download_param → cmem → Z → W → (Z * Z) * W;
  sce_start : Z → Z → W → Z * W
}.

(** The function pointers of [main]. *)
Record sce_functions : Type := SceFunctions {
  sceSysUtilSendSystemNotificationWithText : Z;
  sceUserServiceInitialize : Z;
  sceUserServiceGetForegroundUser : Z;
  sceUserServiceTerminate : Z;
  sceBgftInitialize : Z;
  sceBgftDownloadRegisterTask : Z;
  sceBgftDebugDownloadRegisterTask : Z;
  sceBgftDownloadStartTask : Z;
  sceBgftFinalize : Z
}.

(** How an iteration of [while (1)] ends. *)
Inductive next : Type := Continue | Break | Return (code : Z).

Module Main.

(** ** Elevating the process *)

Section escape.
Context {KT : KernelText} {LC : Locals} {OS : Type} {SOS : SockOS OS}.

(** [struct jbc_cred cred] is at [cred]. *)
Definition main_cred (fuel : nat) (cred : Z) : M (kst OS) unit :=
  _ ← jbc_get_cred cred;
  _ ← jbc_jailbreak_cred fuel cred;
  _ ← store_word 8 (cred + jdir) 0;
  _ ← store_word 8 (cred + sceProcType) 0x3800000000000010;
  _ ← store_word 8 (cred + sonyCred) 0x40001c0000000000;
  _ ← store_word 8 (cred + sceProcCap) 0x900000000000ff00;
  _ ← jbc_set_cred cred;
  mret tt.
End escape.

Section main.
Context {W : Type} {PX : Posix W} {DL : Dynlib W} {SC : Sce W}.

#[local] Abbreviation P := (M (cmem * W)).
Import Info.

(** ** Calls *)

Definition call {A} (f : Z) (body : W → A * W) : P A :=
  if decide (f = 0) then undef NullCall else sys_op body.

Definition notify (f : Z) (type : Z) (text : ptr) : P Z :=
  s ← mem_op (load_cstring text);
  call f (sce_notify f type s).

Definition notify_literal (f : Z) (text : list Z) : P Z :=
  with_array (literal text) (λ p, notify f 222 p).

(** [char err[0x200] = ""; char errCode[0x20] = "";], the code in hexadecimal
    after a fixed text, and the notification. *)
Definition report_code (f : Z) (prefix : list Z) (rv : Z) : P unit :=
  with_array (zeros 0x200) (λ err,
  with_array (zeros 0x20) (λ errCode,
    _ ← mem_op (MainStrings.int32ToHex rv errCode);
    with_array (literal prefix) (λ text,
      _ ← mem_op (MainStrings.concat text errCode err);
      _ ← notify f 222 err;
      mret tt))).

(** ** Looking up the services *)

Definition open_lib (path : list Z) : P Z := on_snd (Dl.dlopen path 0).
Definition sym (lib : Z) (name : list Z) : P Z := on_snd (Dl.dlsym lib name).

Definition load_services : P sce_functions :=
  libSceSysUtil ← open_lib (chars "/system/common/lib/libSceSysUtil.sprx");
  notify_ ← sym libSceSysUtil (chars "sceSysUtilSendSystemNotificationWithText");
  usrsrv ← open_lib (chars "/system/common/lib/libSceUserService.sprx");
  initialize ← sym usrsrv (chars "sceUserServiceInitialize");
  get_user ← sym usrsrv (chars "sceUserServiceGetForegroundUser");
  terminate ← sym usrsrv (chars "sceUserServiceTerminate");
  bgft ← open_lib (chars "/system/common/lib/libSceBgft.sprx");
  bgft_init ← sym bgft (chars "sceBgftServiceIntInit");
  register ← sym bgft (chars "sceBgftServiceDownloadRegisterTask");
  debug_register ← sym bgft (chars "sceBgftServiceIntDebugDownloadRegisterPkg");
  start ← sym bgft (chars "sceBgftServiceIntDownloadStartTask");
  finalize ← sym bgft (chars "sceBgftFinalize");
  mret (SceFunctions notify_ initialize get_user terminate bgft_init register debug_register
          start finalize).

(** The foreground user; 0 when nobody tells. *)
Definition foreground_user (fns : sce_functions) : P Z :=
  _ ← call (sceUserServiceInitialize fns)
        (sce_user_init (sceUserServiceInitialize fns) ORBIS_KERNEL_PRIO_FIFO_NORMAL);
  '(_, uid) ← call (sceUserServiceGetForegroundUser fns)
                (sce_get_user (sceUserServiceGetForegroundUser fns) 0);
  _ ← call (sceUserServiceTerminate fns) (sce_call (sceUserServiceTerminate fns));
  mret uid.

(** ** The package loop *)

Definition failed (rv task : Z) : bool :=
  negb (bool_decide (u32 rv ≠ 0x80990088 ∧ task ≠ BGFT_INVALID_TASK_ID)).

(** From [int task] to the end of the body. *)
Definition register_package (fns : sce_functions) (params : bgft_download_param) : P next :=
  m ← (λ '(m, w), Ok (m, (m, w)));
  '(rv, task) ← call (sceBgftDownloadRegisterTask fns)
                  (sce_register (sceBgftDownloadRegisterTask fns) params m BGFT_INVALID_TASK_ID);
  if negb (failed rv task) then
    _ ← call (sceBgftDownloadStartTask fns) (sce_start (sceBgftDownloadStartTask fns) task);
    mret Continue
  else
    '(rv, task) ← call (sceBgftDebugDownloadRegisterTask fns)
                    (sce_register (sceBgftDebugDownloadRegisterTask fns) params m task);
    if negb (failed rv task) then
      _ ← call (sceBgftDownloadStartTask fns) (sce_start (sceBgftDownloadStartTask fns) task);
      mret Continue
    else if decide (u32 rv = 0x80990086) then
      _ ← notify_literal (sceSysUtilSendSystemNotificationWithText fns)
            (chars "DPI: BGFT Error 0x80990086" ++ [10] ++
             chars "Ensure that there are no old downloads in the notification list.");
      mret Continue
    else if decide (u32 rv = 0x80990088) then
      _ ← notify_literal (sceSysUtilSendSystemNotificationWithText fns)
            (chars "DPI: Package Already Installed!");
      mret Continue
    else if decide (u32 rv = 0x80990039 ∨ u32 rv = 0x80A30026) then
      _ ← notify_literal (sceSysUtilSendSystemNotificationWithText fns)
            (chars "DPI: Insufficient storage space." ++ [10] ++
             chars "Please free up space on your hard drive.");
      mret Continue
    else if decide (u32 rv = 0x80990085) then
      _ ← notify_literal (sceSysUtilSendSystemNotificationWithText fns)
            (chars "DPI: Insufficient storage space." ++ [10] ++
             chars "Please free up non fragmented space on your hard drive.");
      mret Continue
    else
      _ ← report_code (sceSysUtilSendSystemNotificationWithText fns) (chars "DPI: BGFT Error ") rv;
      mret (Return (-1)).

Definition serve_one (fns : sce_functions) (Conn : connection) (params : bgft_download_param) :
    P (bgft_download_param * next) :=
  '(rv, params) ← get_pkg_info Conn params;
  if decide (rv = -1) then
    _ ← notify_literal (sceSysUtilSendSystemNotificationWithText fns) (chars "DPI: GET INFO ERROR");
    mret (params, Return (-1))
  else if decide (rv = 1) then mret (params, Break)
  else
    n ← register_package fns params;
    mret (params, n).

(** [while (1)] and what follows it. *)
Fixpoint serve (fuel : nat) (fns : sce_functions) (Conn : connection) (params : bgft_download_param) :
    P Z :=
  match fuel with
  | 0%nat => out_of_fuel
  | S fuel =>
      '(params, n) ← serve_one fns Conn params;
      match n with
      | Continue => serve fuel fns Conn params
      | Break =>
          _ ← notify_literal (sceSysUtilSendSystemNotificationWithText fns)
                (chars "DirectPackageInstaller Exited");
          mret 0
      | Return code => mret code
      end
  end.

(** The string literals of the initial parameter block outlive everything. *)
Definition literal_object (s : list Z) : P ptr := mem_op (alloc (literal s)).

Definition initial_params (uid : Z) : P bgft_download_param :=
  empty ← literal_object [];
  ps4gd ← literal_object (chars "PS4GD");
  zero ← literal_object (chars "0");
  mret {|
    user_id := uid; entitlement_type := 5; id := empty; content_url := empty;
    content_ex_url := null_ptr; content_name := empty; icon_path := empty; sku_id := null_ptr;
    option_ := BGFT_TASK_OPTION_DISABLE_CDN_QUERY_PARAM; playgo_scenario_id := zero;
    release_date := null_ptr; package_type := ps4gd; package_sub_type := empty; package_size := 0
  |}.

Definition MAP_LENGTH : Z := 0x100000.

(** [main] after the elevation. *)
Definition main_services (fuel : nat) (Conn : connection) : P Z :=
  fns ← load_services;
  uid ← foreground_user fns;
  libSceAppInstUtil ← open_lib (chars "/system/common/lib/libSceAppInstUtil.sprx");
  sceAppInstUtilInitialize ← sym libSceAppInstUtil (chars "sceAppInstUtilInitialize");
  rv ← call sceAppInstUtilInitialize (sce_call sceAppInstUtilInitialize);
  if decide (rv ≠ 0) then
    _ ← report_code (sceSysUtilSendSystemNotificationWithText fns) (chars "DPI: App Inst Util Error ") rv;
    mret (-1)
  else
    mem ← sys_op (sce_mmap MAP_LENGTH (Z.lor PROT_READ PROT_WRITE) (Z.lor MAP_PRIVATE MAP_ANONYMOUS));
    rv ← call (sceBgftInitialize fns) (sce_bgft_init (sceBgftInitialize fns) mem MAP_LENGTH);
    if decide (rv ≠ 0 ∧ u32 rv ≠ 0x80990001) then
      _ ← report_code (sceSysUtilSendSystemNotificationWithText fns) (chars "DPI: BGFT Init Failed ") rv;
      mret (-1)
    else
      params ← initial_params uid;
      serve fuel fns Conn params.

End main.

(** [main]: the kernel's memory first, then the services. [list_fuel] bounds
    the process list, [fuel] the packages served. *)
Definition main {KT : KernelText} {LC : Locals} {OS : Type} {SOS : SockOS OS} {W : Type}
    {PX : Posix W} {DL : Dynlib W} {SC : Sce W} (list_fuel fuel : nat) (cred : Z) (Conn : connection) :
    M (kst OS * (cmem * W)) Z :=
  _ ← on_fst (main_cred list_fuel cred);
  on_snd (main_services fuel Conn).

End Main.
