(* ===== verification/PayloadMainSpec.v ===== *)
(** * Properties of src/Payload/main.c

    What the process has become, the texts the user is shown, how the outcome of
    each registration is handled, and what a missing service does. *)

From S2P Require Import Prelude KMem KernelRW KernelRWFacts KernelRWSpec Jailbreak JailbreakFacts JailbreakSpec CMem.
From S2P Require Import PayloadStrings Posix PayloadInfo PayloadInfoFacts DynLink PayloadMain.
Import Krw Jbc Main Info.

(** ** Footprints *)

Lemma mem_modifies_int32ToHex X v p : p_blk p ∈ X → mem_modifies X (MainStrings.int32ToHex v p).
Proof.
  intros HX. unfold MainStrings.int32ToHex. footprint.
  generalize 7, 2, (9%nat). intros i x n. revert i x.
  induction n; simpl; intros; footprint.
Qed.

Lemma mem_modifies_concat X p q r : p_blk r ∈ X → mem_modifies X (MainStrings.concat p q r).
Proof.
  intros HX. unfold MainStrings.concat.
  assert (∀ n src i off, mem_modifies X (MainStrings.concat_loop n src i r off)) as Hl.
  { induction n; simpl; intros; footprint. }
  footprint; auto.
Qed.
#[export] Hint Resolve mem_modifies_int32ToHex mem_modifies_concat : footprint.

(** ** Texts *)

Section texts.
Context {W : Type} {PX : Posix W} {DL : Dynlib W} {SC : Sce W}.

Lemma call_ok {A} (f : Z) (body : W → A * W) m w a w' :
  f ≠ 0 → body w = (a, w') → call f body (m, w) = Ok (a, (m, w')).
Proof. intros Hf E. unfold call. rewrite decide_False by done. by apply sys_op_ok. Qed.

Lemma call_null {A} (body : W → A * W) s : call 0 body s = Undef NullCall.
Proof. done. Qed.

Lemma notify_ok f type m w b d o s r w' :
  f ≠ 0 → c_objs m !! b = Some d → has_str d o s → sce_notify f type s w = (r, w') →
  notify f type (Ptr b (Z.of_nat o)) (m, w) = Ok (r, (m, w')).
Proof.
  intros Hf Hobj Hs E. unfold notify.
  erewrite bind_ok by (apply mem_op_ok; by eapply load_cstring_ok). by apply call_ok.
Qed.

Lemma pop_push m init : cmem_wf m → pop (c_next m) (push m init) = tick m.
Proof.
  intros (_ & _ & Hf). unfold pop, push, tick. simpl. f_equal.
  apply delete_insert_id. apply Hf. lia.
Qed.

Lemma notify_literal_ok f text m w r w' :
  f ≠ 0 → cmem_wf m → Forall (λ z, z ≠ 0) text → sce_notify f 222 text w = (r, w') →
  notify_literal f text (m, w) = Ok (r, (tick m, w')).
Proof.
  intros Hf Hm Ht E. unfold notify_literal. rewrite <- (pop_push m (literal text)) by done.
  apply with_array_ok.
  apply (notify_ok f 222 _ w (c_next m) (literal text) 0 text r w'); [done| |by apply has_str_literal|done].
  apply lookup_insert_eq.
Qed.

Lemma length_int32_hex v : length (int32_hex v) = 10%nat.
Proof. done. Qed.

(** The text made of a fixed part and a code. *)
Definition coded (prefix : list Z) (rv : Z) : list Z := prefix ++ int32_hex rv.

Lemma modifies_notify X f type p : modifies X (notify f type p).
Proof. unfold notify, call, load_cstring. footprint. by intros ?. Qed.

Lemma modifies_report_code f prefix rv X : modifies X (report_code f prefix rv).
Proof.
  unfold report_code. footprint; try apply modifies_notify.
  - apply mem_modifies_int32ToHex. set_solver.
  - apply mem_modifies_concat. set_solver.
Qed.

Lemma report_code_ok f prefix rv m w r w' :
  f ≠ 0 → cmem_wf m → Forall (λ z, is_u8 z ∧ z ≠ 0) prefix → (length prefix < 0x100)%nat →
  sce_notify f 222 (coded prefix rv) w = (r, w') →
  ∃ m', report_code f prefix rv (m, w) = Ok (tt, (m', w')) ∧ c_objs m' = c_objs m ∧ cmem_wf m'.
Proof.
  intros Hf Hm Hp Hlen E.
  assert (bytes_ok prefix ∧ Forall (λ z, z ≠ 0) prefix) as [Hp8 Hpz].
  { split; (eapply Forall_impl; [exact Hp|]); naive_solver. }
  pose proof (int32_hex_printable rv) as Hh.
  assert (bytes_ok (int32_hex rv) ∧ Forall (λ z, z ≠ 0) (int32_hex rv)) as [Hh8 Hhz].
  { split; (eapply Forall_impl; [exact Hh|]); naive_solver. }
  assert (∀ m' w', report_code f prefix rv (m, w) = Ok (tt, (m', w')) → frame ∅ m m') as Hfr.
  { intros m' w1 Er. eapply (modifies_report_code f prefix rv ∅); [done|exact Er]. }
  set (m1 := push m (zeros 0x200)) in *.
  assert (cmem_wf m1) as Hm1 by (by apply alloc_wf).
  set (m2 := push m1 (zeros 0x20)) in *.
  assert (cmem_wf m2) as Hm2 by (by apply alloc_wf).
  assert (c_objs m2 !! c_next m1 = Some (zeros 0x20)) as Ho1 by apply lookup_insert_eq.
  pose proof (int32ToHex_run rv m2 (c_next m1) (zeros 0x20) 0 Ho1 ltac:(simpl; lia)) as E1.
  set (hex := list_inserts 0 (Byte <$> int32_hex rv ++ [0]) (zeros 0x20)) in E1.
  set (m3 := push (set_obj m2 (c_next m1) hex) (literal prefix)).
  assert (cmem_wf (set_obj m2 (c_next m1) hex)) as Hm3 by (apply set_obj_wf; [done|by eexists]).
  assert (c_next m ≠ c_next m1 ∧ c_next m ≠ c_next m2 ∧ c_next m1 ≠ c_next m2) as (Hn1 & Hn2 & Hn3).
  { unfold m2, m1, push. simpl. lia. }
  destruct (concat_concatenates m3 (c_next m2) (c_next m1) (c_next m) (literal prefix) hex (zeros 0x200)
    0 0 0 prefix (int32_hex rv)) as (d & E2 & Hd & _).
  { split_and!; [apply lookup_insert_eq|by apply has_str_literal|done|done]. }
  { split_and!; [|apply has_str_inserts; [done|rewrite length_int32_hex; simpl; lia]|done|done].
    unfold m3, push. simpl. rewrite lookup_insert_ne by done. apply lookup_insert_eq. }
  { unfold m3, push. simpl. rewrite lookup_insert_ne by done. rewrite lookup_insert_ne by done.
    unfold m2, push. simpl. rewrite lookup_insert_ne by done. apply lookup_insert_eq. }
  { rewrite length_int32_hex. unfold zeros. rewrite length_replicate. lia. }
  eassert (report_code f prefix rv (m, w) = Ok (tt, (_, w'))) as Hrun.
  { unfold report_code. apply with_array_ok. apply with_array_ok. fold m1. fold m2.
    erewrite bind_ok by (apply mem_op_ok; exact E1). apply with_array_ok.
    erewrite bind_ok by (apply mem_op_ok; exact E2).
    erewrite bind_ok by (apply (notify_ok f 222 _ w (c_next m) d 0 (coded prefix rv) r w');
      [done|apply set_obj_lookup|exact Hd|exact E]).
    reflexivity. }
  eexists. split; [exact Hrun|]. specialize (Hfr _ _ Hrun). split; [|apply Hfr].
  apply map_eq. intros b. apply (frame_objs _ _ _ Hfr). set_solver.
Qed.
End texts.

(** ** The properties *)

(** An error code is shown as the fixed text followed by [0x] and eight
    digits that read back as the code; the caller's objects are untouched. *)
Theorem report_code_shows_code {W} {PX : Posix W} {DL : Dynlib W} {SC : Sce W} (f rv : Z)
    (prefix : list Z) (m : cmem) (w w' : W) (r : Z)
    (Hf : f ≠ 0) (Hm : cmem_wf m) (Hprefix : Forall (λ z, is_u8 z ∧ z ≠ 0) prefix)
    (Hlen : (length prefix < 0x100)%nat)
    (Hsce : sce_notify f 222 (coded prefix rv) w = (r, w')) :
  (∃ digits, coded prefix rv = prefix ++ chars "0x" ++ digits ∧ length digits = 8%nat ∧
             parse_hex digits = u32 rv) ∧
  ∃ m', report_code f prefix rv (m, w) = Ok (tt, (m', w')) ∧ c_objs m' = c_objs m.
Proof.
  split.
  - exists (hex_digits 8 rv). split_and!; [done|apply length_hex_digits|].
    unfold parse_hex. by rewrite parse_hex_digits_acc.
  - destruct (report_code_ok f prefix rv m w r w') as (m' & E & Ho & _); [done..|]. by exists m'.
Qed.

(** What the user is told about a failed registration; [None] for a code the
    program does not know. *)
Definition advice (code : Z) : option (list Z) :=
  if decide (code = 0x80990086) then
    Some (chars "DPI: BGFT Error 0x80990086" ++ [10] ++
          chars "Ensure that there are no old downloads in the notification list.")
  else if decide (code = 0x80990088) then Some (chars "DPI: Package Already Installed!")
  else if decide (code = 0x80990039 ∨ code = 0x80A30026) then
    Some (chars "DPI: Insufficient storage space." ++ [10] ++
          chars "Please free up space on your hard drive.")
  else if decide (code = 0x80990085) then
    Some (chars "DPI: Insufficient storage space." ++ [10] ++
          chars "Please free up non fragmented space on your hard drive.")
  else None.

Lemma advice_printable code text : advice code = Some text → Forall (λ z, z ≠ 0) text.
Proof. unfold advice. repeat case_decide; intros [= <-]; vm_compute; repeat constructor; done. Qed.

(** A registration succeeded: a task, and not "already installed". *)
Definition registered (rv task : Z) : Prop := u32 rv ≠ 0x80990088 ∧ task ≠ BGFT_INVALID_TASK_ID.

Lemma failed_false rv task : registered rv task → failed rv task = false.
Proof. intros H. unfold failed. by rewrite bool_decide_true. Qed.
Lemma failed_true rv task : ¬ registered rv task → failed rv task = true.
Proof. intros H. unfold failed. by rewrite bool_decide_false. Qed.

(** What the two registration calls answered. *)
Record answers {W} {SC : Sce W} (fns : sce_functions) (params : bgft_download_param) (m : cmem)
    (w : W) (rv1 t1 rv2 t2 : Z) (w1 w2 : W) : Prop := {
  an_pointers : sceSysUtilSendSystemNotificationWithText fns ≠ 0 ∧
    sceBgftDownloadRegisterTask fns ≠ 0 ∧ sceBgftDebugDownloadRegisterTask fns ≠ 0 ∧
    sceBgftDownloadStartTask fns ≠ 0;
  an_first : sce_register (sceBgftDownloadRegisterTask fns) params m BGFT_INVALID_TASK_ID w = ((rv1, t1), w1);
  an_second : sce_register (sceBgftDebugDownloadRegisterTask fns) params m t1 w1 = ((rv2, t2), w2)
}.

Section register.
Context {W : Type} {PX : Posix W} {DL : Dynlib W} {SC : Sce W}.
Context (fns : sce_functions) (params : bgft_download_param) (m : cmem) (w w1 w2 : W) (rv1 t1 rv2 t2 : Z).
Hypothesis (Hm : cmem_wf m) (Han : answers fns params m w rv1 t1 rv2 t2 w1 w2).

Lemma register_first r w' :
  registered rv1 t1 → sce_start (sceBgftDownloadStartTask fns) t1 w1 = (r, w') →
  register_package fns params (m, w) = Ok (Continue, (m, w')).
Proof.
  destruct Han as [(Hn & H1 & H2 & H3) Ef Es]. intros Hr Est. unfold register_package.
  erewrite bind_ok by done. erewrite bind_ok by (by apply call_ok). cbv beta iota.
  rewrite failed_false by done. cbn [negb]. by erewrite bind_ok by (by apply call_ok).
Qed.

Lemma register_second :
  ¬ registered rv1 t1 →
  register_package fns params (m, w) =
    (if negb (failed rv2 t2) then
       _ ← call (sceBgftDownloadStartTask fns) (sce_start (sceBgftDownloadStartTask fns) t2); mret Continue
     else match advice (u32 rv2) with
          | Some text =>
              _ ← notify_literal (sceSysUtilSendSystemNotificationWithText fns) text; mret Continue
          | None =>
              _ ← report_code (sceSysUtilSendSystemNotificationWithText fns) (chars "DPI: BGFT Error ") rv2;
              mret (Return (-1))
          end) (m, w2).
Proof.
  destruct Han as [(Hn & H1 & H2 & H3) Ef Es]. intros Hr. unfold register_package.
  erewrite bind_ok by done. erewrite bind_ok by (by apply call_ok). cbv beta iota.
  rewrite failed_true by done. cbn [negb]. erewrite bind_ok by (by apply call_ok). cbv beta iota.
  destruct (negb (failed rv2 t2)); [done|]. unfold advice. by repeat case_decide.
Qed.
End register.

(** C30: the outcome of a registration. If the service takes the package, its
    task is started and the loop goes on. Otherwise the debug registration is
    tried: if that takes it, its task is started; if it fails with a known
    code, in whichever sign the 32-bit code arrives, the user is told what to
    do and the loop goes on; with any other code the user is shown the code
    and the program ends with -1. *)
Theorem register_package_outcomes {W} {PX : Posix W} {DL : Dynlib W} {SC : Sce W}
    (fns : sce_functions) (params : bgft_download_param) (m : cmem) (w w1 w2 : W)
    (rv1 t1 rv2 t2 : Z) (Hm : cmem_wf m) (Han : answers fns params m w rv1 t1 rv2 t2 w1 w2) :
  (registered rv1 t1 → ∀ r w', sce_start (sceBgftDownloadStartTask fns) t1 w1 = (r, w') →
     register_package fns params (m, w) = Ok (Continue, (m, w'))) ∧
  (¬ registered rv1 t1 → registered rv2 t2 →
     ∀ r w', sce_start (sceBgftDownloadStartTask fns) t2 w2 = (r, w') →
     register_package fns params (m, w) = Ok (Continue, (m, w'))) ∧
  (¬ registered rv1 t1 → ¬ registered rv2 t2 → ∀ text, advice (u32 rv2) = Some text →
     ∀ r w', sce_notify (sceSysUtilSendSystemNotificationWithText fns) 222 text w2 = (r, w') →
     register_package fns params (m, w) = Ok (Continue, (tick m, w'))) ∧
  (¬ registered rv1 t1 → ¬ registered rv2 t2 → advice (u32 rv2) = None →
     ∀ r w', sce_notify (sceSysUtilSendSystemNotificationWithText fns) 222
               (coded (chars "DPI: BGFT Error ") rv2) w2 = (r, w') →
     ∃ m', register_package fns params (m, w) = Ok (Return (-1), (m', w')) ∧ c_objs m' = c_objs m).
Proof.
  pose proof Han as [(Hn & H1 & H2 & H3) Ef Es]. split_and!.
  - intros Hr r w' Est. by eapply register_first.
  - intros Hr1 Hr2 r w' Est. erewrite register_second by done. rewrite failed_false by done.
    cbn [negb]. by erewrite bind_ok by (by apply call_ok).
  - intros Hr1 Hr2 text Ha r w' En. erewrite register_second by done. rewrite failed_true by done.
    cbn [negb]. rewrite Ha. erewrite bind_ok; [done|].
    eapply notify_literal_ok; [done|done|by eapply advice_printable|exact En].
  - intros Hr1 Hr2 Ha r w' En. erewrite register_second by done. rewrite failed_true by done.
    cbn [negb]. rewrite Ha.
    destruct (report_code_ok (sceSysUtilSendSystemNotificationWithText fns) (chars "DPI: BGFT Error ")
      rv2 m w2 r w') as (m' & E & Ho & _); [done|done| | |done|].
    + vm_compute. repeat constructor; done.
    + vm_compute. lia.
    + exists m'. split; [|done]. by erewrite bind_ok by exact E.
Qed.

(** The test after the debug registration looks at the task number of
    either call. When the first call answers "already installed" with a
    task number and the debug call fails without touching the number, that task
    is started and the failure is not reported. *)
Theorem register_stale_task {W} {PX : Posix W} {DL : Dynlib W} {SC : Sce W}
    (fns : sce_functions) (params : bgft_download_param) (m : cmem) (w w1 w2 w' : W)
    (rv1 task rv2 r : Z) (Hm : cmem_wf m) (Han : answers fns params m w rv1 task rv2 task w1 w2)
    (Hrv1 : u32 rv1 = 0x80990088) (Htask : task ≠ BGFT_INVALID_TASK_ID)
    (Hfail : advice (u32 rv2) ≠ None ∧ u32 rv2 ≠ 0x80990088)
    (Hstart : sce_start (sceBgftDownloadStartTask fns) task w2 = (r, w')) :
  register_package fns params (m, w) = Ok (Continue, (m, w')).
Proof.
  pose proof Han as [(Hn & H1 & H2 & H3) Ef Es].
  erewrite register_second by (done || (unfold registered; lia)).
  rewrite failed_false by (split; [apply Hfail|done]). cbn [negb].
  by erewrite bind_ok by (by apply call_ok).
Qed.

(** A console for the witnesses: its network, its loader, the scripted answers
    of the registrations, what was shown and what was started. *)
Module Desk.

Record t : Type := World {
  net : NetWorld.t;
  loader : Loader.t;
  script : list (Z * Z);
  shown : list (list Z);
  started : list Z
}.

Definition with_net (w : t) (n : NetWorld.t) : t := World n (loader w) (script w) (shown w) (started w).
Definition with_loader (w : t) (l : Loader.t) : t := World (net w) l (script w) (shown w) (started w).

#[global] Instance posix : Posix t := {
  sys_socket d ty p w := let '(r, n) := sys_socket d ty p (net w) in (r, with_net w n);
  sys_connect s a l w := let '(r, n) := sys_connect s a l (net w) in (r, with_net w n);
  sys_read fd k w := let '(r, bs, n) := sys_read fd k (net w) in (r, bs, with_net w n);
  sys_write fd bs w := let '(r, n) := sys_write fd bs (net w) in (r, with_net w n);
  sys_open path fl mo w := let '(r, n) := sys_open path fl mo (net w) in (r, with_net w n);
  sys_close fd w := let '(r, n) := sys_close fd (net w) in (r, with_net w n)
}.

#[global] Instance dynlib : Dynlib t := {
  dynlib_load_prx p w := let '(r, h, l) := dynlib_load_prx p (loader w) in (r, h, with_loader w l);
  dynlib_get_info_ex h n w := let '(r, i, l) := dynlib_get_info_ex h n (loader w) in (r, i, with_loader w l);
  dynlib_dlsym h s w := let '(r, a, l) := dynlib_dlsym h s (loader w) in (r, a, with_loader w l);
  call_init a n x w := with_loader w (call_init a n x (loader w))
}.

#[global] Program Instance dynlib_laws : DynlibLaws t := {
  refs w := refs (loader w); inits w := inits (loader w); lib_handle := Loader.handle;
  lib_init := Loader.init_of; exports := Loader.symbol; loadable path := Loader.known path = true
}.
Next Obligation. intros path Hk. exact (handle_law (D := Loader.t) path Hk). Qed.
Next Obligation.
  intros path w Hk. destruct (@load_law _ _ Loader.laws path (loader w) Hk) as (d' & E & Hr & Hro & Hi).
  exists (with_loader w d'). simpl in *. rewrite E. by split_and!.
Qed.
Next Obligation.
  intros path w Hk. destruct (@load_fail_law _ _ Loader.laws path (loader w) Hk) as (r & d' & E & Hr & Hi & Hro).
  exists r, (with_loader w d'). simpl in *. rewrite E. by split_and!.
Qed.
Next Obligation.
  intros path n w Hk Hn. destruct (@info_law _ _ Loader.laws path n (loader w) Hk Hn) as (mi & d' & E & Hr & Hi & Hro & Hin).
  exists mi, (with_loader w d'). simpl in *. rewrite E. by split_and!.
Qed.
Next Obligation. intros a n x w. by destruct (@init_law _ _ Loader.laws a n x (loader w)). Qed.
Next Obligation.
  intros path name w Hk. destruct (@dlsym_law _ _ Loader.laws path name (loader w) Hk) as (r & d' & E & Hi & Hr).
  exists r, (with_loader w d'). simpl in *. rewrite E. by split_and!.
Qed.
Next Obligation.
  intros name w. destruct (@dlsym_bad_law _ _ Loader.laws name (loader w)) as (r & d' & E & Hi & Hr).
  exists r, (with_loader w d'). split; [|by split].
  change (dynlib_dlsym 0 name w) with
    (let '(r, a, l) := dynlib_dlsym 0 name (loader w) in (r, a, with_loader w l)). by rewrite E.
Qed.

Definition register (task : Z) (w : t) : (Z * Z) * t :=
  match script w with
  | a :: rest => (a, World (net w) (loader w) rest (shown w) (started w))
  | [] => ((0x80990088, task), w)
  end.

#[global] Instance sce : Sce t := {
  sce_notify _ _ text w := (0, World (net w) (loader w) (script w) (shown w ++ [text]) (started w));
  sce_user_init _ _ w := (0, w);
  sce_get_user _ _ w := ((0, 1), w);
  sce_call _ w := (0, w);
  sce_mmap _ _ _ w := (0x10000, w);
  sce_bgft_init _ _ _ w := (0, w);
  sce_register _ _ _ task w := register task w;
  sce_start _ task w := (0, World (net w) (loader w) (script w) (shown w) (started w ++ [task]))
}.

Definition functions : sce_functions := SceFunctions 1 2 3 4 5 6 7 8 9.

Definition world (chunks : list (list Z)) (script : list (Z * Z)) : t :=
  World (NetWorld.World true chunks [] [] [] []) (Loader.World (λ _, 0) []) script [] [].
Definition said (chunks : list (list Z)) (script : list (Z * Z)) (text : list Z) : t :=
  World (NetWorld.World true chunks [] [] [] []) (Loader.World (λ _, 0) []) script [text] [].
Definition ran (chunks : list (list Z)) (script : list (Z * Z)) (task : Z) : t :=
  World (NetWorld.World true chunks [] [] [] []) (Loader.World (λ _, 0) []) script [] [task].

Definition no_params : bgft_download_param :=
  BgftDownloadParam 0 5 null_ptr null_ptr null_ptr null_ptr null_ptr null_ptr
    BGFT_TASK_OPTION_DISABLE_CDN_QUERY_PARAM null_ptr null_ptr null_ptr null_ptr 0.

End Desk.

Lemma report_code_shows_code_witness :
  ∃ m', report_code 1 (chars "DPI: BGFT Error ") (-2137456639) (empty_cmem, Desk.world [] []) =
    Ok (tt, (m', Desk.said [] [] (chars "DPI: BGFT Error 0x80990001"))) ∧ c_objs m' = c_objs empty_cmem.
Proof.
  destruct (report_code_shows_code 1 (-2137456639) (chars "DPI: BGFT Error ") empty_cmem
    (Desk.world [] []) (Desk.said [] [] (chars "DPI: BGFT Error 0x80990001")) 0) as [_ H].
  - done.
  - apply empty_cmem_wf.
  - vm_compute. repeat constructor; done.
  - vm_compute. lia.
  - vm_compute. reflexivity.
  - exact H.
Defined.

(** "Insufficient storage" as the negative [int] it arrives as. *)
Lemma register_package_outcomes_witness :
  register_package Desk.functions Desk.no_params
    (empty_cmem, Desk.world [] [(-2137456583, -1); (-2137456583, -1)]) =
  Ok (Continue, (tick empty_cmem, Desk.said [] [] (default [] (advice 0x80990039)))).
Proof.
  destruct (register_package_outcomes Desk.functions Desk.no_params empty_cmem
    (Desk.world [] [(-2137456583, -1); (-2137456583, -1)]) (Desk.world [] [(-2137456583, -1)])
    (Desk.world [] []) (-2137456583) (-1) (-2137456583) (-1)) as (_ & _ & H & _).
  - apply empty_cmem_wf.
  - split; [done|reflexivity|reflexivity].
  - apply (H ltac:(intros [_ E]; by apply E) ltac:(intros [_ E]; by apply E)
      (default [] (advice 0x80990039)) ltac:(vm_compute; reflexivity) 0). reflexivity.
Defined.

(** "Already installed" with task 7, then "no contiguous space". *)
Lemma register_stale_task_witness :
  register_package Desk.functions Desk.no_params
    (empty_cmem, Desk.world [] [(-2137456504, 7); (-2137456507, 7)]) =
  Ok (Continue, (empty_cmem, Desk.ran [] [] 7)).
Proof.
  apply (register_stale_task Desk.functions Desk.no_params empty_cmem
    (Desk.world [] [(-2137456504, 7); (-2137456507, 7)]) (Desk.world [] [(-2137456507, 7)])
    (Desk.world [] []) _ (-2137456504) 7 (-2137456507) 0).
  - apply empty_cmem_wf.
  - split; [done|reflexivity|reflexivity].
  - reflexivity.
  - done.
  - split; by vm_compute.
  - reflexivity.
Defined.

(** ** Missing services *)

Section services.
Context {W : Type} {PX : Posix W} {DL : Dynlib W} {LW : DynlibLaws W} {SC : Sce W}.

Definition refs_ok (w : W) : Prop := ∀ p, 0 ≤ refs w p.

Lemma open_lib_total path m w :
  refs_ok w → loadable path ∨ ¬ loadable path →
  ∃ h w', open_lib path (m, w) = Ok (h, (m, w')) ∧ handle_of path h ∧ refs_ok w'.
Proof.
  intros Hr Hd. destruct (dlopen_total path 0 w Hr Hd) as (h & w' & E & Hh & Hr').
  exists h, w'. split; [by apply on_snd_ok|done].
Qed.

Lemma sym_total path h name m w :
  refs_ok w → handle_of path h →
  ∃ a w', sym h name (m, w) = Ok (a, (m, w')) ∧ (¬ loadable path → a = 0) ∧ refs_ok w'.
Proof.
  intros Hr Hh. destruct (dlsym_total path h name w Hr Hh) as (a & w' & E & Hn & _ & Hr').
  exists a, w'. split; [by apply on_snd_ok|done].
Qed.

(** One lookup of [load_services]. *)
Ltac lookup_step Hd :=
  lazymatch goal with
  | Hr : refs_ok ?w |- context [(open_lib ?path ≫= _) (?m, ?w)] =>
      let E := fresh in
      destruct (open_lib_total path m w Hr (Hd path)) as (? & ? & E & ? & ?);
      erewrite bind_ok by exact E; clear E Hr
  | Hr : refs_ok ?w, Hh : handle_of ?path ?h |- context [(sym ?h ?name ≫= _) (?m, ?w)] =>
      let E := fresh in
      destruct (sym_total path h name m w Hr Hh) as (? & ? & E & ? & ?);
      erewrite bind_ok by exact E; clear E Hr
  end.

(** The lookups of [main] always succeed; what a missing library should have
    provided is null. *)
Lemma load_services_total m w :
  refs_ok w → (∀ path, loadable path ∨ ¬ loadable path) →
  ∃ fns w', load_services (m, w) = Ok (fns, (m, w')) ∧ refs_ok w' ∧
    (¬ loadable (chars "/system/common/lib/libSceUserService.sprx") → sceUserServiceInitialize fns = 0).
Proof.
  intros Hr Hd. unfold load_services. repeat lookup_step Hd.
  eexists _, _. split; [done|]. split; [done|]. auto.
Qed.

End services.

(** No result of [dlopen] or [dlsym] is checked. When the user-service
    library cannot be opened, all lookups still succeed and the first use of
    the service calls a null pointer. *)
Theorem missing_library_calls_null {W} {PX : Posix W} {DL : Dynlib W} {LW : DynlibLaws W} {SC : Sce W}
    (fuel : nat) (Conn : connection) (m : cmem) (w : W) (Hrefs : ∀ p, 0 ≤ refs w p)
    (Hdec : ∀ path, loadable path ∨ ¬ loadable path)
    (Hmissing : ¬ loadable (chars "/system/common/lib/libSceUserService.sprx")) :
  main_services fuel Conn (m, w) = Undef NullCall.
Proof.
  destruct (load_services_total m w Hrefs Hdec) as (fns & w' & E & _ & Hz).
  unfold main_services. erewrite bind_ok by exact E. apply bind_undef.
  unfold foreground_user. apply bind_undef. rewrite Hz by done. apply call_null.
Qed.

Lemma missing_library_calls_null_witness :
  main_services 1 Connection_template (empty_cmem, Desk.world [] []) = Undef NullCall.
Proof.
  apply missing_library_calls_null.
  - done.
  - intros path. destruct (Loader.known path) eqn:E; [by left|right]. simpl. by rewrite E.
  - by vm_compute.
Defined.

(** ** The credential of the payload *)

Section main_cred.
Context {KT : KernelText} {LC : Locals} {LOK : LocalsOk} {OS : Type} {SOS : SockOS OS} {ML : MiraLaws OS}.

(** What [main] leaves in the kernel. *)
Definition payload_cred (p0 rv : Z) : cred :=
  Cred 0 0 0 0 0 p0 rv rv 0 0x3800000000000010 0x40001c0000000000 0x900000000000ff00.

Definition main_stores (ans : Z) : list (nat * Z * Z) := [
  (8%nat, ans + jdir, 0); (8%nat, ans + sceProcType, 0x3800000000000010);
  (8%nat, ans + sonyCred, 0x40001c0000000000); (8%nat, ans + sceProcCap, 0x900000000000ff00)].

Lemma main_stores_cred m ans p0 rv :
  user_cred m ans (root_of p0 rv) → user_cred (stored_in m (main_stores ans)) ans (payload_cred p0 rv).
Proof.
  intros Hc.
  assert (stores_apart (main_stores ans)) as Hap.
  { unfold main_stores, stores_apart, clear_of. cbn [map]. rewrite !Forall_cons, !Forall_nil.
    cred_offsets. cbn [fst snd]. lia. }
  pose proof (stored_in_words _ m Hap) as Hw.
  pose proof (stored_in_changes (main_stores ans) m) as Hch.
  revert Hc Hw Hch. generalize (stored_in m (main_stores ans)). intros m'.
  unfold user_cred, cred_rows, main_stores. cbn [map]. rewrite !Forall_cons, !Forall_nil.
  intros (?&?&?&?&?&?&?&?&?&?&?&?&_) (?&?&?&?&_) Hch. cred_offsets.
  split_and!; try done; (eapply word_at_changes; [exact Hch| |eassumption]);
    unfold clear_of; rewrite !Forall_cons, !Forall_nil; cbn [fst snd]; lia.
Qed.
Lemma main_stores_within ans k :
  outside [(ans, 80)] k → outside (map (λ '(n, a, _), (a, Z.of_nat n)) (main_stores ans)) k.
Proof.
  unfold outside, main_stores. cbn [map]. rewrite !Forall_cons, !Forall_nil. cred_offsets.
  cbn [fst snd]. lia.
Qed.

Lemma main_stores_run (s : kst OS) ans (k : M (kst OS) unit) :
  mapped (kmem s) ans 80 →
  (_ ← store_word 8 (ans + jdir) 0; _ ← store_word 8 (ans + sceProcType) 0x3800000000000010;
   _ ← store_word 8 (ans + sonyCred) 0x40001c0000000000;
   _ ← store_word 8 (ans + sceProcCap) 0x900000000000ff00; k) s =
  k (set_kmem (stored_in (kmem s) (main_stores ans)) s).
Proof.
  intros Hm.
  assert (∀ (s' : kst OS) o v, mapped (kmem s') ans 80 → 0 ≤ o → o + 8 ≤ 80 →
    store_word 8 (ans + o) v s' = Ok (tt, set_kmem (store_bytes (kmem s') (ans + o) (le_bytes 8 v)) s')) as Hst.
  { intros s' o v Hm' ??. apply store_word_spec. eapply mapped_sub; [exact Hm'|lia..]. }
  cred_offsets.
  erewrite bind_ok by (apply Hst; [done|lia..]).
  erewrite bind_ok by (apply Hst; [by repeat apply mapped_store|lia..]).
  erewrite bind_ok by (apply Hst; [by repeat apply mapped_store|lia..]).
  by erewrite bind_ok by (apply Hst; [by repeat apply mapped_store|lia..]).
Qed.

End main_cred.

(** C5: the elevation at the start of [main]. When the three calls find their
    kernel structures, the process ends with the ids, the jail and the root
    directory of process 1, no jail directory, and the capabilities of the
    table in [main]; the kernel's memory is unchanged outside the bytes of these
    twelve members. *)
Theorem main_elevates {KT : KernelText} {LC : Locals} {LOK : LocalsOk} {OS} {SOS : SockOS OS}
    {ML : MiraLaws OS} (fuel : nat) (s : kst OS) (ans ucred fd proc p0 rv : Z) (c : cred) (n : nat)
    (Hready : mira_ready s) (Hlocals : locals_mapped (kmem s))
    (Hproc : process (kmem s) (curthread s) ucred fd proc) (Hcred : kernel_cred (kmem s) ucred fd c)
    (Hinit : init_process (kmem s) (curthread s) p0 rv n) (Hfuel : (n < fuel)%nat)
    (Hnz : p0 ≠ 0 ∧ rv ≠ 0)
    (Hcache : word_at 8 (kmem s) addr_prison0 0 ∨ cached (kmem s) p0 rv)
    (Hans : user_at ans 80 ∧ mapped (kmem s) ans 80 ∧ clear_of globals ans 80) :
  ∃ s', main_cred fuel ans s = Ok (tt, s') ∧ kernel_cred (kmem s') ucred fd (payload_cred p0 rv) ∧
        ∀ k, 2 ^ 47 ≤ k → outside (members ucred fd) k → kmem s' !! k = kmem s !! k.
Proof.
  destruct Hnz as [Hp0 Hrv], Hans as (Hu & Hm & Hcl).
  destruct (get_cred_spec s (curthread s) ucred fd proc ans c) as (s1 & E1 & St1 & _); [done..|].
  pose proof (get_cred_changes _ _ _ _ _ St1) as Hch1.
  assert (user_regions (scratch ++ [(ans, 80)])) as Hur1.
  { apply user_regions_app; [apply scratch_user|by apply Forall_cons_2]. }
  assert (clear_of (scratch ++ [(ans, 80)]) addr_prison0 8 ∧ clear_of (scratch ++ [(ans, 80)]) addr_rootvnode 8)
    as [Hcp Hcv].
  { pose proof ans_apart. pose proof globals_apart. pose proof pid_apart.
    unfold clear_of, globals, scratch in *. cbn [app] in *.
    repeat rewrite ?Forall_cons, ?Forall_nil in *. cbn [fst snd] in *. lia. }
  destruct (jailbreak_cred_spec fuel s1 (curthread s) p0 rv n ans) as (s2 & E2 & St2 & Hc2 & _);
    [apply St1|by eapply steps_locals|apply St1|apply Hproc|by eapply init_process_changes|done..| |by eapply steps_mapped|].
  { destruct Hcache as [Hz|[H1 H2]]; [left|right; split]; by eapply word_at_changes. }
  set (s3 := set_kmem (stored_in (kmem s2) (main_stores ans)) s2).
  assert (changes [(ans, 80)] (kmem s2) (kmem s3)) as Hch3.
  { eapply changes_weaken; [apply stored_in_changes|apply main_stores_within]. }
  assert (changes (globals ++ [(ans, 80)]) (kmem s) (kmem s3)) as Hch13.
  { eapply changes_weaken; [eapply changes_trans; [exact Hch1|eapply changes_trans; [apply St2|exact Hch3]]|].
    intros k. unfold outside, globals, scratch. rewrite !Forall_app, !Forall_cons, !Forall_nil. tauto. }
  assert (user_regions (globals ++ [(ans, 80)])) as Hur3.
  { apply user_regions_app; [apply globals_user|by apply Forall_cons_2]. }
  assert (curthread s3 = curthread s) as Htd3 by (rewrite <- (steps_td _ _ _ St1); apply St2).
  destruct (set_cred_spec s3 (curthread s) ucred fd proc ans (payload_cred p0 rv)) as (s4 & E4 & St4 & Hk4).
  { apply St2. }
  { eapply steps_locals; [|exact Hlocals]. split; [exact Hch13|exact Htd3|apply St2]. }
  { exact Htd3. }
  { by eapply process_changes. }
  { done. }
  { eapply mapped_changes; [exact Hch13|done]. }
  { unfold clear_of, globals, scratch in *. rewrite !Forall_cons, !Forall_nil in *. tauto. }
  { by apply main_stores_cred. }
  exists s4. split_and!.
  - unfold main_cred. erewrite bind_ok by exact E1. erewrite bind_ok by exact E2.
    rewrite main_stores_run by (eapply steps_mapped; [exact St2|by eapply steps_mapped]).
    by erewrite bind_ok by exact E4.
  - exact Hk4.
  - intros k Hk Ho.
    assert (∀ rs, user_regions rs → outside rs k) as Hus.
    { intros rs Hrs. eapply Forall_impl; [exact Hrs|]. unfold user_at. simpl. intros r ?. lia. }
    rewrite (changes_same _ _ _ (set_cred_changes _ _ _ _ _ St4)).
    + apply (changes_same _ _ _ Hch13). by apply Hus.
    + apply Forall_app. split; [apply Hus, scratch_user|done].
Qed.

Lemma main_elevates_witness :
  ∃ s', main_cred 2 0x1000 Kernel.console = Ok (tt, s') ∧
        kernel_cred (kmem s') Kernel.ucred Kernel.fd (payload_cred Kernel.prison0 Kernel.rootvnode) ∧
        ∀ k, 2 ^ 47 ≤ k → outside (members Kernel.ucred Kernel.fd) k →
             kmem s' !! k = kmem Kernel.console !! k.
Proof.
  apply (main_elevates 2 Kernel.console 0x1000 Kernel.ucred Kernel.fd Kernel.own Kernel.prison0
    Kernel.rootvnode Kernel.own_cred 1).
  - apply Kernel.console_ready.
  - apply Kernel.console_locals.
  - apply Kernel.console_process.
  - apply Kernel.console_cred.
  - apply Kernel.console_init.
  - lia.
  - done.
  - left. Kernel.word.
  - split_and!; [Kernel.ranges|Kernel.pages 80%nat|].
    unfold clear_of, globals. rewrite !Forall_cons, Forall_nil. simpl. lia.
Defined.
