(* ===== verification/PkgProtocol.v ===== *)
(** * The protocol between the two sides

    What the computer sends for a package (PayloadService.cs) against what the
    payload reads (info.c), and the patching of the payload's [Connection] with
    the computer's address. Strings of the C# program are given as their UTF-8
    bytes; [BitConverter] is little-endian on every machine it runs on. *)

From S2P Require Import Prelude CMem PayloadStrings Posix PayloadInfo PayloadInfoFacts.

(** ** The computer's side *)

(** The parts of [Installer.CurrentPKG] that are sent, and the URL. *)
Record package : Type := Package {
  URL : list Z;
  FriendlyName : list Z;
  ContentID : list Z;
  BGFTContentType : list Z;
  PackageSize : Z;
  IconData : option (list Z)
}.

Definition GetBytes (n : nat) (z : Z) : list Z := le_bytes (Z.of_nat n) z.

Definition prefixed (s : list Z) : list Z := GetBytes 4 (Z.of_nat (length s)) ++ s.

(** [PKGInfoBuffer] of [SendPKGPayload]. *)
Definition PKGInfoBuffer (p : package) : list Z :=
  let icon := default [] (IconData p) in
  GetBytes 4 1 ++ prefixed (URL p) ++ prefixed (FriendlyName p) ++ prefixed (ContentID p) ++
  prefixed (BGFTContentType p) ++ GetBytes 8 (PackageSize p) ++
  (if decide (length icon = 0%nat) then replicate 4 0 else prefixed icon).

(** What [StopServer] sends. *)
Definition StopServer_buffer : list Z := replicate 4 0.

(** [Conversions.IndexOf]: [i], [x] and [Offset] of its loop. *)
Fixpoint IndexOf_loop (n : nat) (Buffer Content : list Z) (i x : nat) (Offset : Z) : Z :=
  match n with
  | 0%nat => -1
  | S n =>
      if decide (Buffer !! i ≠ Content !! x) then IndexOf_loop n Buffer Content (S i) 0 Offset
      else
        let Offset := if decide (x = 0%nat) then Z.of_nat i else Offset in
        if decide (length Content ≤ S x)%nat then Offset
        else IndexOf_loop n Buffer Content (S i) (S x) Offset
  end.

Definition IndexOf (Buffer Content : list Z) : Z :=
  IndexOf_loop (length Buffer - length Content) Buffer Content 0 0 0.

Definition marker : list Z := replicate 6 0xB4.

(** [CopyTo]: overwrite from an offset on. *)
Definition CopyTo (src : list Z) (dst : list Z) (off : nat) : list Z := list_inserts off src dst.

(** [EnsureClient] up to the sending: the patched payload, or nothing. *)
Definition patch_payload (Payload IP : list Z) (LocalPort : Z) : option (list Z) :=
  let Offset := IndexOf Payload marker in
  if decide (Offset = -1) then None
  else
    let Port := reverse (GetBytes 2 LocalPort) in
    Some (CopyTo Port (CopyTo IP Payload (Z.to_nat Offset)) (Z.to_nat Offset + 4)).

(** The packed structure [Connection] in the payload's image. *)
Definition Connection_at (image : list Z) (off : nat) : connection :=
  Connection (le_word (take 4 (drop off image))) (le_word (take 2 (drop (off + 4) image))).

(** ** Reading what was sent *)

Section receive.
Context {W : Type} `{PosixReliable W, !PosixBounds W}.
Implicit Types (m : cmem) (w : W).

Lemma recv_uint n z rest sock m w :
  cmem_wf m → reliable w sock → 0 ≤ z < 2 ^ (Z.of_nat n * 8) →
  incoming w sock = GetBytes n z ++ rest →
  ∃ w', get_uint n sock (m, w) = Ok (z, (tick m, w')) ∧ reliable w' sock ∧ incoming w' sock = rest.
Proof.
  intros Hwf Hrel Hz Hin. destruct (reliable_read _ _ _ _ Hrel Hin) as (w' & E & Hrel' & Hin').
  assert (length (GetBytes n z) = n) as Hl by (unfold GetBytes; rewrite length_le_bytes; lia).
  rewrite Hl in E. exists w'. split; [|done].
  rewrite (get_uint_full n sock m w _ _ _ Hwf E Hl). unfold GetBytes.
  by rewrite le_word_bytes_small by (done || lia).
Qed.

Lemma has_str_over_zeros s n :
  Forall (λ z, z ≠ 0) s → (length s < n)%nat →
  has_str (list_inserts 0 (Byte <$> s) (<[0%nat := Byte 0]> (zeros n))) 0 s.
Proof.
  intros Hs Hn. unfold zeros. rewrite <- (Nat.succ_pred_pos n) at 1 by lia.
  replace (<[0%nat := Byte 0]> (replicate (S (pred n)) (Byte 0))) with (replicate n (Byte 0)).
  2: { rewrite (Nat.succ_pred_pos n) by lia. symmetry. apply list_insert_id. apply lookup_replicate_2. lia. }
  apply has_str_intro; [done|..].
  - intros i z Hi. apply list_inserts_lookup_in; [by rewrite list_lookup_fmap, Hi|].
    rewrite length_fmap, length_replicate. simpl. lia.
  - simpl. rewrite list_inserts_lookup_out by (rewrite length_fmap; lia).
    apply lookup_replicate_2. lia.
Qed.

Lemma recv_string s rest sock b n m w :
  cmem_wf m → c_objs m !! b = Some (zeros n) → reliable w sock →
  (length s < n)%nat → Z.of_nat n < 2 ^ 31 → Forall (λ z, z ≠ 0) s →
  incoming w sock = prefixed s ++ rest →
  ∃ m' w' d, Info.get_string sock (Ptr b 0) (Z.of_nat n) (m, w) = Ok (0, (m', w')) ∧
    frame {[b]} m m' ∧ c_objs m' !! b = Some d ∧ length d = n ∧ has_str d 0 s ∧
    reliable w' sock ∧ incoming w' sock = rest.
Proof.
  intros Hwf Hobj Hrel Hlen Hn Hs Hin. unfold prefixed in Hin. rewrite <- app_assoc in Hin.
  destruct (recv_uint 4 (Z.of_nat (length s)) (s ++ rest) sock m w) as (w1 & E1 & Hrel1 & Hin1);
    [done|done|simpl; lia|done|].
  destruct (reliable_read _ _ _ _ Hrel1 Hin1) as (w2 & E2 & Hrel2 & Hin2).
  eassert (Info.get_string sock (Ptr b 0) (Z.of_nat n) (m, w) = Ok (0, _)) as E.
  { eapply (get_string_reads sock (Z.of_nat n) (Z.of_nat (length s)) m b (zeros n) w w1 Hobj);
      [unfold zeros; rewrite length_replicate; lia|exact E1|rewrite u32_id; unfold is_u32; lia|exact E2|
       unfold zeros; rewrite length_replicate; lia]. }
  eexists _, w2, _. split; [exact E|]. split_and!.
  - eapply modifies_get_string, E; [simpl; set_solver|done].
  - apply set_obj_lookup.
  - rewrite length_inserts, length_insert. unfold zeros. by rewrite length_replicate.
  - by apply has_str_over_zeros.
  - done.
  - done.
Qed.

End receive.

Section receive_icon.
Context {W : Type} `{PosixReliable W, !PosixBounds W, !PosixFiles W}.
Implicit Types (m : cmem) (w : W).

Definition png : list Z := chars ".png".

(** The icon: nothing for an empty one, and no file is touched; a file named
    after the package else. *)
Lemma recv_icon icon f rest sock bp bn dn m w :
  cmem_wf m → c_objs m !! bp = Some (zeros 0x800) → c_objs m !! bn = Some dn → bn ≠ bp →
  has_str dn 0 f → bytes_ok f → (length f < 0x100)%nat → reliable w sock →
  Z.of_nat (length icon) < 2 ^ 31 →
  incoming w sock = (if decide (length icon = 0%nat) then replicate 4 0 else prefixed icon) ++ rest →
  ∃ r m' w' d, Info.get_file sock (Ptr bp 0) (Ptr bn 0) (m, w) = Ok (r, (m', w')) ∧
    frame {[bp]} m m' ∧ c_objs m' !! bp = Some d ∧
    ((icon = [] ∧ r = 0 ∧ has_str d 0 [] ∧ same_files w w') ∨
     (icon ≠ [] ∧ r = 1 ∧ has_str d 0 (InfoStrings.tmp_dir ++ f) ∧
      file_at w' (InfoStrings.tmp_dir ++ f) = Some icon)).
Proof.
  intros Hwf Hp Hn Hne Hf Hfb Hfl Hrel Hlen Hin. case_decide as Hz.
  - destruct (reliable_read sock (replicate 4 0) rest w Hrel Hin) as (w1 & E1 & _ & _).
    eexists 0, _, w1, _. split.
    { unfold Info.get_file. rewrite ptr_add_0.
      erewrite bind_ok; [|apply mem_op_ok, (store_ok m bp _ Hp 0); simpl; lia].
      erewrite bind_ok by (eapply (get_uint_full 4 sock _ w); [by apply set_obj_wf|exact E1|done]).
      by rewrite decide_True. }
    split_and!.
    + split; [apply tick_wf; by apply set_obj_wf|simpl; lia|].
      intros k Hk. simpl. rewrite lookup_insert_ne; [done|set_solver].
    + apply lookup_insert_eq.
    + left. split_and!; [by apply nil_length_inv|done| |by eapply read_same_files].
      apply has_str_nul_here. by vm_compute.
  - unfold prefixed in Hin. rewrite <- app_assoc in Hin.
    assert (length (GetBytes 4 (Z.of_nat (length icon))) = 4%nat) as Hl4.
    { unfold GetBytes. by rewrite length_le_bytes. }
    destruct (reliable_read _ _ _ _ Hrel Hin) as (w1 & E1 & Hrel1 & Hin1). rewrite Hl4 in E1.
    destruct (reliable_open (InfoStrings.tmp_dir ++ f) open_flags 0x1FF w1 sock Hrel1)
      as (h & w2 & Eo & Hh & Hacc).
    assert (has_str (zeros 0x800) 15 []) as Hr1 by (apply has_str_nul_here; by vm_compute).
    assert (has_str (zeros 0x800) (15 + length f) []) as Hr2.
    { apply has_str_nul_here. unfold zeros. apply lookup_replicate_2. lia. }
    assert (le_word (GetBytes 4 (Z.of_nat (length icon))) = Z.of_nat (length icon)) as Hle.
    { unfold GetBytes. rewrite le_word_bytes_small; simpl; lia. }
    destruct (get_file_run sock h m bp bn (zeros 0x800) dn f w w1 w2
      (GetBytes 4 (Z.of_nat (length icon))) Hwf Hp Hn Hne Hf Hfb Hr1 Hr2 E1 Hl4 Eo (length icon) Hle
      ltac:(lia) ltac:(lia) ltac:(rewrite Hin1, length_app; lia))
      as (fin & k & w3 & w' & E & (Hk & Hst & Hfin) & Ha & _ & (fu & q & sz & m1 & m2 & Hloop) & Hcl).
    eexists 1, _, w', _. split; [exact E|].
    assert (has_str (opened_path (zeros 0x800) f) 0 (InfoStrings.tmp_dir ++ f)) as Hps
      by (eapply proj2, opened_path_str; eassumption).
    split_and!.
    + eapply modifies_get_file, E; [simpl; set_solver|done].
    + apply lookup_insert_eq.
    + right. split_and!; [by intros ->|done|exact Hps|].
      destruct (Hfin (Ha Hacc)) as [-> _].
      assert (names w3 h = Some (InfoStrings.tmp_dir ++ f)) as Hname.
      { rewrite (recv_loop_names _ _ _ _ _ _ _ _ _ _ _ Hloop). by apply (open_names _ _ _ _ _ _ Eo). }
      assert (file_at w3 (InfoStrings.tmp_dir ++ f) = Some icon) as Hfile.
      { rewrite (names_stored _ _ _ Hname), Hst, (open_truncates _ _ _ _ _ _ Eo),
          (open_incoming _ _ _ _ _ _ _ Eo), Hin1 by (done || lia).
        by rewrite app_nil_l, take_app_length. }
      destruct Hcl as [->|[rc Ec]]; [done|]. by rewrite (close_files _ _ _ _ _ Ec).
Qed.
End receive_icon.

(** ** The whole description *)

(** What the payload's buffers can hold. *)
Record fits (p : package) : Prop := {
  fits_url : (length (URL p) < 0x800)%nat ∧ Forall (λ z, z ≠ 0) (URL p);
  fits_name : (length (FriendlyName p) < 0x259)%nat ∧ Forall (λ z, z ≠ 0) (FriendlyName p);
  fits_id : (length (ContentID p) < 0x30)%nat ∧ Forall (λ z, z ≠ 0) (ContentID p) ∧ bytes_ok (ContentID p);
  fits_type : (length (BGFTContentType p) < 0x10)%nat ∧ Forall (λ z, z ≠ 0) (BGFTContentType p);
  fits_size : is_u64 (PackageSize p);
  fits_icon : Z.of_nat (length (default [] (IconData p))) < 2 ^ 31
}.

(** The string at the start of the object [q] points to. *)
Definition string_at (m : cmem) (q : ptr) (s : list Z) : Prop :=
  p_off q = 0 ∧ ∃ d, c_objs m !! p_blk q = Some d ∧ has_str d 0 s.

Lemma string_at_frame X m m' q s : frame X m m' → p_blk q ∉ X → string_at m q s → string_at m' q s.
Proof.
  intros Hf Hq [Ho (d & Hd & Hs)]. split; [done|]. exists d. split; [|done].
  by rewrite (frame_objs _ _ _ Hf).
Qed.

Section exchange.
Context {W : Type} `{PosixReliable W, !PosixBounds W, !PosixFiles W}.
Implicit Types (m : cmem) (w : W).

(** The four strings. *)
Lemma recv_strings p rest sock m w (u n i t : N) :
  cmem_wf m → fits p → reliable w sock → NoDup [u; n; i; t] →
  c_objs m !! u = Some (zeros 0x800) → c_objs m !! n = Some (zeros 0x259) →
  c_objs m !! i = Some (zeros 0x30) → c_objs m !! t = Some (zeros 0x10) →
  incoming w sock = prefixed (URL p) ++ prefixed (FriendlyName p) ++ prefixed (ContentID p) ++
    prefixed (BGFTContentType p) ++ rest →
  ∃ (m1 : cmem) (w1 : W) (m2 : cmem) (w2 : W) (m3 : cmem) (w3 : W) (m4 : cmem) (w4 : W),
    Info.get_string sock (Ptr u 0) 0x800 (m, w) = Ok (0, (m1, w1)) ∧
    Info.get_string sock (Ptr n 0) 0x259 (m1, w1) = Ok (0, (m2, w2)) ∧
    Info.get_string sock (Ptr i 0) 0x30 (m2, w2) = Ok (0, (m3, w3)) ∧
    Info.get_string sock (Ptr t 0) 0x10 (m3, w3) = Ok (0, (m4, w4)) ∧
    frame {[u; n; i; t]} m m4 ∧ reliable w4 sock ∧ incoming w4 sock = rest ∧
    string_at m4 (Ptr u 0) (URL p) ∧ string_at m4 (Ptr n 0) (FriendlyName p) ∧
    string_at m4 (Ptr i 0) (ContentID p) ∧ string_at m4 (Ptr t 0) (BGFTContentType p).
Proof.
  intros Hwf [[Hu Hu'] [Hn Hn'] (Hi & Hi' & _) [Ht Ht'] _ _] Hrel Hnd Ou On Oi Ot Hin.
  rewrite !NoDup_cons, !not_elem_of_cons in Hnd.
  destruct Hnd as ((Hun & Hui & Hut & _) & (Hni & Hnt & _) & (Hit & _) & _).
  destruct (recv_string (URL p) _ sock u 0x800 m w Hwf Ou Hrel Hu ltac:(lia) Hu' Hin)
    as (m1 & w1 & d1 & E1 & F1 & O1 & _ & S1 & Rel1 & In1).
  assert (c_objs m1 !! n = Some (zeros 0x259)) as On1 by (rewrite (frame_objs _ _ _ F1); set_solver).
  destruct (recv_string (FriendlyName p) _ sock n 0x259 m1 w1 (frame_wf _ _ _ F1) On1 Rel1 Hn ltac:(lia) Hn' In1)
    as (m2 & w2 & d2 & E2 & F2 & O2 & _ & S2 & Rel2 & In2).
  assert (c_objs m2 !! i = Some (zeros 0x30)) as Oi2
    by (rewrite (frame_objs _ _ _ F2), (frame_objs _ _ _ F1); set_solver).
  destruct (recv_string (ContentID p) _ sock i 0x30 m2 w2 (frame_wf _ _ _ F2) Oi2 Rel2 Hi ltac:(lia) Hi' In2)
    as (m3 & w3 & d3 & E3 & F3 & O3 & _ & S3 & Rel3 & In3).
  assert (c_objs m3 !! t = Some (zeros 0x10)) as Ot3
    by (rewrite (frame_objs _ _ _ F3), (frame_objs _ _ _ F2), (frame_objs _ _ _ F1); set_solver).
  destruct (recv_string (BGFTContentType p) _ sock t 0x10 m3 w3 (frame_wf _ _ _ F3) Ot3 Rel3 Ht ltac:(lia) Ht' In3)
    as (m4 & w4 & d4 & E4 & F4 & O4 & _ & S4' & Rel4 & In4).
  exists m1, w1, m2, w2, m3, w3, m4, w4. split_and!; try done.
  - eapply (frame_trans _ _ m1); [eapply frame_weaken; [exact F1|set_solver]|].
    eapply (frame_trans _ _ m2); [eapply frame_weaken; [exact F2|set_solver]|].
    eapply (frame_trans _ _ m3); [eapply frame_weaken; [exact F3|set_solver]|].
    eapply frame_weaken; [exact F4|set_solver].
  - split; [done|]. exists d1. split; [|done]. simpl.
    rewrite (frame_objs _ _ _ F4), (frame_objs _ _ _ F3), (frame_objs _ _ _ F2); set_solver.
  - split; [done|]. exists d2. split; [|done]. simpl. rewrite (frame_objs _ _ _ F4), (frame_objs _ _ _ F3); set_solver.
  - split; [done|]. exists d3. split; [|done]. simpl. rewrite (frame_objs _ _ _ F4); set_solver.
  - split; [done|]. by exists d4.
Qed.

(** The name of the icon file, made of the identifier in a cleared buffer. *)
Lemma append_to_zeros m b bn d dn s t n :
  c_objs m !! b = Some d → has_str d 0 s → (∃ k, length d = n ∧ k = length s ∧
    ∀ j, (k ≤ j < n)%nat → d !! j = Some (Byte 0)) →
  c_objs m !! bn = Some dn → has_str dn 0 t → bytes_ok t → bn ≠ b →
  (length s + length t < n)%nat →
  ∃ d', InfoStrings.append_string (Ptr b 0) (Ptr bn 0) m = Ok (tt, set_obj m b d') ∧
    has_str d' 0 (s ++ t) ∧ length d' = n ∧
    ∀ j, (length s + length t ≤ j < n)%nat → d' !! j = Some (Byte 0).
Proof.
  intros Hb Hs (k & Hl & -> & Hz) Hn Ht Hu Hne Hlen.
  pose proof (append_string_writes m b bn d dn 0 0 s t Hb Hs Hn Ht Hu Hne ltac:(lia)) as E.
  eexists. split; [exact E|]. simpl Nat.add.
  assert (∀ j, (length s + length t ≤ j < n)%nat →
    list_inserts (length s) (Byte <$> t) d !! j = Some (Byte 0)) as Hz'.
  { intros j Hj. rewrite list_inserts_lookup_out by (rewrite length_fmap; lia). apply Hz. lia. }
  split_and!; [|by rewrite length_inserts|done].
  pose proof (has_str_append d 0 s t [] Hs (proj1 Ht)) as Ha. rewrite app_nil_r in Ha. apply Ha.
  apply has_str_nul_here, Hz. simpl. lia.
Qed.

(** What the exchange leaves for the icon: an empty path and every file as it
    was when there is none, the icon in the file the path names otherwise. *)
Definition icon_left (p : package) (ps : list Z) (w w' : W) : Prop :=
  if decide (default [] (IconData p) = []) then ps = [] ∧ ∀ path, file_at w' path = file_at w path
  else ps = InfoStrings.tmp_dir ++ ContentID p ++ png ∧ file_at w' ps = Some (default [] (IconData p)).

Lemma icon_left_from p ps w0 w w' : same_files w0 w → icon_left p ps w w' → icon_left p ps w0 w'.
Proof.
  intros Hw. unfold icon_left. case_decide; [|done]. intros [-> Hf]. split; [done|].
  intros path. by rewrite Hf, Hw.
Qed.

(** From the strings on: the size, the name of the icon, the icon. *)
Lemma recv_tail p rest sock m w (i nm ip : N) (b : Info.info_buffers) params :
  Info.b_id b = Ptr i 0 → Info.b_icon_name b = Ptr nm 0 → Info.b_icon_path b = Ptr ip 0 →
  cmem_wf m → fits p → reliable w sock → NoDup [i; nm; ip] →
  c_objs m !! nm = Some (zeros 100) → c_objs m !! ip = Some (zeros 0x800) →
  string_at m (Ptr i 0) (ContentID p) →
  incoming w sock = GetBytes 8 (PackageSize p) ++
    (if decide (length (default [] (IconData p)) = 0%nat) then replicate 4 0
     else prefixed (default [] (IconData p))) ++ rest →
  ∃ w1 m' w' ps,
    Info.get_uint64 sock (m, w) = Ok (PackageSize p, (tick m, w1)) ∧
    Info.with_array (literal png) (λ icon_ext,
      _ ← Info.mem_op (InfoStrings.append_string (Info.b_icon_name b) (Info.b_id b));
      _ ← Info.mem_op (InfoStrings.append_string (Info.b_icon_name b) icon_ext);
      r ← Info.get_file sock (Info.b_icon_path b) (Info.b_icon_name b);
      _ ← (if decide (r = 0) then _ ← Info.mem_op (load_char (Info.b_icon_path b +ₚ 0)); mret tt
           else mret tt);
      _ ← Info.close sock;
      mret params) (tick m, w1) = Ok (params : Z * bgft_download_param, (m', w')) ∧
    frame {[nm; ip]} m m' ∧ string_at m' (Ptr ip 0) ps ∧ icon_left p ps w w'.
Proof.
  intros -> -> -> Hwf [_ _ (Hi & Hi' & Hib) _ Hsz Hicon] Hrel Hnd Onm Oip (_ & di & Oi & Si) Hin.
  rewrite !NoDup_cons, !not_elem_of_cons in Hnd. destruct Hnd as ((Hin1 & Hin2 & _) & (Hin3 & _) & _).
  destruct (recv_uint 8 (PackageSize p) _ sock m w Hwf Hrel Hsz Hin) as (w1 & E1 & Rel1 & In1).
  set (m1 := tick m) in *. assert (cmem_wf m1) as Hwf1 by (by apply tick_wf).
  set (ext := c_next m1). set (m2 := push m1 (literal png)).
  assert (cmem_wf m2) as Hwf2 by (by apply alloc_wf).
  assert (nm ≠ ext ∧ ip ≠ ext ∧ i ≠ ext) as (Hx1 & Hx2 & Hx3).
  { split_and!; (eapply wf_live_ne; [exact Hwf1|eassumption]). }
  assert (∀ b, b ≠ ext → c_objs m2 !! b = c_objs m !! b) as Hm2.
  { intros k Hk. unfold m2, push. simpl. by rewrite lookup_insert_ne. }
  destruct (append_to_zeros m2 nm i (zeros 100) di [] (ContentID p) 100) as (d1 & E2 & S1 & L1 & Z1).
  { by rewrite Hm2. } { apply has_str_zeros. lia. }
  { exists 0%nat. split_and!; [done|done|]. intros j Hj. apply lookup_replicate_2. lia. }
  { by rewrite Hm2. } { done. } { done. } { done. } { simpl. lia. }
  rewrite app_nil_l in S1.
  destruct (append_to_zeros (set_obj m2 nm d1) nm ext d1 (literal png) (ContentID p) png 100)
    as (d2 & E3 & S2 & L2 & _).
  { apply set_obj_lookup. } { done. }
  { exists (length (ContentID p)). split_and!; [done|done|]. intros j Hj. apply Z1. simpl. lia. }
  { rewrite set_obj_lookup_ne by done. apply lookup_insert_eq. }
  { apply has_str_literal. by repeat constructor. } { by repeat constructor. } { done. }
  { simpl. lia. }
  rewrite set_obj_twice in E3. set (m3 := set_obj m2 nm d2) in E3.
  assert (cmem_wf m3) as Hwf3 by (apply set_obj_wf; [done|]; rewrite Hm2 by done; by eexists).
  destruct (recv_icon (default [] (IconData p)) (ContentID p ++ png) rest sock ip nm d2 m3 w1)
    as (r & m4 & w4 & d4 & E4 & F4 & O4 & Hcase).
  { done. } { unfold m3. rewrite set_obj_lookup_ne by done. by rewrite Hm2. }
  { apply set_obj_lookup. } { done. } { exact S2. }
  { apply Forall_app. split; [done|]. by repeat constructor. }
  { rewrite length_app. simpl. lia. } { done. } { done. } { exact In1. }
  destruct (sys_close sock w4) as [rc w5] eqn:Ec.
  exists w1, (pop ext m4), w5.
  assert (frame {[nm; ip]} m (pop ext m4)) as Hfr.
  { split; [apply pop_wf, F4| |].
    - etransitivity; [|exact (frame_next _ _ _ F4)]. simpl. lia.
    - intros k Hk. unfold pop. simpl. destruct (decide (k = ext)) as [->|Hke].
      + rewrite lookup_delete_eq. symmetry. apply Hwf. unfold ext, m1. simpl. lia.
      + rewrite lookup_delete_ne by done. rewrite (frame_objs _ _ _ F4) by set_solver.
        unfold m3. rewrite set_obj_lookup_ne by set_solver. by apply Hm2. }
  assert (∃ ps, has_str d4 0 ps ∧ (r = 0 → ps = []) ∧ icon_left p ps w w5) as (ps & Hps & Hpc & Hleft).
  { unfold icon_left. destruct Hcase as [(He & Hr & Hs & Hf)|(He & Hr & Hs & Hf)];
      eexists; (split; [exact Hs|]).
    - rewrite decide_True by done. split_and!; [done|done|]. intros path.
      by rewrite (close_files _ _ _ _ path Ec), Hf, (get_uint64_files _ _ _ _ _ _ E1).
    - rewrite decide_False by done. split_and!; [lia|done|].
      by rewrite (close_files _ _ _ _ _ Ec), Hf. }
  exists ps. split_and!; [exact E1| |exact Hfr| |exact Hleft].
  - unfold pop. apply with_array_ok. fold ext. change (CMem _ _) with m2.
    erewrite bind_ok by (apply mem_op_ok; exact E2). erewrite bind_ok by (apply mem_op_ok; exact E3).
    erewrite bind_ok by exact E4.
    erewrite (bind_ok _ _ _ tt (m4, w4)).
    + by erewrite bind_ok by (by apply sys_op_ok).
    + destruct (decide (r = 0)) as [Hr|_]; [|done]. rewrite (Hpc Hr) in Hps.
      erewrite bind_ok; [done|]. apply mem_op_ok. eapply (load_char_ok _ _ _ O4); [done|].
      by apply (has_str_nul d4 0 []).
  - split; [done|]. exists d4. split; [|done]. unfold pop. simpl. by rewrite lookup_delete_ne.
Qed.
End exchange.

(** C1: what [SendPKGPayload] sends, [get_pkg_info] understands. When the
    strings fit the payload's buffers and the network delivers, the exchange
    returns 0 with the URL, the name, the identifier and the type in the
    buffers and the package's size. With an icon, the buffer of its path names
    the file "/user/data/tmp_", identifier, ".png", and that file holds
    exactly the icon; without one, the path is empty and no file has changed. *)
Theorem send_receive {W} `{PosixReliable W, !PosixBounds W, !PosixFiles W} (Conn : connection) (p : package)
    (rest : list Z) (m : cmem) (w : W) (params : bgft_download_param)
    (Hwf : cmem_wf m) (Hfits : fits p) (Hready : ready w)
    (Hsent : ∀ fd w1, sys_socket AF_INET SOCK_STREAM IPPROTO_TCP w = (fd, w1) →
      incoming w fd = PKGInfoBuffer p ++ rest) :
  ∃ params' m' w' ps,
    Info.get_pkg_info_body Conn (info_bufs m) params (info_mem m, w) = Ok ((0, params'), (m', w')) ∧
    string_at m' (content_url params') (URL p) ∧ string_at m' (content_name params') (FriendlyName p) ∧
    string_at m' (id params') (ContentID p) ∧ string_at m' (package_type params') (BGFTContentType p) ∧
    package_size params' = PackageSize p ∧ string_at m' (icon_path params') ps ∧
    (if decide (default [] (IconData p) = []) then ps = [] ∧ ∀ path, file_at w' path = file_at w path
     else ps = InfoStrings.tmp_dir ++ ContentID p ++ png ∧
       file_at w' ps = Some (default [] (IconData p))).
Proof.
  destruct (reliable_dial AF_INET SOCK_STREAM IPPROTO_TCP (Info.conn_info Conn) 16 w Hready)
    as (fd & w1 & c & w2 & E1 & Hfd & E2 & Hc & Rel2 & In2).
  rewrite (Hsent _ _ E1) in In2. unfold PKGInfoBuffer in In2. rewrite <- !app_assoc in In2.
  set (m0 := info_mem m) in *. assert (cmem_wf m0) as Hwf0 by (by apply info_mem_wf).
  destruct (recv_uint 4 1 _ fd m0 w2 Hwf0 Rel2 ltac:(simpl; lia) In2) as (w3 & E3 & Rel3 & In3).
  set (n := c_next m) in *.
  destruct (info_mem_objs m) as (O1 & O2 & O3 & O4 & O5 & O6). fold m0 n in O1, O2, O3, O4, O5, O6.
  set (tail := GetBytes 8 (PackageSize p) ++ _) in In3.
  destruct (recv_strings p tail fd (tick m0) w3 n (n + 1) (n + 1 + 1) (n + 1 + 1 + 1 + 1 + 1))
    as (m1 & w4 & m2 & w5 & m3 & w6 & m4 & w7 & S1 & S2 & S3 & S4 & F & Rel7 & In7 & A1 & A2 & A3 & A4);
    [by apply tick_wf|done|done| |done|done|done|done|exact In3|].
  { rewrite !NoDup_cons, !not_elem_of_cons. split_and!; try lia; try apply not_elem_of_nil. apply NoDup_nil_2. }
  set (b := info_bufs m). set (result := (0, {|
      user_id := user_id params; entitlement_type := entitlement_type params; id := Info.b_id b;
      content_url := Info.b_url b; content_ex_url := content_ex_url params;
      content_name := Info.b_name b; icon_path := Info.b_icon_path b; sku_id := sku_id params;
      option_ := option_ params; playgo_scenario_id := playgo_scenario_id params;
      release_date := release_date params; package_type := Info.b_pkg_type b;
      package_sub_type := package_sub_type params; package_size := PackageSize p |})).
  destruct (recv_tail p rest fd m4 w7 (n + 1 + 1) (n + 1 + 1 + 1) (n + 1 + 1 + 1 + 1) b result)
    as (w8 & m' & w' & ps & E8 & E9 & F' & Sp & Hps); [done|done|done|apply F|done|done| |..].
  { rewrite !NoDup_cons, !not_elem_of_cons. split_and!; try lia; try apply not_elem_of_nil. apply NoDup_nil_2. }
  { rewrite (frame_objs _ _ _ F) by (rewrite !elem_of_union, !elem_of_singleton; lia). done. }
  { rewrite (frame_objs _ _ _ F) by (rewrite !elem_of_union, !elem_of_singleton; lia). done. }
  { done. } { exact In7. }
  exists (snd result), m', w', ps. split_and!.
  - unfold Info.get_pkg_info_body. erewrite bind_ok by (by apply sys_op_ok). rewrite decide_False by lia.
    erewrite bind_ok by (by apply sys_op_ok). rewrite decide_False by lia.
    erewrite bind_ok by exact E3. rewrite decide_False by done. unfold Info.recv_pkg_info.
    erewrite bind_ok by exact S1. rewrite decide_False by done.
    erewrite bind_ok by exact S2. rewrite decide_False by done.
    erewrite bind_ok by exact S3. rewrite decide_False by done.
    erewrite bind_ok by exact S4. rewrite decide_False by done.
    erewrite bind_ok by exact E8. exact E9.
  - eapply string_at_frame; [exact F'|simpl; rewrite !elem_of_union, !elem_of_singleton; lia|exact A1].
  - eapply string_at_frame; [exact F'|simpl; rewrite !elem_of_union, !elem_of_singleton; lia|exact A2].
  - eapply string_at_frame; [exact F'|simpl; rewrite !elem_of_union, !elem_of_singleton; lia|exact A3].
  - eapply string_at_frame; [exact F'|simpl; rewrite !elem_of_union, !elem_of_singleton; lia|exact A4].
  - done.
  - exact Sp.
  - refine (icon_left_from p ps w w7 w' _ Hps). intros path.
    rewrite (get_string_files _ _ _ _ _ _ _ _ S4), (get_string_files _ _ _ _ _ _ _ _ S3),
      (get_string_files _ _ _ _ _ _ _ _ S2), (get_string_files _ _ _ _ _ _ _ _ S1),
      (get_uint32_files _ _ _ _ _ _ E3), (connect_files _ _ _ _ _ _ _ E2).
    by eapply socket_files.
Qed.

(** A game with a two-byte icon. *)
Definition sample : package :=
  Package (chars "http://10.0.0.2/a.json") (chars "Game") (chars "UP0001-CUSA00001_00") (chars "PS4GD")
    123456789012 (Some [0x89; 0x50]).

Definition sample_params : bgft_download_param :=
  BgftDownloadParam 0 5 null_ptr null_ptr null_ptr null_ptr null_ptr null_ptr
    BGFT_TASK_OPTION_DISABLE_CDN_QUERY_PARAM null_ptr null_ptr null_ptr null_ptr 0.

Lemma send_receive_witness :
  ∃ params' m' w' ps,
    Info.get_pkg_info_body Connection_template (info_bufs empty_cmem) sample_params
      (info_mem empty_cmem, NetWorld.World true [PKGInfoBuffer sample] [] [] [] []) = Ok ((0, params'), (m', w')) ∧
    string_at m' (content_url params') (URL sample) ∧ string_at m' (content_name params') (FriendlyName sample) ∧
    string_at m' (id params') (ContentID sample) ∧ string_at m' (package_type params') (BGFTContentType sample) ∧
    package_size params' = PackageSize sample ∧ string_at m' (icon_path params') ps ∧
    ps = InfoStrings.tmp_dir ++ ContentID sample ++ png ∧ file_at w' ps = Some [0x89; 0x50].
Proof.
  apply (send_receive Connection_template sample [] empty_cmem
    (NetWorld.World true [PKGInfoBuffer sample] [] [] [] []) sample_params).
  - apply empty_cmem_wf.
  - split; vm_compute; repeat (split || constructor); (done || lia).
  - simpl. split_and!; [done|simpl; lia|constructor].
  - intros fd w1 [= <- <-]. vm_compute. reflexivity.
Defined.

(** ** Finding and patching [Connection] *)

Lemma IndexOf_loop_sound n B C i x O :
  (x ≤ i)%nat → (x < length C)%nat → (i + n ≤ length B)%nat →
  (∀ j, (j < x)%nat → B !! (i - x + j)%nat = C !! j) → (x ≠ 0%nat → O = Z.of_nat (i - x)) →
  IndexOf_loop n B C i x O = -1 ∨
  ∃ off, IndexOf_loop n B C i x O = Z.of_nat off ∧ (off + length C ≤ length B)%nat ∧
         ∀ j, (j < length C)%nat → B !! (off + j)%nat = C !! j.
Proof.
  revert i x O. induction n as [|n IH]; intros i x O Hx Hc Hn Hm HO; [by left|]. simpl.
  case_decide as Hne.
  - apply IH; lia.
  - assert (∀ j, (j < S x)%nat → B !! (i - x + j)%nat = C !! j) as Hm'.
    { intros j Hj. destruct (decide (j = x)) as [->|]; [|apply Hm; lia].
      by replace (i - x + x)%nat with i by lia. }
    set (O' := if decide (x = 0%nat) then Z.of_nat i else O).
    assert (O' = Z.of_nat (i - x)) as HO'.
    { unfold O'. case_decide as Hx0; [f_equal; lia|auto]. }
    case_decide as Hend.
    + right. exists (i - x)%nat. split_and!; [done|lia|]. intros j Hj. apply Hm'. lia.
    + apply IH; [lia..| |lia].
      intros j Hj. replace (S i - S x + j)%nat with (i - x + j)%nat by lia. by apply Hm'.
Qed.

(** Skipping a prefix in which the content cannot start. *)
Lemma IndexOf_loop_skip k n B C i O :
  (∀ j, (j < k)%nat → B !! (i + j)%nat ≠ C !! 0%nat) →
  IndexOf_loop (k + n) B C i 0 O = IndexOf_loop n B C (i + k) 0 O.
Proof.
  revert i. induction k as [|k IH]; intros i H; [by rewrite Nat.add_0_r|]. simpl.
  rewrite decide_True.
  - rewrite IH; [f_equal; lia|]. intros j Hj. replace (S i + j)%nat with (i + S j)%nat by lia.
    apply H. lia.
  - replace i with (i + 0)%nat by lia. apply H. lia.
Qed.

Lemma marker_lookup pre post j :
  (j < 6)%nat → (pre ++ marker ++ post) !! (length pre + j)%nat = marker !! j.
Proof.
  intros Hj. rewrite lookup_app_r by lia. replace (length pre + j - length pre)%nat with j by lia.
  apply lookup_app_l. done.
Qed.

(** Where [IndexOf] finds the marker, in a payload whose first 0xB4 starts it:
    at its place when at least six more bytes follow it; when fewer do, not
    at all, because the loop stops as many bytes before the end as the
    content is long. *)
Theorem IndexOf_marker (pre post : list Z) (Hpre : 0xB4 ∉ pre) :
  IndexOf (pre ++ marker ++ post) marker =
    if decide (6 ≤ length post)%nat then Z.of_nat (length pre) else -1.
Proof.
  unfold IndexOf. rewrite !length_app. change (length marker) with 6%nat.
  replace (length pre + (6 + length post) - 6)%nat with (length pre + length post)%nat by lia.
  rewrite IndexOf_loop_skip.
  2: { intros j Hj. simpl Nat.add. rewrite lookup_app_l by lia. intros E. apply Hpre.
       by eapply list_elem_of_lookup_2. }
  simpl Nat.add. set (B := pre ++ marker ++ post).
  assert (∀ j, (j < 6)%nat → B !! (length pre + j)%nat = marker !! j) as Hl by (intros; by apply marker_lookup).
  assert (∀ j n x O, j = (length pre + x)%nat → (x < 6)%nat → (x < 5)%nat ∨ x = 5%nat →
    IndexOf_loop (S n) B marker j x O =
      let O' := if decide (x = 0%nat) then Z.of_nat j else O in
      if decide (6 ≤ S x)%nat then O' else IndexOf_loop n B marker (S j) (S x) O') as Hstep.
  { intros j n x O -> Hx _. simpl. rewrite decide_False; [done|]. rewrite Hl by done. by intros E; apply E. }
  destruct (decide (6 ≤ length post)%nat) as [H6|H6].
  - replace (length post) with (6 + (length post - 6))%nat by lia. simpl Nat.add.
    do 6 (rewrite Hstep by (simpl; lia); cbv zeta; simpl decide; cbv iota). done.
  - assert (length post < 6)%nat as Hlt by lia. revert Hlt. generalize (length post). intros k Hk.
    do 6 (destruct k as [|k]; [done|rewrite Hstep by (simpl; lia); cbv zeta; simpl decide; cbv iota]). lia.
Qed.

Lemma IndexOf_marker_witness :
  IndexOf ([1; 2] ++ marker ++ [3; 4; 5; 6; 7]) marker = -1.
Proof. apply (IndexOf_marker [1; 2] [3; 4; 5; 6; 7]). set_solver. Defined.

(** A payload that [EnsureClient] could patch is the same payload but for
    six bytes that were the marker; read as [Connection] they give the computer's
    address and port, stored in network order, as [connect] wants them. *)
Theorem patch_payload_connection (Payload IP image : list Z) (LocalPort : Z)
    (HIP : length IP = 4%nat ∧ bytes_ok IP) (HPort : 0 ≤ LocalPort < 2 ^ 16)
    (Hpatch : patch_payload Payload IP LocalPort = Some image) :
  ∃ off, (∀ j, (j < 6)%nat → Payload !! (off + j)%nat = Some 0xB4) ∧
    le_bytes 4 (conn_addr (Connection_at image off)) = IP ∧
    le_bytes 2 (conn_port (Connection_at image off)) = reverse (le_bytes 2 LocalPort) ∧
    length image = length Payload ∧
    ∀ j, (j < off ∨ off + 6 ≤ j)%nat → image !! j = Payload !! j.
Proof.
  destruct HIP as [HIl HIb]. unfold patch_payload in Hpatch. case_decide as Hn; [done|].
  injection Hpatch as <-. unfold IndexOf in Hn.
  destruct (decide (length marker ≤ length Payload)%nat) as [Hl|Hl].
  2: { exfalso. apply Hn. by replace (length Payload - length marker)%nat with 0%nat by lia. }
  destruct (IndexOf_loop_sound (length Payload - length marker) Payload marker 0 0 0)
    as [E|(off & E & Hle & Hm)]; [lia|simpl; lia|lia|lia|done|done|].
  unfold IndexOf. rewrite E, Nat2Z.id. exists off. change (length marker) with 6%nat in *.
  assert (length (reverse (GetBytes 2 LocalPort)) = 2%nat) as HPl.
  { rewrite length_reverse. unfold GetBytes. by rewrite length_le_bytes. }
  assert (bytes_ok (reverse (GetBytes 2 LocalPort))) as HPb.
  { apply Forall_reverse. unfold GetBytes. by apply le_bytes_ok. }
  unfold CopyTo. set (P := reverse (GetBytes 2 LocalPort)) in *.
  set (img := list_inserts (off + 4) P (list_inserts off IP Payload)).
  assert (length img = length Payload) as Hil by (unfold img; by rewrite !length_inserts).
  assert (take 4 (drop off img) = IP) as HtI.
  { unfold img. rewrite slice_not_inserted by lia. apply slice_inserted; lia. }
  assert (take 2 (drop (off + 4) img) = P) as HtP.
  { unfold img. apply slice_inserted; rewrite ?length_inserts; lia. }
  unfold Connection_at. simpl conn_addr. simpl conn_port. rewrite HtI, HtP. split_and!.
  - intros j Hj. rewrite Hm by done. destruct j as [|[|[|[|[|[|]]]]]]; done || lia.
  - apply le_bytes_word; [by rewrite HIl|done].
  - exact (le_bytes_word 2 P ltac:(lia) HPb).
  - done.
  - intros j Hj. unfold img. rewrite !list_inserts_lookup_out by lia. done.
Qed.

Lemma patch_payload_connection_witness :
  ∃ off, (∀ j, (j < 6)%nat → ([1; 2] ++ marker ++ replicate 6 0) !! (off + j)%nat = Some 0xB4) ∧
    le_bytes 4 (conn_addr (Connection_at ([1; 2; 192; 168; 0; 10; 0x1F; 0x90] ++ replicate 6 0) off)) = [192; 168; 0; 10] ∧
    le_bytes 2 (conn_port (Connection_at ([1; 2; 192; 168; 0; 10; 0x1F; 0x90] ++ replicate 6 0) off)) =
      reverse (le_bytes 2 8080) ∧
    length ([1; 2; 192; 168; 0; 10; 0x1F; 0x90] ++ replicate 6 0) = length ([1; 2] ++ marker ++ replicate 6 0) ∧
    ∀ j, (j < off ∨ off + 6 ≤ j)%nat →
      ([1; 2; 192; 168; 0; 10; 0x1F; 0x90] ++ replicate 6 0) !! j = ([1; 2] ++ marker ++ replicate 6 0) !! j.
Proof.
  apply (patch_payload_connection ([1; 2] ++ marker ++ replicate 6 0) [192; 168; 0; 10] _ 8080).
  - split; [done|]. by repeat constructor.
  - lia.
  - vm_compute. reflexivity.
Defined.
