(* ===== verification/KernelTables.v ===== *)
(** * Numbers shared with the kernel: sys/syscall.h, sys/errno.h

    The tables of the FreeBSD headers the payload is compiled with, and the
    numbers its own assembly and enumerations repeat. *)

From S2P Require Import Prelude KernelRW Sandbox.
From Stdlib Require Import String.
#[local] Open Scope string_scope.
#[local] Open Scope Z_scope.

(** ** sys/syscall.h, names without their [SYS_] *)

Definition syscalls_0 : list (string * Z) := [
  ("syscall", 0); ("exit", 1); ("fork", 2); ("read", 3); ("write", 4); ("open", 5); ("close", 6);
  ("wait4", 7); ("link", 9); ("unlink", 10); ("chdir", 12); ("fchdir", 13); ("mknod", 14);
  ("chmod", 15); ("chown", 16); ("break", 17); ("freebsd4_getfsstat", 18); ("getpid", 20);
  ("mount", 21); ("unmount", 22); ("setuid", 23); ("getuid", 24); ("geteuid", 25); ("ptrace", 26);
  ("recvmsg", 27); ("sendmsg", 28); ("recvfrom", 29); ("accept", 30); ("getpeername", 31);
  ("getsockname", 32); ("access", 33); ("chflags", 34); ("fchflags", 35); ("sync", 36);
  ("kill", 37); ("getppid", 39); ("dup", 41); ("pipe", 42); ("getegid", 43); ("profil", 44);
  ("ktrace", 45); ("getgid", 47); ("getlogin", 49); ("setlogin", 50); ("acct", 51);
  ("sigaltstack", 53); ("ioctl", 54); ("reboot", 55); ("revoke", 56); ("symlink", 57);
  ("readlink", 58); ("execve", 59); ("umask", 60); ("chroot", 61); ("msync", 65); ("vfork", 66);
  ("sbrk", 69); ("sstk", 70); ("vadvise", 72); ("munmap", 73); ("mprotect", 74); ("madvise", 75);
  ("mincore", 78); ("getgroups", 79); ("setgroups", 80); ("getpgrp", 81); ("setpgid", 82);
  ("setitimer", 83); ("swapon", 85); ("getitimer", 86); ("getdtablesize", 89); ("dup2", 90);
  ("fcntl", 92); ("select", 93); ("fsync", 95); ("setpriority", 96); ("socket", 97);
  ("connect", 98); ("getpriority", 100); ("bind", 104); ("setsockopt", 105); ("listen", 106);
  ("gettimeofday", 116); ("getrusage", 117); ("getsockopt", 118); ("readv", 120); ("writev", 121);
  ("settimeofday", 122); ("fchown", 123); ("fchmod", 124); ("setreuid", 126); ("setregid", 127);
  ("rename", 128); ("flock", 131); ("mkfifo", 132); ("sendto", 133); ("shutdown", 134);
  ("socketpair", 135); ("mkdir", 136); ("rmdir", 137); ("utimes", 138); ("adjtime", 140);
  ("setsid", 147); ("quotactl", 148)].

Definition syscalls_1 : list (string * Z) := [
  ("nlm_syscall", 154); ("nfssvc", 155); ("freebsd4_statfs", 157); ("freebsd4_fstatfs", 158);
  ("lgetfh", 160); ("getfh", 161); ("freebsd4_getdomainname", 162);
  ("freebsd4_setdomainname", 163); ("freebsd4_uname", 164); ("sysarch", 165); ("rtprio", 166);
  ("semsys", 169); ("msgsys", 170); ("shmsys", 171); ("freebsd6_pread", 173);
  ("freebsd6_pwrite", 174); ("setfib", 175); ("ntp_adjtime", 176); ("setgid", 181);
  ("setegid", 182); ("seteuid", 183); ("stat", 188); ("fstat", 189); ("lstat", 190);
  ("pathconf", 191); ("fpathconf", 192); ("getrlimit", 194); ("setrlimit", 195);
  ("getdirentries", 196); ("freebsd6_mmap", 197); ("__syscall", 198); ("freebsd6_lseek", 199);
  ("freebsd6_truncate", 200); ("freebsd6_ftruncate", 201); ("__sysctl", 202); ("mlock", 203);
  ("munlock", 204); ("undelete", 205); ("futimes", 206); ("getpgid", 207); ("poll", 209);
  ("freebsd7___semctl", 220); ("semget", 221); ("semop", 222); ("freebsd7_msgctl", 224);
  ("msgget", 225); ("msgsnd", 226); ("msgrcv", 227); ("shmat", 228); ("freebsd7_shmctl", 229);
  ("shmdt", 230); ("shmget", 231); ("clock_gettime", 232); ("clock_settime", 233);
  ("clock_getres", 234); ("ktimer_create", 235); ("ktimer_delete", 236); ("ktimer_settime", 237);
  ("ktimer_gettime", 238); ("ktimer_getoverrun", 239); ("nanosleep", 240); ("ntp_gettime", 248);
  ("minherit", 250); ("rfork", 251); ("openbsd_poll", 252); ("issetugid", 253); ("lchown", 254);
  ("aio_read", 255); ("aio_write", 256); ("lio_listio", 257); ("getdents", 272); ("lchmod", 274);
  ("netbsd_lchown", 275); ("lutimes", 276); ("netbsd_msync", 277); ("nstat", 278);
  ("nfstat", 279); ("nlstat", 280); ("preadv", 289); ("pwritev", 290); ("freebsd4_fhstatfs", 297);
  ("fhopen", 298); ("fhstat", 299); ("modnext", 300); ("modstat", 301); ("modfnext", 302);
  ("modfind", 303); ("kldload", 304); ("kldunload", 305); ("kldfind", 306); ("kldnext", 307);
  ("kldstat", 308); ("kldfirstmod", 309); ("getsid", 310); ("setresuid", 311); ("setresgid", 312);
  ("aio_return", 314); ("aio_suspend", 315); ("aio_cancel", 316); ("aio_error", 317);
  ("oaio_read", 318); ("oaio_write", 319); ("olio_listio", 320); ("yield", 321);
  ("mlockall", 324); ("munlockall", 325); ("__getcwd", 326); ("sched_setparam", 327);
  ("sched_getparam", 328); ("sched_setscheduler", 329); ("sched_getscheduler", 330);
  ("sched_yield", 331); ("sched_get_priority_max", 332); ("sched_get_priority_min", 333);
  ("sched_rr_get_interval", 334); ("utrace", 335); ("freebsd4_sendfile", 336); ("kldsym", 337);
  ("jail", 338); ("nnpfs_syscall", 339); ("sigprocmask", 340); ("sigsuspend", 341);
  ("freebsd4_sigaction", 342); ("sigpending", 343); ("freebsd4_sigreturn", 344);
  ("sigtimedwait", 345); ("sigwaitinfo", 346); ("__acl_get_file", 347); ("__acl_set_file", 348);
  ("__acl_get_fd", 349); ("__acl_set_fd", 350); ("__acl_delete_file", 351);
  ("__acl_delete_fd", 352); ("__acl_aclcheck_file", 353); ("__acl_aclcheck_fd", 354);
  ("extattrctl", 355); ("extattr_set_file", 356); ("extattr_get_file", 357);
  ("extattr_delete_file", 358); ("aio_waitcomplete", 359); ("getresuid", 360);
  ("getresgid", 361)].

Definition syscalls_2 : list (string * Z) := [
  ("kqueue", 362); ("kevent", 363); ("extattr_set_fd", 371); ("extattr_get_fd", 372);
  ("extattr_delete_fd", 373); ("__setugid", 374); ("eaccess", 376); ("afs3_syscall", 377);
  ("nmount", 378); ("__mac_get_proc", 384); ("__mac_set_proc", 385); ("__mac_get_fd", 386);
  ("__mac_get_file", 387); ("__mac_set_fd", 388); ("__mac_set_file", 389); ("kenv", 390);
  ("lchflags", 391); ("uuidgen", 392); ("sendfile", 393); ("mac_syscall", 394);
  ("getfsstat", 395); ("statfs", 396); ("fstatfs", 397); ("fhstatfs", 398); ("ksem_close", 400);
  ("ksem_post", 401); ("ksem_wait", 402); ("ksem_trywait", 403); ("ksem_init", 404);
  ("ksem_open", 405); ("ksem_unlink", 406); ("ksem_getvalue", 407); ("ksem_destroy", 408);
  ("__mac_get_pid", 409); ("__mac_get_link", 410); ("__mac_set_link", 411);
  ("extattr_set_link", 412); ("extattr_get_link", 413); ("extattr_delete_link", 414);
  ("__mac_execve", 415); ("sigaction", 416); ("sigreturn", 417); ("getcontext", 421);
  ("setcontext", 422); ("swapcontext", 423); ("swapoff", 424); ("__acl_get_link", 425);
  ("__acl_set_link", 426); ("__acl_delete_link", 427); ("__acl_aclcheck_link", 428);
  ("sigwait", 429); ("thr_create", 430); ("thr_exit", 431); ("thr_self", 432); ("thr_kill", 433);
  ("_umtx_lock", 434); ("_umtx_unlock", 435); ("jail_attach", 436); ("extattr_list_fd", 437);
  ("extattr_list_file", 438); ("extattr_list_link", 439); ("ksem_timedwait", 441);
  ("thr_suspend", 442); ("thr_wake", 443); ("kldunloadf", 444); ("audit", 445); ("auditon", 446);
  ("getauid", 447); ("setauid", 448); ("getaudit", 449); ("setaudit", 450);
  ("getaudit_addr", 451); ("setaudit_addr", 452); ("auditctl", 453); ("_umtx_op", 454);
  ("thr_new", 455); ("sigqueue", 456); ("kmq_open", 457); ("kmq_setattr", 458);
  ("kmq_timedreceive", 459); ("kmq_timedsend", 460); ("kmq_notify", 461); ("kmq_unlink", 462);
  ("abort2", 463); ("thr_set_name", 464); ("aio_fsync", 465); ("rtprio_thread", 466);
  ("sctp_peeloff", 471); ("sctp_generic_sendmsg", 472); ("sctp_generic_sendmsg_iov", 473);
  ("sctp_generic_recvmsg", 474); ("pread", 475); ("pwrite", 476); ("mmap", 477); ("lseek", 478);
  ("truncate", 479); ("ftruncate", 480); ("thr_kill2", 481); ("shm_open", 482);
  ("shm_unlink", 483); ("cpuset", 484); ("cpuset_setid", 485); ("cpuset_getid", 486);
  ("cpuset_getaffinity", 487); ("cpuset_setaffinity", 488); ("faccessat", 489); ("fchmodat", 490);
  ("fchownat", 491); ("fexecve", 492); ("fstatat", 493); ("futimesat", 494); ("linkat", 495);
  ("mkdirat", 496); ("mkfifoat", 497); ("mknodat", 498); ("openat", 499); ("readlinkat", 500);
  ("renameat", 501); ("symlinkat", 502); ("unlinkat", 503); ("posix_openpt", 504);
  ("gssd_syscall", 505); ("jail_get", 506); ("jail_set", 507); ("jail_remove", 508);
  ("closefrom", 509); ("__semctl", 510); ("msgctl", 511); ("shmctl", 512); ("lpathconf", 513);
  ("cap_new", 514); ("cap_getrights", 515); ("cap_enter", 516); ("cap_getmode", 517);
  ("pdfork", 518); ("pdkill", 519); ("pdgetpid", 520); ("pselect", 522); ("getloginclass", 523);
  ("setloginclass", 524); ("rctl_get_racct", 525); ("rctl_get_rules", 526);
  ("rctl_get_limits", 527); ("rctl_add_rule", 528); ("rctl_remove_rule", 529);
  ("posix_fallocate", 530)].

Definition syscalls : list (string * Z) := syscalls_0 ++ syscalls_1 ++ syscalls_2.

Definition SYS_MAXSYSCALL : Z := 532.

(** ** sys/errno.h *)

Definition errnos_0 : list (string * Z) := [
  ("EPERM", 1); ("ENOENT", 2); ("ESRCH", 3); ("EINTR", 4); ("EIO", 5); ("ENXIO", 6); ("E2BIG", 7);
  ("ENOEXEC", 8); ("EBADF", 9); ("ECHILD", 10); ("EDEADLK", 11); ("ENOMEM", 12); ("EACCES", 13);
  ("EFAULT", 14); ("ENOTBLK", 15); ("EBUSY", 16); ("EEXIST", 17); ("EXDEV", 18); ("ENODEV", 19);
  ("ENOTDIR", 20); ("EISDIR", 21); ("EINVAL", 22); ("ENFILE", 23); ("EMFILE", 24); ("ENOTTY", 25);
  ("ETXTBSY", 26); ("EFBIG", 27); ("ENOSPC", 28); ("ESPIPE", 29); ("EROFS", 30); ("EMLINK", 31);
  ("EPIPE", 32); ("EDOM", 33); ("ERANGE", 34); ("EAGAIN", 35); ("EWOULDBLOCK", 35);
  ("EINPROGRESS", 36); ("EALREADY", 37); ("ENOTSOCK", 38); ("EDESTADDRREQ", 39); ("EMSGSIZE", 40);
  ("EPROTOTYPE", 41); ("ENOPROTOOPT", 42); ("EPROTONOSUPPORT", 43)].

Definition errnos_1 : list (string * Z) := [
  ("ESOCKTNOSUPPORT", 44); ("EOPNOTSUPP", 45); ("ENOTSUP", 45); ("EPFNOSUPPORT", 46);
  ("EAFNOSUPPORT", 47); ("EADDRINUSE", 48); ("EADDRNOTAVAIL", 49); ("ENETDOWN", 50);
  ("ENETUNREACH", 51); ("ENETRESET", 52); ("ECONNABORTED", 53); ("ECONNRESET", 54);
  ("ENOBUFS", 55); ("EISCONN", 56); ("ENOTCONN", 57); ("ESHUTDOWN", 58); ("ETOOMANYREFS", 59);
  ("ETIMEDOUT", 60); ("ECONNREFUSED", 61); ("ELOOP", 62); ("ENAMETOOLONG", 63); ("EHOSTDOWN", 64);
  ("EHOSTUNREACH", 65); ("ENOTEMPTY", 66); ("EPROCLIM", 67); ("EUSERS", 68); ("EDQUOT", 69);
  ("ESTALE", 70); ("EREMOTE", 71); ("EBADRPC", 72); ("ERPCMISMATCH", 73); ("EPROGUNAVAIL", 74);
  ("EPROGMISMATCH", 75); ("EPROCUNAVAIL", 76); ("ENOLCK", 77); ("ENOSYS", 78); ("EFTYPE", 79);
  ("EAUTH", 80); ("ENEEDAUTH", 81); ("EIDRM", 82); ("ENOMSG", 83); ("EOVERFLOW", 84);
  ("ECANCELED", 85); ("EILSEQ", 86); ("ENOATTR", 87); ("EDOOFUS", 88); ("EBADMSG", 89);
  ("EMULTIHOP", 90); ("ENOLINK", 91); ("EPROTO", 92); ("ENOTCAPABLE", 93); ("ECAPMODE", 94)].

Definition errnos : list (string * Z) := errnos_0 ++ errnos_1.

Definition ELAST : Z := 94.

(** Under [_KERNEL]: never returned to a process. *)
Definition pseudo_errors : list (string * Z) := [
  ("ERESTART", (-1)); ("EJUSTRETURN", (-2)); ("ENOIOCTL", (-3)); ("EDIRIOCTL", (-4))].

(** ** The payload's own copies *)

(** [SYSCALL(nr, fn)] of utils.c. *)
Definition utils_syscalls : list (string * Z) := [
  ("chdir", 12); ("unmount", 22); ("mkdir", 136); ("rmdir", 137); ("getcwd", 326); ("nmount", 378)].

(** [mov $11, %rax] of [kexec] in kernelrw.c. *)
Definition kexec_number : Z := 11.

(** ** Lookups *)

Definition number_of (table : list (string * Z)) (name : string) : option Z :=
  snd <$> List.find (λ e, String.eqb (fst e) name) table.

(** The kernel's name of a call: the C library wraps [getcwd]. *)
Definition kernel_name (name : string) : string :=
  if String.eqb name "getcwd" then "__getcwd" else name.

Fixpoint increasing (l : list Z) : bool :=
  match l with
  | x :: (y :: _) as t => (x <? y) && increasing t
  | _ => true
  end.

Lemma increasing_head x l y : increasing (x :: l) = true → y ∈ l → x < y.
Proof.
  revert x. induction l as [|z l IH]; intros x Hi Hy; [by apply elem_of_nil in Hy|].
  simpl in Hi. apply andb_true_iff in Hi as [Hx Hi]. apply Z.ltb_lt in Hx.
  apply elem_of_cons in Hy as [->|Hy]; [done|]. pose proof (IH z Hi Hy). lia.
Qed.

Lemma increasing_inj (l : list (string * Z)) a b n :
  increasing (snd <$> l) = true → (a, n) ∈ l → (b, n) ∈ l → a = b.
Proof.
  induction l as [|[c m] l IH]; intros Hi Ha Hb; [by apply elem_of_nil in Ha|].
  assert (∀ d, (d, n) ∈ l → m < n) as Hlt.
  { intros d Hd. eapply increasing_head; [exact Hi|]. apply list_elem_of_fmap. by exists (d, n). }
  apply elem_of_cons in Ha as [[= -> ->]|Ha]; apply elem_of_cons in Hb as [[= ->]|Hb]; simplify_eq.
  - done.
  - specialize (Hlt _ Hb). lia.
  - specialize (Hlt _ Ha). lia.
  - apply IH; [|done..]. simpl in Hi. destruct l; [done|]. simpl in Hi.
    by apply andb_true_iff in Hi as [_ ?].
Qed.

(** Every number from [1] to [n] occurs. *)
Lemma covered (l : list (string * Z)) (n : Z) k :
  forallb (λ i, existsb (λ e, snd e =? Z.of_nat i) l) (seq 1 (Z.to_nat n)) = true →
  1 ≤ k ≤ n → ∃ a, (a, k) ∈ l.
Proof.
  intros Hall Hk. assert (In (Z.to_nat k) (seq 1 (Z.to_nat n))) as Hin by (apply in_seq; lia).
  apply (proj1 (forallb_forall _ _) Hall) in Hin. apply existsb_exists in Hin as ([a m] & Hin & Heq).
  apply Z.eqb_eq in Heq. simpl in Heq. exists a. apply list_elem_of_In.
  replace k with m by lia. done.
Qed.

(** ** The numbers agree *)

(** The system calls utils.c makes by number are the kernel's calls of those
    names; the slot 11 in which the payload expects the loader's [kexec] belongs
    to no call of the kernel; a number names at most one call, all below
    [SYS_MAXSYSCALL]. The [EINVAL] of utils.c is the header's, and the error
    numbers are exactly 1 to [ELAST]. *)
Theorem kernel_numbers_agree :
  (∀ name nr, (name, nr) ∈ utils_syscalls → number_of syscalls (kernel_name name) = Some nr) ∧
  (∀ name, (name, kexec_number) ∉ syscalls) ∧
  (∀ a b nr, (a, nr) ∈ syscalls → (b, nr) ∈ syscalls → a = b ∧ 0 ≤ nr < SYS_MAXSYSCALL) ∧
  (∀ nr, (∃ a, (a, nr) ∈ errnos) ↔ 1 ≤ nr ≤ ELAST) ∧
  number_of errnos "EINVAL" = Some EINVAL.
Proof.
  split_and!.
  - intros name nr Hin. revert name nr Hin.
    assert (Forall (λ e, number_of syscalls (kernel_name (fst e)) = Some (snd e)) utils_syscalls) as H
      by (repeat constructor).
    intros name nr Hin. exact (proj1 (Forall_forall _ _) H (name, nr) Hin).
  - intros name Hin.
    eapply (table_forall (λ e, negb (snd e =? kexec_number))) in Hin; [|by vm_compute].
    by vm_compute in Hin.
  - intros a b nr Ha Hb. split; [by apply (increasing_inj syscalls a b nr)|].
    eapply (table_forall (λ e, (0 <=? snd e) && (snd e <? SYS_MAXSYSCALL))) in Ha; [|by vm_compute].
    cbn [snd] in Ha. unfold SYS_MAXSYSCALL, ELAST in *. lia.
  - intros nr. split.
    + intros [a Ha]. eapply (table_forall (λ e, (1 <=? snd e) && (snd e <=? ELAST))) in Ha; [|by vm_compute].
      simpl in Ha. lia.
    + apply covered. by vm_compute.
  - done.
Qed.
