(* ===== verification/SysProto.v ===== *)
(** * Argument blocks of the system calls: sys/sysproto.h

    The kernel hands the arguments of a system call to its handler as a block of
    eight-byte slots, one per register; the header declares one structure per
    call, with padding computed by macros, and one handler per structure. *)

From S2P Require Import Prelude CStruct KernelTables.
From Stdlib Require Import String.
#[local] Open Scope string_scope.
#[local] Open Scope Z_scope.

(** ** The padding macros (little-endian) *)

Definition register_t : cty := c_long.

Definition PAD_ (t : cty) : Z :=
  if size_of register_t <=? size_of t then 0 else size_of register_t - size_of t.
Definition PADL_ (t : cty) : Z := 0.
Definition PADR_ (t : cty) : Z := PAD_ t.

(** [char x_l_\[PADL_(t)\]; t x; char x_r_\[PADR_(t)\];] *)
Definition argument (a : string * cty) : list (string * cty) :=
  let '(x, t) := a in
  [(String.append x "_l_", CArray (PADL_ t) c_char); (x, t); (String.append x "_r_", CArray (PADR_ t) c_char)].

(** A structure of the header; one without arguments has a dummy member. *)
Definition block (l : list (string * cty)) : cty :=
  CRecord (match l with [] => [("dummy", register_t)] | _ => List.concat (List.map argument l) end).

(** ** The structures: their names, their members with their types *)

Definition blocks_0 : list (string * list (string * cty)) := [
  ("nosys_args", []); ("sys_exit_args", [("rval", c_int)]); ("fork_args", []);
  ("read_args", [("fd", c_int); ("buf", c_ptr); ("nbyte", c_size_t)]);
  ("write_args", [("fd", c_int); ("buf", c_ptr); ("nbyte", c_size_t)]);
  ("open_args", [("path", c_ptr); ("flags", c_int); ("mode", c_int)]);
  ("close_args", [("fd", c_int)]);
  ("wait_args", [("pid", c_int); ("status", c_ptr); ("options", c_int); ("rusage", c_ptr)]);
  ("link_args", [("path", c_ptr); ("link", c_ptr)]); ("unlink_args", [("path", c_ptr)]);
  ("chdir_args", [("path", c_ptr)]); ("fchdir_args", [("fd", c_int)]);
  ("mknod_args", [("path", c_ptr); ("mode", c_int); ("dev", c_int)]);
  ("chmod_args", [("path", c_ptr); ("mode", c_int)]);
  ("chown_args", [("path", c_ptr); ("uid", c_int); ("gid", c_int)]);
  ("obreak_args", [("nsize", c_ptr)]); ("getpid_args", []);
  ("mount_args", [("type", c_ptr); ("path", c_ptr); ("flags", c_int); ("data", c_ptr)]);
  ("unmount_args", [("path", c_ptr); ("flags", c_int)]); ("setuid_args", [("uid", c_u32)]);
  ("getuid_args", []); ("geteuid_args", []);
  ("ptrace_args", [("req", c_int); ("pid", c_int); ("addr", c_ptr); ("data", c_int)]);
  ("recvmsg_args", [("s", c_int); ("msg", c_ptr); ("flags", c_int)]);
  ("sendmsg_args", [("s", c_int); ("msg", c_ptr); ("flags", c_int)]);
  ("recvfrom_args", [("s", c_int); ("buf", c_ptr); ("len", c_size_t); ("flags", c_int); ("from", c_ptr); ("fromlenaddr", c_ptr)]);
  ("accept_args", [("s", c_int); ("name", c_ptr); ("anamelen", c_ptr)]);
  ("getpeername_args", [("fdes", c_int); ("asa", c_ptr); ("alen", c_ptr)]);
  ("getsockname_args", [("fdes", c_int); ("asa", c_ptr); ("alen", c_ptr)]);
  ("access_args", [("path", c_ptr); ("flags", c_int)]);
  ("chflags_args", [("path", c_ptr); ("flags", c_int)]);
  ("fchflags_args", [("fd", c_int); ("flags", c_int)]); ("sync_args", []);
  ("kill_args", [("pid", c_int); ("signum", c_int)]); ("getppid_args", []);
  ("dup_args", [("fd", c_u32)])].

Definition blocks_1 : list (string * list (string * cty)) := [
  ("pipe_args", []); ("getegid_args", []);
  ("profil_args", [("samples", c_ptr); ("size", c_size_t); ("offset", c_size_t); ("scale", c_u32)]);
  ("ktrace_args", [("fname", c_ptr); ("ops", c_int); ("facs", c_int); ("pid", c_int)]);
  ("getgid_args", []); ("getlogin_args", [("namebuf", c_ptr); ("namelen", c_u32)]);
  ("setlogin_args", [("namebuf", c_ptr)]); ("acct_args", [("path", c_ptr)]);
  ("osigpending_args", []); ("sigaltstack_args", [("ss", c_ptr); ("oss", c_ptr)]);
  ("ioctl_args", [("fd", c_int); ("com", c_u64); ("data", c_ptr)]);
  ("reboot_args", [("opt", c_int)]); ("revoke_args", [("path", c_ptr)]);
  ("symlink_args", [("path", c_ptr); ("link", c_ptr)]);
  ("readlink_args", [("path", c_ptr); ("buf", c_ptr); ("count", c_size_t)]);
  ("execve_args", [("fname", c_ptr); ("argv", c_ptr); ("envv", c_ptr)]);
  ("umask_args", [("newmask", c_int)]); ("chroot_args", [("path", c_ptr)]);
  ("getpagesize_args", []); ("msync_args", [("addr", c_ptr); ("len", c_size_t); ("flags", c_int)]);
  ("vfork_args", []); ("sbrk_args", [("incr", c_int)]); ("sstk_args", [("incr", c_int)]);
  ("ovadvise_args", [("anom", c_int)]); ("munmap_args", [("addr", c_ptr); ("len", c_size_t)]);
  ("mprotect_args", [("addr", c_ptr); ("len", c_size_t); ("prot", c_int)]);
  ("madvise_args", [("addr", c_ptr); ("len", c_size_t); ("behav", c_int)]);
  ("mincore_args", [("addr", c_ptr); ("len", c_size_t); ("vec", c_ptr)]);
  ("getgroups_args", [("gidsetsize", c_u32); ("gidset", c_ptr)]);
  ("setgroups_args", [("gidsetsize", c_u32); ("gidset", c_ptr)]); ("getpgrp_args", []);
  ("setpgid_args", [("pid", c_int); ("pgid", c_int)]);
  ("setitimer_args", [("which", c_u32); ("itv", c_ptr); ("oitv", c_ptr)]); ("owait_args", []);
  ("swapon_args", [("name", c_ptr)]); ("getitimer_args", [("which", c_u32); ("itv", c_ptr)]);
  ("getdtablesize_args", []); ("dup2_args", [("from", c_u32); ("to", c_u32)]);
  ("fcntl_args", [("fd", c_int); ("cmd", c_int); ("arg", c_long)])].

Definition blocks_2 : list (string * list (string * cty)) := [
  ("select_args", [("nd", c_int); ("in", c_ptr); ("ou", c_ptr); ("ex", c_ptr); ("tv", c_ptr)]);
  ("fsync_args", [("fd", c_int)]);
  ("setpriority_args", [("which", c_int); ("who", c_int); ("prio", c_int)]);
  ("socket_args", [("domain", c_int); ("type", c_int); ("protocol", c_int)]);
  ("connect_args", [("s", c_int); ("name", c_ptr); ("namelen", c_int)]);
  ("getpriority_args", [("which", c_int); ("who", c_int)]);
  ("bind_args", [("s", c_int); ("name", c_ptr); ("namelen", c_int)]);
  ("setsockopt_args", [("s", c_int); ("level", c_int); ("name", c_int); ("val", c_ptr); ("valsize", c_int)]);
  ("listen_args", [("s", c_int); ("backlog", c_int)]);
  ("gettimeofday_args", [("tp", c_ptr); ("tzp", c_ptr)]);
  ("getrusage_args", [("who", c_int); ("rusage", c_ptr)]);
  ("getsockopt_args", [("s", c_int); ("level", c_int); ("name", c_int); ("val", c_ptr); ("avalsize", c_ptr)]);
  ("readv_args", [("fd", c_int); ("iovp", c_ptr); ("iovcnt", c_u32)]);
  ("writev_args", [("fd", c_int); ("iovp", c_ptr); ("iovcnt", c_u32)]);
  ("settimeofday_args", [("tv", c_ptr); ("tzp", c_ptr)]);
  ("fchown_args", [("fd", c_int); ("uid", c_int); ("gid", c_int)]);
  ("fchmod_args", [("fd", c_int); ("mode", c_int)]);
  ("setreuid_args", [("ruid", c_int); ("euid", c_int)]);
  ("setregid_args", [("rgid", c_int); ("egid", c_int)]);
  ("rename_args", [("from", c_ptr); ("to", c_ptr)]);
  ("flock_args", [("fd", c_int); ("how", c_int)]);
  ("mkfifo_args", [("path", c_ptr); ("mode", c_int)]);
  ("sendto_args", [("s", c_int); ("buf", c_ptr); ("len", c_size_t); ("flags", c_int); ("to", c_ptr); ("tolen", c_int)]);
  ("shutdown_args", [("s", c_int); ("how", c_int)]);
  ("socketpair_args", [("domain", c_int); ("type", c_int); ("protocol", c_int); ("rsv", c_ptr)]);
  ("mkdir_args", [("path", c_ptr); ("mode", c_int)]); ("rmdir_args", [("path", c_ptr)]);
  ("utimes_args", [("path", c_ptr); ("tptr", c_ptr)]);
  ("adjtime_args", [("delta", c_ptr); ("olddelta", c_ptr)]); ("ogethostid_args", []);
  ("setsid_args", []);
  ("quotactl_args", [("path", c_ptr); ("cmd", c_int); ("uid", c_int); ("arg", c_ptr)])].

Definition blocks_3 : list (string * list (string * cty)) := [
  ("oquota_args", []);
  ("nlm_syscall_args", [("debug_level", c_int); ("grace_period", c_int); ("addr_count", c_int); ("addrs", c_ptr)]);
  ("nfssvc_args", [("flag", c_int); ("argp", c_ptr)]);
  ("lgetfh_args", [("fname", c_ptr); ("fhp", c_ptr)]);
  ("getfh_args", [("fname", c_ptr); ("fhp", c_ptr)]);
  ("sysarch_args", [("op", c_int); ("parms", c_ptr)]);
  ("rtprio_args", [("function", c_int); ("pid", c_int); ("rtp", c_ptr)]);
  ("semsys_args", [("which", c_int); ("a2", c_int); ("a3", c_int); ("a4", c_int); ("a5", c_int)]);
  ("msgsys_args", [("which", c_int); ("a2", c_int); ("a3", c_int); ("a4", c_int); ("a5", c_int); ("a6", c_int)]);
  ("shmsys_args", [("which", c_int); ("a2", c_int); ("a3", c_int); ("a4", c_int)]);
  ("freebsd6_pread_args", [("fd", c_int); ("buf", c_ptr); ("nbyte", c_size_t); ("pad", c_int); ("offset", c_long)]);
  ("freebsd6_pwrite_args", [("fd", c_int); ("buf", c_ptr); ("nbyte", c_size_t); ("pad", c_int); ("offset", c_long)]);
  ("setfib_args", [("fibnum", c_int)]); ("ntp_adjtime_args", [("tp", c_ptr)]);
  ("setgid_args", [("gid", c_u32)]); ("setegid_args", [("egid", c_u32)]);
  ("seteuid_args", [("euid", c_u32)]); ("stat_args", [("path", c_ptr); ("ub", c_ptr)]);
  ("fstat_args", [("fd", c_int); ("sb", c_ptr)]); ("lstat_args", [("path", c_ptr); ("ub", c_ptr)]);
  ("pathconf_args", [("path", c_ptr); ("name", c_int)]);
  ("fpathconf_args", [("fd", c_int); ("name", c_int)]);
  ("__getrlimit_args", [("which", c_u32); ("rlp", c_ptr)]);
  ("__setrlimit_args", [("which", c_u32); ("rlp", c_ptr)]);
  ("getdirentries_args", [("fd", c_int); ("buf", c_ptr); ("count", c_u32); ("basep", c_ptr)]);
  ("freebsd6_mmap_args", [("addr", c_ptr); ("len", c_size_t); ("prot", c_int); ("flags", c_int); ("fd", c_int); ("pad", c_int); ("pos", c_long)]);
  ("freebsd6_lseek_args", [("fd", c_int); ("pad", c_int); ("offset", c_long); ("whence", c_int)]);
  ("freebsd6_truncate_args", [("path", c_ptr); ("pad", c_int); ("length", c_long)]);
  ("freebsd6_ftruncate_args", [("fd", c_int); ("pad", c_int); ("length", c_long)]);
  ("sysctl_args", [("name", c_ptr); ("namelen", c_u32); ("old", c_ptr); ("oldlenp", c_ptr); ("new", c_ptr); ("newlen", c_size_t)])].

Definition blocks_4 : list (string * list (string * cty)) := [
  ("mlock_args", [("addr", c_ptr); ("len", c_size_t)]);
  ("munlock_args", [("addr", c_ptr); ("len", c_size_t)]); ("undelete_args", [("path", c_ptr)]);
  ("futimes_args", [("fd", c_int); ("tptr", c_ptr)]); ("getpgid_args", [("pid", c_int)]);
  ("poll_args", [("fds", c_ptr); ("nfds", c_u32); ("timeout", c_int)]);
  ("semget_args", [("key", c_long); ("nsems", c_int); ("semflg", c_int)]);
  ("semop_args", [("semid", c_int); ("sops", c_ptr); ("nsops", c_size_t)]);
  ("msgget_args", [("key", c_long); ("msgflg", c_int)]);
  ("msgsnd_args", [("msqid", c_int); ("msgp", c_ptr); ("msgsz", c_size_t); ("msgflg", c_int)]);
  ("msgrcv_args", [("msqid", c_int); ("msgp", c_ptr); ("msgsz", c_size_t); ("msgtyp", c_long); ("msgflg", c_int)]);
  ("shmat_args", [("shmid", c_int); ("shmaddr", c_ptr); ("shmflg", c_int)]);
  ("shmdt_args", [("shmaddr", c_ptr)]);
  ("shmget_args", [("key", c_long); ("size", c_size_t); ("shmflg", c_int)]);
  ("clock_gettime_args", [("clock_id", c_int); ("tp", c_ptr)]);
  ("clock_settime_args", [("clock_id", c_int); ("tp", c_ptr)]);
  ("clock_getres_args", [("clock_id", c_int); ("tp", c_ptr)]);
  ("ktimer_create_args", [("clock_id", c_int); ("evp", c_ptr); ("timerid", c_ptr)]);
  ("ktimer_delete_args", [("timerid", c_int)]);
  ("ktimer_settime_args", [("timerid", c_int); ("flags", c_int); ("value", c_ptr); ("ovalue", c_ptr)]);
  ("ktimer_gettime_args", [("timerid", c_int); ("value", c_ptr)]);
  ("ktimer_getoverrun_args", [("timerid", c_int)]);
  ("nanosleep_args", [("rqtp", c_ptr); ("rmtp", c_ptr)]); ("ntp_gettime_args", [("ntvp", c_ptr)]);
  ("minherit_args", [("addr", c_ptr); ("len", c_size_t); ("inherit", c_int)]);
  ("rfork_args", [("flags", c_int)]);
  ("openbsd_poll_args", [("fds", c_ptr); ("nfds", c_u32); ("timeout", c_int)]);
  ("issetugid_args", []); ("lchown_args", [("path", c_ptr); ("uid", c_int); ("gid", c_int)]);
  ("aio_read_args", [("aiocbp", c_ptr)]); ("aio_write_args", [("aiocbp", c_ptr)]);
  ("lio_listio_args", [("mode", c_int); ("acb_list", c_ptr); ("nent", c_int); ("sig", c_ptr)]);
  ("getdents_args", [("fd", c_int); ("buf", c_ptr); ("count", c_size_t)]);
  ("lchmod_args", [("path", c_ptr); ("mode", c_u16)]);
  ("lutimes_args", [("path", c_ptr); ("tptr", c_ptr)])].

Definition blocks_5 : list (string * list (string * cty)) := [
  ("nstat_args", [("path", c_ptr); ("ub", c_ptr)]);
  ("nfstat_args", [("fd", c_int); ("sb", c_ptr)]);
  ("nlstat_args", [("path", c_ptr); ("ub", c_ptr)]);
  ("preadv_args", [("fd", c_int); ("iovp", c_ptr); ("iovcnt", c_u32); ("offset", c_long)]);
  ("pwritev_args", [("fd", c_int); ("iovp", c_ptr); ("iovcnt", c_u32); ("offset", c_long)]);
  ("fhopen_args", [("u_fhp", c_ptr); ("flags", c_int)]);
  ("fhstat_args", [("u_fhp", c_ptr); ("sb", c_ptr)]); ("modnext_args", [("modid", c_int)]);
  ("modstat_args", [("modid", c_int); ("stat", c_ptr)]); ("modfnext_args", [("modid", c_int)]);
  ("modfind_args", [("name", c_ptr)]); ("kldload_args", [("file", c_ptr)]);
  ("kldunload_args", [("fileid", c_int)]); ("kldfind_args", [("file", c_ptr)]);
  ("kldnext_args", [("fileid", c_int)]); ("kldstat_args", [("fileid", c_int); ("stat", c_ptr)]);
  ("kldfirstmod_args", [("fileid", c_int)]); ("getsid_args", [("pid", c_int)]);
  ("setresuid_args", [("ruid", c_u32); ("euid", c_u32); ("suid", c_u32)]);
  ("setresgid_args", [("rgid", c_u32); ("egid", c_u32); ("sgid", c_u32)]);
  ("aio_return_args", [("aiocbp", c_ptr)]);
  ("aio_suspend_args", [("aiocbp", c_ptr); ("nent", c_int); ("timeout", c_ptr)]);
  ("aio_cancel_args", [("fd", c_int); ("aiocbp", c_ptr)]); ("aio_error_args", [("aiocbp", c_ptr)]);
  ("oaio_read_args", [("aiocbp", c_ptr)]); ("oaio_write_args", [("aiocbp", c_ptr)]);
  ("olio_listio_args", [("mode", c_int); ("acb_list", c_ptr); ("nent", c_int); ("sig", c_ptr)]);
  ("yield_args", []); ("mlockall_args", [("how", c_int)]); ("munlockall_args", []);
  ("__getcwd_args", [("buf", c_ptr); ("buflen", c_u32)]);
  ("sched_setparam_args", [("pid", c_int); ("param", c_ptr)]);
  ("sched_getparam_args", [("pid", c_int); ("param", c_ptr)]);
  ("sched_setscheduler_args", [("pid", c_int); ("policy", c_int); ("param", c_ptr)]);
  ("sched_getscheduler_args", [("pid", c_int)]); ("sched_yield_args", []);
  ("sched_get_priority_max_args", [("policy", c_int)]);
  ("sched_get_priority_min_args", [("policy", c_int)]);
  ("sched_rr_get_interval_args", [("pid", c_int); ("interval", c_ptr)]);
  ("utrace_args", [("addr", c_ptr); ("len", c_size_t)])].

Definition blocks_6 : list (string * list (string * cty)) := [
  ("kldsym_args", [("fileid", c_int); ("cmd", c_int); ("data", c_ptr)]);
  ("jail_args", [("jail", c_ptr)]);
  ("nnpfs_syscall_args", [("operation", c_int); ("a_pathP", c_ptr); ("a_opcode", c_int); ("a_paramsP", c_ptr); ("a_followSymlinks", c_int)]);
  ("sigprocmask_args", [("how", c_int); ("set", c_ptr); ("oset", c_ptr)]);
  ("sigsuspend_args", [("sigmask", c_ptr)]); ("sigpending_args", [("set", c_ptr)]);
  ("sigtimedwait_args", [("set", c_ptr); ("info", c_ptr); ("timeout", c_ptr)]);
  ("sigwaitinfo_args", [("set", c_ptr); ("info", c_ptr)]);
  ("__acl_get_file_args", [("path", c_ptr); ("type", c_int); ("aclp", c_ptr)]);
  ("__acl_set_file_args", [("path", c_ptr); ("type", c_int); ("aclp", c_ptr)]);
  ("__acl_get_fd_args", [("filedes", c_int); ("type", c_int); ("aclp", c_ptr)]);
  ("__acl_set_fd_args", [("filedes", c_int); ("type", c_int); ("aclp", c_ptr)]);
  ("__acl_delete_file_args", [("path", c_ptr); ("type", c_int)]);
  ("__acl_delete_fd_args", [("filedes", c_int); ("type", c_int)]);
  ("__acl_aclcheck_file_args", [("path", c_ptr); ("type", c_int); ("aclp", c_ptr)]);
  ("__acl_aclcheck_fd_args", [("filedes", c_int); ("type", c_int); ("aclp", c_ptr)]);
  ("extattrctl_args", [("path", c_ptr); ("cmd", c_int); ("filename", c_ptr); ("attrnamespace", c_int); ("attrname", c_ptr)]);
  ("extattr_set_file_args", [("path", c_ptr); ("attrnamespace", c_int); ("attrname", c_ptr); ("data", c_ptr); ("nbytes", c_size_t)]);
  ("extattr_get_file_args", [("path", c_ptr); ("attrnamespace", c_int); ("attrname", c_ptr); ("data", c_ptr); ("nbytes", c_size_t)]);
  ("extattr_delete_file_args", [("path", c_ptr); ("attrnamespace", c_int); ("attrname", c_ptr)]);
  ("aio_waitcomplete_args", [("aiocbp", c_ptr); ("timeout", c_ptr)]);
  ("getresuid_args", [("ruid", c_ptr); ("euid", c_ptr); ("suid", c_ptr)]);
  ("getresgid_args", [("rgid", c_ptr); ("egid", c_ptr); ("sgid", c_ptr)]); ("kqueue_args", []);
  ("kevent_args", [("fd", c_int); ("changelist", c_ptr); ("nchanges", c_int); ("eventlist", c_ptr); ("nevents", c_int); ("timeout", c_ptr)]);
  ("extattr_set_fd_args", [("fd", c_int); ("attrnamespace", c_int); ("attrname", c_ptr); ("data", c_ptr); ("nbytes", c_size_t)]);
  ("extattr_get_fd_args", [("fd", c_int); ("attrnamespace", c_int); ("attrname", c_ptr); ("data", c_ptr); ("nbytes", c_size_t)]);
  ("extattr_delete_fd_args", [("fd", c_int); ("attrnamespace", c_int); ("attrname", c_ptr)]);
  ("__setugid_args", [("flag", c_int)]); ("eaccess_args", [("path", c_ptr); ("flags", c_int)])].

Definition blocks_7 : list (string * list (string * cty)) := [
  ("afs3_syscall_args", [("syscall", c_long); ("parm1", c_long); ("parm2", c_long); ("parm3", c_long); ("parm4", c_long); ("parm5", c_long); ("parm6", c_long)]);
  ("nmount_args", [("iovp", c_ptr); ("iovcnt", c_u32); ("flags", c_int)]);
  ("__mac_get_proc_args", [("mac_p", c_ptr)]); ("__mac_set_proc_args", [("mac_p", c_ptr)]);
  ("__mac_get_fd_args", [("fd", c_int); ("mac_p", c_ptr)]);
  ("__mac_get_file_args", [("path_p", c_ptr); ("mac_p", c_ptr)]);
  ("__mac_set_fd_args", [("fd", c_int); ("mac_p", c_ptr)]);
  ("__mac_set_file_args", [("path_p", c_ptr); ("mac_p", c_ptr)]);
  ("kenv_args", [("what", c_int); ("name", c_ptr); ("value", c_ptr); ("len", c_int)]);
  ("lchflags_args", [("path", c_ptr); ("flags", c_int)]);
  ("uuidgen_args", [("store", c_ptr); ("count", c_int)]);
  ("sendfile_args", [("fd", c_int); ("s", c_int); ("offset", c_long); ("nbytes", c_size_t); ("hdtr", c_ptr); ("sbytes", c_ptr); ("flags", c_int)]);
  ("mac_syscall_args", [("policy", c_ptr); ("call", c_int); ("arg", c_ptr)]);
  ("getfsstat_args", [("buf", c_ptr); ("bufsize", c_long); ("flags", c_int)]);
  ("statfs_args", [("path", c_ptr); ("buf", c_ptr)]);
  ("fstatfs_args", [("fd", c_int); ("buf", c_ptr)]);
  ("fhstatfs_args", [("u_fhp", c_ptr); ("buf", c_ptr)]); ("ksem_close_args", [("id", c_long)]);
  ("ksem_post_args", [("id", c_long)]); ("ksem_wait_args", [("id", c_long)]);
  ("ksem_trywait_args", [("id", c_long)]); ("ksem_init_args", [("idp", c_ptr); ("value", c_u32)]);
  ("ksem_open_args", [("idp", c_ptr); ("name", c_ptr); ("oflag", c_int); ("mode", c_u16); ("value", c_u32)]);
  ("ksem_unlink_args", [("name", c_ptr)]);
  ("ksem_getvalue_args", [("id", c_long); ("val", c_ptr)]);
  ("ksem_destroy_args", [("id", c_long)]);
  ("__mac_get_pid_args", [("pid", c_int); ("mac_p", c_ptr)]);
  ("__mac_get_link_args", [("path_p", c_ptr); ("mac_p", c_ptr)]);
  ("__mac_set_link_args", [("path_p", c_ptr); ("mac_p", c_ptr)]);
  ("extattr_set_link_args", [("path", c_ptr); ("attrnamespace", c_int); ("attrname", c_ptr); ("data", c_ptr); ("nbytes", c_size_t)]);
  ("extattr_get_link_args", [("path", c_ptr); ("attrnamespace", c_int); ("attrname", c_ptr); ("data", c_ptr); ("nbytes", c_size_t)]);
  ("extattr_delete_link_args", [("path", c_ptr); ("attrnamespace", c_int); ("attrname", c_ptr)])].

Definition blocks_8 : list (string * list (string * cty)) := [
  ("__mac_execve_args", [("fname", c_ptr); ("argv", c_ptr); ("envv", c_ptr); ("mac_p", c_ptr)]);
  ("sigaction_args", [("sig", c_int); ("act", c_ptr); ("oact", c_ptr)]);
  ("sigreturn_args", [("sigcntxp", c_ptr)]); ("getcontext_args", [("ucp", c_ptr)]);
  ("setcontext_args", [("ucp", c_ptr)]); ("swapcontext_args", [("oucp", c_ptr); ("ucp", c_ptr)]);
  ("swapoff_args", [("name", c_ptr)]);
  ("__acl_get_link_args", [("path", c_ptr); ("type", c_int); ("aclp", c_ptr)]);
  ("__acl_set_link_args", [("path", c_ptr); ("type", c_int); ("aclp", c_ptr)]);
  ("__acl_delete_link_args", [("path", c_ptr); ("type", c_int)]);
  ("__acl_aclcheck_link_args", [("path", c_ptr); ("type", c_int); ("aclp", c_ptr)]);
  ("sigwait_args", [("set", c_ptr); ("sig", c_ptr)]);
  ("thr_create_args", [("ctx", c_ptr); ("id", c_ptr); ("flags", c_int)]);
  ("thr_exit_args", [("state", c_ptr)]); ("thr_self_args", [("id", c_ptr)]);
  ("thr_kill_args", [("id", c_long); ("sig", c_int)]); ("_umtx_lock_args", [("umtx", c_ptr)]);
  ("_umtx_unlock_args", [("umtx", c_ptr)]); ("jail_attach_args", [("jid", c_int)]);
  ("extattr_list_fd_args", [("fd", c_int); ("attrnamespace", c_int); ("data", c_ptr); ("nbytes", c_size_t)]);
  ("extattr_list_file_args", [("path", c_ptr); ("attrnamespace", c_int); ("data", c_ptr); ("nbytes", c_size_t)]);
  ("extattr_list_link_args", [("path", c_ptr); ("attrnamespace", c_int); ("data", c_ptr); ("nbytes", c_size_t)]);
  ("ksem_timedwait_args", [("id", c_long); ("abstime", c_ptr)]);
  ("thr_suspend_args", [("timeout", c_ptr)]); ("thr_wake_args", [("id", c_long)]);
  ("kldunloadf_args", [("fileid", c_int); ("flags", c_int)]);
  ("audit_args", [("record", c_ptr); ("length", c_u32)]);
  ("auditon_args", [("cmd", c_int); ("data", c_ptr); ("length", c_u32)]);
  ("getauid_args", [("auid", c_ptr)]); ("setauid_args", [("auid", c_ptr)]);
  ("getaudit_args", [("auditinfo", c_ptr)]); ("setaudit_args", [("auditinfo", c_ptr)]);
  ("getaudit_addr_args", [("auditinfo_addr", c_ptr); ("length", c_u32)]);
  ("setaudit_addr_args", [("auditinfo_addr", c_ptr); ("length", c_u32)]);
  ("auditctl_args", [("path", c_ptr)]);
  ("_umtx_op_args", [("obj", c_ptr); ("op", c_int); ("val", c_u64); ("uaddr1", c_ptr); ("uaddr2", c_ptr)]);
  ("thr_new_args", [("param", c_ptr); ("param_size", c_int)])].

Definition blocks_9 : list (string * list (string * cty)) := [
  ("sigqueue_args", [("pid", c_int); ("signum", c_int); ("value", c_ptr)]);
  ("kmq_open_args", [("path", c_ptr); ("flags", c_int); ("mode", c_u16); ("attr", c_ptr)]);
  ("kmq_setattr_args", [("mqd", c_int); ("attr", c_ptr); ("oattr", c_ptr)]);
  ("kmq_timedreceive_args", [("mqd", c_int); ("msg_ptr", c_ptr); ("msg_len", c_size_t); ("msg_prio", c_ptr); ("abs_timeout", c_ptr)]);
  ("kmq_timedsend_args", [("mqd", c_int); ("msg_ptr", c_ptr); ("msg_len", c_size_t); ("msg_prio", c_u32); ("abs_timeout", c_ptr)]);
  ("kmq_notify_args", [("mqd", c_int); ("sigev", c_ptr)]); ("kmq_unlink_args", [("path", c_ptr)]);
  ("abort2_args", [("why", c_ptr); ("nargs", c_int); ("args", c_ptr)]);
  ("thr_set_name_args", [("id", c_long); ("name", c_ptr)]);
  ("aio_fsync_args", [("op", c_int); ("aiocbp", c_ptr)]);
  ("rtprio_thread_args", [("function", c_int); ("lwpid", c_int); ("rtp", c_ptr)]);
  ("sctp_peeloff_args", [("sd", c_int); ("name", c_u32)]);
  ("sctp_generic_sendmsg_args", [("sd", c_int); ("msg", c_ptr); ("mlen", c_int); ("to", c_ptr); ("tolen", c_u32); ("sinfo", c_ptr); ("flags", c_int)]);
  ("sctp_generic_sendmsg_iov_args", [("sd", c_int); ("iov", c_ptr); ("iovlen", c_int); ("to", c_ptr); ("tolen", c_u32); ("sinfo", c_ptr); ("flags", c_int)]);
  ("sctp_generic_recvmsg_args", [("sd", c_int); ("iov", c_ptr); ("iovlen", c_int); ("from", c_ptr); ("fromlenaddr", c_ptr); ("sinfo", c_ptr); ("msg_flags", c_ptr)]);
  ("pread_args", [("fd", c_int); ("buf", c_ptr); ("nbyte", c_size_t); ("offset", c_long)]);
  ("pwrite_args", [("fd", c_int); ("buf", c_ptr); ("nbyte", c_size_t); ("offset", c_long)]);
  ("mmap_args", [("addr", c_ptr); ("len", c_size_t); ("prot", c_int); ("flags", c_int); ("fd", c_int); ("pos", c_long)]);
  ("lseek_args", [("fd", c_int); ("offset", c_long); ("whence", c_int)]);
  ("truncate_args", [("path", c_ptr); ("length", c_long)]);
  ("ftruncate_args", [("fd", c_int); ("length", c_long)]);
  ("thr_kill2_args", [("pid", c_int); ("id", c_long); ("sig", c_int)]);
  ("shm_open_args", [("path", c_ptr); ("flags", c_int); ("mode", c_u16)]);
  ("shm_unlink_args", [("path", c_ptr)]); ("cpuset_args", [("setid", c_ptr)]);
  ("cpuset_setid_args", [("which", c_int); ("id", c_long); ("setid", c_int)]);
  ("cpuset_getid_args", [("level", c_int); ("which", c_int); ("id", c_long); ("setid", c_ptr)])].

Definition blocks_10 : list (string * list (string * cty)) := [
  ("cpuset_getaffinity_args", [("level", c_int); ("which", c_int); ("id", c_long); ("cpusetsize", c_size_t); ("mask", c_ptr)]);
  ("cpuset_setaffinity_args", [("level", c_int); ("which", c_int); ("id", c_long); ("cpusetsize", c_size_t); ("mask", c_ptr)]);
  ("faccessat_args", [("fd", c_int); ("path", c_ptr); ("mode", c_int); ("flag", c_int)]);
  ("fchmodat_args", [("fd", c_int); ("path", c_ptr); ("mode", c_u16); ("flag", c_int)]);
  ("fchownat_args", [("fd", c_int); ("path", c_ptr); ("uid", c_u32); ("gid", c_u32); ("flag", c_int)]);
  ("fexecve_args", [("fd", c_int); ("argv", c_ptr); ("envv", c_ptr)]);
  ("fstatat_args", [("fd", c_int); ("path", c_ptr); ("buf", c_ptr); ("flag", c_int)]);
  ("futimesat_args", [("fd", c_int); ("path", c_ptr); ("times", c_ptr)]);
  ("linkat_args", [("fd1", c_int); ("path1", c_ptr); ("fd2", c_int); ("path2", c_ptr); ("flag", c_int)]);
  ("mkdirat_args", [("fd", c_int); ("path", c_ptr); ("mode", c_u16)]);
  ("mkfifoat_args", [("fd", c_int); ("path", c_ptr); ("mode", c_u16)]);
  ("mknodat_args", [("fd", c_int); ("path", c_ptr); ("mode", c_u16); ("dev", c_u32)]);
  ("openat_args", [("fd", c_int); ("path", c_ptr); ("flag", c_int); ("mode", c_u16)]);
  ("readlinkat_args", [("fd", c_int); ("path", c_ptr); ("buf", c_ptr); ("bufsize", c_size_t)]);
  ("renameat_args", [("oldfd", c_int); ("old", c_ptr); ("newfd", c_int); ("new", c_ptr)]);
  ("symlinkat_args", [("path1", c_ptr); ("fd", c_int); ("path2", c_ptr)]);
  ("unlinkat_args", [("fd", c_int); ("path", c_ptr); ("flag", c_int)]);
  ("posix_openpt_args", [("flags", c_int)]); ("gssd_syscall_args", [("path", c_ptr)]);
  ("jail_get_args", [("iovp", c_ptr); ("iovcnt", c_u32); ("flags", c_int)]);
  ("jail_set_args", [("iovp", c_ptr); ("iovcnt", c_u32); ("flags", c_int)]);
  ("jail_remove_args", [("jid", c_int)]); ("closefrom_args", [("lowfd", c_int)]);
  ("__semctl_args", [("semid", c_int); ("semnum", c_int); ("cmd", c_int); ("arg", c_ptr)]);
  ("msgctl_args", [("msqid", c_int); ("cmd", c_int); ("buf", c_ptr)]);
  ("shmctl_args", [("shmid", c_int); ("cmd", c_int); ("buf", c_ptr)]);
  ("lpathconf_args", [("path", c_ptr); ("name", c_int)]);
  ("cap_new_args", [("fd", c_int); ("rights", c_u64)]);
  ("cap_getrights_args", [("fd", c_int); ("rightsp", c_ptr)])].

Definition blocks_11 : list (string * list (string * cty)) := [
  ("cap_enter_args", []); ("cap_getmode_args", [("modep", c_ptr)]);
  ("pdfork_args", [("fdp", c_ptr); ("flags", c_int)]);
  ("pdkill_args", [("fd", c_int); ("signum", c_int)]);
  ("pdgetpid_args", [("fd", c_int); ("pidp", c_ptr)]);
  ("pselect_args", [("nd", c_int); ("in", c_ptr); ("ou", c_ptr); ("ex", c_ptr); ("ts", c_ptr); ("sm", c_ptr)]);
  ("getloginclass_args", [("namebuf", c_ptr); ("namelen", c_size_t)]);
  ("setloginclass_args", [("namebuf", c_ptr)]);
  ("rctl_get_racct_args", [("inbufp", c_ptr); ("inbuflen", c_size_t); ("outbufp", c_ptr); ("outbuflen", c_size_t)]);
  ("rctl_get_rules_args", [("inbufp", c_ptr); ("inbuflen", c_size_t); ("outbufp", c_ptr); ("outbuflen", c_size_t)]);
  ("rctl_get_limits_args", [("inbufp", c_ptr); ("inbuflen", c_size_t); ("outbufp", c_ptr); ("outbuflen", c_size_t)]);
  ("rctl_add_rule_args", [("inbufp", c_ptr); ("inbuflen", c_size_t); ("outbufp", c_ptr); ("outbuflen", c_size_t)]);
  ("rctl_remove_rule_args", [("inbufp", c_ptr); ("inbuflen", c_size_t); ("outbufp", c_ptr); ("outbuflen", c_size_t)]);
  ("posix_fallocate_args", [("fd", c_int); ("offset", c_long); ("len", c_long)])].

Definition blocks : list (string * list (string * cty)) :=
  blocks_0 ++ blocks_1 ++ blocks_2 ++ blocks_3 ++ blocks_4 ++ blocks_5 ++ blocks_6 ++ blocks_7 ++ blocks_8 ++ blocks_9 ++ blocks_10 ++ blocks_11.

Definition handlers_0 : list (string * string) := [
  ("nosys", "nosys_args"); ("sys_sys_exit", "sys_exit_args"); ("sys_fork", "fork_args");
  ("sys_read", "read_args"); ("sys_write", "write_args"); ("sys_open", "open_args");
  ("sys_close", "close_args"); ("sys_wait4", "wait_args"); ("sys_link", "link_args");
  ("sys_unlink", "unlink_args"); ("sys_chdir", "chdir_args"); ("sys_fchdir", "fchdir_args");
  ("sys_mknod", "mknod_args"); ("sys_chmod", "chmod_args"); ("sys_chown", "chown_args");
  ("sys_obreak", "obreak_args"); ("sys_getpid", "getpid_args"); ("sys_mount", "mount_args");
  ("sys_unmount", "unmount_args"); ("sys_setuid", "setuid_args"); ("sys_getuid", "getuid_args");
  ("sys_geteuid", "geteuid_args"); ("sys_ptrace", "ptrace_args"); ("sys_recvmsg", "recvmsg_args");
  ("sys_sendmsg", "sendmsg_args"); ("sys_recvfrom", "recvfrom_args");
  ("sys_accept", "accept_args"); ("sys_getpeername", "getpeername_args");
  ("sys_getsockname", "getsockname_args"); ("sys_access", "access_args");
  ("sys_chflags", "chflags_args"); ("sys_fchflags", "fchflags_args"); ("sys_sync", "sync_args");
  ("sys_kill", "kill_args"); ("sys_getppid", "getppid_args"); ("sys_dup", "dup_args");
  ("sys_pipe", "pipe_args"); ("sys_getegid", "getegid_args"); ("sys_profil", "profil_args");
  ("sys_ktrace", "ktrace_args"); ("sys_getgid", "getgid_args"); ("sys_getlogin", "getlogin_args");
  ("sys_setlogin", "setlogin_args"); ("sys_acct", "acct_args");
  ("sys_sigaltstack", "sigaltstack_args"); ("sys_ioctl", "ioctl_args");
  ("sys_reboot", "reboot_args"); ("sys_revoke", "revoke_args"); ("sys_symlink", "symlink_args");
  ("sys_readlink", "readlink_args"); ("sys_execve", "execve_args"); ("sys_umask", "umask_args");
  ("sys_chroot", "chroot_args"); ("sys_msync", "msync_args"); ("sys_vfork", "vfork_args");
  ("sys_sbrk", "sbrk_args"); ("sys_sstk", "sstk_args"); ("sys_ovadvise", "ovadvise_args");
  ("sys_munmap", "munmap_args"); ("sys_mprotect", "mprotect_args");
  ("sys_madvise", "madvise_args"); ("sys_mincore", "mincore_args");
  ("sys_getgroups", "getgroups_args"); ("sys_setgroups", "setgroups_args");
  ("sys_getpgrp", "getpgrp_args"); ("sys_setpgid", "setpgid_args");
  ("sys_setitimer", "setitimer_args"); ("sys_swapon", "swapon_args");
  ("sys_getitimer", "getitimer_args"); ("sys_getdtablesize", "getdtablesize_args");
  ("sys_dup2", "dup2_args"); ("sys_fcntl", "fcntl_args"); ("sys_select", "select_args");
  ("sys_fsync", "fsync_args"); ("sys_setpriority", "setpriority_args");
  ("sys_socket", "socket_args"); ("sys_connect", "connect_args");
  ("sys_getpriority", "getpriority_args"); ("sys_bind", "bind_args");
  ("sys_setsockopt", "setsockopt_args"); ("sys_listen", "listen_args");
  ("sys_gettimeofday", "gettimeofday_args"); ("sys_getrusage", "getrusage_args");
  ("sys_getsockopt", "getsockopt_args"); ("sys_readv", "readv_args");
  ("sys_writev", "writev_args"); ("sys_settimeofday", "settimeofday_args");
  ("sys_fchown", "fchown_args"); ("sys_fchmod", "fchmod_args"); ("sys_setreuid", "setreuid_args");
  ("sys_setregid", "setregid_args"); ("sys_rename", "rename_args"); ("sys_flock", "flock_args");
  ("sys_mkfifo", "mkfifo_args"); ("sys_sendto", "sendto_args"); ("sys_shutdown", "shutdown_args");
  ("sys_socketpair", "socketpair_args"); ("sys_mkdir", "mkdir_args"); ("sys_rmdir", "rmdir_args");
  ("sys_utimes", "utimes_args"); ("sys_adjtime", "adjtime_args"); ("sys_setsid", "setsid_args");
  ("sys_quotactl", "quotactl_args"); ("sys_nlm_syscall", "nlm_syscall_args");
  ("sys_nfssvc", "nfssvc_args"); ("sys_lgetfh", "lgetfh_args"); ("sys_getfh", "getfh_args");
  ("sysarch", "sysarch_args"); ("sys_rtprio", "rtprio_args"); ("sys_semsys", "semsys_args");
  ("sys_msgsys", "msgsys_args"); ("sys_shmsys", "shmsys_args");
  ("freebsd6_pread", "freebsd6_pread_args"); ("freebsd6_pwrite", "freebsd6_pwrite_args");
  ("sys_setfib", "setfib_args"); ("sys_ntp_adjtime", "ntp_adjtime_args");
  ("sys_setgid", "setgid_args"); ("sys_setegid", "setegid_args"); ("sys_seteuid", "seteuid_args");
  ("sys_stat", "stat_args"); ("sys_fstat", "fstat_args"); ("sys_lstat", "lstat_args");
  ("sys_pathconf", "pathconf_args"); ("sys_fpathconf", "fpathconf_args");
  ("sys_getrlimit", "__getrlimit_args"); ("sys_setrlimit", "__setrlimit_args");
  ("sys_getdirentries", "getdirentries_args"); ("freebsd6_mmap", "freebsd6_mmap_args");
  ("freebsd6_lseek", "freebsd6_lseek_args"); ("freebsd6_truncate", "freebsd6_truncate_args");
  ("freebsd6_ftruncate", "freebsd6_ftruncate_args"); ("sys___sysctl", "sysctl_args");
  ("sys_mlock", "mlock_args"); ("sys_munlock", "munlock_args"); ("sys_undelete", "undelete_args");
  ("sys_futimes", "futimes_args"); ("sys_getpgid", "getpgid_args"); ("sys_poll", "poll_args");
  ("sys_semget", "semget_args"); ("sys_semop", "semop_args")].

Definition handlers_1 : list (string * string) := [
  ("sys_msgget", "msgget_args"); ("sys_msgsnd", "msgsnd_args"); ("sys_msgrcv", "msgrcv_args");
  ("sys_shmat", "shmat_args"); ("sys_shmdt", "shmdt_args"); ("sys_shmget", "shmget_args");
  ("sys_clock_gettime", "clock_gettime_args"); ("sys_clock_settime", "clock_settime_args");
  ("sys_clock_getres", "clock_getres_args"); ("sys_ktimer_create", "ktimer_create_args");
  ("sys_ktimer_delete", "ktimer_delete_args"); ("sys_ktimer_settime", "ktimer_settime_args");
  ("sys_ktimer_gettime", "ktimer_gettime_args");
  ("sys_ktimer_getoverrun", "ktimer_getoverrun_args"); ("sys_nanosleep", "nanosleep_args");
  ("sys_ntp_gettime", "ntp_gettime_args"); ("sys_minherit", "minherit_args");
  ("sys_rfork", "rfork_args"); ("sys_openbsd_poll", "openbsd_poll_args");
  ("sys_issetugid", "issetugid_args"); ("sys_lchown", "lchown_args");
  ("sys_aio_read", "aio_read_args"); ("sys_aio_write", "aio_write_args");
  ("sys_lio_listio", "lio_listio_args"); ("sys_getdents", "getdents_args");
  ("sys_lchmod", "lchmod_args"); ("sys_lutimes", "lutimes_args"); ("sys_nstat", "nstat_args");
  ("sys_nfstat", "nfstat_args"); ("sys_nlstat", "nlstat_args"); ("sys_preadv", "preadv_args");
  ("sys_pwritev", "pwritev_args"); ("sys_fhopen", "fhopen_args"); ("sys_fhstat", "fhstat_args");
  ("sys_modnext", "modnext_args"); ("sys_modstat", "modstat_args");
  ("sys_modfnext", "modfnext_args"); ("sys_modfind", "modfind_args");
  ("sys_kldload", "kldload_args"); ("sys_kldunload", "kldunload_args");
  ("sys_kldfind", "kldfind_args"); ("sys_kldnext", "kldnext_args");
  ("sys_kldstat", "kldstat_args"); ("sys_kldfirstmod", "kldfirstmod_args");
  ("sys_getsid", "getsid_args"); ("sys_setresuid", "setresuid_args");
  ("sys_setresgid", "setresgid_args"); ("sys_aio_return", "aio_return_args");
  ("sys_aio_suspend", "aio_suspend_args"); ("sys_aio_cancel", "aio_cancel_args");
  ("sys_aio_error", "aio_error_args"); ("sys_oaio_read", "oaio_read_args");
  ("sys_oaio_write", "oaio_write_args"); ("sys_olio_listio", "olio_listio_args");
  ("sys_yield", "yield_args"); ("sys_mlockall", "mlockall_args");
  ("sys_munlockall", "munlockall_args"); ("sys___getcwd", "__getcwd_args");
  ("sys_sched_setparam", "sched_setparam_args"); ("sys_sched_getparam", "sched_getparam_args");
  ("sys_sched_setscheduler", "sched_setscheduler_args");
  ("sys_sched_getscheduler", "sched_getscheduler_args"); ("sys_sched_yield", "sched_yield_args");
  ("sys_sched_get_priority_max", "sched_get_priority_max_args");
  ("sys_sched_get_priority_min", "sched_get_priority_min_args");
  ("sys_sched_rr_get_interval", "sched_rr_get_interval_args"); ("sys_utrace", "utrace_args");
  ("sys_kldsym", "kldsym_args"); ("sys_jail", "jail_args");
  ("sys_nnpfs_syscall", "nnpfs_syscall_args"); ("sys_sigprocmask", "sigprocmask_args");
  ("sys_sigsuspend", "sigsuspend_args"); ("sys_sigpending", "sigpending_args");
  ("sys_sigtimedwait", "sigtimedwait_args"); ("sys_sigwaitinfo", "sigwaitinfo_args");
  ("sys___acl_get_file", "__acl_get_file_args"); ("sys___acl_set_file", "__acl_set_file_args");
  ("sys___acl_get_fd", "__acl_get_fd_args"); ("sys___acl_set_fd", "__acl_set_fd_args");
  ("sys___acl_delete_file", "__acl_delete_file_args");
  ("sys___acl_delete_fd", "__acl_delete_fd_args");
  ("sys___acl_aclcheck_file", "__acl_aclcheck_file_args");
  ("sys___acl_aclcheck_fd", "__acl_aclcheck_fd_args"); ("sys_extattrctl", "extattrctl_args");
  ("sys_extattr_set_file", "extattr_set_file_args");
  ("sys_extattr_get_file", "extattr_get_file_args");
  ("sys_extattr_delete_file", "extattr_delete_file_args");
  ("sys_aio_waitcomplete", "aio_waitcomplete_args"); ("sys_getresuid", "getresuid_args");
  ("sys_getresgid", "getresgid_args"); ("sys_kqueue", "kqueue_args");
  ("sys_kevent", "kevent_args"); ("sys_extattr_set_fd", "extattr_set_fd_args");
  ("sys_extattr_get_fd", "extattr_get_fd_args");
  ("sys_extattr_delete_fd", "extattr_delete_fd_args"); ("sys___setugid", "__setugid_args");
  ("sys_eaccess", "eaccess_args"); ("sys_afs3_syscall", "afs3_syscall_args");
  ("sys_nmount", "nmount_args"); ("sys___mac_get_proc", "__mac_get_proc_args");
  ("sys___mac_set_proc", "__mac_set_proc_args"); ("sys___mac_get_fd", "__mac_get_fd_args");
  ("sys___mac_get_file", "__mac_get_file_args"); ("sys___mac_set_fd", "__mac_set_fd_args");
  ("sys___mac_set_file", "__mac_set_file_args"); ("sys_kenv", "kenv_args");
  ("sys_lchflags", "lchflags_args"); ("sys_uuidgen", "uuidgen_args");
  ("sys_sendfile", "sendfile_args"); ("sys_mac_syscall", "mac_syscall_args");
  ("sys_getfsstat", "getfsstat_args"); ("sys_statfs", "statfs_args");
  ("sys_fstatfs", "fstatfs_args"); ("sys_fhstatfs", "fhstatfs_args");
  ("sys_ksem_close", "ksem_close_args"); ("sys_ksem_post", "ksem_post_args");
  ("sys_ksem_wait", "ksem_wait_args"); ("sys_ksem_trywait", "ksem_trywait_args");
  ("sys_ksem_init", "ksem_init_args"); ("sys_ksem_open", "ksem_open_args");
  ("sys_ksem_unlink", "ksem_unlink_args"); ("sys_ksem_getvalue", "ksem_getvalue_args");
  ("sys_ksem_destroy", "ksem_destroy_args"); ("sys___mac_get_pid", "__mac_get_pid_args");
  ("sys___mac_get_link", "__mac_get_link_args"); ("sys___mac_set_link", "__mac_set_link_args");
  ("sys_extattr_set_link", "extattr_set_link_args");
  ("sys_extattr_get_link", "extattr_get_link_args");
  ("sys_extattr_delete_link", "extattr_delete_link_args");
  ("sys___mac_execve", "__mac_execve_args"); ("sys_sigaction", "sigaction_args");
  ("sys_sigreturn", "sigreturn_args"); ("sys_getcontext", "getcontext_args");
  ("sys_setcontext", "setcontext_args"); ("sys_swapcontext", "swapcontext_args");
  ("sys_swapoff", "swapoff_args"); ("sys___acl_get_link", "__acl_get_link_args");
  ("sys___acl_set_link", "__acl_set_link_args");
  ("sys___acl_delete_link", "__acl_delete_link_args");
  ("sys___acl_aclcheck_link", "__acl_aclcheck_link_args")].

Definition handlers_2 : list (string * string) := [
  ("sys_sigwait", "sigwait_args"); ("sys_thr_create", "thr_create_args");
  ("sys_thr_exit", "thr_exit_args"); ("sys_thr_self", "thr_self_args");
  ("sys_thr_kill", "thr_kill_args"); ("sys__umtx_lock", "_umtx_lock_args");
  ("sys__umtx_unlock", "_umtx_unlock_args"); ("sys_jail_attach", "jail_attach_args");
  ("sys_extattr_list_fd", "extattr_list_fd_args");
  ("sys_extattr_list_file", "extattr_list_file_args");
  ("sys_extattr_list_link", "extattr_list_link_args");
  ("sys_ksem_timedwait", "ksem_timedwait_args"); ("sys_thr_suspend", "thr_suspend_args");
  ("sys_thr_wake", "thr_wake_args"); ("sys_kldunloadf", "kldunloadf_args");
  ("sys_audit", "audit_args"); ("sys_auditon", "auditon_args"); ("sys_getauid", "getauid_args");
  ("sys_setauid", "setauid_args"); ("sys_getaudit", "getaudit_args");
  ("sys_setaudit", "setaudit_args"); ("sys_getaudit_addr", "getaudit_addr_args");
  ("sys_setaudit_addr", "setaudit_addr_args"); ("sys_auditctl", "auditctl_args");
  ("sys__umtx_op", "_umtx_op_args"); ("sys_thr_new", "thr_new_args");
  ("sys_sigqueue", "sigqueue_args"); ("sys_kmq_open", "kmq_open_args");
  ("sys_kmq_setattr", "kmq_setattr_args"); ("sys_kmq_timedreceive", "kmq_timedreceive_args");
  ("sys_kmq_timedsend", "kmq_timedsend_args"); ("sys_kmq_notify", "kmq_notify_args");
  ("sys_kmq_unlink", "kmq_unlink_args"); ("sys_abort2", "abort2_args");
  ("sys_thr_set_name", "thr_set_name_args"); ("sys_aio_fsync", "aio_fsync_args");
  ("sys_rtprio_thread", "rtprio_thread_args"); ("sys_sctp_peeloff", "sctp_peeloff_args");
  ("sys_sctp_generic_sendmsg", "sctp_generic_sendmsg_args");
  ("sys_sctp_generic_sendmsg_iov", "sctp_generic_sendmsg_iov_args");
  ("sys_sctp_generic_recvmsg", "sctp_generic_recvmsg_args"); ("sys_pread", "pread_args");
  ("sys_pwrite", "pwrite_args"); ("sys_mmap", "mmap_args"); ("sys_lseek", "lseek_args");
  ("sys_truncate", "truncate_args"); ("sys_ftruncate", "ftruncate_args");
  ("sys_thr_kill2", "thr_kill2_args"); ("sys_shm_open", "shm_open_args");
  ("sys_shm_unlink", "shm_unlink_args"); ("sys_cpuset", "cpuset_args");
  ("sys_cpuset_setid", "cpuset_setid_args"); ("sys_cpuset_getid", "cpuset_getid_args");
  ("sys_cpuset_getaffinity", "cpuset_getaffinity_args");
  ("sys_cpuset_setaffinity", "cpuset_setaffinity_args"); ("sys_faccessat", "faccessat_args");
  ("sys_fchmodat", "fchmodat_args"); ("sys_fchownat", "fchownat_args");
  ("sys_fexecve", "fexecve_args"); ("sys_fstatat", "fstatat_args");
  ("sys_futimesat", "futimesat_args"); ("sys_linkat", "linkat_args");
  ("sys_mkdirat", "mkdirat_args"); ("sys_mkfifoat", "mkfifoat_args");
  ("sys_mknodat", "mknodat_args"); ("sys_openat", "openat_args");
  ("sys_readlinkat", "readlinkat_args"); ("sys_renameat", "renameat_args");
  ("sys_symlinkat", "symlinkat_args"); ("sys_unlinkat", "unlinkat_args");
  ("sys_posix_openpt", "posix_openpt_args"); ("sys_gssd_syscall", "gssd_syscall_args");
  ("sys_jail_get", "jail_get_args"); ("sys_jail_set", "jail_set_args");
  ("sys_jail_remove", "jail_remove_args"); ("sys_closefrom", "closefrom_args");
  ("sys___semctl", "__semctl_args"); ("sys_msgctl", "msgctl_args"); ("sys_shmctl", "shmctl_args");
  ("sys_lpathconf", "lpathconf_args"); ("sys_cap_new", "cap_new_args");
  ("sys_cap_getrights", "cap_getrights_args"); ("sys_cap_enter", "cap_enter_args");
  ("sys_cap_getmode", "cap_getmode_args"); ("sys_pdfork", "pdfork_args");
  ("sys_pdkill", "pdkill_args"); ("sys_pdgetpid", "pdgetpid_args");
  ("sys_pselect", "pselect_args"); ("sys_getloginclass", "getloginclass_args");
  ("sys_setloginclass", "setloginclass_args"); ("sys_rctl_get_racct", "rctl_get_racct_args");
  ("sys_rctl_get_rules", "rctl_get_rules_args"); ("sys_rctl_get_limits", "rctl_get_limits_args");
  ("sys_rctl_add_rule", "rctl_add_rule_args"); ("sys_rctl_remove_rule", "rctl_remove_rule_args");
  ("sys_posix_fallocate", "posix_fallocate_args")].

Definition handlers : list (string * string) := handlers_0 ++ handlers_1 ++ handlers_2.

(** ** Passing arguments *)

(** The block of the call: the words of its argument registers. *)
Definition registers (vs : list Z) : list Z := List.concat (List.map (le_bytes 8) vs).

(** What a handler reads in a member of its block. *)
Definition read_member (l : list (string * cty)) (x : string) (image : list Z) : option Z :=
  '(x, o, t) ← List.find (λ '(y, _, _), String.eqb y x) (members (block l));
  Some (le_word (take (Z.to_nat (size_of t)) (drop (Z.to_nat o) image))).

Definition block_named (name : string) : option (list (string * cty)) :=
  snd <$> List.find (λ e, String.eqb (fst e) name) blocks.

(** The structure of a call of sys/syscall.h. The old names of a few calls and
    the calls without a handler of their own are special. *)
Definition block_name (call : string) : string :=
  match List.find (λ e, String.eqb (fst e) call) [
    ("syscall", "nosys"); ("__syscall", "nosys"); ("exit", "sys_exit"); ("wait4", "wait");
    ("break", "obreak"); ("vadvise", "ovadvise"); ("getrlimit", "__getrlimit");
    ("setrlimit", "__setrlimit"); ("__sysctl", "sysctl"); ("netbsd_lchown", "lchown");
    ("netbsd_msync", "msync")] with
  | Some (_, s) => String.append s "_args"
  | None => String.append call "_args"
  end.

(** Calls of older kernels; their structures are declared for kernels built with
    that compatibility only. *)
Definition compat (call : string) : bool :=
  String.prefix "freebsd4_" call || String.prefix "freebsd7_" call.

(** The parameters of the wrappers in utils.c. *)
Definition utils_prototypes : list (string * list cty) := [
  ("chdir", [c_ptr]); ("unmount", [c_ptr; c_int]); ("mkdir", [c_ptr; c_int]); ("rmdir", [c_ptr]);
  ("getcwd", [c_ptr; c_size_t]); ("nmount", [c_ptr; c_u32; c_int])].

(** ** Lemmas *)

Definition width_ok (t : cty) : bool := (1 <=? size_of t) && (size_of t <=? 8).

(** Slot [i] of the block belongs to argument [i]. *)
Fixpoint slots_ok (l all : list (string * cty)) (i : Z) : bool :=
  match l with
  | [] => true
  | (x, t) :: l =>
      width_ok t
      && match List.find (λ '(y, _, _), String.eqb y x) (members (block all)) with
         | Some (_, o, u) => (o =? 8 * i) && (size_of u =? size_of t)
         | None => false
         end
      && slots_ok l all (i + 1)
  end.

Definition row_ok (l : list (string * cty)) : bool :=
  slots_ok l l 0 && (size_of (block l) =? 8 * Z.max 1 (Z.of_nat (List.length l))).

Lemma rows_ok : forallb (λ e, row_ok (snd e)) blocks = true.
Proof. by vm_compute. Qed.

Lemma slots_ok_lookup l all i j x t :
  slots_ok l all i = true → l !! j = Some (x, t) →
  1 ≤ size_of t ≤ 8 ∧
  ∃ y u, List.find (λ '(y, _, _), String.eqb y x) (members (block all)) =
           Some (y, 8 * (i + Z.of_nat j), u) ∧ size_of u = size_of t.
Proof.
  revert i j. induction l as [|[x' t'] l IH]; intros i [|j] Hok Hl; simplify_eq/=;
    apply andb_true_iff in Hok as [Hok Hrest]; apply andb_true_iff in Hok as [Hw Hf].
  - unfold width_ok in Hw. split; [lia|].
    destruct (List.find _ _) as [[[y o] u]|]; [|done].
    apply andb_true_iff in Hf as [Ho Hs]. apply Z.eqb_eq in Ho, Hs. exists y, u.
    rewrite Z.add_0_r. by subst.
  - destruct (IH (i + 1) j Hrest Hl) as [? (y & u & Hfind & Hs)]. split; [done|].
    exists y, u. split; [|done]. rewrite Hfind.
    by replace (i + Z.of_nat (S j)) with (i + 1 + Z.of_nat j) by lia.
Qed.

Lemma registers_cons v vs : registers (v :: vs) = (le_bytes 8 v ++ registers vs)%list.
Proof. done. Qed.

Lemma drop_registers i vs v :
  vs !! i = Some v → ∃ rest, drop (i * 8) (registers vs) = (le_bytes 8 v ++ rest)%list.
Proof.
  revert i. induction vs as [|w vs IH]; intros [|i] Hv; try done; rewrite registers_cons.
  - injection Hv as ->. by exists (registers vs).
  - destruct (IH i Hv) as [rest Hrest]. exists rest. rewrite <-Hrest.
    pose proof (length_le_bytes 8 w ltac:(lia)) as Hlen. rewrite drop_app_ge by lia.
    f_equal. lia.
Qed.

Lemma le_word_take n v : 0 ≤ n ≤ 8 → le_word (take (Z.to_nat n) (le_bytes 8 v)) = v `mod` 2 ^ (n * 8).
Proof.
  intros Hn. rewrite (take_le_bytes (Z.to_nat n) 8) by lia. rewrite Z2Nat.id by lia.
  apply le_word_bytes. lia.
Qed.

Lemma read_argument l vs i x t v :
  row_ok l = true → l !! i = Some (x, t) → vs !! i = Some v →
  read_member l x (registers vs) = Some (v `mod` 2 ^ (size_of t * 8)).
Proof.
  intros Hrow Hl Hv. apply andb_true_iff in Hrow as [Hslots _].
  destruct (slots_ok_lookup _ _ _ _ _ _ Hslots Hl) as [Hw (y & u & Hfind & Hs)].
  unfold read_member. rewrite Hfind. simpl. f_equal. rewrite Hs.
  replace (Z.to_nat (8 * (0 + Z.of_nat i))) with (i * 8)%nat by lia.
  destruct (drop_registers i vs v Hv) as [rest Hrest].
  rewrite Hrest. rewrite take_app_le; [by apply le_word_take; lia|].
  pose proof (length_le_bytes 8 v). lia.
Qed.

Lemma in_blocks name l : (name, l) ∈ blocks → row_ok l = true.
Proof. intros Hin. exact (table_forall _ _ _ rows_ok Hin). Qed.

(** ** The contract *)

(** C18: the native part of sys/sysproto.h, the blocks of lines 35 to 1735 and the
    handlers of lines 1736 to 2111; the sections for old binaries behind them
    (COMPAT_43, COMPAT_FREEBSD4, COMPAT_FREEBSD7), whose handlers share blocks with
    native ones, are not part of it. Every native block is one eight-byte slot per
    argument (one slot when there is none), and reading a member gives the word of
    its register, reduced to the member's width, whatever the other registers hold.
    Every call of sys/syscall.h other than the ones for old kernels has a native
    block; every native handler is declared with one of these blocks, and no two
    native handlers share one. The wrappers of utils.c pass as many arguments as the
    kernel expects, none narrower than the kernel's (the length of [getcwd] is
    wider). *)
Theorem syscall_blocks :
  (∀ name l, (name, l) ∈ blocks → size_of (block l) = 8 * Z.max 1 (Z.of_nat (List.length l))) ∧
  (∀ name l vs i x t v, (name, l) ∈ blocks → l !! i = Some (x, t) → vs !! i = Some v →
     read_member l x (registers vs) = Some (v `mod` 2 ^ (size_of t * 8))) ∧
  (∀ call nr, (call, nr) ∈ syscalls → compat call = false → is_Some (block_named (block_name call))) ∧
  (∀ h b, (h, b) ∈ handlers → is_Some (block_named b)) ∧
  (∀ h h' b, (h, b) ∈ handlers → (h', b) ∈ handlers → h = h') ∧
  (∀ name ps, (name, ps) ∈ utils_prototypes →
     ∃ l, block_named (block_name (kernel_name name)) = Some l ∧
          Forall2 (λ p a, size_of (snd a) ≤ size_of p) ps l).
Proof.
  split_and!.
  - intros name l Hin%in_blocks. apply andb_true_iff in Hin as [_ Hs]. by apply Z.eqb_eq.
  - intros name l vs i x t v Hin%in_blocks. by apply read_argument.
  - intros call nr Hin Hc.
    eapply (table_forall (λ e, compat (fst e) || bool_decide (is_Some (block_named (block_name (fst e))))))
      in Hin; [|by vm_compute].
    cbn [fst] in Hin. rewrite Hc in Hin. by apply bool_decide_eq_true in Hin.
  - intros h b Hin.
    eapply (table_forall (λ e, bool_decide (is_Some (block_named (snd e))))) in Hin; [|by vm_compute].
    by apply bool_decide_eq_true in Hin.
  - intros h h' b H1 H2. assert (NoDup (snd <$> handlers)) as Hnd
      by (apply (bool_decide_eq_true_1 _); by vm_compute).
    apply list_elem_of_lookup in H1 as [i Hi], H2 as [j Hj].
    enough (i = j) by congruence.
    eapply NoDup_lookup; [exact Hnd|rewrite list_lookup_fmap, Hi; reflexivity|by rewrite list_lookup_fmap, Hj].
  - intros name ps Hin. unfold utils_prototypes in Hin.
    repeat (apply elem_of_cons in Hin as [[= -> ->]|Hin];
      [eexists; split; [by vm_compute|repeat constructor; by vm_compute]|]).
    by apply elem_of_nil in Hin.
Qed.
