(* ===== verification/KernelStructs.v ===== *)
(** * The kernel structures the payload reaches into

    The declarations of sys/proc.h, sys/ucred.h, sys/filedesc.h and of the
    headers they include, as layouts; src/Payload/ps4-libjbc/jailbreak.c reads and
    writes members of these structures by their byte offsets. *)

From S2P Require Import Prelude KMem CStruct KernelRW Jailbreak.
From Stdlib Require Import String.
Import Krw Jbc.
#[local] Open Scope string_scope.
#[local] Open Scope Z_scope.

(** ** Queue heads and links (sys/queue.h, without [QUEUE_MACRO_DEBUG]) *)

Definition SLIST_HEAD : cty := CRecord [("slh_first", c_ptr)].
Definition SLIST_ENTRY : cty := CRecord [("sle_next", c_ptr)].
Definition STAILQ_HEAD : cty := CRecord [("stqh_first", c_ptr); ("stqh_last", c_ptr)].
Definition STAILQ_ENTRY : cty := CRecord [("stqe_next", c_ptr)].
Definition LIST_HEAD : cty := CRecord [("lh_first", c_ptr)].
Definition LIST_ENTRY : cty := CRecord [("le_next", c_ptr); ("le_prev", c_ptr)].
Definition TAILQ_HEAD : cty := CRecord [("tqh_first", c_ptr); ("tqh_last", c_ptr)].
Definition TAILQ_ENTRY : cty := CRecord [("tqe_next", c_ptr); ("tqe_prev", c_ptr)].

Definition klist : cty := SLIST_HEAD.
Definition kqlist : cty := SLIST_HEAD.
Definition lpohead : cty := LIST_HEAD.
Definition sigiolst : cty := SLIST_HEAD.

(** ** Constants of the declarations *)

Definition MAXCOMLEN : Z := 19.
Definition MAXLOGNAME : Z := 17.
Definition _SIG_WORDS : Z := 4.
Definition XU_NGROUPS : Z := 16.

(** A packed structure of bit fields: [bits] bits, no alignment. *)
Definition packed_bits (widths : list Z) : cty := CArray (foldr Z.add 0 widths `div` 8) c_u8.

Definition system_segment_descriptor : cty :=
  packed_bits [16; 24; 5; 2; 1; 4; 3; 1; 40; 8; 5; 19].

(** ** Locks, callouts and times *)

Definition lock_object : cty := CRecord [
  ("lo_name", c_ptr); ("lo_flags", c_int); ("lo_data", c_int); ("lo_witness", c_ptr)].

Definition mtx : cty := CRecord [
  ("lock_object", lock_object); ("mtx_lock", c_u64)].

Definition sx : cty := CRecord [
  ("lock_object", lock_object); ("sx_lock", c_u64)].

Definition callout : cty := CRecord [
  ("c_links", (CUnion [("sle", SLIST_ENTRY); ("tqe", TAILQ_ENTRY)])); ("c_time", c_int);
  ("c_arg", c_ptr); ("c_func", c_ptr); ("c_lock", c_ptr); ("c_flags", c_int); ("c_cpu", c_int)].

Definition cv : cty := CRecord [
  ("cv_description", c_ptr); ("cv_waiters", c_int)].

Definition timeval : cty := CRecord [
  ("tv_sec", c_long); ("tv_usec", c_long)].

Definition itimerval : cty := CRecord [
  ("it_interval", timeval); ("it_value", timeval)].

Definition rusage : cty := CRecord [
  ("ru_utime", timeval); ("ru_stime", timeval); ("ru_maxrss", c_long); ("ru_ixrss", c_long);
  ("ru_idrss", c_long); ("ru_isrss", c_long); ("ru_minflt", c_long); ("ru_majflt", c_long);
  ("ru_nswap", c_long); ("ru_inblock", c_long); ("ru_oublock", c_long); ("ru_msgsnd", c_long);
  ("ru_msgrcv", c_long); ("ru_nsignals", c_long); ("ru_nvcsw", c_long); ("ru_nivcsw", c_long)].

Definition osd : cty := CRecord [
  ("osd_nslots", c_int); ("osd_slots", c_ptr); ("osd_next", LIST_ENTRY)].

Definition knlist : cty := CRecord [
  ("kl_list", klist); ("kl_lock", c_ptr); ("kl_unlock", c_ptr); ("kl_assert_locked", c_ptr);
  ("kl_assert_unlocked", c_ptr); ("kl_lockarg", c_ptr)].

(** ** Signals *)

Definition sigval : cty := CUnion [
  ("sival_int", c_int); ("sival_ptr", c_ptr); ("sigval_int", c_int); ("sigval_ptr", c_ptr)].

Definition siginfo : cty := CRecord [
  ("si_signo", c_int); ("si_errno", c_int); ("si_code", c_int); ("si_pid", c_int);
  ("si_uid", c_u32); ("si_status", c_int); ("si_addr", c_ptr); ("si_value", sigval);
  ("_reason", (CUnion [("_fault", (CRecord [("_trapno", c_int)]));
  ("_timer", (CRecord [("_timerid", c_int); ("_overrun", c_int)]));
  ("_mesgq", (CRecord [("_mqd", c_int)])); ("_poll", (CRecord [("_band", c_long)]));
  ("__spare__", (CRecord [("__spare1__", c_long); ("__spare2__", (CArray 7 c_int))]))]))].

Definition sigset : cty := CRecord [
  ("__bits", (CArray _SIG_WORDS c_u32))].

Definition sigaltstack : cty := CRecord [
  ("ss_sp", c_ptr); ("ss_size", c_size_t); ("ss_flags", c_int)].

Definition ksiginfo : cty := CRecord [
  ("ksi_link", TAILQ_ENTRY); ("ksi_info", siginfo); ("ksi_flags", c_int); ("ksi_sigq", c_ptr)].

Definition sigqueue : cty := CRecord [
  ("sq_signals", sigset); ("sq_kill", sigset); ("sq_list", TAILQ_HEAD); ("sq_proc", c_ptr);
  ("sq_flags", c_int)].

(** ** Credentials and files *)

Definition au_tid_addr : cty := CRecord [
  ("at_port", c_u32); ("at_type", c_u32); ("at_addr", (CArray 4 c_u32))].

Definition au_mask : cty := CRecord [
  ("am_success", c_int); ("am_failure", c_int)].

Definition auditinfo_addr : cty := CRecord [
  ("ai_auid", c_u32); ("ai_mask", au_mask); ("ai_termid", au_tid_addr); ("ai_asid", c_int);
  ("ai_flags", c_u64)].

Definition ucred : cty := CRecord [
  ("cr_ref", c_int); ("cr_uid", c_u32); ("cr_ruid", c_u32); ("cr_svuid", c_u32);
  ("cr_ngroups", c_int); ("cr_rgid", c_u32); ("cr_svgid", c_u32); ("cr_uidinfo", c_ptr);
  ("cr_ruidinfo", c_ptr); ("cr_prison", c_ptr); ("cr_loginclass", c_ptr); ("cr_flags", c_int);
  ("cr_pspare2", (CArray 2 c_ptr)); ("cr_label", c_ptr); ("cr_audit", auditinfo_addr);
  ("cr_groups", c_ptr); ("cr_agroups", c_int)].

Definition xucred : cty := CRecord [
  ("cr_version", c_int); ("cr_uid", c_u32); ("cr_ngroups", c_short);
  ("cr_groups", (CArray XU_NGROUPS c_u32)); ("_cr_unused1", c_ptr)].

Definition filedesc : cty := CRecord [
  ("fd_ofiles", c_ptr); ("fd_ofileflags", c_ptr); ("fd_cdir", c_ptr); ("fd_rdir", c_ptr);
  ("fd_jdir", c_ptr); ("fd_nfiles", c_int); ("fd_map", c_ptr); ("fd_lastfile", c_int);
  ("fd_freefile", c_int); ("fd_cmask", c_short); ("fd_refcnt", c_short); ("fd_holdcnt", c_short);
  ("fd_sx", sx); ("fd_kqlist", kqlist); ("fd_holdleaderscount", c_int);
  ("fd_holdleaderswakeup", c_int)].

Definition filedesc_to_leader : cty := CRecord [
  ("fdl_refcount", c_int); ("fdl_holdcount", c_int); ("fdl_wakeup", c_int); ("fdl_leader", c_ptr);
  ("fdl_prev", c_ptr); ("fdl_next", c_ptr)].

(** ** Processes and threads *)

Definition mdthread : cty := CRecord [
  ("md_spinlock_count", c_int); ("md_saved_flags", c_long)].

Definition mdproc : cty := CRecord [
  ("md_ldt", c_ptr); ("md_ldt_sd", system_segment_descriptor)].

Definition session : cty := CRecord [
  ("s_count", c_int); ("s_leader", c_ptr); ("s_ttyvp", c_ptr); ("s_ttydp", c_ptr);
  ("s_ttyp", c_ptr); ("s_sid", c_int);
  ("s_login", (CArray (round_up MAXLOGNAME (size_of c_long)) c_char)); ("s_mtx", mtx)].

Definition pgrp : cty := CRecord [
  ("pg_hash", LIST_ENTRY); ("pg_members", LIST_HEAD); ("pg_session", c_ptr);
  ("pg_sigiolst", sigiolst); ("pg_id", c_int); ("pg_jobc", c_int); ("pg_mtx", mtx)].

Definition pargs : cty := CRecord [
  ("ar_ref", c_int); ("ar_length", c_int); ("ar_args", (CArray 1 c_char))].

Definition rusage_ext : cty := CRecord [
  ("rux_runtime", c_u64); ("rux_uticks", c_u64); ("rux_sticks", c_u64); ("rux_iticks", c_u64);
  ("rux_uu", c_u64); ("rux_su", c_u64); ("rux_tu", c_u64)].

Definition thread : cty := CRecord [
  ("td_lock", c_ptr); ("td_proc", c_ptr); ("td_plist", TAILQ_ENTRY); ("td_runq", TAILQ_ENTRY);
  ("td_slpq", TAILQ_ENTRY); ("td_lockq", TAILQ_ENTRY); ("td_hash", LIST_ENTRY);
  ("td_cpuset", c_ptr); ("td_sel", c_ptr); ("td_sleepqueue", c_ptr); ("td_turnstile", c_ptr);
  ("td_umtxq", c_ptr); ("td_tid", c_int); ("td_sigqueue", sigqueue); ("td_lend_user_pri", c_char);
  ("td_flags", c_int); ("td_inhibitors", c_int); ("td_pflags", c_int); ("td_dupfd", c_int);
  ("td_sqqueue", c_int); ("td_wchan", c_ptr); ("td_wmesg", c_ptr); ("td_lastcpu", c_char);
  ("td_oncpu", c_char); ("td_owepreempt", c_char); ("td_tsqueue", c_char); ("td_locks", c_short);
  ("td_rw_rlocks", c_short); ("td_lk_slocks", c_short); ("td_blocked", c_ptr);
  ("td_lockname", c_ptr); ("td_contested", LIST_HEAD); ("td_sleeplocks", c_ptr);
  ("td_intr_nesting_level", c_int); ("td_pinned", c_int); ("td_ucred", c_ptr);
  ("td_estcpu", c_int); ("td_slptick", c_int); ("td_blktick", c_int); ("td_swvoltick", c_int);
  ("td_ru", rusage); ("td_rux", rusage_ext); ("td_incruntime", c_u64); ("td_runtime", c_u64);
  ("td_pticks", c_int); ("td_sticks", c_int); ("td_iticks", c_int); ("td_uticks", c_int);
  ("td_intrval", c_int); ("td_oldsigmask", sigset); ("td_sigmask", sigset);
  ("td_generation", c_int); ("td_sigstk", sigaltstack); ("td_xsig", c_int);
  ("td_profil_addr", c_u64); ("td_profil_ticks", c_int);
  ("td_name", (CArray (MAXCOMLEN + 1) c_char)); ("td_fpop", c_ptr); ("td_dbgflags", c_int);
  ("td_dbgksi", ksiginfo); ("td_ng_outbound", c_int); ("td_osd", osd); ("td_map_def_user", c_ptr);
  ("td_dbg_forked", c_int); ("td_rqindex", c_char); ("td_base_pri", c_char);
  ("td_priority", c_char); ("td_pri_class", c_char); ("td_user_pri", c_char);
  ("td_base_user_pri", c_char); ("td_pcb", c_ptr); ("td_state", c_int);
  ("td_retval", (CArray 2 c_long)); ("td_slpcallout", callout); ("td_frame", c_ptr);
  ("td_kstack_obj", c_ptr); ("td_kstack", c_u64); ("td_kstack_pages", c_int);
  ("td_critnest", c_int); ("td_md", mdthread); ("td_sched", c_ptr); ("td_ar", c_ptr);
  ("td_lprof", (CArray 2 lpohead)); ("td_dtrace", c_ptr); ("td_errno", c_int); ("td_vnet", c_ptr);
  ("td_vnet_lpush", c_ptr); ("td_intr_frame", c_ptr)].

Definition proc : cty := CRecord [
  ("p_list", LIST_ENTRY); ("p_threads", TAILQ_HEAD); ("p_slock", mtx); ("p_ucred", c_ptr);
  ("p_fd", c_ptr); ("p_fdtol", c_ptr); ("p_stats", c_ptr); ("p_limit", c_ptr);
  ("p_limco", callout); ("p_sigacts", c_ptr); ("p_flag", c_int); ("p_state", c_int);
  ("p_pid", c_int); ("p_hash", LIST_ENTRY); ("p_pglist", LIST_ENTRY); ("p_pptr", c_ptr);
  ("p_sibling", LIST_ENTRY); ("p_children", LIST_HEAD); ("p_mtx", mtx); ("p_ksi", c_ptr);
  ("p_sigqueue", sigqueue); ("p_oppid", c_int); ("p_dbg_child", c_int); ("p_vmspace", c_ptr);
  ("p_swtick", c_int); ("p_realtimer", itimerval); ("p_ru", rusage); ("p_rux", rusage_ext);
  ("p_crux", rusage_ext); ("p_profthreads", c_int); ("p_exitthreads", c_int);
  ("p_traceflag", c_int); ("p_tracevp", c_ptr); ("p_tracecred", c_ptr); ("p_textvp", c_ptr);
  ("p_lock", c_int); ("p_sigiolst", sigiolst); ("p_sigparent", c_int); ("p_sig", c_int);
  ("p_code", c_u64); ("p_stops", c_int); ("p_stype", c_int); ("p_step", c_char);
  ("p_pfsflags", c_char); ("p_nlminfo", c_ptr); ("p_aioinfo", c_ptr); ("p_singlethread", c_ptr);
  ("p_suspcount", c_int); ("p_xthread", c_ptr); ("p_boundary_count", c_int);
  ("p_pendingcnt", c_int); ("p_itimers", c_ptr); ("p_procdesc", c_ptr); ("p_magic", c_int);
  ("p_osrel", c_int); ("p_comm", (CArray (MAXCOMLEN + 1) c_char)); ("p_pgrp", c_ptr);
  ("p_sysent", c_ptr); ("p_args", c_ptr); ("p_cpulimit", c_long); ("p_nice", c_char);
  ("p_fibnum", c_int); ("p_xstat", c_short); ("p_klist", knlist); ("p_numthreads", c_int);
  ("p_md", mdproc); ("p_itcallout", callout); ("p_acflag", c_short); ("p_peers", c_ptr);
  ("p_leader", c_ptr); ("p_emuldata", c_ptr); ("p_label", c_ptr); ("p_sched", c_ptr);
  ("p_ktr", STAILQ_HEAD); ("p_mqnotifier", LIST_HEAD); ("p_dtrace", c_ptr); ("p_pwait", cv);
  ("p_dbgwait", cv); ("p_prev_runtime", c_u64); ("p_racct", c_ptr)].


(** ** Members by name *)

(** The offset and the size of a member. *)
Definition offset (t : cty) (x : string) : Z := default (-1) (offset_of t x).
Definition member_size (t : cty) (x : string) : Z :=
  match List.find (λ '(y, _, _), String.eqb y x) (members t) with
  | Some (_, _, m) => size_of m
  | None => -1
  end.

(** A span of consecutive members, from the first byte of [first] to the last
    byte of [last]. *)
Definition span (t : cty) (first last : string) : Z :=
  offset t last + member_size t last - offset t first.

(** What the payload copies between a [struct jbc_cred] and the kernel: the first
    and last member of the copy in the payload's structure, the kernel structure,
    and its first and last member; the members in between, in pairs. *)
Definition id_rows : list (string * string) :=
  [("uid", "cr_uid"); ("ruid", "cr_ruid"); ("svuid", "cr_svuid")].
Definition gid_rows : list (string * string) := [("rgid", "cr_rgid"); ("svgid", "cr_svgid")].
Definition prison_rows : list (string * string) := [("prison", "cr_prison")].
Definition dir_rows : list (string * string) :=
  [("cdir", "fd_cdir"); ("rdir", "fd_rdir"); ("jdir", "fd_jdir")].

(** The members of a copy lie alike on both sides, so copying the span copies
    every member onto its counterpart. *)
Definition alike (t : cty) (rows : list (string * string)) : bool :=
  match rows with
  | [] => false
  | (x0, y0) :: _ =>
      forallb (λ '(x, y),
        (offset jbc_cred x - offset jbc_cred x0 =? offset t y - offset t y0)
        && (member_size jbc_cred x =? member_size t y) && (0 <=? offset t y)) rows
  end.

Section by_name.
Context `{!KernelText, !Locals} {OS : Type} `{!SockOS OS}.
#[local] Abbreviation K := (M (kst OS)).

(** The [follow], [copy] steps below say with member names what jailbreak.c says
    with numbers. *)
Definition follow (p : Z) (t : cty) (x : string) : K Z :=
  jbc_krw_read64 (u64 (p + offset t x)) KERNEL_HEAP.

Definition copy (move : Z → Z → Z → K Z) (ans : Z) (first last : string) (p : Z) (t : cty) (x : string) :
    K Z :=
  move (ans + offset jbc_cred first) (ans + offset jbc_cred last + member_size jbc_cred last)
    (u64 (p + offset t x)).

Definition cred_by_name (move : Z → Z → Z → K Z) (ans : Z) : K Z :=
  td ← jbc_krw_get_td;
  p ← follow td thread "td_proc";
  cr ← follow p proc "p_ucred";
  fd ← follow p proc "p_fd";
  failed ← any_fails [
    copy move ans "uid" "svuid" cr ucred "cr_uid";
    copy move ans "rgid" "svgid" cr ucred "cr_rgid";
    copy move ans "prison" "prison" cr ucred "cr_prison";
    copy move ans "cdir" "jdir" fd filedesc "fd_cdir";
    copy move ans "sceProcType" "sceProcCap" cr ucred "cr_label"];
  mret (if failed : bool then -1 else 0).

(** One step of the search for process 1. *)
Fixpoint find_by_name (fuel : nat) (at_ : option Z) : K Z :=
  match fuel with
  | 0%nat => out_of_fuel
  | S fuel =>
      p ← match at_ with
          | Some p => mret p
          | None => td ← jbc_krw_get_td; follow td thread "td_proc"
          end;
      r ← jbc_krw_memcpy addr_pid (u64 (p + offset proc "p_pid")) (member_size proc "p_pid") KERNEL_HEAP;
      if decide (r ≠ 0) then find_by_name fuel None
      else
        pid ← load_word 4 addr_pid;
        if decide (i32 pid = 1) then mret p
        else
          next ← jbc_krw_read64 p KERNEL_HEAP;
          back ← follow next LIST_ENTRY "le_prev";
          if decide (back ≠ p) then find_by_name fuel None
          else find_by_name fuel (Some next)
  end.

Definition resolve_by_name (fuel : nat) : K Z :=
  p ← find_by_name fuel None;
  cr ← follow p proc "p_ucred";
  fd ← follow p proc "p_fd";
  r ← jbc_krw_memcpy addr_prison0 (u64 (cr + offset ucred "cr_prison"))
        (member_size ucred "cr_prison") KERNEL_HEAP;
  if decide (r ≠ 0) then mret (-1)
  else
    r ← jbc_krw_memcpy addr_rootvnode (u64 (fd + offset filedesc "fd_rdir"))
          (member_size filedesc "fd_rdir") KERNEL_HEAP;
    if decide (r ≠ 0) then
      _ ← store_word 8 addr_prison0 0;
      mret (-1)
    else mret 0.
End by_name.

(** ** Sound layouts *)

(** Every declaration above. *)
Definition kernel_structs : list (string * cty) := [
  ("lock_object", lock_object); ("mtx", mtx); ("sx", sx); ("callout", callout); ("cv", cv);
  ("timeval", timeval); ("itimerval", itimerval); ("rusage", rusage); ("osd", osd);
  ("knlist", knlist); ("sigval", sigval); ("siginfo", siginfo); ("sigset", sigset);
  ("sigaltstack", sigaltstack); ("ksiginfo", ksiginfo); ("sigqueue", sigqueue);
  ("au_tid_addr", au_tid_addr); ("au_mask", au_mask); ("auditinfo_addr", auditinfo_addr);
  ("ucred", ucred); ("xucred", xucred); ("filedesc", filedesc);
  ("filedesc_to_leader", filedesc_to_leader); ("mdthread", mdthread); ("mdproc", mdproc);
  ("session", session); ("pgrp", pgrp); ("pargs", pargs); ("rusage_ext", rusage_ext);
  ("thread", thread); ("proc", proc)].

Section agreement.
Context `{!KernelText, !Locals} {OS : Type} `{!SockOS OS}.

Lemma find_by_name_eq (fuel : nat) at_ (s : kst OS) : find_by_name fuel at_ s = find_pid1 fuel at_ s.
Proof. reflexivity. Qed.

Lemma copy_eq move ans a1 a2 p t x b1 b2 n o :
  offset jbc_cred a1 = b1 → offset jbc_cred a2 = b2 → member_size jbc_cred a2 = n → offset t x = o →
  copy (OS := OS) move ans a1 a2 p t x = move (ans + b1) (n + (ans + b2)) (u64 (p + o)).
Proof. intros <- <- <- <-. unfold copy. f_equal. lia. Qed.

(** The two copies of a credential, and the calls [move] between them. *)
Lemma cred_by_name_eq move (ans : Z) (s : kst OS) :
  cred_by_name move ans s =
  (('(ucred, fd) ← cred_pointers;
    failed ← any_fails [
      move (ans + uid) (4 + (ans + svuid)) (u64 (ucred + 4));
      move (ans + rgid) (4 + (ans + svgid)) (u64 (ucred + 20));
      move (ans + prison) (8 + (ans + prison)) (u64 (ucred + 0x30));
      move (ans + cdir) (8 + (ans + jdir)) (u64 (fd + 0x10));
      move (ans + sceProcType) (8 + (ans + sceProcCap)) (u64 (ucred + 88))];
    mret (if failed : bool then -1 else 0)) : M (kst OS) Z) s.
Proof.
  unfold cred_by_name, cred_pointers, follow, mbind, M_bind.
  destruct (jbc_krw_get_td s) as [[td s1]| |]; [|done..].
  change (offset thread "td_proc") with 8.
  destruct (jbc_krw_read64 _ _ s1) as [[p s2]| |]; [|done..].
  change (offset proc "p_ucred") with 0x40.
  destruct (jbc_krw_read64 _ _ s2) as [[cr s3]| |]; [|done..].
  change (offset proc "p_fd") with 0x48.
  destruct (jbc_krw_read64 _ _ s3) as [[fd s4]| |]; [|done..].
  by rewrite !(copy_eq move ans _ _ _ _ _ _ _ _ _ eq_refl eq_refl eq_refl eq_refl).
Qed.

(** C7: the numbers in jailbreak.c are the headers' members. Finding process 1
    and reading or replacing the credential are, on every kernel state, the same
    computations as the ones that name [td_proc], [p_pid], [p_ucred], [p_fd],
    [cr_uid], [cr_prison], [fd_cdir], ... and every member covered by one of the
    payload's copies has the size of its counterpart and lies at the same
    distance from the start of the copy. The link of the process list comes
    first in a process. The words the payload takes for the console's own
    process type and capabilities start where the header has [cr_label]. *)
Theorem members_by_name :
  (∀ fuel (s : kst OS), resolve fuel s = resolve_by_name fuel s) ∧
  (∀ ans (s : kst OS), jbc_get_cred ans s = cred_by_name ppcopyout ans s) ∧
  (∀ ans (s : kst OS), jbc_set_cred ans s = cred_by_name ppcopyin ans s) ∧
  alike ucred id_rows = true ∧ alike ucred gid_rows = true ∧ alike ucred prison_rows = true ∧
  alike filedesc dir_rows = true ∧
  offset proc "p_list" = 0 ∧ offset LIST_ENTRY "le_next" = 0 ∧ offset ucred "cr_label" = 88.
Proof.
  split_and!; [done|intros; by rewrite cred_by_name_eq|intros; by rewrite cred_by_name_eq|done..].
Qed.

End agreement.
