(* ===== verification/ThreadState.v ===== *)
(** * Thread and process flags: sys/proc.h

    The flag words of threads and processes, and the macros that record why a
    thread cannot run: [td_state] and [td_inhibitors] as one small state
    machine. *)

From S2P Require Import Prelude.
From Stdlib Require Import String.
#[local] Open Scope string_scope.
#[local] Open Scope Z_scope.

(** ** The flag words *)

Definition TDF_flags : list (string * Z) := [
  ("TDF_BORROWING", 0x1); ("TDF_INPANIC", 0x2); ("TDF_INMEM", 0x4); ("TDF_SINTR", 0x8);
  ("TDF_TIMEOUT", 0x10); ("TDF_IDLETD", 0x20); ("TDF_CANSWAP", 0x40); ("TDF_SLEEPABORT", 0x80);
  ("TDF_KTH_SUSP", 0x100); ("TDF_UNUSED09", 0x200); ("TDF_BOUNDARY", 0x400);
  ("TDF_ASTPENDING", 0x800); ("TDF_TIMOFAIL", 0x1000); ("TDF_SBDRY", 0x2000);
  ("TDF_UPIBLOCKED", 0x4000); ("TDF_NEEDSUSPCHK", 0x8000); ("TDF_NEEDRESCHED", 0x10000);
  ("TDF_NEEDSIGCHK", 0x20000); ("TDF_NOLOAD", 0x40000); ("TDF_UNUSED19", 0x80000);
  ("TDF_THRWAKEUP", 0x100000); ("TDF_UNUSED21", 0x200000); ("TDF_SWAPINREQ", 0x400000);
  ("TDF_UNUSED23", 0x800000); ("TDF_SCHED0", 0x1000000); ("TDF_SCHED1", 0x2000000);
  ("TDF_SCHED2", 0x4000000); ("TDF_SCHED3", 0x8000000); ("TDF_ALRMPEND", 0x10000000);
  ("TDF_PROFPEND", 0x20000000); ("TDF_MACPEND", 0x40000000)].

Definition TDB_flags : list (string * Z) := [
  ("TDB_SUSPEND", 0x1); ("TDB_XSIG", 0x2); ("TDB_USERWR", 0x4); ("TDB_SCE", 0x8);
  ("TDB_SCX", 0x10); ("TDB_EXEC", 0x20); ("TDB_FORK", 0x40); ("TDB_STOPATFORK", 0x80)].

Definition TDP_flags : list (string * Z) := [
  ("TDP_OLDMASK", 0x1); ("TDP_INKTR", 0x2); ("TDP_INKTRACE", 0x4); ("TDP_BUFNEED", 0x8);
  ("TDP_COWINPROGRESS", 0x10); ("TDP_ALTSTACK", 0x20); ("TDP_DEADLKTREAT", 0x40);
  ("TDP_NOFAULTING", 0x80); ("TDP_NOSLEEPING", 0x100); ("TDP_OWEUPC", 0x200);
  ("TDP_ITHREAD", 0x400); ("TDP_UNUSED800", 0x800); ("TDP_SCHED1", 0x1000); ("TDP_SCHED2", 0x2000);
  ("TDP_SCHED3", 0x4000); ("TDP_SCHED4", 0x8000); ("TDP_GEOM", 0x10000); ("TDP_SOFTDEP", 0x20000);
  ("TDP_NORUNNINGBUF", 0x40000); ("TDP_WAKEUP", 0x80000); ("TDP_INBDFLUSH", 0x100000);
  ("TDP_KTHREAD", 0x200000); ("TDP_CALLCHAIN", 0x400000); ("TDP_IGNSUSP", 0x800000);
  ("TDP_AUDITREC", 0x1000000)].

Definition TDI_flags : list (string * Z) := [
  ("TDI_SUSPENDED", 0x1); ("TDI_SLEEPING", 0x2); ("TDI_SWAPPED", 0x4); ("TDI_LOCK", 0x8);
  ("TDI_IWAIT", 0x10)].

Definition P_flags : list (string * Z) := [
  ("P_ADVLOCK", 0x1); ("P_CONTROLT", 0x2); ("P_KTHREAD", 0x4); ("P_FOLLOWFORK", 0x8);
  ("P_PPWAIT", 0x10); ("P_PROFIL", 0x20); ("P_STOPPROF", 0x40); ("P_HADTHREADS", 0x80);
  ("P_SUGID", 0x100); ("P_SYSTEM", 0x200); ("P_SINGLE_EXIT", 0x400); ("P_TRACED", 0x800);
  ("P_WAITED", 0x1000); ("P_WEXIT", 0x2000); ("P_EXEC", 0x4000); ("P_WKILLED", 0x8000);
  ("P_CONTINUED", 0x10000); ("P_STOPPED_SIG", 0x20000); ("P_STOPPED_TRACE", 0x40000);
  ("P_STOPPED_SINGLE", 0x80000); ("P_PROTECTED", 0x100000); ("P_SIGEVENT", 0x200000);
  ("P_SINGLE_BOUNDARY", 0x400000); ("P_HWPMC", 0x800000); ("P_JAILED", 0x1000000);
  ("P_INEXEC", 0x4000000); ("P_STATCHILD", 0x8000000); ("P_INMEM", 0x10000000);
  ("P_SWAPPINGOUT", 0x20000000); ("P_SWAPPINGIN", 0x40000000)].

Definition flag (table : list (string * Z)) (name : string) : Z :=
  default 0 (snd <$> List.find (λ e, String.eqb (fst e) name) table).

Definition TDF_IDLETD : Z := Eval vm_compute in flag TDF_flags "TDF_IDLETD".
Definition TDF_UPIBLOCKED : Z := Eval vm_compute in flag TDF_flags "TDF_UPIBLOCKED".
Definition TDI_SUSPENDED : Z := Eval vm_compute in flag TDI_flags "TDI_SUSPENDED".
Definition TDI_SLEEPING : Z := Eval vm_compute in flag TDI_flags "TDI_SLEEPING".
Definition TDI_SWAPPED : Z := Eval vm_compute in flag TDI_flags "TDI_SWAPPED".
Definition TDI_LOCK : Z := Eval vm_compute in flag TDI_flags "TDI_LOCK".
Definition TDI_IWAIT : Z := Eval vm_compute in flag TDI_flags "TDI_IWAIT".

Definition P_STOPPED : Z :=
  Z.lor (Z.lor (flag P_flags "P_STOPPED_SIG") (flag P_flags "P_STOPPED_SINGLE"))
    (flag P_flags "P_STOPPED_TRACE").
Definition P_SHOULDSTOP (p_flag : Z) : Z := Z.land p_flag P_STOPPED.
Definition P_KILLED (p_flag : Z) : Z := Z.land p_flag (flag P_flags "P_WKILLED").

(** ** A thread's run state *)

Inductive tds : Type := TDS_INACTIVE | TDS_INHIBITED | TDS_CAN_RUN | TDS_RUNQ | TDS_RUNNING.

#[global] Instance tds_eq_dec : EqDecision tds.
Proof. solve_decision. Defined.

(** The members of [struct thread] the macros use. *)
Record thread : Type := Thread {
  td_flags : Z;
  td_inhibitors : Z;
  td_wchan : Z;
  td_state : tds }.

Definition TD_IS_SLEEPING (td : thread) : Z := Z.land (td_inhibitors td) TDI_SLEEPING.
Definition TD_ON_SLEEPQ (td : thread) : bool := negb (td_wchan td =? 0).
Definition TD_IS_SUSPENDED (td : thread) : Z := Z.land (td_inhibitors td) TDI_SUSPENDED.
Definition TD_IS_SWAPPED (td : thread) : Z := Z.land (td_inhibitors td) TDI_SWAPPED.
Definition TD_ON_LOCK (td : thread) : Z := Z.land (td_inhibitors td) TDI_LOCK.
Definition TD_AWAITING_INTR (td : thread) : Z := Z.land (td_inhibitors td) TDI_IWAIT.
Definition TD_IS_RUNNING (td : thread) : bool := bool_decide (td_state td = TDS_RUNNING).
Definition TD_ON_RUNQ (td : thread) : bool := bool_decide (td_state td = TDS_RUNQ).
Definition TD_CAN_RUN (td : thread) : bool := bool_decide (td_state td = TDS_CAN_RUN).
Definition TD_IS_INHIBITED (td : thread) : bool := bool_decide (td_state td = TDS_INHIBITED).
Definition TD_ON_UPILOCK (td : thread) : Z := Z.land (td_flags td) TDF_UPIBLOCKED.
Definition TD_IS_IDLETHREAD (td : thread) : Z := Z.land (td_flags td) TDF_IDLETD.

Definition set_td_state (st : tds) (td : thread) : thread :=
  Thread (td_flags td) (td_inhibitors td) (td_wchan td) st.
Definition set_td_inhibitors (i : Z) (td : thread) : thread :=
  Thread (td_flags td) i (td_wchan td) (td_state td).

(** [td_inhibitors] is an [int]. *)
Definition TD_SET_INHIB (td : thread) (inhib : Z) : thread :=
  let td := set_td_state TDS_INHIBITED td in
  set_td_inhibitors (i32 (Z.lor (td_inhibitors td) inhib)) td.

Definition TD_CLR_INHIB (td : thread) (inhib : Z) : thread :=
  if Z.land (td_inhibitors td) inhib =? 0 then td
  else
    let td := set_td_inhibitors (i32 (Z.land (td_inhibitors td) (Z.lnot inhib))) td in
    if td_inhibitors td =? 0 then set_td_state TDS_CAN_RUN td else td.

Definition TD_SET_SLEEPING (td : thread) : thread := TD_SET_INHIB td TDI_SLEEPING.
Definition TD_SET_SWAPPED (td : thread) : thread := TD_SET_INHIB td TDI_SWAPPED.
Definition TD_SET_LOCK (td : thread) : thread := TD_SET_INHIB td TDI_LOCK.
Definition TD_SET_SUSPENDED (td : thread) : thread := TD_SET_INHIB td TDI_SUSPENDED.
Definition TD_SET_IWAIT (td : thread) : thread := TD_SET_INHIB td TDI_IWAIT.
Definition TD_CLR_SLEEPING (td : thread) : thread := TD_CLR_INHIB td TDI_SLEEPING.
Definition TD_CLR_SWAPPED (td : thread) : thread := TD_CLR_INHIB td TDI_SWAPPED.
Definition TD_CLR_LOCK (td : thread) : thread := TD_CLR_INHIB td TDI_LOCK.
Definition TD_CLR_SUSPENDED (td : thread) : thread := TD_CLR_INHIB td TDI_SUSPENDED.
Definition TD_CLR_IWAIT (td : thread) : thread := TD_CLR_INHIB td TDI_IWAIT.
Definition TD_SET_RUNNING (td : thread) : thread := set_td_state TDS_RUNNING td.
Definition TD_SET_RUNQ (td : thread) : thread := set_td_state TDS_RUNQ td.
Definition TD_SET_CAN_RUN (td : thread) : thread := set_td_state TDS_CAN_RUN td.

(** ** What the macros promise: a set of reasons *)

Inductive reason : Type := Suspended | Sleeping | Swapped | Locked | Interrupt.

#[global] Instance reason_eq_dec : EqDecision reason.
Proof. solve_decision. Defined.
#[global] Instance reason_countable : Countable reason.
Proof.
  refine (inj_countable'
    (λ r, match r with Suspended => 0 | Sleeping => 1 | Swapped => 2 | Locked => 3 | Interrupt => 4 end)
    (λ n, if decide (n = 0) then Suspended else if decide (n = 1) then Sleeping
          else if decide (n = 2) then Swapped else if decide (n = 3) then Locked else Interrupt) _).
  by intros [].
Defined.

(** One use of a macro; a scheduler decision is allowed only for a thread without
    reasons. *)
Inductive td_op : Type := Inhibit (r : reason) | Release (r : reason) | Run | Enqueue | MakeRunnable.

Definition spec (op : td_op) (rs : gset reason) : option (gset reason) :=
  match op with
  | Inhibit r => Some ({[r]} ∪ rs)
  | Release r => Some (rs ∖ {[r]})
  | Run | Enqueue | MakeRunnable => if decide (rs = ∅) then Some rs else None
  end.

Definition exec (op : td_op) (td : thread) : thread :=
  match op with
  | Inhibit Suspended => TD_SET_SUSPENDED td
  | Inhibit Sleeping => TD_SET_SLEEPING td
  | Inhibit Swapped => TD_SET_SWAPPED td
  | Inhibit Locked => TD_SET_LOCK td
  | Inhibit Interrupt => TD_SET_IWAIT td
  | Release Suspended => TD_CLR_SUSPENDED td
  | Release Sleeping => TD_CLR_SLEEPING td
  | Release Swapped => TD_CLR_SWAPPED td
  | Release Locked => TD_CLR_LOCK td
  | Release Interrupt => TD_CLR_IWAIT td
  | Run => TD_SET_RUNNING td
  | Enqueue => TD_SET_RUNQ td
  | MakeRunnable => TD_SET_CAN_RUN td
  end.

Definition bit_of (r : reason) : Z :=
  match r with
  | Suspended => TDI_SUSPENDED | Sleeping => TDI_SLEEPING | Swapped => TDI_SWAPPED
  | Locked => TDI_LOCK | Interrupt => TDI_IWAIT
  end.

(** The set is the one the bits spell, and the thread is marked inhibited exactly
    when it is not empty. *)
Record represents (td : thread) (rs : gset reason) : Prop := Represents {
  rep_range : 0 ≤ td_inhibitors td < 32;
  rep_bits : ∀ r, r ∈ rs ↔ Z.land (td_inhibitors td) (bit_of r) ≠ 0;
  rep_state : td_state td = TDS_INHIBITED ↔ rs ≠ ∅ }.

(** Reachability: scheduler decisions respect the reasons. *)
Inductive td_step : thread * gset reason → thread * gset reason → Prop :=
  | td_step_intro op td rs rs' : spec op rs = Some rs' → td_step (td, rs) (exec op td, rs').

(** ** Lemmas *)

Definition all_reasons : list reason := [Suspended; Sleeping; Swapped; Locked; Interrupt].

Lemma all_reasons_in r : r ∈ all_reasons.
Proof. destruct r; unfold all_reasons; set_solver. Qed.

(** Facts on the five bits, by cases on all thirty-two values. *)
Lemma small_case (P : Z → bool) m : forallb P (seqZ 0 32) = true → 0 ≤ m < 32 → P m = true.
Proof. intros HP Hm. eapply table_forall; [exact HP|]. apply elem_of_seqZ. lia. Qed.

Definition bit (m : Z) (r : reason) : bool := negb (Z.land m (bit_of r) =? 0).

Lemma bit_spec m r : bit m r = true ↔ Z.land m (bit_of r) ≠ 0.
Proof. unfold bit. rewrite negb_true_iff, Z.eqb_neq. done. Qed.

Lemma set_bit m r :
  0 ≤ m < 32 →
  0 < i32 (Z.lor m (bit_of r)) < 32 ∧
  ∀ r', bit (i32 (Z.lor m (bit_of r))) r' = bool_decide (r' = r) || bit m r'.
Proof.
  intros Hm.
  eapply (small_case (λ m, let k := i32 (Z.lor m (bit_of r)) in (0 <? k) && (k <? 32)
    && forallb (λ r', Bool.eqb (bit k r') (bool_decide (r' = r) || bit m r')) all_reasons)) in Hm;
    [|destruct r; by vm_compute].
  cbv zeta in Hm. apply andb_true_iff in Hm as [Hr Hb]. split; [lia|]. intros r'.
  apply Bool.eqb_prop. exact (table_forall _ _ _ Hb (all_reasons_in r')).
Qed.

Lemma clear_bit m r :
  0 ≤ m < 32 →
  0 ≤ i32 (Z.land m (Z.lnot (bit_of r))) < 32 ∧
  ∀ r', bit (i32 (Z.land m (Z.lnot (bit_of r)))) r' = negb (bool_decide (r' = r)) && bit m r'.
Proof.
  intros Hm.
  eapply (small_case (λ m, let k := i32 (Z.land m (Z.lnot (bit_of r))) in (0 <=? k) && (k <? 32)
    && forallb (λ r', Bool.eqb (bit k r') (negb (bool_decide (r' = r)) && bit m r')) all_reasons)) in Hm;
    [|destruct r; by vm_compute].
  cbv zeta in Hm. apply andb_true_iff in Hm as [Hr Hb]. split; [lia|]. intros r'.
  apply Bool.eqb_prop. exact (table_forall _ _ _ Hb (all_reasons_in r')).
Qed.

Lemma no_bits m : 0 ≤ m < 32 → m = 0 ↔ ∀ r, bit m r = false.
Proof.
  intros Hm. split; [by intros -> []|]. intros Hb.
  eapply (small_case (λ m, (m =? 0) || existsb (bit m) all_reasons)) in Hm; [|by vm_compute].
  apply orb_true_iff in Hm as [Hm|Hm]; [lia|].
  apply existsb_exists in Hm as (r & _ & Hr). by rewrite Hb in Hr.
Qed.

Lemma rep_zero td rs : represents td rs → td_inhibitors td = 0 ↔ rs = ∅.
Proof.
  intros [Hr Hb _]. rewrite no_bits by done. split.
  - intros Hz. apply elem_of_equiv_empty_L. intros r [=Hin%Hb%bit_spec]. by rewrite Hz in Hin.
  - intros -> r. destruct (bit _ r) eqn:E; [|done]. apply bit_spec, Hb in E. set_solver.
Qed.

Lemma represents_set td rs r :
  represents td rs → represents (TD_SET_INHIB td (bit_of r)) ({[r]} ∪ rs).
Proof.
  intros [Hr Hb Hs]. destruct (set_bit (td_inhibitors td) r Hr) as [Hk Hbits].
  split; simpl; [lia| |set_solver].
  intros r'. rewrite <-bit_spec, Hbits, orb_true_iff, bool_decide_eq_true, bit_spec, <-Hb. set_solver.
Qed.

Lemma represents_clear td rs r :
  represents td rs → represents (TD_CLR_INHIB td (bit_of r)) (rs ∖ {[r]}).
Proof.
  intros Hrep. pose proof Hrep as [Hr Hb Hs]. unfold TD_CLR_INHIB.
  destruct (Z.eqb_spec (Z.land (td_inhibitors td) (bit_of r)) 0) as [Hz|Hz].
  - assert (r ∉ rs) as Hn by (rewrite Hb; lia). replace (rs ∖ {[r]}) with rs by set_solver. done.
  - cbv zeta. destruct (clear_bit (td_inhibitors td) r Hr) as [Hk Hbits].
    assert (∀ r', r' ∈ rs ∖ {[r]} ↔
      Z.land (i32 (Z.land (td_inhibitors td) (Z.lnot (bit_of r)))) (bit_of r') ≠ 0) as Hb'.
    { intros r'. rewrite <-bit_spec, Hbits, andb_true_iff, negb_true_iff, bool_decide_eq_false, bit_spec, <-Hb.
      set_solver. }
    set (m := i32 (Z.land (td_inhibitors td) (Z.lnot (bit_of r)))) in *.
    assert (m = 0 ↔ rs ∖ {[r]} = ∅) as Hm0.
    { rewrite no_bits by done. split.
      - intros Hall. apply elem_of_equiv_empty_L. intros r' Hin%Hb'%bit_spec. by rewrite Hall in Hin.
      - intros He r'. destruct (bit m r') eqn:E; [|done]. apply bit_spec, Hb' in E. set_solver. }
    simpl. destruct (Z.eqb_spec m 0) as [E|E]; split; simpl; try done.
    + split; [done|]. intros Hne. by apply Hm0 in E.
    + assert (rs ≠ ∅) as Hne by (intros ->; apply E, Hm0; set_solver).
      split; intros _; [by intros He%Hm0|]. by apply Hs.
Qed.

Lemma exec_inhibit r td : exec (Inhibit r) td = TD_SET_INHIB td (bit_of r).
Proof. by destruct r. Qed.
Lemma exec_release r td : exec (Release r) td = TD_CLR_INHIB td (bit_of r).
Proof. by destruct r. Qed.

Lemma represents_decision st td rs rs' :
  st ≠ TDS_INHIBITED → represents td rs → (if decide (rs = ∅) then Some rs else None) = Some rs' →
  represents (set_td_state st td) rs'.
Proof.
  intros Hst [Hr Hb Hs] Hspec. simplify_option_eq. split; simpl; [done..|]. split; [done|]. by intros [].
Qed.

Lemma represents_exec op td rs rs' :
  represents td rs → spec op rs = Some rs' → represents (exec op td) rs'.
Proof.
  intros Hrep Hspec. destruct op as [r|r| | |].
  - injection Hspec as <-. rewrite exec_inhibit. by apply represents_set.
  - injection Hspec as <-. rewrite exec_release. by apply represents_clear.
  - by eapply represents_decision.
  - by eapply represents_decision.
  - by eapply represents_decision.
Qed.

(** ** The contract *)

(** C34: the inhibitor macros implement a set of reasons. From a thread that
    represents a set, any sequence of macros (scheduler decisions only when
    there is no reason) leads to a thread that represents the set of the reasons
    set and not cleared since: it is marked inhibited exactly while the set is
    not empty, each observer tells membership of its reason, clearing the last
    reason makes the thread runnable, and clearing a reason that does not hold
    changes nothing. *)
Theorem inhibitors_are_a_set (td td' : thread) (rs rs' : gset reason)
    (Hrep : represents td rs) (Hsteps : rtc td_step (td, rs) (td', rs')) :
  represents td' rs' ∧
  TD_IS_INHIBITED td' = bool_decide (rs' ≠ ∅) ∧
  (Sleeping ∈ rs' ↔ TD_IS_SLEEPING td' ≠ 0) ∧ (Suspended ∈ rs' ↔ TD_IS_SUSPENDED td' ≠ 0) ∧
  (Swapped ∈ rs' ↔ TD_IS_SWAPPED td' ≠ 0) ∧ (Locked ∈ rs' ↔ TD_ON_LOCK td' ≠ 0) ∧
  (Interrupt ∈ rs' ↔ TD_AWAITING_INTR td' ≠ 0) ∧
  (∀ r, rs' = {[r]} → TD_CAN_RUN (exec (Release r) td') = true) ∧
  (∀ r, r ∉ rs' → exec (Release r) td' = td').
Proof.
  assert (represents td' rs') as Hrep'.
  { remember (td, rs) as a eqn:Ea. remember (td', rs') as b eqn:Eb. revert td rs Ea Hrep.
    induction Hsteps as [|a b c Hstep _ IH]; intros td rs -> Hrep; simplify_eq; [done|].
    inversion Hstep as [op ? ? rs1 Hspec]; simplify_eq.
    eapply IH; [done..|]. by eapply represents_exec. }
  pose proof Hrep' as [Hr Hb Hs]. split; [done|]. split.
  { unfold TD_IS_INHIBITED. by apply bool_decide_ext. }
  split_and!; [apply (Hb Sleeping)|apply (Hb Suspended)|apply (Hb Swapped)|apply (Hb Locked)
    |apply (Hb Interrupt)| |].
  - intros r ->.
    assert (represents (exec (Release r) td') ∅) as Hrel.
    { apply (represents_exec _ td' {[r]}); [done|]. simpl. f_equal. set_solver. }
    assert (Z.land (td_inhibitors td') (bit_of r) ≠ 0) as Hin by (apply Hb; set_solver).
    apply rep_zero in Hrel as [_ Hz]. specialize (Hz eq_refl).
    rewrite exec_release in *. unfold TD_CAN_RUN, TD_CLR_INHIB in *.
    destruct (Z.eqb_spec (Z.land (td_inhibitors td') (bit_of r)) 0); [done|]. cbv zeta in *.
    case_match; [done|]. lia.
  - intros r Hn. assert (Z.land (td_inhibitors td') (bit_of r) = 0) as Hz.
    { destruct (decide (Z.land (td_inhibitors td') (bit_of r) = 0)); [done|]. exfalso. by apply Hn, Hb. }
    rewrite exec_release. unfold TD_CLR_INHIB. by rewrite Hz.
Qed.

(** A running thread goes to sleep, is suspended while asleep, and wakes up. *)
Lemma inhibitors_are_a_set_witness :
  let td := Thread 0 0 0 TDS_RUNNING in
  let td' := TD_CLR_SLEEPING (TD_SET_SUSPENDED (TD_SET_SLEEPING td)) in
  represents td' {[Suspended]} ∧ td' = Thread 0 1 0 TDS_INHIBITED.
Proof.
  intros td td'. split; [|reflexivity].
  apply (inhibitors_are_a_set td td' ∅ {[Suspended]}).
  - split; [by vm_compute| |by split].
    intros r. split; [set_solver|]. destruct r; vm_compute; by intros [].
  - eapply rtc_l; [by apply (td_step_intro (Inhibit Sleeping))|].
    eapply rtc_l; [by apply (td_step_intro (Inhibit Suspended))|].
    eapply rtc_l; [apply (td_step_intro (Release Sleeping)); reflexivity|].
    replace (({[Suspended]} ∪ ({[Sleeping]} ∪ ∅)) ∖ {[Sleeping]}) with ({[Suspended]} : gset reason)
      by (apply leibniz_equiv; set_solver).
    apply rtc_refl.
Defined.

(** ** Flag words *)

Definition flag_tables : list (list (string * Z)) :=
  [TDF_flags; TDB_flags; TDP_flags; TDI_flags; P_flags].

(** No two flags of a word share a bit, and each is a bit of a positive [int]. *)
Definition independent (table : list (string * Z)) : bool :=
  forallb (λ a, (0 <? snd a) && (snd a <? 2 ^ 31) && (snd a =? 2 ^ Z.log2 (snd a))
    && forallb (λ b, String.eqb (fst a) (fst b) || (Z.land (snd a) (snd b) =? 0)) table) table.

Lemma tables_independent table : table ∈ flag_tables → independent table = true.
Proof. apply table_forall. by vm_compute. Qed.

(** In each of the flag words [td_flags], [td_dbgflags], [td_pflags],
    [td_inhibitors] and [p_flag], setting or clearing one flag leaves every other
    flag of the word as it was; a process should stop exactly when one of its
    three stop flags is set. *)
Theorem flags_are_independent :
  (∀ table a b x y w, table ∈ flag_tables → (a, x) ∈ table → (b, y) ∈ table → a ≠ b →
     Z.land (Z.lor w x) y = Z.land w y ∧ Z.land (Z.land w (Z.lnot x)) y = Z.land w y) ∧
  (∀ table a x w, table ∈ flag_tables → (a, x) ∈ table →
     Z.land (Z.lor w x) x ≠ 0 ∧ Z.land (Z.land w (Z.lnot x)) x = 0) ∧
  (∀ p_flag, P_SHOULDSTOP p_flag ≠ 0 ↔
     Z.land p_flag (flag P_flags "P_STOPPED_SIG") ≠ 0 ∨
     Z.land p_flag (flag P_flags "P_STOPPED_SINGLE") ≠ 0 ∨
     Z.land p_flag (flag P_flags "P_STOPPED_TRACE") ≠ 0).
Proof.
  split_and!.
  - intros table a b x y w Ht Ha Hb Hab.
    pose proof (table_forall _ _ _ (tables_independent _ Ht) Ha) as Hi. cbn [fst snd] in Hi.
    apply andb_true_iff in Hi as [_ Hi]. eapply table_forall in Hi; [|exact Hb]. cbn [fst snd] in Hi.
    apply orb_true_iff in Hi as [Hi%String.eqb_eq|Hi%Z.eqb_eq]; [done|].
    rewrite Z.land_lor_distr_l, Hi, Z.lor_0_r. split; [done|].
    rewrite <-Z.land_assoc, (Z.land_comm (Z.lnot x)), <-Z.ldiff_land. f_equal.
    apply Z.bits_inj'. intros k Hk. rewrite Z.ldiff_spec.
    assert (Z.testbit (Z.land x y) k = false) as Hb' by (by rewrite Hi, Z.bits_0).
    rewrite Z.land_spec in Hb'. by destruct (Z.testbit x k), (Z.testbit y k).
  - intros table a x w Ht Ha.
    pose proof (table_forall _ _ _ (tables_independent _ Ht) Ha) as Hi. cbn [fst snd] in Hi.
    apply andb_true_iff in Hi as [Hi _]. apply andb_true_iff in Hi as [Hi _].
    apply andb_true_iff in Hi as [Hi _].
    split.
    { rewrite Z.land_lor_distr_l, Z.land_diag. intros [_ Hx]%Z.lor_eq_0_iff. lia. }
    by rewrite <-Z.land_assoc, (Z.land_comm _ x), Z.land_lnot_diag, Z.land_0_r.
  - intros w. unfold P_SHOULDSTOP, P_STOPPED. rewrite !Z.land_lor_distr_r, !Z.lor_eq_0_iff. lia.
Qed.
