(* ===== verification/WordHeap.v ===== *)
(** * Pointer cells: a small program logic for linked structures

    The queues of sys/queue.h read and write pointer members only. Here memory is
    a map from the address of a pointer cell to the pointer it holds, and a
    program is specified by the cells it owns: whatever other cells there are
    stay as they are. *)

From S2P Require Import Prelude.

Abbreviation heap := (gmap Z Z).
Abbreviation cells := (list (Z * Z)).

Definition load (a : Z) : M heap Z := λ m,
  match m !! a with Some v => Ok (v, m) | None => Undef KernelFault end.

Definition store (a v : Z) : M heap unit := λ m,
  match m !! a with Some _ => Ok (tt, <[a := v]> m) | None => Undef KernelFault end.

(** The cells are distinct and have these values. *)
Definition holds (m : heap) (P : cells) : Prop :=
  NoDup P.*1 ∧ Forall (λ c, m !! c.1 = Some c.2) P.

(** From a heap with the cells [P] (and any others, [R]) the program returns [a]
    and leaves the cells [Q] in place of [P], the others untouched. *)
Definition triple {A} (P : cells) (f : M heap A) (a : A) (Q : cells) : Prop :=
  ∀ R m, holds m (P ++ R) → ∃ m', f m = Ok (a, m') ∧ holds m' (Q ++ R).

(** ** Cells *)

#[global] Instance holds_perm m : Proper ((≡ₚ) ==> iff) (holds m).
Proof. intros P Q HPQ. unfold holds. by rewrite HPQ. Qed.

#[global] Instance triple_perm {A} : Proper ((≡ₚ) ==> eq ==> eq ==> (≡ₚ) ==> iff) (@triple A).
Proof.
  intros P P' HP f ? <- a ? <- Q Q' HQ. unfold triple.
  split; intros H R m Hm; destruct (H R m) as (m' & E & Hm'); try (by rewrite ?HP, <-?HP in * );
    exists m'; (split; [done|]); by rewrite ?HQ, <-?HQ in *.
Qed.

Lemma holds_lookup m P a v : holds m P → (a, v) ∈ P → m !! a = Some v.
Proof. intros [_ H] Hin. by eapply (proj1 (Forall_forall _ _) H (a, v)). Qed.

Lemma holds_update m a v v' P : holds m ((a, v) :: P) → holds (<[a := v']> m) ((a, v') :: P).
Proof.
  intros [Hnd H]. split; [done|]. apply NoDup_cons in Hnd as [Hn _].
  constructor; [by rewrite lookup_insert_eq|]. apply Forall_cons in H as [_ H].
  rewrite Forall_forall in *. intros [k w] Hin. specialize (H _ Hin). simpl in *.
  rewrite lookup_insert_ne; [done|]. intros <-. apply Hn. apply list_elem_of_fmap. by exists (a, w).
Qed.

(** ** Rules *)

Lemma triple_ret {A} (a : A) P Q : P ≡ₚ Q → triple P (mret a) a Q.
Proof. intros HPQ R m Hm. exists m. split; [done|]. by rewrite <-HPQ. Qed.

Lemma triple_bind {A B} P (f : M heap A) a Q (g : A → M heap B) b T :
  triple P f a Q → triple Q (g a) b T → triple P (f ≫= g) b T.
Proof.
  intros Hf Hg R m Hm. destruct (Hf R m Hm) as (m1 & E & Hm1). destruct (Hg R m1 Hm1) as (m2 & E2 & Hm2).
  exists m2. split; [by erewrite bind_ok by exact E|done].
Qed.

Lemma triple_load {B} P a v (g : Z → M heap B) b Q :
  (a, v) ∈ P → triple P (g v) b Q → triple P (load a ≫= g) b Q.
Proof.
  intros Hin Hg. apply (triple_bind _ _ v P); [|done]. intros R m Hm. exists m. split; [|done].
  unfold load. rewrite (holds_lookup _ _ a v Hm); [done|]. apply elem_of_app. by left.
Qed.

Lemma triple_store {B} P P' a v v' (g : unit → M heap B) b Q :
  P ≡ₚ (a, v) :: P' → triple ((a, v') :: P') (g tt) b Q → triple P (store a v' ≫= g) b Q.
Proof.
  intros HP Hg. apply (triple_bind _ _ tt ((a, v') :: P')); [|done]. rewrite HP. intros R m Hm.
  exists (<[a := v']> m). simpl in *. split; [|by eapply holds_update].
  unfold store. rewrite (holds_lookup _ _ a v Hm); [done|]. by left.
Qed.

Lemma triple_assoc {A B C} P (f : M heap A) (g : A → M heap B) (h : B → M heap C) c Q :
  triple P (f ≫= λ a, g a ≫= h) c Q → triple P ((f ≫= g) ≫= h) c Q.
Proof.
  intros Hf R m Hm. destruct (Hf R m Hm) as (m' & E & Hm'). exists m'. split; [|done].
  rewrite <-E. unfold mbind, M_bind. by destruct (f m) as [[]| |].
Qed.

Lemma triple_assoc_inv {A B C} P (f : M heap A) (g : A → M heap B) (h : B → M heap C) c Q :
  triple P ((f ≫= g) ≫= h) c Q → triple P (f ≫= λ a, g a ≫= h) c Q.
Proof.
  intros Hf R m Hm. destruct (Hf R m Hm) as (m' & E & Hm'). exists m'. split; [|done].
  rewrite <-E. unfold mbind, M_bind. by destruct (f m) as [[]| |].
Qed.

Lemma triple_load_end P a v Q : (a, v) ∈ P → P ≡ₚ Q → triple P (load a) v Q.
Proof.
  intros Hin HPQ R m Hm. exists m. split; [|by rewrite <-HPQ].
  unfold load. rewrite (holds_lookup _ _ a v Hm); [done|]. apply elem_of_app. by left.
Qed.

Lemma triple_store_end P P' a v v' Q :
  P ≡ₚ (a, v) :: P' → (a, v') :: P' ≡ₚ Q → triple P (store a v') tt Q.
Proof.
  intros HP <- R m Hm. rewrite HP in Hm. exists (<[a := v']> m). simpl in *.
  split; [|by eapply holds_update]. unfold store. rewrite (holds_lookup _ _ a v Hm); [done|]. by left.
Qed.

Lemma triple_frame {A} P (f : M heap A) a Q F : triple P f a Q → triple (P ++ F) f a (Q ++ F).
Proof.
  intros Hf R m Hm. rewrite <-app_assoc in Hm. destruct (Hf _ _ Hm) as (m' & E & Hm').
  exists m'. split; [done|]. by rewrite <-app_assoc.
Qed.

Lemma triple_perm_post {A} P (f : M heap A) a Q Q' : triple P f a Q → Q ≡ₚ Q' → triple P f a Q'.
Proof. by intros H <-. Qed.

(** A step that is itself specified, applied to some of the cells. *)
Lemma triple_call {A B} P P' F (f : M heap A) a Q (g : A → M heap B) b T :
  triple P' f a Q → P ≡ₚ P' ++ F → triple (Q ++ F) (g a) b T → triple P (f ≫= g) b T.
Proof. intros Hf HP Hg. rewrite HP. eapply triple_bind; [by apply triple_frame|done]. Qed.

Lemma triple_last {A} P P' F (f : M heap A) a Q T :
  triple P' f a Q → P ≡ₚ P' ++ F → Q ++ F ≡ₚ T → triple P f a T.
Proof. intros Hf HP <-. rewrite HP. by apply triple_frame. Qed.

(** What a triple says of a heap that has exactly these cells among others. *)
Lemma triple_run {A} P (f : M heap A) a Q m :
  triple P f a Q → holds m P → ∃ m', f m = Ok (a, m') ∧ holds m' Q.
Proof. intros Hf Hm. destruct (Hf [] m) as (m' & E & Hm'); rewrite ?app_nil_r in *; eauto. Qed.

(** ** Automation *)

(** The cells [P] without the one at [a]. *)
Ltac cell_at a P :=
  match P with
  | (a, ?v) :: _ => v
  | _ :: ?P' => cell_at a P'
  | ?P1 ++ _ => cell_at a P1
  | _ ++ ?P2 => cell_at a P2
  end.

Ltac without_cell a P :=
  match P with
  | (a, _) :: ?P' => P'
  | ?c :: ?P' => let P'' := without_cell a P' in constr:(c :: P'')
  | ?P1 ++ ?P2 => let P1' := without_cell a P1 in constr:(P1' ++ P2)
  | ?P1 ++ ?P2 => let P2' := without_cell a P2 in constr:(P1 ++ P2')
  end.

Ltac in_cells := repeat first [rewrite elem_of_app | rewrite elem_of_cons]; tauto.

(** One instruction; a condition on pointers is decided by [congruence] or [done]. *)
Ltac heap_branch c :=
  first [rewrite (decide_True (P := c)) by (done || congruence)
        |rewrite (decide_False (P := c)) by (done || congruence || (intros ?; congruence))].
Ltac heap_step :=
  lazymatch goal with
  | |- triple ?P (load ?a ≫= _) _ _ =>
      let v := cell_at a P in apply (triple_load P a v); [in_cells|]
  | |- triple ?P (store ?a ?v' ≫= _) _ _ =>
      let v := cell_at a P in
      let P' := without_cell a P in
      apply (triple_store P P' a v v'); [solve_Permutation|]
  | |- triple ?P (load ?a) _ _ =>
      let v := cell_at a P in apply (triple_load_end P a v); [in_cells|]
  | |- triple ?P (store ?a ?v') _ _ =>
      let v := cell_at a P in
      let P' := without_cell a P in
      apply (triple_store_end P P' a v v'); [solve_Permutation|]
  | |- triple _ ((_ ≫= _) ≫= _) _ _ => apply triple_assoc
  | |- triple _ ((if decide ?c then _ else _) ≫= _) _ _ => heap_branch c
  | |- triple _ (if decide ?c then _ else _) _ _ => heap_branch c
  | |- triple _ (mret _ ≫= _) _ _ => rewrite ret_bind
  | |- triple _ (mret _) _ _ => apply triple_ret
  end; cbv beta.
Ltac heap_steps := repeat heap_step.

(** The cells [P] without the cells [P']. *)
Ltac without_atom A P :=
  lazymatch P with
  | A => constr:(@nil (Z * Z))
  | ?c :: ?P1 => let P1' := without_atom A P1 in constr:(c :: P1')
  | ?P1 ++ ?P2 =>
      match constr:(tt) with
      | _ => let P1' := without_atom A P1 in constr:(P1' ++ P2)
      | _ => let P2' := without_atom A P2 in constr:(P1 ++ P2')
      end
  end.
Ltac without_elem c P :=
  lazymatch P with
  | c :: ?P1 => P1
  | ?c' :: ?P1 => let P1' := without_elem c P1 in constr:(c' :: P1')
  | ?P1 ++ ?P2 =>
      match constr:(tt) with
      | _ => let P1' := without_elem c P1 in constr:(P1' ++ P2)
      | _ => let P2' := without_elem c P2 in constr:(P1 ++ P2')
      end
  end.
Ltac without_cells P' P :=
  lazymatch P' with
  | [] => P
  | ?c :: ?R => let P1 := without_elem c P in without_cells R P1
  | ?A ++ ?B => let P1 := without_cells A P in without_cells B P1
  | ?A => without_atom A P
  end.

(** A specified step, the rest of the cells framed. *)
Ltac heap_call lem :=
  let H := fresh "Hcall" in
  pose proof lem as H; cbn [app] in H;
  lazymatch type of H with
  | triple ?P' _ _ _ =>
      lazymatch goal with
      | |- triple ?P (_ ≫= _) _ _ =>
          let F := without_cells P' P in
          eapply (triple_call P P' F); [exact H|solve_Permutation|]
      | |- triple ?P _ _ _ =>
          let F := without_cells P' P in
          eapply (triple_last P P' F); [exact H|solve_Permutation|]
      end
  end; clear H; cbn [app]; cbv beta.
