(* ===== verification/QueueList.v ===== *)
(** * Linked lists of the kernel: sys/queue.h, SLIST and LIST

    Singly linked lists, and the doubly linked lists in which the kernel keeps
    its processes. A list head is one pointer; [field] is the offset of the link
    in an element. [le_prev] is the address of the pointer to the element, not
    the address of the element before. *)

From S2P Require Import Prelude WordHeap.

(** Elements are never null pointers. *)
Abbreviation nonnull := (Forall (λ x : Z, x ≠ 0)).

Section list.
Context (field : Z).

(** ** SLIST *)

Definition sle_next (elm : Z) : Z := elm + field.

Definition SLIST_FIRST (head : Z) : M heap Z := load head.
Definition SLIST_NEXT (elm : Z) : M heap Z := load (sle_next elm).

Definition SLIST_EMPTY (head : Z) : M heap bool :=
  f ← SLIST_FIRST head; mret (bool_decide (f = 0)).

Definition SLIST_INIT (head : Z) : M heap unit := store head 0.

Fixpoint SLIST_FOREACH_loop (fuel : nat) (var : Z) : M heap (list Z) :=
  match fuel with
  | 0%nat => out_of_fuel
  | S fuel =>
      if decide (var = 0) then mret []
      else
        next ← SLIST_NEXT var;
        rest ← SLIST_FOREACH_loop fuel next;
        mret (var :: rest)
  end.

Definition SLIST_FOREACH (fuel : nat) (head : Z) : M heap (list Z) :=
  var ← SLIST_FIRST head; SLIST_FOREACH_loop fuel var.

Definition SLIST_INSERT_AFTER (slistelm elm : Z) : M heap unit :=
  n ← SLIST_NEXT slistelm;
  _ ← store (sle_next elm) n;
  store (sle_next slistelm) elm.

Definition SLIST_INSERT_HEAD (head elm : Z) : M heap unit :=
  f ← SLIST_FIRST head;
  _ ← store (sle_next elm) f;
  store head elm.

Definition SLIST_REMOVE_AFTER (elm : Z) : M heap unit :=
  n ← SLIST_NEXT elm;
  n ← SLIST_NEXT n;
  store (sle_next elm) n.

Definition SLIST_REMOVE_HEAD (head : Z) : M heap unit :=
  f ← SLIST_FIRST head;
  n ← SLIST_NEXT f;
  store head n.

(** The [while] of [SLIST_REMOVE]. *)
Fixpoint SLIST_REMOVE_loop (fuel : nat) (curelm elm : Z) : M heap Z :=
  match fuel with
  | 0%nat => out_of_fuel
  | S fuel =>
      n ← SLIST_NEXT curelm;
      if decide (n ≠ elm) then
        curelm ← SLIST_NEXT curelm; SLIST_REMOVE_loop fuel curelm elm
      else mret curelm
  end.

Definition SLIST_REMOVE (fuel : nat) (head elm : Z) : M heap unit :=
  f ← SLIST_FIRST head;
  if decide (f = elm) then SLIST_REMOVE_HEAD head
  else
    curelm ← SLIST_FIRST head;
    curelm ← SLIST_REMOVE_loop fuel curelm elm;
    SLIST_REMOVE_AFTER curelm.

Definition SLIST_SWAP (head1 head2 : Z) : M heap unit :=
  swap_first ← SLIST_FIRST head1;
  f2 ← SLIST_FIRST head2;
  _ ← store head1 f2;
  store head2 swap_first.

(** *** The cells of a list *)

Fixpoint slist_cells (p : Z) (xs : list Z) : cells :=
  match xs with
  | [] => [(p, 0)]
  | x :: xs => (p, x) :: slist_cells (sle_next x) xs
  end.

Fixpoint slist_seg (p : Z) (xs : list Z) : cells :=
  match xs with
  | [] => []
  | x :: xs => (p, x) :: slist_seg (sle_next x) xs
  end.

Fixpoint slist_end (p : Z) (xs : list Z) : Z :=
  match xs with [] => p | x :: xs => slist_end (sle_next x) xs end.

Lemma slist_cells_app p xs ys :
  slist_cells p (xs ++ ys) = slist_seg p xs ++ slist_cells (slist_end p xs) ys.
Proof. revert p. induction xs as [|x xs IH]; intros p; simpl; [done|]. by rewrite IH. Qed.

Lemma slist_cells_first p xs : (p, hd 0 xs) ∈ slist_cells p xs.
Proof. destruct xs; simpl; left. Qed.

(** The first pointer and the rest. *)
Lemma slist_cells_split p xs :
  ∃ rest, slist_cells p xs = (p, hd 0 xs) :: rest ∧ ∀ q, slist_cells q xs = (q, hd 0 xs) :: rest.
Proof. destruct xs; eexists; (split; [done|]); done. Qed.

(** *** The operations *)

Lemma slist_empty_spec head xs :
  nonnull xs →
  triple (slist_cells head xs) (SLIST_EMPTY head) (bool_decide (xs = [])) (slist_cells head xs).
Proof.
  intros Hn. unfold SLIST_EMPTY, SLIST_FIRST. destruct xs as [|x xs]; [simpl; heap_steps; done|].
  apply Forall_cons in Hn as [Hx _]. rewrite (bool_decide_eq_false_2 (x :: xs = [])) by done.
  cbn [slist_cells]. heap_step. rewrite bool_decide_eq_false_2 by done. heap_steps. done.
Qed.

Lemma slist_foreach_loop_spec p xs fuel v :
  nonnull xs → (length xs < fuel)%nat → v = hd 0 xs →
  triple (slist_cells p xs) (SLIST_FOREACH_loop fuel v) xs (slist_cells p xs).
Proof.
  revert p fuel v. induction xs as [|x xs IH]; intros p [|fuel] v Hn Hf ->; try (simpl in *; lia);
    cbn [SLIST_FOREACH_loop hd]; unfold SLIST_NEXT.
  - heap_steps. done.
  - apply Forall_cons in Hn as [Hx Hn]. rewrite decide_False by done. cbn [slist_cells].
    apply (triple_load _ _ (hd 0 xs)); [right; apply slist_cells_first|].
    eapply (triple_call _ (slist_cells (sle_next x) xs) [(p, x)]);
      [apply IH; [done|simpl in *; lia|done]|solve_Permutation|].
    heap_steps. solve_Permutation.
Qed.

Lemma slist_foreach_spec head xs fuel :
  nonnull xs → (length xs < fuel)%nat →
  triple (slist_cells head xs) (SLIST_FOREACH fuel head) xs (slist_cells head xs).
Proof.
  intros Hn Hf. unfold SLIST_FOREACH, SLIST_FIRST.
  apply (triple_load _ _ (hd 0 xs)); [apply slist_cells_first|].
  by apply slist_foreach_loop_spec.
Qed.

Lemma slist_insert_head_spec head e n xs :
  triple (slist_cells head xs ++ [(sle_next e, n)]) (SLIST_INSERT_HEAD head e) tt
    (slist_cells head (e :: xs)).
Proof.
  unfold SLIST_INSERT_HEAD, SLIST_FIRST. cbn [slist_cells].
  destruct (slist_cells_split head xs) as (rest & -> & ->). simpl. heap_steps. solve_Permutation.
Qed.

Lemma slist_insert_after_spec head xs x ys e n :
  triple (slist_cells head (xs ++ x :: ys) ++ [(sle_next e, n)]) (SLIST_INSERT_AFTER x e) tt
    (slist_cells head (xs ++ x :: e :: ys)).
Proof.
  rewrite !slist_cells_app. unfold SLIST_INSERT_AFTER, SLIST_NEXT. cbn [slist_cells].
  destruct (slist_cells_split (sle_next x) ys) as (rest & -> & ->). simpl. heap_steps. solve_Permutation.
Qed.

Lemma slist_remove_head_spec head x ys :
  triple (slist_cells head (x :: ys)) (SLIST_REMOVE_HEAD head) tt
    (slist_cells head ys ++ [(sle_next x, hd 0 ys)]).
Proof.
  unfold SLIST_REMOVE_HEAD, SLIST_FIRST, SLIST_NEXT. cbn [slist_cells].
  destruct (slist_cells_split (sle_next x) ys) as (rest & -> & ->). heap_steps. solve_Permutation.
Qed.

Lemma slist_remove_after_spec p x e ys :
  triple (slist_cells p (x :: e :: ys)) (SLIST_REMOVE_AFTER x) tt
    (slist_cells p (x :: ys) ++ [(sle_next e, hd 0 ys)]).
Proof.
  unfold SLIST_REMOVE_AFTER, SLIST_NEXT. cbn [slist_cells].
  destruct (slist_cells_split (sle_next e) ys) as (rest & -> & ->). heap_steps. solve_Permutation.
Qed.

(** The last element of [x :: xs]. *)
Definition last_of (x : Z) (xs : list Z) : Z := foldl (λ _ y, y) x xs.

Lemma last_of_app x xs y : last_of x (xs ++ [y]) = y.
Proof. unfold last_of. by rewrite foldl_app. Qed.

(** The loop stops at the element before the one to remove. *)
Lemma slist_remove_loop_spec p x xs e ys fuel :
  e ∉ xs → (length xs < fuel)%nat →
  triple (slist_cells p (x :: xs ++ e :: ys)) (SLIST_REMOVE_loop fuel x e) (last_of x xs)
    (slist_cells p (x :: xs ++ e :: ys)).
Proof.
  revert p x fuel. induction xs as [|y xs IH]; intros p x [|fuel] He Hf; try (simpl in *; lia);
    cbn [SLIST_REMOVE_loop]; unfold SLIST_NEXT.
  - simpl. heap_steps. done.
  - apply not_elem_of_cons in He as [Hey He].
    change (last_of x (y :: xs)) with (last_of y xs).
    rewrite <-app_comm_cons. cbn [slist_cells]. heap_step. heap_step. heap_step.
    eapply (triple_last _ (slist_cells (sle_next x) (y :: xs ++ e :: ys)) [(p, x)]);
      [apply IH; [done|simpl in *; lia]|cbn [slist_cells]; solve_Permutation..].
Qed.

Lemma slist_remove_spec head xs e ys fuel :
  e ∉ xs → (length xs < fuel)%nat →
  triple (slist_cells head (xs ++ e :: ys)) (SLIST_REMOVE fuel head e) tt
    (slist_cells head (xs ++ ys) ++ [(sle_next e, hd 0 ys)]).
Proof.
  intros He Hf. unfold SLIST_REMOVE, SLIST_FIRST. destruct xs as [|x xs].
  - simpl. heap_steps. apply slist_remove_head_spec.
  - apply not_elem_of_cons in He as [Hex He]. rewrite <-!app_comm_cons. cbn [slist_cells].
    heap_step. heap_step. heap_step.
    eapply triple_bind; [apply (slist_remove_loop_spec head x xs e ys fuel); [done|simpl in *; lia]|].
    destruct xs as [|y xs _] using rev_ind.
    + simpl. apply slist_remove_after_spec.
    + assert (∀ zs, slist_cells head (x :: (xs ++ [y]) ++ zs) =
        ((head, x) :: slist_seg (sle_next x) xs) ++ slist_cells (slist_end (sle_next x) xs) (y :: zs)) as Hsplit
        by (intros zs; rewrite <-app_assoc; simpl; by rewrite slist_cells_app).
      rewrite (last_of_app x xs y).
      change ((head, x) :: slist_cells (sle_next x) ((xs ++ [y]) ++ ys))
        with (slist_cells head (x :: (xs ++ [y]) ++ ys)). rewrite !Hsplit.
      eapply (triple_last _ _ ((head, x) :: slist_seg (sle_next x) xs));
        [apply slist_remove_after_spec|solve_Permutation..].
Qed.

Lemma slist_swap_spec head1 head2 xs ys :
  triple (slist_cells head1 xs ++ slist_cells head2 ys) (SLIST_SWAP head1 head2) tt
    (slist_cells head1 ys ++ slist_cells head2 xs).
Proof.
  unfold SLIST_SWAP, SLIST_FIRST.
  destruct (slist_cells_split head1 xs) as (r1 & -> & ->), (slist_cells_split head2 ys) as (r2 & -> & ->).
  simpl. heap_steps. solve_Permutation.
Qed.

(** ** LIST *)

Definition le_next (elm : Z) : Z := elm + field.
Definition le_prev (elm : Z) : Z := elm + field + 8.

Definition LIST_FIRST (head : Z) : M heap Z := load head.
Definition LIST_NEXT (elm : Z) : M heap Z := load (le_next elm).

Definition LIST_EMPTY (head : Z) : M heap bool :=
  f ← LIST_FIRST head; mret (bool_decide (f = 0)).

Definition LIST_INIT (head : Z) : M heap unit := store head 0.

Fixpoint LIST_FOREACH_loop (fuel : nat) (var : Z) : M heap (list Z) :=
  match fuel with
  | 0%nat => out_of_fuel
  | S fuel =>
      if decide (var = 0) then mret []
      else
        next ← LIST_NEXT var;
        rest ← LIST_FOREACH_loop fuel next;
        mret (var :: rest)
  end.

(** The elements in the order the loop visits them. *)
Definition LIST_FOREACH (fuel : nat) (head : Z) : M heap (list Z) :=
  var ← LIST_FIRST head; LIST_FOREACH_loop fuel var.

Definition LIST_INSERT_AFTER (listelm elm : Z) : M heap unit :=
  n ← LIST_NEXT listelm;
  _ ← store (le_next elm) n;
  _ ← (if decide (n ≠ 0) then
         n ← LIST_NEXT listelm; store (le_prev n) (le_next elm)
       else mret tt);
  _ ← store (le_next listelm) elm;
  store (le_prev elm) (le_next listelm).

Definition LIST_INSERT_BEFORE (listelm elm : Z) : M heap unit :=
  p ← load (le_prev listelm);
  _ ← store (le_prev elm) p;
  _ ← store (le_next elm) listelm;
  p ← load (le_prev listelm);
  _ ← store p elm;
  store (le_prev listelm) (le_next elm).

Definition LIST_INSERT_HEAD (head elm : Z) : M heap unit :=
  f ← LIST_FIRST head;
  _ ← store (le_next elm) f;
  _ ← (if decide (f ≠ 0) then
         f ← LIST_FIRST head; store (le_prev f) (le_next elm)
       else mret tt);
  _ ← store head elm;
  store (le_prev elm) head.

Definition LIST_REMOVE (elm : Z) : M heap unit :=
  n ← LIST_NEXT elm;
  _ ← (if decide (n ≠ 0) then
         n ← LIST_NEXT elm; p ← load (le_prev elm); store (le_prev n) p
       else mret tt);
  p ← load (le_prev elm);
  n ← LIST_NEXT elm;
  store p n.

Definition LIST_SWAP (head1 head2 : Z) : M heap unit :=
  swap_tmp ← LIST_FIRST head1;
  f2 ← LIST_FIRST head2;
  _ ← store head1 f2;
  _ ← store head2 swap_tmp;
  swap_tmp ← LIST_FIRST head1;
  _ ← (if decide (swap_tmp ≠ 0) then store (le_prev swap_tmp) head1 else mret tt);
  swap_tmp ← LIST_FIRST head2;
  if decide (swap_tmp ≠ 0) then store (le_prev swap_tmp) head2 else mret tt.

(** *** The cells of a list *)

(** The cells from the pointer at [p] on, to the null pointer. *)
Fixpoint list_cells (p : Z) (xs : list Z) : cells :=
  match xs with
  | [] => [(p, 0)]
  | x :: xs => (p, x) :: (le_prev x, p) :: list_cells (le_next x) xs
  end.

(** The cells of the elements [xs] and the address of the pointer after them. *)
Fixpoint list_seg (p : Z) (xs : list Z) : cells :=
  match xs with
  | [] => []
  | x :: xs => (p, x) :: (le_prev x, p) :: list_seg (le_next x) xs
  end.

Fixpoint list_end (p : Z) (xs : list Z) : Z :=
  match xs with [] => p | x :: xs => list_end (le_next x) xs end.

(** A list element that is on no list: its link may hold anything. *)
Definition node (elm n p : Z) : cells := [(le_next elm, n); (le_prev elm, p)].

Lemma list_cells_app p xs ys :
  list_cells p (xs ++ ys) = list_seg p xs ++ list_cells (list_end p xs) ys.
Proof. revert p. induction xs as [|x xs IH]; intros p; simpl; [done|]. by rewrite IH. Qed.

Lemma list_seg_app p xs ys :
  list_seg p (xs ++ ys) = list_seg p xs ++ list_seg (list_end p xs) ys.
Proof. revert p. induction xs as [|x xs IH]; intros p; simpl; [done|]. by rewrite IH. Qed.

Lemma list_cells_first p xs : (p, hd 0 xs) ∈ list_cells p xs.
Proof. destruct xs; simpl; left. Qed.

(** *** The operations *)

Lemma list_init_spec head v : triple [(head, v)] (LIST_INIT head) tt (list_cells head []).
Proof. unfold LIST_INIT. heap_steps. done. Qed.

Lemma list_empty_spec head xs :
  nonnull xs →
  triple (list_cells head xs) (LIST_EMPTY head) (bool_decide (xs = [])) (list_cells head xs).
Proof.
  intros Hn. unfold LIST_EMPTY, LIST_FIRST. destruct xs as [|x xs]; [simpl; heap_steps; done|].
  apply Forall_cons in Hn as [Hx _]. rewrite (bool_decide_eq_false_2 (x :: xs = [])) by done.
  cbn [list_cells]. heap_step. rewrite bool_decide_eq_false_2 by done. heap_steps. done.
Qed.

Lemma list_foreach_loop_spec p xs fuel v :
  nonnull xs → (length xs < fuel)%nat → v = hd 0 xs →
  triple (list_cells p xs) (LIST_FOREACH_loop fuel v) xs (list_cells p xs).
Proof.
  revert p fuel v. induction xs as [|x xs IH]; intros p [|fuel] v Hn Hf ->; try (simpl in *; lia);
    cbn [LIST_FOREACH_loop hd]; unfold LIST_NEXT.
  - heap_steps. done.
  - apply Forall_cons in Hn as [Hx Hn]. rewrite decide_False by done. cbn [list_cells].
    apply (triple_load _ _ (hd 0 xs)); [right; right; apply list_cells_first|].
    eapply (triple_call _ (list_cells (le_next x) xs) [(p, x); (le_prev x, p)]);
      [apply IH; [done|simpl in *; lia|done]|solve_Permutation|].
    heap_steps. solve_Permutation.
Qed.

Lemma list_foreach_spec head xs fuel :
  nonnull xs → (length xs < fuel)%nat →
  triple (list_cells head xs) (LIST_FOREACH fuel head) xs (list_cells head xs).
Proof.
  intros Hn Hf. unfold LIST_FOREACH, LIST_FIRST.
  apply (triple_load _ _ (hd 0 xs)); [apply list_cells_first|].
  by apply list_foreach_loop_spec.
Qed.

Lemma list_insert_head_spec head e n p xs :
  nonnull xs →
  triple (list_cells head xs ++ node e n p) (LIST_INSERT_HEAD head e) tt (list_cells head (e :: xs)).
Proof.
  intros Hn. unfold LIST_INSERT_HEAD, LIST_FIRST, node. destruct xs as [|x xs]; simpl.
  - heap_steps. solve_Permutation.
  - apply Forall_cons in Hn as [Hx _]. heap_steps. solve_Permutation.
Qed.

Lemma list_insert_after_spec head xs x ys e n p :
  nonnull ys →
  triple (list_cells head (xs ++ x :: ys) ++ node e n p) (LIST_INSERT_AFTER x e) tt
    (list_cells head (xs ++ x :: e :: ys)).
Proof.
  intros Hn. rewrite !list_cells_app. unfold LIST_INSERT_AFTER, LIST_NEXT, node.
  destruct ys as [|y ys]; simpl.
  - heap_steps. solve_Permutation.
  - apply Forall_cons in Hn as [Hy _]. heap_steps. solve_Permutation.
Qed.

Lemma list_insert_before_spec head xs x ys e n p :
  triple (list_cells head (xs ++ x :: ys) ++ node e n p) (LIST_INSERT_BEFORE x e) tt
    (list_cells head (xs ++ e :: x :: ys)).
Proof.
  rewrite !list_cells_app. unfold LIST_INSERT_BEFORE, node. simpl. heap_steps. solve_Permutation.
Qed.

Lemma list_remove_spec head xs x ys :
  nonnull ys →
  triple (list_cells head (xs ++ x :: ys)) (LIST_REMOVE x) tt
    (list_cells head (xs ++ ys) ++ node x (hd 0 ys) (list_end head xs)).
Proof.
  intros Hn. rewrite !list_cells_app. unfold LIST_REMOVE, LIST_NEXT, node.
  destruct ys as [|y ys]; simpl.
  - heap_steps. solve_Permutation.
  - apply Forall_cons in Hn as [Hy _]. heap_steps. solve_Permutation.
Qed.

Lemma list_swap_spec head1 head2 xs ys :
  nonnull xs → nonnull ys →
  triple (list_cells head1 xs ++ list_cells head2 ys) (LIST_SWAP head1 head2) tt
    (list_cells head1 ys ++ list_cells head2 xs).
Proof.
  intros Hx Hy. unfold LIST_SWAP, LIST_FIRST.
  destruct xs as [|x xs], ys as [|y ys]; simpl; rewrite ?Forall_cons in *; destruct_and?;
    heap_steps; solve_Permutation.
Qed.

End list.

(** ** Contracts *)

(** SLIST macros. For a list with elements [xs], [SLIST_FOREACH] visits
    exactly [xs] in order, and inserting, removing (with one loop step per element
    in front of the removed one) and exchanging lists have the effect of the same
    operation on [xs]; no cell but the list's and the element's is read or
    written. *)
Theorem slist_contract (field head head' x e n : Z) (xs ys : list Z) :
  (nonnull xs → triple (slist_cells field head xs) (SLIST_FOREACH field (S (length xs)) head) xs
     (slist_cells field head xs)) ∧
  (nonnull xs → triple (slist_cells field head xs) (SLIST_EMPTY head) (bool_decide (xs = []))
     (slist_cells field head xs)) ∧
  triple [(head, n)] (SLIST_INIT head) tt (slist_cells field head []) ∧
  triple (slist_cells field head xs ++ [(sle_next field e, n)]) (SLIST_INSERT_HEAD field head e) tt
    (slist_cells field head (e :: xs)) ∧
  triple (slist_cells field head (xs ++ x :: ys) ++ [(sle_next field e, n)]) (SLIST_INSERT_AFTER field x e)
    tt (slist_cells field head (xs ++ x :: e :: ys)) ∧
  triple (slist_cells field head (x :: ys)) (SLIST_REMOVE_HEAD field head) tt
    (slist_cells field head ys ++ [(sle_next field x, hd 0 ys)]) ∧
  triple (slist_cells field head (x :: e :: ys)) (SLIST_REMOVE_AFTER field x) tt
    (slist_cells field head (x :: ys) ++ [(sle_next field e, hd 0 ys)]) ∧
  (e ∉ xs → triple (slist_cells field head (xs ++ e :: ys)) (SLIST_REMOVE field (S (length xs)) head e) tt
     (slist_cells field head (xs ++ ys) ++ [(sle_next field e, hd 0 ys)])) ∧
  triple (slist_cells field head xs ++ slist_cells field head' ys) (SLIST_SWAP head head') tt
    (slist_cells field head ys ++ slist_cells field head' xs).
Proof.
  split_and!.
  - intros Hn. apply slist_foreach_spec; [done|lia].
  - intros Hn. by apply slist_empty_spec.
  - unfold SLIST_INIT. simpl. heap_steps. done.
  - apply slist_insert_head_spec.
  - apply slist_insert_after_spec.
  - apply slist_remove_head_spec.
  - apply slist_remove_after_spec.
  - intros He. apply slist_remove_spec; [done|lia].
  - apply slist_swap_spec.
Qed.

(** C17: LIST macros. The same for doubly linked lists: [LIST_FOREACH] visits the
    elements in order; inserting before, after or in front, removing an element
    without walking the list, and exchanging two lists act as on sequences, and
    keep every [le_prev] the address of the pointer to its element. *)
Theorem list_contract (field head head' x e n p : Z) (xs ys : list Z)
    (Hxs : nonnull xs) (Hys : nonnull ys) :
  triple (list_cells field head xs) (LIST_FOREACH field (S (length xs)) head) xs
    (list_cells field head xs) ∧
  triple (list_cells field head xs) (LIST_EMPTY head) (bool_decide (xs = [])) (list_cells field head xs) ∧
  triple [(head, n)] (LIST_INIT head) tt (list_cells field head []) ∧
  triple (list_cells field head xs ++ node field e n p) (LIST_INSERT_HEAD field head e) tt
    (list_cells field head (e :: xs)) ∧
  triple (list_cells field head (xs ++ x :: ys) ++ node field e n p) (LIST_INSERT_AFTER field x e) tt
    (list_cells field head (xs ++ x :: e :: ys)) ∧
  triple (list_cells field head (xs ++ x :: ys) ++ node field e n p) (LIST_INSERT_BEFORE field x e) tt
    (list_cells field head (xs ++ e :: x :: ys)) ∧
  triple (list_cells field head (xs ++ x :: ys)) (LIST_REMOVE field x) tt
    (list_cells field head (xs ++ ys) ++ node field x (hd 0 ys) (list_end field head xs)) ∧
  triple (list_cells field head xs ++ list_cells field head' ys) (LIST_SWAP field head head') tt
    (list_cells field head ys ++ list_cells field head' xs).
Proof.
  split_and!.
  - apply list_foreach_spec; [done|lia].
  - by apply list_empty_spec.
  - apply list_init_spec.
  - by apply list_insert_head_spec.
  - by apply list_insert_after_spec.
  - apply list_insert_before_spec.
  - by apply list_remove_spec.
  - by apply list_swap_spec.
Qed.

(** Two elements on a list, one to insert. *)
Definition sample_heap : heap :=
  list_to_map [(8, 100); (108, 8); (100, 200); (208, 100); (200, 0); (300, 7); (308, 7)].

Example list_run :
  fst <$> match (LIST_INSERT_AFTER 0 100 300 ≫= λ _, LIST_FOREACH 0 4 8) sample_heap with
          | Ok r => Some r | _ => None end = Some [100; 300; 200].
Proof. reflexivity. Qed.

Lemma list_contract_witness :
  triple (list_cells 0 8 [100; 200] ++ node 0 300 7 7) (LIST_INSERT_HEAD 0 8 300) tt
    (list_cells 0 8 [300; 100; 200]) ∧
  triple (list_cells 0 8 [100; 200; 5]) (LIST_REMOVE 0 5) tt
    (list_cells 0 8 [100; 200] ++ node 0 5 0 200).
Proof.
  assert (nonnull [100; 200]) as Hn by (repeat constructor; done).
  destruct (list_contract 0 8 0 5 300 7 7 [100; 200] [] Hn (Forall_nil_2 _)) as (_ & _ & _ & H1 & _ & _ & H2 & _).
  split; [exact H1|exact H2].
Defined.
