(* ===== verification/QueueTail.v ===== *)
(** * Tail queues of the kernel: sys/queue.h, STAILQ and TAILQ

    The queues whose head also keeps the address of the last next pointer, at
    offset 8. Their links are laid out like those of SLIST and LIST, and the
    [for] and [while] loops are the same, so the cells and the loops of
    QueueList.v serve here too. *)

From S2P Require Import Prelude WordHeap QueueList.

Section tail.
Context (field : Z).

#[local] Abbreviation stqe_next := (sle_next field).
#[local] Abbreviation tqe_next := (le_next field).
#[local] Abbreviation tqe_prev := (le_prev field).

(** [(head)->stqh_last] and [(head)->tqh_last]. *)
Definition last_at (head : Z) : Z := head + 8.

(** ** STAILQ *)

Definition STAILQ_FIRST (head : Z) : M heap Z := load head.
Definition STAILQ_NEXT (elm : Z) : M heap Z := load (stqe_next elm).

Definition STAILQ_EMPTY (head : Z) : M heap bool :=
  f ← STAILQ_FIRST head; mret (bool_decide (f = 0)).

Definition STAILQ_INIT (head : Z) : M heap unit :=
  _ ← store head 0; store (last_at head) head.

Definition STAILQ_FOREACH (fuel : nat) (head : Z) : M heap (list Z) :=
  var ← STAILQ_FIRST head; SLIST_FOREACH_loop field fuel var.

Definition STAILQ_CONCAT (head1 head2 : Z) : M heap unit :=
  empty ← STAILQ_EMPTY head2;
  if decide (empty = false) then
    l1 ← load (last_at head1);
    f2 ← STAILQ_FIRST head2;
    _ ← store l1 f2;
    l2 ← load (last_at head2);
    _ ← store (last_at head1) l2;
    STAILQ_INIT head2
  else mret tt.

Definition STAILQ_INSERT_AFTER (head tqelm elm : Z) : M heap unit :=
  n ← STAILQ_NEXT tqelm;
  _ ← store (stqe_next elm) n;
  _ ← (if decide (n = 0) then store (last_at head) (stqe_next elm) else mret tt);
  store (stqe_next tqelm) elm.

Definition STAILQ_INSERT_HEAD (head elm : Z) : M heap unit :=
  f ← STAILQ_FIRST head;
  _ ← store (stqe_next elm) f;
  _ ← (if decide (f = 0) then store (last_at head) (stqe_next elm) else mret tt);
  store head elm.

Definition STAILQ_INSERT_TAIL (head elm : Z) : M heap unit :=
  _ ← store (stqe_next elm) 0;
  l ← load (last_at head);
  _ ← store l elm;
  store (last_at head) (stqe_next elm).

Definition STAILQ_LAST (head : Z) : M heap Z :=
  empty ← STAILQ_EMPTY head;
  if decide (empty = true) then mret 0 else l ← load (last_at head); mret (l - field).

Definition STAILQ_REMOVE_AFTER (head elm : Z) : M heap unit :=
  n ← STAILQ_NEXT elm;
  n ← STAILQ_NEXT n;
  _ ← store (stqe_next elm) n;
  if decide (n = 0) then store (last_at head) (stqe_next elm) else mret tt.

Definition STAILQ_REMOVE_HEAD (head : Z) : M heap unit :=
  f ← STAILQ_FIRST head;
  n ← STAILQ_NEXT f;
  _ ← store head n;
  if decide (n = 0) then store (last_at head) head else mret tt.

Definition STAILQ_REMOVE (fuel : nat) (head elm : Z) : M heap unit :=
  f ← STAILQ_FIRST head;
  if decide (f = elm) then STAILQ_REMOVE_HEAD head
  else
    curelm ← STAILQ_FIRST head;
    curelm ← SLIST_REMOVE_loop field fuel curelm elm;
    STAILQ_REMOVE_AFTER head curelm.

Definition STAILQ_SWAP (head1 head2 : Z) : M heap unit :=
  swap_first ← STAILQ_FIRST head1;
  swap_last ← load (last_at head1);
  f2 ← STAILQ_FIRST head2;
  _ ← store head1 f2;
  l2 ← load (last_at head2);
  _ ← store (last_at head1) l2;
  _ ← store head2 swap_first;
  _ ← store (last_at head2) swap_last;
  empty ← STAILQ_EMPTY head1;
  _ ← (if decide (empty = true) then store (last_at head1) head1 else mret tt);
  empty ← STAILQ_EMPTY head2;
  if decide (empty = true) then store (last_at head2) head2 else mret tt.

(** ** TAILQ *)

Definition TAILQ_FIRST (head : Z) : M heap Z := load head.
Definition TAILQ_NEXT (elm : Z) : M heap Z := load (tqe_next elm).

Definition TAILQ_EMPTY (head : Z) : M heap bool :=
  f ← TAILQ_FIRST head; mret (bool_decide (f = 0)).

Definition TAILQ_INIT (head : Z) : M heap unit :=
  _ ← store head 0; store (last_at head) head.

Definition TAILQ_FOREACH (fuel : nat) (head : Z) : M heap (list Z) :=
  var ← TAILQ_FIRST head; LIST_FOREACH_loop field fuel var.

(** A next pointer and the previous pointer behind it look like a head. *)
Definition TAILQ_LAST (head : Z) : M heap Z :=
  l ← load (last_at head); p ← load (last_at l); load p.

Definition TAILQ_PREV (elm : Z) : M heap Z :=
  l ← load (tqe_prev elm); p ← load (last_at l); load p.

Fixpoint TAILQ_FOREACH_REVERSE_loop (fuel : nat) (var : Z) : M heap (list Z) :=
  match fuel with
  | 0%nat => out_of_fuel
  | S fuel =>
      if decide (var = 0) then mret []
      else
        prev ← TAILQ_PREV var;
        rest ← TAILQ_FOREACH_REVERSE_loop fuel prev;
        mret (var :: rest)
  end.

Definition TAILQ_FOREACH_REVERSE (fuel : nat) (head : Z) : M heap (list Z) :=
  var ← TAILQ_LAST head; TAILQ_FOREACH_REVERSE_loop fuel var.

Definition TAILQ_CONCAT (head1 head2 : Z) : M heap unit :=
  empty ← TAILQ_EMPTY head2;
  if decide (empty = false) then
    l1 ← load (last_at head1);
    f2 ← TAILQ_FIRST head2;
    _ ← store l1 f2;
    f2 ← TAILQ_FIRST head2;
    l1 ← load (last_at head1);
    _ ← store (tqe_prev f2) l1;
    l2 ← load (last_at head2);
    _ ← store (last_at head1) l2;
    TAILQ_INIT head2
  else mret tt.

Definition TAILQ_INSERT_AFTER (head listelm elm : Z) : M heap unit :=
  n ← TAILQ_NEXT listelm;
  _ ← store (tqe_next elm) n;
  _ ← (if decide (n ≠ 0) then
         n ← TAILQ_NEXT elm; store (tqe_prev n) (tqe_next elm)
       else store (last_at head) (tqe_next elm));
  _ ← store (tqe_next listelm) elm;
  store (tqe_prev elm) (tqe_next listelm).

Definition TAILQ_INSERT_BEFORE (listelm elm : Z) : M heap unit :=
  p ← load (tqe_prev listelm);
  _ ← store (tqe_prev elm) p;
  _ ← store (tqe_next elm) listelm;
  p ← load (tqe_prev listelm);
  _ ← store p elm;
  store (tqe_prev listelm) (tqe_next elm).

Definition TAILQ_INSERT_HEAD (head elm : Z) : M heap unit :=
  f ← TAILQ_FIRST head;
  _ ← store (tqe_next elm) f;
  _ ← (if decide (f ≠ 0) then
         f ← TAILQ_FIRST head; store (tqe_prev f) (tqe_next elm)
       else store (last_at head) (tqe_next elm));
  _ ← store head elm;
  store (tqe_prev elm) head.

Definition TAILQ_INSERT_TAIL (head elm : Z) : M heap unit :=
  _ ← store (tqe_next elm) 0;
  l ← load (last_at head);
  _ ← store (tqe_prev elm) l;
  l ← load (last_at head);
  _ ← store l elm;
  store (last_at head) (tqe_next elm).

Definition TAILQ_REMOVE (head elm : Z) : M heap unit :=
  n ← TAILQ_NEXT elm;
  _ ← (if decide (n ≠ 0) then
         n ← TAILQ_NEXT elm; p ← load (tqe_prev elm); store (tqe_prev n) p
       else p ← load (tqe_prev elm); store (last_at head) p);
  p ← load (tqe_prev elm);
  n ← TAILQ_NEXT elm;
  store p n.

Definition TAILQ_SWAP (head1 head2 : Z) : M heap unit :=
  swap_first ← TAILQ_FIRST head1;
  swap_last ← load (last_at head1);
  f2 ← TAILQ_FIRST head2;
  _ ← store head1 f2;
  l2 ← load (last_at head2);
  _ ← store (last_at head1) l2;
  _ ← store head2 swap_first;
  _ ← store (last_at head2) swap_last;
  swap_first ← TAILQ_FIRST head1;
  _ ← (if decide (swap_first ≠ 0) then store (tqe_prev swap_first) head1
       else store (last_at head1) head1);
  swap_first ← TAILQ_FIRST head2;
  if decide (swap_first ≠ 0) then store (tqe_prev swap_first) head2
  else store (last_at head2) head2.

(** ** The cells of the queues *)

Definition stailq_cells (head : Z) (xs : list Z) : cells :=
  slist_cells field head xs ++ [(last_at head, slist_end field head xs)].

Definition tailq_cells (head : Z) (xs : list Z) : cells :=
  list_cells field head xs ++ [(last_at head, list_end field head xs)].

Lemma slist_end_app p xs ys : slist_end field p (xs ++ ys) = slist_end field (slist_end field p xs) ys.
Proof. revert p. induction xs as [|x xs IH]; intros p; simpl; [done|]. by rewrite IH. Qed.

Lemma list_end_app p xs ys : list_end field p (xs ++ ys) = list_end field (list_end field p xs) ys.
Proof. revert p. induction xs as [|x xs IH]; intros p; simpl; [done|]. by rewrite IH. Qed.

(** All cells but the null pointer at the end. *)
Lemma slist_cells_end p xs : slist_cells field p xs = slist_seg field p xs ++ [(slist_end field p xs, 0)].
Proof. rewrite <-(app_nil_r xs) at 1. by rewrite slist_cells_app. Qed.

Lemma list_cells_end p xs : list_cells field p xs = list_seg field p xs ++ [(list_end field p xs, 0)].
Proof. rewrite <-(app_nil_r xs) at 1. by rewrite list_cells_app. Qed.

(** What the null tests of known pointers give. *)
Lemma null_true : bool_decide ((0 : Z) = 0) = true.
Proof. done. Qed.
Lemma null_false (x : Z) : x ≠ 0 → bool_decide (x = 0) = false.
Proof. by apply bool_decide_eq_false_2. Qed.

#[local] Ltac queue xs :=
  pose proof null_true; destruct xs as [|? xs]; simpl; rewrite ?Forall_cons in *; destruct_and?;
  repeat match goal with
  | H : ?x ≠ 0 |- _ => lazymatch goal with
      | _ : bool_decide (x = 0) = false |- _ => fail
      | _ => pose proof (null_false x H) end
  end.
#[local] Ltac run := heap_steps; try solve_Permutation.

(** ** STAILQ: the operations *)

Lemma stailq_insert_head_spec head e n xs :
  nonnull xs →
  triple (stailq_cells head xs ++ [(stqe_next e, n)]) (STAILQ_INSERT_HEAD head e) tt
    (stailq_cells head (e :: xs)).
Proof. intros Hn. unfold STAILQ_INSERT_HEAD, STAILQ_FIRST, stailq_cells. queue xs; run. Qed.

Lemma stailq_insert_after_spec head xs x ys e n :
  nonnull ys →
  triple (stailq_cells head (xs ++ x :: ys) ++ [(stqe_next e, n)]) (STAILQ_INSERT_AFTER head x e) tt
    (stailq_cells head (xs ++ x :: e :: ys)).
Proof.
  intros Hn. unfold stailq_cells, STAILQ_INSERT_AFTER, STAILQ_NEXT.
  rewrite !slist_cells_app, !slist_end_app. queue ys; run.
Qed.

Lemma stailq_insert_tail_spec head xs e n :
  triple (stailq_cells head xs ++ [(stqe_next e, n)]) (STAILQ_INSERT_TAIL head e) tt
    (stailq_cells head (xs ++ [e])).
Proof.
  unfold stailq_cells, STAILQ_INSERT_TAIL.
  rewrite slist_cells_app, slist_end_app, (slist_cells_end head xs). simpl. run.
Qed.

Lemma stailq_last_spec head xs :
  nonnull xs →
  triple (stailq_cells head xs) (STAILQ_LAST head) (List.last xs 0) (stailq_cells head xs).
Proof.
  intros Hn. unfold STAILQ_LAST, STAILQ_EMPTY, STAILQ_FIRST, stailq_cells.
  destruct xs as [|x xs _] using rev_ind; [pose proof null_true; simpl; run|].
  assert (bool_decide (hd 0 (xs ++ [x]) = 0) = false) as Hf.
  { apply null_false. destruct xs; simpl in *; by apply Forall_cons in Hn as [? _]. }
  rewrite List.last_last, slist_end_app. simpl.
  apply triple_assoc. apply (triple_load _ _ (hd 0 (xs ++ [x])));
    [apply elem_of_app; left; apply slist_cells_first|].
  heap_step. heap_step. heap_step.
  assert (stqe_next x - field = x) as -> by (unfold sle_next; lia). run.
Qed.

Lemma stailq_remove_head_spec head x ys :
  nonnull ys →
  triple (stailq_cells head (x :: ys)) (STAILQ_REMOVE_HEAD head) tt
    (stailq_cells head ys ++ [(stqe_next x, hd 0 ys)]).
Proof.
  intros Hn. unfold STAILQ_REMOVE_HEAD, STAILQ_FIRST, STAILQ_NEXT, stailq_cells. queue ys; run.
Qed.

Lemma stailq_remove_after_spec head xs x e ys :
  nonnull ys →
  triple (stailq_cells head (xs ++ x :: e :: ys)) (STAILQ_REMOVE_AFTER head x) tt
    (stailq_cells head (xs ++ x :: ys) ++ [(stqe_next e, hd 0 ys)]).
Proof.
  intros Hn. unfold STAILQ_REMOVE_AFTER, STAILQ_NEXT, stailq_cells.
  rewrite !slist_cells_app, !slist_end_app. queue ys; run.
Qed.

Lemma stailq_remove_spec head xs e ys fuel :
  nonnull ys → e ∉ xs → (length xs < fuel)%nat →
  triple (stailq_cells head (xs ++ e :: ys)) (STAILQ_REMOVE fuel head e) tt
    (stailq_cells head (xs ++ ys) ++ [(stqe_next e, hd 0 ys)]).
Proof.
  intros Hn He Hf. unfold STAILQ_REMOVE, STAILQ_FIRST. destruct xs as [|x xs].
  - unfold stailq_cells at 1. simpl. heap_step. heap_step. by apply stailq_remove_head_spec.
  - apply not_elem_of_cons in He as [Hex He]. unfold stailq_cells at 1. simpl.
    heap_step. heap_step. heap_step.
    eapply (triple_call _ (slist_cells field head (x :: xs ++ e :: ys))
      [(last_at head, slist_end field head (x :: xs ++ e :: ys))]);
      [apply slist_remove_loop_spec; [done|simpl in *; lia]|simpl; solve_Permutation|].
    fold (stailq_cells head (x :: xs ++ e :: ys)).
    destruct xs as [|y xs _] using rev_ind; [by apply (stailq_remove_after_spec head [])|].
    rewrite (last_of_app x xs y).
    pose proof (stailq_remove_after_spec head (x :: xs) y e ys Hn) as Hr.
    rewrite <-!(app_assoc xs [y]). exact Hr.
Qed.

Lemma stailq_concat_spec head1 head2 xs ys :
  nonnull ys →
  triple (stailq_cells head1 xs ++ stailq_cells head2 ys) (STAILQ_CONCAT head1 head2) tt
    (stailq_cells head1 (xs ++ ys) ++ stailq_cells head2 []).
Proof.
  intros Hn. unfold STAILQ_CONCAT, STAILQ_EMPTY, STAILQ_INIT, STAILQ_FIRST, stailq_cells.
  rewrite slist_cells_app, slist_end_app, (slist_cells_end head1 xs). queue ys; run.
Qed.

Lemma stailq_swap_spec head1 head2 xs ys :
  nonnull xs → nonnull ys →
  triple (stailq_cells head1 xs ++ stailq_cells head2 ys) (STAILQ_SWAP head1 head2) tt
    (stailq_cells head1 ys ++ stailq_cells head2 xs).
Proof.
  intros Hx Hy. unfold STAILQ_SWAP, STAILQ_EMPTY, STAILQ_FIRST, stailq_cells. queue xs; queue ys; run.
Qed.

(** ** TAILQ: the operations *)

Lemma tailq_insert_head_spec head e n p xs :
  nonnull xs →
  triple (tailq_cells head xs ++ node field e n p) (TAILQ_INSERT_HEAD head e) tt
    (tailq_cells head (e :: xs)).
Proof. intros Hn. unfold TAILQ_INSERT_HEAD, TAILQ_FIRST, tailq_cells, node. queue xs; run. Qed.

Lemma tailq_insert_after_spec head xs x ys e n p :
  nonnull ys →
  triple (tailq_cells head (xs ++ x :: ys) ++ node field e n p) (TAILQ_INSERT_AFTER head x e) tt
    (tailq_cells head (xs ++ x :: e :: ys)).
Proof.
  intros Hn. unfold tailq_cells, TAILQ_INSERT_AFTER, TAILQ_NEXT, node.
  rewrite !list_cells_app, !list_end_app. queue ys; run.
Qed.

Lemma tailq_insert_before_spec head xs x ys e n p :
  triple (tailq_cells head (xs ++ x :: ys) ++ node field e n p) (TAILQ_INSERT_BEFORE x e) tt
    (tailq_cells head (xs ++ e :: x :: ys)).
Proof.
  unfold tailq_cells, TAILQ_INSERT_BEFORE, node. rewrite !list_cells_app, !list_end_app. simpl. run.
Qed.

Lemma tailq_insert_tail_spec head xs e n p :
  triple (tailq_cells head xs ++ node field e n p) (TAILQ_INSERT_TAIL head e) tt
    (tailq_cells head (xs ++ [e])).
Proof.
  unfold tailq_cells, TAILQ_INSERT_TAIL, node.
  rewrite list_cells_app, list_end_app, (list_cells_end head xs). simpl. run.
Qed.

Lemma tailq_remove_spec head xs x ys :
  nonnull ys →
  triple (tailq_cells head (xs ++ x :: ys)) (TAILQ_REMOVE head x) tt
    (tailq_cells head (xs ++ ys) ++ node field x (hd 0 ys) (list_end field head xs)).
Proof.
  intros Hn. unfold tailq_cells, TAILQ_REMOVE, TAILQ_NEXT, node.
  rewrite !list_cells_app, !list_end_app. queue ys; run.
Qed.

Lemma tailq_last_spec head xs :
  triple (tailq_cells head xs) (TAILQ_LAST head) (List.last xs 0) (tailq_cells head xs).
Proof.
  unfold TAILQ_LAST, tailq_cells. destruct xs as [|x xs _] using rev_ind; [simpl; run|].
  rewrite List.last_last, list_cells_app, list_end_app. simpl.
  heap_step. change (last_at (tqe_next x)) with (tqe_prev x). run.
Qed.

(** The element before, or null at the first one: its previous pointer is the
    head, whose last pointer leads to the null pointer at the end. *)
Lemma tailq_prev_spec head xs x ys :
  triple (tailq_cells head (xs ++ x :: ys)) (TAILQ_PREV x) (List.last xs 0)
    (tailq_cells head (xs ++ x :: ys)).
Proof.
  unfold TAILQ_PREV, tailq_cells. destruct xs as [|z xs _] using rev_ind.
  - rewrite (list_cells_end head ([] ++ x :: ys)). simpl. run.
  - rewrite List.last_last, <-app_assoc, !list_cells_app, !list_end_app. simpl.
    heap_step. change (last_at (tqe_next z)) with (tqe_prev z). run.
Qed.

Lemma tailq_foreach_reverse_loop_spec head xs ys fuel :
  nonnull xs → (length xs < fuel)%nat →
  triple (tailq_cells head (xs ++ ys)) (TAILQ_FOREACH_REVERSE_loop fuel (List.last xs 0)) (reverse xs)
    (tailq_cells head (xs ++ ys)).
Proof.
  revert ys fuel. induction xs as [|x xs IH] using rev_ind; intros ys [|fuel] Hn Hf;
    try (rewrite ?length_app in Hf; simpl in Hf; lia); cbn [TAILQ_FOREACH_REVERSE_loop].
  - simpl. run.
  - apply Forall_app in Hn as [Hn Hx]. apply Forall_cons in Hx as [Hx _].
    rewrite List.last_last, reverse_app, <-app_assoc, decide_False by done. simpl.
    eapply triple_bind; [apply tailq_prev_spec|].
    eapply triple_bind; [apply (IH (x :: ys)); [done|rewrite length_app in Hf; simpl in Hf; lia]|].
    run.
Qed.

Lemma tailq_foreach_reverse_spec head xs fuel :
  nonnull xs → (length xs < fuel)%nat →
  triple (tailq_cells head xs) (TAILQ_FOREACH_REVERSE fuel head) (reverse xs) (tailq_cells head xs).
Proof.
  intros Hn Hf. unfold TAILQ_FOREACH_REVERSE. eapply triple_bind; [apply tailq_last_spec|].
  pose proof (tailq_foreach_reverse_loop_spec head xs [] fuel Hn Hf) as H. by rewrite app_nil_r in H.
Qed.

Lemma tailq_concat_spec head1 head2 xs ys :
  nonnull ys →
  triple (tailq_cells head1 xs ++ tailq_cells head2 ys) (TAILQ_CONCAT head1 head2) tt
    (tailq_cells head1 (xs ++ ys) ++ tailq_cells head2 []).
Proof.
  intros Hn. unfold TAILQ_CONCAT, TAILQ_EMPTY, TAILQ_INIT, TAILQ_FIRST, tailq_cells.
  rewrite list_cells_app, list_end_app, (list_cells_end head1 xs). queue ys; run.
Qed.

Lemma tailq_swap_spec head1 head2 xs ys :
  nonnull xs → nonnull ys →
  triple (tailq_cells head1 xs ++ tailq_cells head2 ys) (TAILQ_SWAP head1 head2) tt
    (tailq_cells head1 ys ++ tailq_cells head2 xs).
Proof. intros Hx Hy. unfold TAILQ_SWAP, TAILQ_FIRST, tailq_cells. queue xs; queue ys; run. Qed.

Lemma stailq_foreach_spec head xs fuel :
  nonnull xs → (length xs < fuel)%nat →
  triple (stailq_cells head xs) (STAILQ_FOREACH fuel head) xs (stailq_cells head xs).
Proof. intros Hn Hf. by apply triple_frame, slist_foreach_spec. Qed.

Lemma tailq_foreach_spec head xs fuel :
  nonnull xs → (length xs < fuel)%nat →
  triple (tailq_cells head xs) (TAILQ_FOREACH fuel head) xs (tailq_cells head xs).
Proof. intros Hn Hf. by apply triple_frame, list_foreach_spec. Qed.

End tail.

(** ** Contracts *)

(** STAILQ macros on sequences: visiting in order, inserting at both ends and
    after an element, removing, taking the last element, moving all elements of
    one queue to the end of another, exchanging two queues. Each keeps
    [stqh_last] the address of the last next pointer. *)
Theorem stailq_contract (field head head' x e n : Z) (xs ys : list Z)
    (Hxs : nonnull xs) (Hys : nonnull ys) :
  triple (stailq_cells field head xs) (STAILQ_FOREACH field (S (length xs)) head) xs
    (stailq_cells field head xs) ∧
  triple (stailq_cells field head xs ++ [(sle_next field e, n)]) (STAILQ_INSERT_HEAD field head e) tt
    (stailq_cells field head (e :: xs)) ∧
  triple (stailq_cells field head xs ++ [(sle_next field e, n)]) (STAILQ_INSERT_TAIL field head e) tt
    (stailq_cells field head (xs ++ [e])) ∧
  triple (stailq_cells field head (xs ++ x :: ys) ++ [(sle_next field e, n)])
    (STAILQ_INSERT_AFTER field head x e) tt (stailq_cells field head (xs ++ x :: e :: ys)) ∧
  triple (stailq_cells field head xs) (STAILQ_LAST field head) (List.last xs 0)
    (stailq_cells field head xs) ∧
  triple (stailq_cells field head (x :: ys)) (STAILQ_REMOVE_HEAD field head) tt
    (stailq_cells field head ys ++ [(sle_next field x, hd 0 ys)]) ∧
  (e ∉ xs → triple (stailq_cells field head (xs ++ e :: ys)) (STAILQ_REMOVE field (S (length xs)) head e) tt
     (stailq_cells field head (xs ++ ys) ++ [(sle_next field e, hd 0 ys)])) ∧
  triple (stailq_cells field head xs ++ stailq_cells field head' ys) (STAILQ_CONCAT head head') tt
    (stailq_cells field head (xs ++ ys) ++ stailq_cells field head' []) ∧
  triple (stailq_cells field head xs ++ stailq_cells field head' ys) (STAILQ_SWAP head head') tt
    (stailq_cells field head ys ++ stailq_cells field head' xs).
Proof.
  split_and!.
  - apply stailq_foreach_spec; [done|lia].
  - by apply stailq_insert_head_spec.
  - apply stailq_insert_tail_spec.
  - by apply stailq_insert_after_spec.
  - by apply stailq_last_spec.
  - by apply stailq_remove_head_spec.
  - intros He. apply stailq_remove_spec; [done..|lia].
  - by apply stailq_concat_spec.
  - by apply stailq_swap_spec.
Qed.

(** C32: TAILQ macros. On a queue with elements [xs], visiting gives [xs] and
    visiting backwards gives [xs] reversed, with one step of fuel more than
    elements; the last element and the one before any element are found without
    walking; inserting at both ends, before and after an element, removing,
    moving one queue to the end of another and exchanging two queues act as on
    sequences. Each keeps [tqh_last] the address of the last next pointer, and no
    cell but the queue's and the element's is touched. *)
Theorem tailq_contract (field head head' x e n p : Z) (xs ys : list Z)
    (Hxs : nonnull xs) (Hys : nonnull ys) :
  triple (tailq_cells field head xs) (TAILQ_FOREACH field (S (length xs)) head) xs
    (tailq_cells field head xs) ∧
  triple (tailq_cells field head xs) (TAILQ_FOREACH_REVERSE field (S (length xs)) head) (reverse xs)
    (tailq_cells field head xs) ∧
  triple (tailq_cells field head xs) (TAILQ_LAST head) (List.last xs 0) (tailq_cells field head xs) ∧
  triple (tailq_cells field head (xs ++ x :: ys)) (TAILQ_PREV field x) (List.last xs 0)
    (tailq_cells field head (xs ++ x :: ys)) ∧
  triple (tailq_cells field head xs ++ node field e n p) (TAILQ_INSERT_HEAD field head e) tt
    (tailq_cells field head (e :: xs)) ∧
  triple (tailq_cells field head xs ++ node field e n p) (TAILQ_INSERT_TAIL field head e) tt
    (tailq_cells field head (xs ++ [e])) ∧
  triple (tailq_cells field head (xs ++ x :: ys) ++ node field e n p) (TAILQ_INSERT_AFTER field head x e) tt
    (tailq_cells field head (xs ++ x :: e :: ys)) ∧
  triple (tailq_cells field head (xs ++ x :: ys) ++ node field e n p) (TAILQ_INSERT_BEFORE field x e) tt
    (tailq_cells field head (xs ++ e :: x :: ys)) ∧
  triple (tailq_cells field head (xs ++ x :: ys)) (TAILQ_REMOVE field head x) tt
    (tailq_cells field head (xs ++ ys) ++ node field x (hd 0 ys) (list_end field head xs)) ∧
  triple (tailq_cells field head xs ++ tailq_cells field head' ys) (TAILQ_CONCAT field head head') tt
    (tailq_cells field head (xs ++ ys) ++ tailq_cells field head' []) ∧
  triple (tailq_cells field head xs ++ tailq_cells field head' ys) (TAILQ_SWAP field head head') tt
    (tailq_cells field head ys ++ tailq_cells field head' xs).
Proof.
  split_and!.
  - apply tailq_foreach_spec; [done|lia].
  - apply tailq_foreach_reverse_spec; [done|lia].
  - apply tailq_last_spec.
  - apply tailq_prev_spec.
  - by apply tailq_insert_head_spec.
  - apply tailq_insert_tail_spec.
  - by apply tailq_insert_after_spec.
  - apply tailq_insert_before_spec.
  - by apply tailq_remove_spec.
  - by apply tailq_concat_spec.
  - by apply tailq_swap_spec.
Qed.

(** An empty queue at 8, with three elements put at its end and visited backwards. *)
Example tailq_run :
  match (_ ← TAILQ_INIT 8;
         _ ← TAILQ_INSERT_TAIL 0 8 100; _ ← TAILQ_INSERT_TAIL 0 8 200; _ ← TAILQ_INSERT_TAIL 0 8 300;
         _ ← TAILQ_REMOVE 0 8 200; TAILQ_FOREACH_REVERSE 0 3 8)
        (list_to_map [(8, 1); (16, 1); (100, 1); (108, 1); (200, 1); (208, 1); (300, 1); (308, 1)]) with
  | Ok (l, _) => Some l
  | _ => None
  end = Some [300; 100].
Proof. reflexivity. Qed.

Lemma tailq_contract_witness :
  triple (tailq_cells 0 8 [100; 200] ++ node 0 300 7 7) (TAILQ_INSERT_TAIL 0 8 300) tt
    (tailq_cells 0 8 [100; 200; 300]) ∧
  triple (tailq_cells 0 8 [100; 200]) (TAILQ_FOREACH_REVERSE 0 3 8) [200; 100] (tailq_cells 0 8 [100; 200]).
Proof.
  assert (nonnull [100; 200]) as Hn by (repeat constructor; done).
  destruct (tailq_contract 0 8 0 5 300 7 7 [100; 200] [] Hn (Forall_nil_2 _))
    as (_ & H1 & _ & _ & _ & H2 & _).
  split; [exact H2|exact H1].
Defined.
