(* ===== verification/ClassQueue.v ===== *)
(** * Packet queues of traffic classes: altq/altq_classq.h

    A circular list: the queue keeps its last packet, whose [m_nextpkt] is the
    first. The inline versions of the functions are modelled; the memory is that
    of WordHeap, with the member [qlen_] as one more cell. *)

From S2P Require Import Prelude WordHeap QueueList.

Section queue.
(** The offset of [m_nextpkt] in [struct mbuf]. *)
Context (nextpkt : Z).

Definition m_nextpkt (m : Z) : Z := m + nextpkt.
Definition qtail (q : Z) : Z := q.
Definition qlen (q : Z) : Z := q + 8.

Definition qhead (q : Z) : M heap Z :=
  t ← load (qtail q);
  if decide (t ≠ 0) then t ← load (qtail q); load (m_nextpkt t) else mret 0.
Definition qempty (q : Z) : M heap bool := n ← load (qlen q); mret (bool_decide (n = 0)).

(** [qlen(q)++] and [qlen(q)--] on an [int]. *)
Definition count (q d : Z) : M heap unit :=
  n ← load (qlen q);
  if decide (is_i32 (n + d)) then store (qlen q) (n + d) else undef SignedOverflow.

Definition _addq (q m : Z) : M heap unit :=
  m0 ← load (qtail q);
  m0 ← (if decide (m0 ≠ 0) then
          n ← load (m_nextpkt m0); _ ← store (m_nextpkt m) n; mret m0
        else mret m);
  _ ← store (m_nextpkt m0) m;
  _ ← store (qtail q) m;
  count q 1.

Definition _getq (q : Z) : M heap Z :=
  m ← load (qtail q);
  if decide (m = 0) then mret 0 else
  m0 ← load (m_nextpkt m);
  _ ← (if decide (m0 ≠ m) then n ← load (m_nextpkt m0); store (m_nextpkt m) n
       else store (qtail q) 0);
  _ ← count q (-1);
  _ ← store (m_nextpkt m0) 0;
  mret m0.

(** [do { prev = m0; m0 = m0->m_nextpkt; } while (m0 != m)], the result is [prev]. *)
Fixpoint before_loop (fuel : nat) (m0 m : Z) : M heap Z :=
  match fuel with
  | 0%nat => out_of_fuel
  | S fuel =>
      let prev := m0 in
      m0 ← load (m_nextpkt m0);
      if decide (m0 ≠ m) then before_loop fuel m0 m else mret prev
  end.

Definition _getq_tail (fuel : nat) (q : Z) : M heap Z :=
  m ← load (qtail q);
  if decide (m = 0) then mret 0 else
  prev ← before_loop fuel m m;
  n ← load (m_nextpkt m);
  _ ← store (m_nextpkt prev) n;
  _ ← (if decide (prev = m) then store (qtail q) 0 else store (qtail q) prev);
  _ ← count q (-1);
  _ ← store (m_nextpkt m) 0;
  mret m.

(** [for (i = 0; i < n; i++) { prev = m; m = m->m_nextpkt; }] *)
Fixpoint forward_loop (n : nat) (prev m : Z) : M heap (Z * Z) :=
  match n with
  | 0%nat => mret (prev, m)
  | S n => let prev := m in m ← load (m_nextpkt m); forward_loop n prev m
  end.

(** [random] is what the call [random()] returns, an [unsigned long]. *)
Definition _getq_random (random q : Z) : M heap Z :=
  m ← load (qtail q);
  if decide (m = 0) then mret 0 else
  n ← load (m_nextpkt m);
  m ← (if decide (n = m) then _ ← store (qtail q) 0; mret m
       else
         l ← load (qlen q);
         let n := i32 (random `mod` u64 l + 1) in
         '(prev, m) ← forward_loop (Z.to_nat n) 0 m;
         n ← load (m_nextpkt m);
         _ ← store (m_nextpkt prev) n;
         t ← load (qtail q);
         _ ← (if decide (m = t) then store (qtail q) prev else mret tt);
         mret m);
  _ ← count q (-1);
  _ ← store (m_nextpkt m) 0;
  mret m.

Definition _removeq (fuel : nat) (q m : Z) : M heap unit :=
  m0 ← load (qtail q);
  prev ← before_loop fuel m0 m;
  n ← load (m_nextpkt m);
  _ ← store (m_nextpkt prev) n;
  _ ← (if decide (prev = m) then store (qtail q) 0
       else t ← load (qtail q); if decide (t = m) then store (qtail q) prev else mret tt);
  count q (-1).

(** The result is the packets handed to [m_freem], in order. *)
Fixpoint _flushq (fuel : nat) (q : Z) : M heap (list Z) :=
  match fuel with
  | 0%nat => out_of_fuel
  | S fuel =>
      m ← _getq q;
      if decide (m ≠ 0) then rest ← _flushq fuel q; mret (m :: rest) else mret []
  end.

(** ** The queue of a sequence of packets *)

(** The cells of the packets [xs], the last pointing to [e]. *)
Fixpoint seg (xs : list Z) (e : Z) : cells :=
  match xs with
  | [] => []
  | x :: xs => (m_nextpkt x, hd e xs) :: seg xs e
  end.

(** The queue [q] holds [xs], from the head to the tail. *)
Definition queue (q : Z) (xs : list Z) : cells :=
  (qtail q, last_of 0 xs) :: (qlen q, Z.of_nat (length xs)) :: seg xs (hd 0 xs).

Lemma seg_app xs ys e : seg (xs ++ ys) e = seg xs (hd e ys) ++ seg ys e.
Proof. induction xs as [|x xs IH]; [done|]. cbn [app seg]. rewrite IH. by destruct xs. Qed.

Lemma seg_packets xs e : NoDup (seg xs e).*1 → NoDup xs.
Proof.
  induction xs as [|x xs IH]; intros Hnd; [constructor|]. cbn [seg] in Hnd. rewrite fmap_cons in Hnd.
  apply NoDup_cons in Hnd as [Hx Hnd]. constructor; [|by apply IH]. intros Hin. apply Hx. clear -Hin.
  revert e. induction xs as [|y xs IH]; intros e; [by apply elem_of_nil in Hin|]. cbn [seg]. rewrite fmap_cons.
  apply elem_of_cons in Hin as [->|Hin]; [by left|right; by apply IH].
Qed.

(** The cells are distinct, so the packets are. *)
Lemma triple_distinct {A} q xs (f : M heap A) a Q :
  (NoDup xs → triple (queue q xs) f a Q) → triple (queue q xs) f a Q.
Proof.
  intros H R m Hm. apply H; [|done]. destruct Hm as [Hnd _]. rewrite fmap_app in Hnd.
  apply NoDup_app in Hnd as (Hnd & _ & _). unfold queue in Hnd.
  rewrite !fmap_cons, !NoDup_cons in Hnd. by eapply seg_packets, Hnd.
Qed.

Lemma queue_nil q : queue q [] = [(qtail q, 0); (qlen q, 0)].
Proof. done. Qed.
Lemma queue_snoc q xs t :
  queue q (xs ++ [t]) =
  (qtail q, t) :: (qlen q, Z.of_nat (length xs) + 1) :: seg xs t ++ [(m_nextpkt t, hd t xs)].
Proof.
  unfold queue. rewrite last_of_app, seg_app, length_app. cbn [length seg hd].
  do 2 f_equal; [f_equal; lia|]. by destruct xs.
Qed.
Lemma hd_app {A} (d : A) xs ys : hd d (xs ++ ys) = hd (hd d ys) xs.
Proof. by destruct xs. Qed.

Lemma qlen_count_spec q n d : is_i32 (n + d) → triple [(qlen q, n)] (count q d) tt [(qlen q, n + d)].
Proof. intros Hn. unfold count. heap_steps. done. Qed.

Lemma addq_spec q xs m v :
  nonnull xs → Z.of_nat (length xs) + 1 < 2 ^ 31 →
  triple (queue q xs ++ [(m_nextpkt m, v)]) (_addq q m) tt (queue q (xs ++ [m])).
Proof.
  intros Hnn Hlen. unfold _addq. destruct xs as [|t ys _] using rev_ind.
  - rewrite queue_nil. change ([] ++ [m]) with ([] ++ [m]). rewrite queue_snoc. cbn [seg app hd length].
    heap_steps. heap_call (qlen_count_spec q 0 1 ltac:(unfold is_i32; lia)). solve_Permutation.
  - apply Forall_app in Hnn as [_ Ht]. apply Forall_cons in Ht as [Ht _]. rewrite length_app in Hlen. cbn [length] in Hlen.
    rewrite !queue_snoc, seg_app, length_app. cbn [seg app hd length]. rewrite hd_app. cbn [hd]. heap_steps.
    heap_call (qlen_count_spec q (Z.of_nat (length ys) + 1) 1 ltac:(unfold is_i32; lia)).
    replace (Z.of_nat (length ys + 1) + 1) with (Z.of_nat (length ys) + 1 + 1) by lia. solve_Permutation.
Qed.

Lemma qhead_spec q xs : nonnull xs → triple (queue q xs) (qhead q) (hd 0 xs) (queue q xs).
Proof.
  intros Hnn. unfold qhead. destruct xs as [|t ys _] using rev_ind.
  - rewrite queue_nil. heap_steps. done.
  - apply Forall_app in Hnn as [_ Ht]. apply Forall_cons in Ht as [Ht _]. rewrite queue_snoc, hd_app. cbn [hd].
    heap_steps. done.
Qed.

Lemma qempty_spec q xs : triple (queue q xs) (qempty q) (bool_decide (xs = [])) (queue q xs).
Proof.
  unfold qempty, queue. heap_step. replace (bool_decide (xs = [])) with (bool_decide (Z.of_nat (length xs) = 0))
    by (apply bool_decide_ext; destruct xs; simpl; split; (done || lia)). heap_steps. done.
Qed.

(** The head leaves the queue; its link is cleared. *)
Lemma getq_spec q x xs :
  nonnull (x :: xs) → Z.of_nat (length (x :: xs)) < 2 ^ 31 →
  triple (queue q (x :: xs)) (_getq q) x (queue q xs ++ [(m_nextpkt x, 0)]).
Proof.
  intros Hnn Hlen. unfold _getq. apply triple_distinct. intros Hnd.
  destruct xs as [|t ys _] using rev_ind.
  - apply Forall_cons in Hnn as [Hx _]. change [x] with ([] ++ [x]) at 1. rewrite queue_snoc, queue_nil. cbn [seg app hd length].
    change (Z.of_nat 0 + 1) with 1. heap_steps. heap_call (qlen_count_spec q 1 (-1) ltac:(unfold is_i32; lia)). heap_steps. solve_Permutation.
  - change (x :: ys ++ [t]) with ((x :: ys) ++ [t]) in *. rewrite length_app in Hlen. cbn [length] in Hlen.
    apply Forall_app in Hnn as [_ Ht]. apply Forall_cons in Ht as [Ht _].
    assert (x ≠ t) as Hxt.
    { rewrite <-app_comm_cons in Hnd. apply NoDup_cons in Hnd as [Hn _]. intros ->. apply Hn, elem_of_app. right. by left. }
    rewrite !queue_snoc. cbn [seg app hd length]. heap_steps.
    heap_call (qlen_count_spec q (Z.of_nat (S (length ys)) + 1) (-1) ltac:(unfold is_i32; lia)). heap_steps.
    replace (Z.of_nat (S (length ys)) + 1 + -1) with (Z.of_nat (length ys) + 1) by lia. solve_Permutation.
Qed.

Lemma getq_empty q : triple (queue q []) (_getq q) 0 (queue q []).
Proof. unfold _getq. rewrite queue_nil. heap_steps. done. Qed.

Lemma getq_tail_empty q fuel : triple (queue q []) (_getq_tail fuel q) 0 (queue q []).
Proof. unfold _getq_tail. rewrite queue_nil. heap_steps. done. Qed.
Lemma getq_random_empty q random : triple (queue q []) (_getq_random random q) 0 (queue q []).
Proof. unfold _getq_random. rewrite queue_nil. heap_steps. done. Qed.

(** Following the links from [p], through [xs], to [e]. *)
Lemma before_spec p xs e fuel :
  e ∉ xs → (length xs < fuel)%nat → triple (seg (p :: xs) e) (before_loop fuel p e) (last_of p xs) (seg (p :: xs) e).
Proof.
  revert p fuel. induction xs as [|x xs IH]; intros p [|fuel] He Hf; cbn [length] in Hf; try lia; cbn [before_loop].
  - cbn [seg hd]. heap_steps. done.
  - apply not_elem_of_cons in He as [Hex He]. change (seg (p :: x :: xs) e) with ((m_nextpkt p, x) :: seg (x :: xs) e).
    change (last_of p (x :: xs)) with (last_of x xs). heap_steps.
    heap_call (IH x fuel He ltac:(lia)). solve_Permutation.
Qed.

Lemma getq_tail_spec q xs t fuel :
  nonnull (xs ++ [t]) → Z.of_nat (length xs) + 1 < 2 ^ 31 → (length xs < fuel)%nat →
  triple (queue q (xs ++ [t])) (_getq_tail fuel q) t (queue q xs ++ [(m_nextpkt t, 0)]).
Proof.
  intros Hnn Hlen Hf. unfold _getq_tail. apply triple_distinct. intros Hnd.
  assert (t ∉ xs) as Ht by (apply NoDup_app in Hnd as (_ & H & _); intros Hin; apply (H _ Hin); by left).
  apply Forall_app in Hnn as [_ Hnz]. apply Forall_cons in Hnz as [Hnz _].
  rewrite queue_snoc. pose proof (before_spec t xs t fuel Ht Hf) as Hloop.
  destruct xs as [|p ys _] using rev_ind.
  - rewrite queue_nil. cbn [seg app hd length last_of foldl] in *. change (Z.of_nat 0 + 1) with 1. heap_steps.
    heap_call Hloop. heap_steps. heap_call (qlen_count_spec q 1 (-1) ltac:(unfold is_i32; lia)). heap_steps. solve_Permutation.
  - rewrite queue_snoc, last_of_app in *. rewrite seg_app, length_app, hd_app in *. cbn [seg hd app length] in *.
    assert (p ≠ t) by (intros ->; apply Ht, elem_of_app; right; by left).
    rewrite seg_app in Hloop. cbn [seg hd app] in Hloop. rewrite hd_app in Hloop. cbn [hd] in Hloop. heap_steps.
    heap_call Hloop. heap_steps.
    heap_call (qlen_count_spec q (Z.of_nat (length ys + 1) + 1) (-1) ltac:(unfold is_i32; lia)). heap_steps.
    replace (Z.of_nat (length ys + 1) + 1 + -1) with (Z.of_nat (length ys) + 1) by lia. solve_Permutation.
Qed.

(** The packet [m] leaves the middle of the ring; the packet [prev] before it
    is the last of [xs] or, when [m] is the head, the tail. *)
Lemma ring_unlink_spec q xs m ys t (n : Z) :
  triple ((qtail q, t) :: (qlen q, n) :: seg (t :: xs) m ++ seg (m :: ys) t)
    (n ← load (m_nextpkt m); store (m_nextpkt (last_of t xs)) n) tt
    ((qtail q, t) :: (qlen q, n) :: seg (xs ++ ys) t ++ [(m_nextpkt t, hd t (xs ++ ys)); (m_nextpkt m, hd t ys)]).
Proof.
  destruct xs as [|p ws _] using rev_ind.
  - cbn [seg app last_of foldl hd]. heap_steps. solve_Permutation.
  - rewrite last_of_app. cbn [seg]. rewrite <-app_assoc, !seg_app, !hd_app. cbn [seg hd app]. heap_steps. solve_Permutation.
Qed.

(** The queue around a packet that is not the last. *)
Lemma queue_around q xs m ys t :
  queue q (xs ++ m :: ys ++ [t]) ≡ₚ
  (qtail q, t) :: (qlen q, Z.of_nat (length (xs ++ ys)) + 2) :: seg (t :: xs) m ++ seg (m :: ys) t.
Proof.
  change (m :: ys ++ [t]) with ((m :: ys) ++ [t]). rewrite app_assoc, queue_snoc, seg_app, hd_app, !length_app. cbn [length seg hd].
  replace (Z.of_nat (length xs + S (length ys)) + 1) with (Z.of_nat (length xs + length ys) + 2) by lia. solve_Permutation.
Qed.

Lemma removeq_spec q xs m ys fuel :
  nonnull (xs ++ m :: ys) → Z.of_nat (length (xs ++ ys)) + 1 < 2 ^ 31 → (length xs < fuel)%nat →
  triple (queue q (xs ++ m :: ys)) (_removeq fuel q m) tt (queue q (xs ++ ys) ++ [(m_nextpkt m, hd (hd m xs) ys)]).
Proof.
  intros Hnn Hlen Hf. unfold _removeq. apply triple_distinct. intros Hnd.
  apply NoDup_app in Hnd as (_ & Hm & Hys).
  assert (m ∉ xs) as Hxs by (intros Hin; apply (Hm _ Hin); by left).
  destruct ys as [|t zs _] using rev_ind.
  - rewrite app_nil_r in *. rewrite queue_snoc. pose proof (before_spec m xs m fuel Hxs Hf) as Hloop.
    destruct xs as [|p ws _] using rev_ind.
    + rewrite queue_nil. cbn [seg app hd length last_of foldl] in *. change (Z.of_nat 0 + 1) with 1. heap_steps.
      heap_call Hloop. heap_steps. heap_call (qlen_count_spec q 1 (-1) ltac:(unfold is_i32; lia)). solve_Permutation.
    + rewrite queue_snoc, last_of_app in *. rewrite seg_app, length_app, hd_app in *. cbn [seg hd app length] in *.
      assert (p ≠ m) by (intros ->; apply Hxs, elem_of_app; right; by left).
      rewrite seg_app in Hloop. cbn [seg hd app] in Hloop. rewrite hd_app in Hloop. cbn [hd] in Hloop. heap_steps.
      heap_call Hloop. heap_steps.
      heap_call (qlen_count_spec q (Z.of_nat (length ws + 1) + 1) (-1) ltac:(unfold is_i32; lia)).
      replace (Z.of_nat (length ws + 1) + 1 + -1) with (Z.of_nat (length ws) + 1) by lia. solve_Permutation.
  - rewrite app_assoc, length_app in Hlen. cbn [length] in Hlen. rewrite queue_around, app_assoc, queue_snoc.
    assert (m ≠ t) as Hmt by (apply NoDup_cons in Hys as [Hn _]; intros ->; apply Hn, elem_of_app; right; by left).
    assert (last_of t xs ≠ m) as Hpm.
    { destruct xs as [|p ws _] using rev_ind; [by intros <-|]. rewrite last_of_app. intros ->. apply Hxs, elem_of_app. right. by left. }
    rewrite (hd_app _ zs [t]). cbn [hd]. heap_step. heap_call (before_spec t xs m fuel Hxs Hf). apply triple_assoc_inv.
    heap_call (ring_unlink_spec q xs m zs t (Z.of_nat (length (xs ++ zs)) + 2)). heap_steps.
    heap_call (qlen_count_spec q (Z.of_nat (length (xs ++ zs)) + 2) (-1) ltac:(unfold is_i32; lia)).
    replace (Z.of_nat (length (xs ++ zs)) + 2 + -1) with (Z.of_nat (length (xs ++ zs)) + 1) by lia. solve_Permutation.
Qed.

Lemma forward_spec prev p xs e :
  triple (seg (p :: xs) e) (forward_loop (S (length xs)) prev p) (last_of p xs, e) (seg (p :: xs) e).
Proof.
  revert prev p. induction xs as [|x xs IH]; intros prev p.
  - cbn [seg length forward_loop hd]. heap_steps. done.
  - change (seg (p :: x :: xs) e) with ((m_nextpkt p, x) :: seg (x :: xs) e). cbn [length].
    change (forward_loop (S (S (length xs))) prev p) with (m ← load (m_nextpkt p); forward_loop (S (length xs)) p m).
    heap_step. heap_call (IH p x). solve_Permutation.
Qed.

(** Any packet can be chosen, by the remainder of the random number. *)
Lemma getq_random_spec q xs m ys random :
  nonnull (xs ++ m :: ys) → Z.of_nat (length (xs ++ ys)) + 1 < 2 ^ 31 →
  random `mod` (Z.of_nat (length (xs ++ ys)) + 1) = Z.of_nat (length xs) →
  triple (queue q (xs ++ m :: ys)) (_getq_random random q) m (queue q (xs ++ ys) ++ [(m_nextpkt m, 0)]).
Proof.
  intros Hnn Hlen Hr. unfold _getq_random. apply triple_distinct. intros Hnd.
  apply NoDup_app in Hnd as (_ & Hm & Hys).
  assert (m ∉ xs) as Hxs by (intros Hin; apply (Hm _ Hin); by left).
  assert (∀ n, n = Z.of_nat (length (xs ++ ys)) + 1 → Z.to_nat (i32 (random `mod` u64 n + 1)) = S (length xs)) as Hn.
  { intros n ->. rewrite length_app in *. rewrite u64_id by (unfold is_u64; lia). rewrite Hr.
    rewrite i32_id by (unfold is_i32; lia). lia. }
  destruct ys as [|t zs _] using rev_ind.
  - rewrite app_nil_r in *. apply Forall_app in Hnn as [_ Hm0]. apply Forall_cons in Hm0 as [Hm0 _].
    rewrite queue_snoc. pose proof (forward_spec 0 m xs m) as Hloop.
    destruct xs as [|p ws _] using rev_ind.
    + rewrite queue_nil. cbn [seg app hd length last_of foldl] in *. change (Z.of_nat 0 + 1) with 1. heap_steps.
      heap_call (qlen_count_spec q 1 (-1) ltac:(unfold is_i32; lia)). heap_steps. solve_Permutation.
    + rewrite queue_snoc, last_of_app in *. rewrite seg_app, length_app, hd_app in *. cbn [seg hd app length] in *.
      assert (p ≠ m) by (intros ->; apply Hxs, elem_of_app; right; by left).
      assert (hd p ws ≠ m) as Hh.
      { destruct ws as [|w ws]; [done|]. cbn [hd]. intros ->. apply Hxs. by left. }
      rewrite seg_app in Hloop. cbn [seg hd app] in Hloop. rewrite hd_app in Hloop. cbn [hd] in Hloop.
      do 7 heap_step. rewrite (Hn _ eq_refl). heap_call Hloop. cbv iota. heap_steps.
      heap_call (qlen_count_spec q (Z.of_nat (length ws + 1) + 1) (-1) ltac:(unfold is_i32; lia)). heap_steps.
      replace (Z.of_nat (length ws + 1) + 1 + -1) with (Z.of_nat (length ws) + 1) by lia. solve_Permutation.
  - rewrite app_assoc, length_app in Hlen. cbn [length] in Hlen.
    assert (t ≠ 0) as Ht0 by (apply Forall_app in Hnn as [_ Hnn]; apply Forall_cons in Hnn as [_ Hnn];
      apply Forall_app in Hnn as [_ Hnn]; by apply Forall_cons in Hnn as [? _]).
    assert (m ≠ t) as Hmt by (apply NoDup_cons in Hys as [Hnin _]; intros ->; apply Hnin, elem_of_app; right; by left).
    assert (hd m xs ≠ t) as Hht.
    { destruct xs as [|w ws]; [done|]. cbn [hd]. intros ->. apply (Hm t ltac:(by left)). right. apply elem_of_app. right. by left. }
    rewrite queue_around, app_assoc, queue_snoc.
    assert (Z.of_nat (length (xs ++ zs)) + 2 = Z.of_nat (length (xs ++ zs ++ [t])) + 1) as Hl2
      by (rewrite app_assoc, (length_app (xs ++ zs)); cbn [length]; lia).
    do 2 heap_step. change (seg (t :: xs) m) with ((m_nextpkt t, hd m xs) :: seg xs m). do 5 heap_step.
    change ((m_nextpkt t, hd m xs) :: seg xs m) with (seg (t :: xs) m).
    rewrite (Hn _ Hl2). heap_call (forward_spec 0 t xs m). cbv iota.
    apply (triple_bind _ _ m ((qtail q, t) :: (qlen q, Z.of_nat (length (xs ++ zs)) + 2) :: seg (xs ++ zs) t ++
      [(m_nextpkt t, hd t (xs ++ zs)); (m_nextpkt m, hd t zs)])).
    { apply triple_assoc_inv. heap_call (ring_unlink_spec q xs m zs t (Z.of_nat (length (xs ++ zs)) + 2)). heap_steps. solve_Permutation. }
    heap_call (qlen_count_spec q (Z.of_nat (length (xs ++ zs)) + 2) (-1) ltac:(unfold is_i32; lia)). heap_steps.
    replace (Z.of_nat (length (xs ++ zs)) + 2 + -1) with (Z.of_nat (length (xs ++ zs)) + 1) by lia. solve_Permutation.
Qed.

Lemma flushq_spec q xs fuel :
  nonnull xs → Z.of_nat (length xs) < 2 ^ 31 → (length xs < fuel)%nat →
  triple (queue q xs) (_flushq fuel q) xs (queue q [] ++ map (λ x, (m_nextpkt x, 0)) xs).
Proof.
  revert fuel. induction xs as [|x xs IH]; intros [|fuel] Hnn Hlen Hf; cbn [length] in Hf; try lia; cbn [_flushq].
  - heap_call (getq_empty q). heap_steps. solve_Permutation.
  - apply Forall_cons in Hnn as Hnn'. destruct Hnn' as [Hx Hxs]. cbn [length] in Hlen.
    heap_call (getq_spec q x xs Hnn ltac:(cbn [length]; lia)). heap_step.
    heap_call (IH fuel Hxs ltac:(lia) ltac:(lia)). heap_steps. cbn [map]. solve_Permutation.
Qed.

(** ** Sequences of calls *)

Inductive queue_op :=
  | Addq (m : Z) | Getq | GetqTail | GetqRandom (random : Z) | Removeq (m : Z) | Flushq | Qhead | Qempty.

Definition queue_call (fuel : nat) (q : Z) (op : queue_op) : M heap (list Z) :=
  match op with
  | Addq m => _ ← _addq q m; mret []
  | Getq => m ← _getq q; mret [m]
  | GetqTail => m ← _getq_tail fuel q; mret [m]
  | GetqRandom random => m ← _getq_random random q; mret [m]
  | Removeq m => _ ← _removeq fuel q m; mret []
  | Flushq => _flushq fuel q
  | Qhead => m ← qhead q; mret [m]
  | Qempty => b ← qempty q; mret [if b : bool then 1 else 0]
  end.
Fixpoint queue_calls (fuel : nat) (q : Z) (ops : list queue_op) : M heap (list (list Z)) :=
  match ops with
  | [] => mret []
  | op :: ops => r ← queue_call fuel q op; rs ← queue_calls fuel q ops; mret (r :: rs)
  end.

(** The same calls on a sequence: the result, and the sequence afterwards. *)
Definition taken (i : nat) (xs : list Z) : list Z * list Z := ([default 0 (xs !! i)], delete i xs).
Definition seq_call (op : queue_op) (xs : list Z) : list Z * list Z :=
  match op with
  | Addq m => ([], xs ++ [m])
  | Getq => taken 0 xs
  | GetqTail => taken (length xs - 1) xs
  | GetqRandom random => taken (Z.to_nat (random `mod` Z.of_nat (length xs))) xs
  | Removeq m => ([], filter (λ x, x ≠ m) xs)
  | Flushq => (xs, [])
  | Qhead => ([hd 0 xs], xs)
  | Qempty => ([if bool_decide (xs = []) then 1 else 0], xs)
  end.
Fixpoint seq_calls (ops : list queue_op) (xs : list Z) : list (list Z) * list Z :=
  match ops with
  | [] => ([], xs)
  | op :: ops => let '(r, xs1) := seq_call op xs in let '(rs, xs2) := seq_calls ops xs1 in (r :: rs, xs2)
  end.

(** Only a packet that is not queued is added, only one that is queued removed. *)
Definition call_ok (pool : list Z) (op : queue_op) (xs : list Z) : Prop :=
  match op with
  | Addq m => m ∈ pool ∧ m ∉ xs
  | Removeq m => m ∈ xs
  | GetqRandom random => 0 ≤ random
  | _ => True
  end.
Fixpoint calls_ok (pool : list Z) (ops : list queue_op) (xs : list Z) : Prop :=
  match ops with
  | [] => True
  | op :: ops => call_ok pool op xs ∧ calls_ok pool ops (seq_call op xs).2
  end.

#[global] Instance call_ok_dec pool op xs : Decision (call_ok pool op xs).
Proof. destruct op; simpl; apply _. Defined.
#[global] Instance calls_ok_dec pool ops xs : Decision (calls_ok pool ops xs).
Proof. revert xs. induction ops as [|op ops IH]; intros xs; simpl; apply _. Defined.

(** The cells: the queue of [xs], and the links of the packets outside it. *)
Definition represents (q : Z) (pool xs : list Z) (P : cells) : Prop :=
  ∃ idle, P ≡ₚ queue q xs ++ idle ∧ idle.*1 ++ map m_nextpkt xs ≡ₚ map m_nextpkt pool.

Record pool_ok (pool : list Z) : Prop := {
  pool_nonnull : nonnull pool;
  pool_nodup : NoDup pool;
  pool_length : Z.of_nat (length pool) < 2 ^ 31
}.

Lemma nextpkt_in m xs : m_nextpkt m ∈ map m_nextpkt xs ↔ m ∈ xs.
Proof.
  rewrite list_elem_of_fmap. split; [|by eauto]. intros (x & E & Hx). unfold m_nextpkt in E. by replace m with x by lia.
Qed.

Lemma represents_pool q pool xs P :
  pool_ok pool → represents q pool xs P → nonnull xs ∧ (length xs ≤ length pool)%nat ∧ NoDup xs.
Proof.
  intros [Hnn Hnd _] (idle & _ & Hp). split_and!.
  - apply Forall_forall. intros x Hx. eapply Forall_forall in Hnn; [exact Hnn|]. apply nextpkt_in. rewrite <-Hp.
    apply elem_of_app. right. by apply nextpkt_in.
  - apply Permutation_length in Hp. rewrite length_app, !length_map in Hp. lia.
  - assert (NoDup (map m_nextpkt pool)) as H.
    { apply NoDup_fmap_2; [|done]. intros x y E. unfold m_nextpkt in E. lia. }
    rewrite <-Hp in H. apply NoDup_app in H as (_ & _ & H). by apply NoDup_fmap_1 in H.
Qed.

(** A packet that leaves the queue becomes idle. *)
Lemma represents_take q pool xs m ys P v :
  represents q pool (xs ++ m :: ys) P → ∃ F, P ≡ₚ queue q (xs ++ m :: ys) ++ F ∧
    represents q pool (xs ++ ys) ((queue q (xs ++ ys) ++ [(m_nextpkt m, v)]) ++ F).
Proof.
  intros (idle & HP & Hp). exists idle. split; [done|]. exists ((m_nextpkt m, v) :: idle). split; [solve_Permutation|].
  rewrite <-Hp, fmap_cons, !map_app. cbn [map fst]. solve_Permutation.
Qed.

(** From a function specified on the queue to the whole state. *)
Lemma represents_call {A B} q pool xs P (f : M heap A) (g : A → M heap B) a b :
  represents q pool xs P → (triple (queue q xs) f a (queue q xs)) → (∀ Q, triple Q (g a) b Q) →
  ∃ P', represents q pool xs P' ∧ triple P (f ≫= g) b P'.
Proof.
  intros HP Hf Hg. exists P. split; [done|]. destruct HP as (F & HP & _). rewrite HP.
  eapply triple_bind; [by apply triple_frame|apply Hg].
Qed.

Lemma taken_spec q pool xs P i (f : M heap Z) :
  represents q pool xs P → (i < length xs)%nat →
  (∀ as_ m bs, xs = as_ ++ m :: bs → length as_ = i → triple (queue q xs) f m (queue q (as_ ++ bs) ++ [(m_nextpkt m, 0)])) →
  ∃ P', represents q pool (taken i xs).2 P' ∧ triple P (m ← f; mret [m]) (taken i xs).1 P'.
Proof.
  intros HP Hi Hf. destruct (lookup_lt_is_Some_2 xs i Hi) as [m Hm]. unfold taken. cbn [fst snd]. rewrite Hm. cbn [default].
  pose proof (take_drop_middle xs i m Hm) as E. rewrite delete_take_drop. rewrite <-E in HP.
  destruct (represents_take q pool _ m _ P 0 HP) as (F & HP1 & HP2). eexists. split; [exact HP2|]. rewrite HP1.
  eapply triple_bind; [apply triple_frame; rewrite E; apply Hf; [done|]|by apply triple_ret]. rewrite length_take. lia.
Qed.

Lemma addq_represents q pool xs P m :
  pool_ok pool → represents q pool xs P → m ∈ pool → m ∉ xs →
  ∃ P', represents q pool (xs ++ [m]) P' ∧ triple P (_ ← _addq q m; mret (@nil Z)) [] P'.
Proof.
  intros Hpool HP Hm Hmx. destruct (represents_pool q pool xs P Hpool HP) as (Hnn & _ & _). destruct HP as (idle & HP & Hp).
  assert (m_nextpkt m ∈ idle.*1) as Hin.
  { apply nextpkt_in in Hm. rewrite <-Hp in Hm. apply elem_of_app in Hm as [|Hm]; [done|]. exfalso. by apply Hmx, nextpkt_in. }
  apply list_elem_of_fmap in Hin as ([a v] & Ea & Hin). cbn [fst] in Ea. subst a.
  apply elem_of_Permutation in Hin as [idle' Hi]. rewrite Hi in Hp. exists (queue q (xs ++ [m]) ++ idle'). split.
  - exists idle'. split; [done|]. rewrite <-Hp, map_app, fmap_cons. cbn [map fst]. solve_Permutation.
  - rewrite HP, Hi. rewrite (app_assoc _ [(m_nextpkt m, v)] idle' : queue q xs ++ (m_nextpkt m, v) :: idle' = _).
    eapply triple_bind; [apply triple_frame, addq_spec; [done|]|by apply triple_ret].
    apply Permutation_length in Hp. rewrite length_app, fmap_cons in Hp. cbn [length] in Hp. rewrite !length_map in Hp.
    pose proof (pool_length pool Hpool). lia.
Qed.

Lemma removeq_represents q pool xs P m fuel :
  pool_ok pool → represents q pool xs P → m ∈ xs → (length pool < fuel)%nat →
  ∃ P', represents q pool (filter (λ x, x ≠ m) xs) P' ∧ triple P (_ ← _removeq fuel q m; mret (@nil Z)) [] P'.
Proof.
  intros Hpool HP Hm Hf. destruct (represents_pool q pool xs P Hpool HP) as (Hnn & Hlen & Hnd).
  pose proof (pool_length pool Hpool). apply list_elem_of_split in Hm as (as_ & bs & ->).
  rewrite length_app in Hlen. cbn [length] in Hlen.
  apply NoDup_app in Hnd as (_ & Has & Hbs). apply NoDup_cons in Hbs as [Hbs _].
  rewrite filter_app, filter_cons_False by tauto. rewrite !filter_all; cycle 1.
  { apply Forall_forall. intros x Hx ->. done. }
  { apply Forall_forall. intros x Hx ->. apply (Has m Hx). by left. }
  destruct (represents_take q pool as_ m bs P (hd (hd m as_) bs) HP) as (F & HP1 & HP2). eexists. split; [exact HP2|]. rewrite HP1.
  eapply triple_bind; [apply triple_frame, removeq_spec; [done|rewrite length_app; lia|lia]|by apply triple_ret].
Qed.

Lemma flushq_represents q pool xs P fuel :
  pool_ok pool → represents q pool xs P → (length pool < fuel)%nat →
  ∃ P', represents q pool [] P' ∧ triple P (_flushq fuel q) xs P'.
Proof.
  intros Hpool HP Hf. destruct (represents_pool q pool xs P Hpool HP) as (Hnn & Hlen & _).
  pose proof (pool_length pool Hpool). destruct HP as (idle & HP & Hp).
  exists ((queue q [] ++ map (λ x, (m_nextpkt x, 0)) xs) ++ idle). split.
  - exists (map (λ x, (m_nextpkt x, 0)) xs ++ idle). split; [by rewrite app_assoc|].
    rewrite <-Hp, fmap_app, app_nil_r. rewrite Permutation_app_comm. f_equiv. by rewrite <-list_fmap_compose.
  - rewrite HP. apply triple_frame, flushq_spec; [done|lia|lia].
Qed.

(** Every call does to the packets what it does to the sequence. *)
Lemma queue_call_spec q pool xs P fuel op :
  pool_ok pool → represents q pool xs P → call_ok pool op xs → (length pool < fuel)%nat →
  ∃ P', represents q pool (seq_call op xs).2 P' ∧ triple P (queue_call fuel q op) (seq_call op xs).1 P'.
Proof.
  intros Hpool HP Hop Hf. destruct (represents_pool q pool xs P Hpool HP) as (Hnn & Hlen & Hnd).
  pose proof (pool_length pool Hpool) as Hmax.
  destruct op as [m| | |random|m| | |]; cbn [call_ok queue_call seq_call fst snd] in *.
  - destruct Hop. by apply addq_represents.
  - destruct xs as [|x xs]; [by apply (represents_call q pool [] P _ _ 0); [|apply getq_empty|intros; apply triple_ret]|].
    apply taken_spec; [done|simpl; lia|]. intros [|? as_] m bs E Ei; [|done]. injection E as -> ->.
    apply getq_spec; [done|simpl in *; lia].
  - destruct xs as [|x xs]; [by apply (represents_call q pool [] P _ _ 0); [|apply getq_tail_empty|intros; apply triple_ret]|].
    apply taken_spec; [done|simpl; lia|]. intros as_ m bs E Ei. rewrite E in *. rewrite length_app in *. cbn [length] in *.
    destruct bs; [|cbn [length] in *; lia]. rewrite app_nil_r. apply getq_tail_spec; [done|lia|lia].
  - destruct xs as [|x xs]; [by apply (represents_call q pool [] P _ _ 0); [|apply getq_random_empty|intros; apply triple_ret]|].
    pose proof (Z.mod_pos_bound random (Z.of_nat (length (x :: xs))) ltac:(simpl; lia)) as Hmod.
    apply taken_spec; [done|lia|]. intros as_ m bs E Ei. rewrite E in *. rewrite length_app in *. cbn [length] in *.
    apply getq_random_spec; [done|rewrite length_app; lia|]. rewrite length_app.
    replace (Z.of_nat (length as_ + length bs) + 1) with (Z.of_nat (length as_ + S (length bs))) by lia.
    apply (f_equal Z.of_nat) in Ei. by rewrite Z2Nat.id in Ei by apply Hmod.
  - by apply removeq_represents.
  - by apply flushq_represents.
  - apply (represents_call q pool xs P _ _ (hd 0 xs)); [done|by apply qhead_spec|intros; by apply triple_ret].
  - apply (represents_call q pool xs P _ _ (bool_decide (xs = []))); [done|apply qempty_spec|intros; by apply triple_ret].
Qed.

Lemma queue_calls_spec q pool xs P fuel ops :
  pool_ok pool → represents q pool xs P → calls_ok pool ops xs → (length pool < fuel)%nat →
  ∃ P', represents q pool (seq_calls ops xs).2 P' ∧ triple P (queue_calls fuel q ops) (seq_calls ops xs).1 P'.
Proof.
  intros Hpool HP Hops Hf. revert xs P HP Hops. induction ops as [|op ops IH]; intros xs P HP Hops.
  - exists P. split; [done|]. by apply triple_ret.
  - destruct Hops as [Hop Hops]. destruct (queue_call_spec q pool xs P fuel op Hpool HP Hop Hf) as (P1 & HP1 & Hc).
    destruct (IH _ _ HP1 Hops) as (P2 & HP2 & Hcs). cbn [queue_calls seq_calls].
    destruct (seq_call op xs) as [r xs1]. cbn [fst snd] in *. destruct (seq_calls ops xs1) as [rs xs2]. cbn [fst snd] in *.
    exists P2. split; [done|]. eapply triple_bind; [exact Hc|]. eapply triple_bind; [exact Hcs|]. by apply triple_ret.
Qed.

End queue.

(** ** Properties *)

(** C14: a class queue is a sequence. From any heap with a queue of the packets xs
    and the links of the packets outside it, any sequence of calls returns what
    the calls on the sequence return and leaves the queue of the resulting
    sequence: _addq appends, _getq takes the first, _getq_tail the last and
    _getq_random the one the remainder of the random number selects, each NULL
    exactly on an empty queue; _removeq removes a packet that is queued; _flushq
    gives all up in order. The counter is always the number of packets, every loop
    ends within one turn per packet, and no other cell is touched. *)
Theorem class_queue_is_a_sequence (nextpkt q : Z) (pool xs : list Z) (P : cells) (m : heap) (ops : list queue_op)
    (Hpool : pool_ok pool) (HP : represents nextpkt q pool xs P) (Hops : calls_ok pool ops xs) (Hm : holds m P) :
  ∃ P' m', queue_calls nextpkt (S (length pool)) q ops m = Ok ((seq_calls ops xs).1, m') ∧
    represents nextpkt q pool (seq_calls ops xs).2 P' ∧ holds m' P'.
Proof.
  destruct (queue_calls_spec nextpkt q pool xs P (S (length pool)) ops Hpool HP Hops ltac:(lia)) as (P' & HP' & Ht).
  destruct (triple_run _ _ _ _ m Ht Hm) as (m' & E & Hm'). eauto.
Qed.

(** An empty queue and three packets outside it. *)
Definition sample_queue : cells := [(1000, 0); (1008, 0); (18, 7); (28, 7); (38, 7)].
Definition sample_calls : list queue_op := [Addq 10; Addq 20; Addq 30; GetqRandom 4; Qhead; Addq 20; GetqTail; Removeq 10; Getq; Getq].

Lemma class_queue_is_a_sequence_witness :
  (∃ P' m', queue_calls 8 4 1000 sample_calls (list_to_map sample_queue) = Ok ((seq_calls sample_calls []).1, m') ∧
    represents 8 1000 [10; 20; 30] (seq_calls sample_calls []).2 P' ∧ holds m' P') ∧
  seq_calls sample_calls [] = ([[]; []; []; [20]; [10]; []; [20]; []; [30]; [0]], []).
Proof.
  split; [|reflexivity]. apply (class_queue_is_a_sequence 8 1000 [10; 20; 30] [] sample_queue).
  - split; [repeat constructor; lia|apply (bool_decide_unpack _); vm_compute; exact I|vm_compute; reflexivity].
  - exists [(18, 7); (28, 7); (38, 7)]. split; reflexivity.
  - apply (bool_decide_unpack _). vm_compute. exact I.
  - split; [apply (bool_decide_unpack _); vm_compute; exact I|]. repeat constructor.
Defined.
