(* ===== verification/CamQueue.v ===== *)
(** * Queues of SCSI commands: cam/cam_queue.h

    A device's commands ([union ccb]) wait in a priority queue; run levels can be
    frozen, and the counters of the queue say how many openings of the device
    queue are available or held. The heap itself ([camq_insert], [camq_remove]) is
    elsewhere in the kernel: a class, with the laws the header states. *)

From S2P Require Import Prelude.
From Stdlib Require Import Sorting.Sorted.

(** [cam_rl] and [cam_pinfo] of cam/cam.h. *)
Definition CAM_RL_HOST : Z := 0.
Definition CAM_RL_BUS : Z := 1.
Definition CAM_RL_XPT : Z := 2.
Definition CAM_RL_DEV : Z := 3.
Definition CAM_RL_NORMAL : Z := 4.
Definition CAM_RL_VALUES : Z := 5.
Definition CAM_PRIORITY_TO_RL (x : Z) : Z := Z.shiftr x 8.
Definition CAM_ACTIVE_INDEX : Z := -2.

Record cam_pinfo := Pinfo { priority : Z; generation : Z; index : Z }.

(** The array holds addresses of entries from [CAMQ_HEAD] on. *)
Record camq := Camq {
  queue_array : list Z; array_size : Z; entries : Z; q_generation : Z; qfrozen_cnt : list Z }.

Record cam_ccbq := Ccbq {
  queue : camq; devq_openings : Z; dev_openings : Z; dev_active : Z; held : Z }.

(** A queue and the priority information of all commands, by address. *)
Abbreviation pinfos := (gmap Z cam_pinfo).
Abbreviation cam := (cam_ccbq * pinfos)%type.

Definition CAMQ_HEAD : Z := 1.

Class CamqHeap := {
  camq_insert : Z → camq → pinfos → camq * pinfos;
  camq_remove : Z → camq → pinfos → Z * camq * pinfos
}.

(** ** Access to the members *)

(** [d] is added to an [int]. *)
Definition int_add (a d : Z) : M cam Z := if decide (is_i32 (a + d)) then mret (a + d) else undef SignedOverflow.

Definition add_devq_openings (d : Z) : M cam unit :=
  '(b, ps) ← get; v ← int_add (devq_openings b) d;
  put (Ccbq (queue b) v (dev_openings b) (dev_active b) (held b), ps).
Definition add_dev_openings (d : Z) : M cam unit :=
  '(b, ps) ← get; v ← int_add (dev_openings b) d;
  put (Ccbq (queue b) (devq_openings b) v (dev_active b) (held b), ps).
Definition add_dev_active (d : Z) : M cam unit :=
  '(b, ps) ← get; v ← int_add (dev_active b) d;
  put (Ccbq (queue b) (devq_openings b) (dev_openings b) v (held b), ps).
Definition add_held (d : Z) : M cam unit :=
  '(b, ps) ← get; v ← int_add (held b) d;
  put (Ccbq (queue b) (devq_openings b) (dev_openings b) (dev_active b) v, ps).
Definition set_queue (q : camq) : M cam unit :=
  '(b, ps) ← get; put (Ccbq q (devq_openings b) (dev_openings b) (dev_active b) (held b), ps).

(** [ccbq->queue.qfrozen_cnt[rl]] and its assignment. *)
Definition qfrozen (rl : Z) : M cam Z :=
  '(b, _) ← get;
  if decide (0 ≤ rl) then
    match qfrozen_cnt (queue b) !! Z.to_nat rl with Some c => mret c | None => undef OutOfBounds end
  else undef OutOfBounds.
Definition set_qfrozen (rl v : Z) : M cam unit :=
  '(b, ps) ← get;
  let q := queue b in
  if decide (0 ≤ rl < Z.of_nat (length (qfrozen_cnt q))) then
    set_queue (Camq (queue_array q) (array_size q) (entries q) (q_generation q) (<[Z.to_nat rl := v]> (qfrozen_cnt q)))
  else undef OutOfBounds.

(** [ccbq->queue.queue_array[i]], and the information an entry points to. *)
Definition entry_at (i : Z) : M cam Z :=
  '(b, _) ← get;
  if decide (0 ≤ i) then
    match queue_array (queue b) !! Z.to_nat i with Some e => mret e | None => undef OutOfBounds end
  else undef OutOfBounds.
Definition pinfo (e : Z) : M cam cam_pinfo :=
  '(_, ps) ← get; match ps !! e with Some p => mret p | None => undef KernelFault end.

(** ** The operations *)

Section operations.
Context {CH : CamqHeap}.

Definition CAMQ_GET_PRIO : M cam Z :=
  '(b, _) ← get;
  if decide (entries (queue b) > 0) then e ← entry_at CAMQ_HEAD; p ← pinfo e; mret (priority p) else mret 0.

Definition cam_ccbq_pending_ccb_count : M cam Z := '(b, _) ← get; mret (entries (queue b)).

Definition cam_ccbq_take_opening : M cam unit := _ ← add_devq_openings (-1); add_held 1.

Definition cam_ccbq_insert_ccb (new_ccb : Z) : M cam Z :=
  _ ← add_held (-1);
  '(b, ps) ← get;
  let '(q, ps) := camq_insert new_ccb (queue b) ps in
  _ ← put (Ccbq q (devq_openings b) (dev_openings b) (dev_active b) (held b), ps);
  p ← pinfo new_ccb;
  c ← qfrozen (CAM_PRIORITY_TO_RL (priority p));
  if decide (c > 0) then _ ← add_devq_openings 1; _ ← add_held 1; mret 1 else mret 0.

Definition cam_ccbq_remove_ccb (ccb : Z) : M cam Z :=
  p ← pinfo ccb;
  '(b, ps) ← get;
  let '(_, q, ps) := camq_remove (index p) (queue b) ps in
  _ ← put (Ccbq q (devq_openings b) (dev_openings b) (dev_active b) (held b), ps);
  p ← pinfo ccb;
  c ← qfrozen (CAM_PRIORITY_TO_RL (priority p));
  if decide (c > 0) then _ ← add_devq_openings (-1); _ ← add_held (-1); mret 1 else mret 0.

Definition cam_ccbq_peek_ccb (index : Z) : M cam Z := entry_at index.

Definition cam_ccbq_send_ccb (send_ccb : Z) : M cam unit :=
  p ← pinfo send_ccb;
  '(b, ps) ← get;
  _ ← put (b, <[send_ccb := Pinfo (priority p) (generation p) CAM_ACTIVE_INDEX]> ps);
  _ ← add_dev_active 1;
  add_dev_openings (-1).

Definition cam_ccbq_ccb_done (done_ccb : Z) : M cam unit :=
  _ ← add_dev_active (-1); _ ← add_dev_openings 1; add_held 1.

Definition cam_ccbq_release_opening : M cam unit := _ ← add_held (-1); add_devq_openings 1.

(** [for (p = 0; p < CAM_RL_VALUES && qfrozen_cnt[p] == 0; p++);] *)
Fixpoint first_frozen (fuel : nat) (p : Z) : M cam Z :=
  match fuel with
  | 0%nat => out_of_fuel
  | S fuel =>
      if decide (p < CAM_RL_VALUES) then
        c ← qfrozen p; if decide (c = 0) then first_frozen fuel (p + 1) else mret p
      else mret p
  end.

(** [for (i = rl; i < CAM_RL_VALUES; i++) qfrozen_cnt[i] += d;], modulo 2^32. *)
Fixpoint add_frozen (fuel : nat) (i d : Z) : M cam unit :=
  match fuel with
  | 0%nat => out_of_fuel
  | S fuel =>
      if decide (i < CAM_RL_VALUES) then
        c ← qfrozen i; _ ← set_qfrozen i (u32 (c + d)); add_frozen fuel (i + 1) d
      else mret tt
  end.

(** The loop over the entries: those of a run level from [lo] to below [hi]
    change the counters by [d]; the result is their number. *)
Fixpoint count_loop (fuel : nat) (i lo hi d n : Z) : M cam Z :=
  match fuel with
  | 0%nat => out_of_fuel
  | S fuel =>
      '(b, _) ← get;
      if decide (i ≤ entries (queue b)) then
        e ← entry_at i;
        p ← pinfo e;
        let rrl := CAM_PRIORITY_TO_RL (priority p) in
        if decide (rrl < lo) then count_loop fuel (i + 1) lo hi d n
        else if decide (rrl >= hi) then mret n
        else
          _ ← add_devq_openings d; _ ← add_held d;
          n ← int_add n 1;
          count_loop fuel (i + 1) lo hi d n
      else mret n
  end.

Definition cam_ccbq_freeze (fuel : nat) (rl cnt : Z) : M cam Z :=
  p ← first_frozen fuel 0;
  let n := Z.min rl p in
  _ ← add_frozen fuel rl cnt;
  if decide (n = p) then mret 0 else count_loop fuel CAMQ_HEAD n p 1 0.

Definition cam_ccbq_release (fuel : nat) (rl cnt : Z) : M cam Z :=
  _ ← add_frozen fuel rl (- cnt);
  n ← first_frozen fuel 0;
  let p := Z.min rl n in
  if decide (n = p) then mret 0 else count_loop fuel CAMQ_HEAD p n (-1) 0.

Definition cam_ccbq_frozen (rl : Z) : M cam Z := qfrozen rl.
Definition cam_ccbq_frozen_top : M cam Z := p ← CAMQ_GET_PRIO; qfrozen (CAM_PRIORITY_TO_RL p).
End operations.

(** ** What the operations keep *)

(** The entries in the order of the array, and their run levels. *)
Definition members (q : camq) : list Z := take (Z.to_nat (entries q)) (drop 1 (queue_array q)).
Definition level (ps : pinfos) (e : Z) : Z :=
  match ps !! e with Some p => CAM_PRIORITY_TO_RL (priority p) | None => 0 end.
Definition levels (q : camq) (ps : pinfos) : list Z := map (level ps) (members q).

(** The first frozen run level: the freeze counts never decrease with the level. *)
Fixpoint zeros (cs : list Z) : Z := match cs with [] => 0 | c :: cs => if decide (c = 0) then 1 + zeros cs else 0 end.
Definition counts_ok (cs : list Z) : Prop :=
  ∃ a b c d e, cs = [a; b; c; d; e] ∧ 0 ≤ a ≤ b ∧ b ≤ c ≤ d ∧ d ≤ e < 2 ^ 32.

Record camq_ok (q : camq) (ps : pinfos) : Prop := {
  camq_entries : 0 ≤ entries q < 2 ^ 30;
  camq_array : entries q ≤ array_size q ∧ Z.of_nat (length (queue_array q)) = array_size q + 1;
  camq_nodup : NoDup (members q);
  camq_pinfos : ∀ e, e ∈ members q → is_Some (ps !! e) ∧ 0 ≤ level ps e < CAM_RL_VALUES;
  camq_index : ∀ i e, members q !! i = Some e → index <$> ps !! e = Some (Z.of_nat i + 1);
  camq_counts : counts_ok (qfrozen_cnt q)
}.

(** The entries of [ls] from [lo] to below [hi], and those the loop finds. *)
Definition in_levels (lo hi : Z) (ls : list Z) : Z := Z.of_nat (length (filter (λ l, lo ≤ l < hi) ls)).
Fixpoint loop_count (lo hi : Z) (ls : list Z) : Z :=
  match ls with
  | [] => 0
  | l :: ls =>
      if decide (l < lo) then loop_count lo hi ls else if decide (l >= hi) then 0 else 1 + loop_count lo hi ls
  end.

(** No entry to count behind one of a level from [hi] on. *)
Fixpoint findable (lo hi : Z) (ls : list Z) : Prop :=
  match ls with
  | [] => True
  | l :: ls => if decide (l >= hi) then Forall (λ l', ¬ lo ≤ l' < hi) ls else findable lo hi ls
  end.

Lemma loop_count_all lo hi ls : findable lo hi ls → loop_count lo hi ls = in_levels lo hi ls.
Proof.
  unfold in_levels. induction ls as [|l ls IH]; [done|]. cbn [findable loop_count]. intros H. rewrite filter_cons.
  destruct (decide (l >= hi)) as [Hge|Hlt].
  - rewrite (decide_False (P := lo ≤ l < hi)) by lia. rewrite (filter_none _ ls H).
    destruct (decide (l < lo)); [|done]. clear -H Hge. induction H as [|l' ls Hl' _ IH]; [done|]. cbn [loop_count].
    destruct (decide (l' < lo)); [done|]. by rewrite decide_True by lia.
  - rewrite (IH H). destruct (decide (l < lo)), (decide (lo ≤ l < hi)); try lia. cbn [length]. lia.
Qed.

Lemma findable_sorted lo hi ls : StronglySorted Z.le ls → findable lo hi ls.
Proof.
  induction 1 as [|l ls _ IH Hl]; [done|]. cbn [findable]. destruct (decide _); [|done].
  eapply Forall_impl; [exact Hl|]. simpl. lia.
Qed.
Lemma findable_below lo hi ls : Forall (λ l, l < hi) ls → findable lo hi ls.
Proof. induction 1; [done|]. cbn [findable]. by rewrite decide_False by lia. Qed.

Section facts.
Context {CH : CamqHeap}.

(** The promises of the heap: an entry is added to, or taken from, the members;
    indices are kept; priorities and freeze counts stay. *)
Definition same_priorities (ps ps' : pinfos) : Prop := ∀ e, priority <$> ps' !! e = priority <$> ps !! e.

Class CamqLaws : Prop := {
  camq_insert_law e q ps :
    camq_ok q ps → e ∉ members q → is_Some (ps !! e) → 0 ≤ level ps e < CAM_RL_VALUES → entries q < array_size q →
    entries q + 1 < 2 ^ 30 →
    let '(q', ps') := camq_insert e q ps in
    camq_ok q' ps' ∧ members q' ≡ₚ e :: members q ∧ entries q' = entries q + 1 ∧
    qfrozen_cnt q' = qfrozen_cnt q ∧ same_priorities ps ps';
  camq_remove_law i e q ps :
    camq_ok q ps → members q !! i = Some e →
    let '(e', q', ps') := camq_remove (Z.of_nat i + 1) q ps in
    e' = e ∧ camq_ok q' ps' ∧ e :: members q' ≡ₚ members q ∧ entries q' = entries q - 1 ∧
    qfrozen_cnt q' = qfrozen_cnt q ∧ same_priorities ps ps'
}.

Lemma level_same ps ps' e : same_priorities ps ps' → level ps' e = level ps e.
Proof. intros H. specialize (H e). unfold level. destruct (ps !! e), (ps' !! e); simplify_eq/=; congruence. Qed.

(** Counters. *)
Definition room (b : cam_ccbq) : Prop :=
  - 2 ^ 30 < devq_openings b < 2 ^ 30 ∧ - 2 ^ 30 < dev_openings b < 2 ^ 30 ∧
  - 2 ^ 30 < dev_active b < 2 ^ 30 ∧ - 2 ^ 30 < held b < 2 ^ 30.
Definition shift (b : cam_ccbq) (dq do da h : Z) : cam_ccbq :=
  Ccbq (queue b) (devq_openings b + dq) (dev_openings b + do) (dev_active b + da) (held b + h).

Lemma int_add_ok a d (s : cam) : is_i32 (a + d) → int_add a d s = Ok (a + d, s).
Proof. intros H. unfold int_add. by rewrite decide_True. Qed.
Lemma add_devq_ok d b ps : is_i32 (devq_openings b + d) → add_devq_openings d (b, ps) = Ok (tt, (shift b d 0 0 0, ps)).
Proof.
  intros H. unfold add_devq_openings, shift. rewrite get_bind. erewrite bind_ok by by apply int_add_ok. by rewrite !Z.add_0_r.
Qed.
Lemma add_devo_ok d b ps : is_i32 (dev_openings b + d) → add_dev_openings d (b, ps) = Ok (tt, (shift b 0 d 0 0, ps)).
Proof.
  intros H. unfold add_dev_openings, shift. rewrite get_bind. erewrite bind_ok by by apply int_add_ok. by rewrite !Z.add_0_r.
Qed.
Lemma add_deva_ok d b ps : is_i32 (dev_active b + d) → add_dev_active d (b, ps) = Ok (tt, (shift b 0 0 d 0, ps)).
Proof.
  intros H. unfold add_dev_active, shift. rewrite get_bind. erewrite bind_ok by by apply int_add_ok. by rewrite !Z.add_0_r.
Qed.
Lemma add_held_ok d b ps : is_i32 (held b + d) → add_held d (b, ps) = Ok (tt, (shift b 0 0 0 d, ps)).
Proof.
  intros H. unfold add_held, shift. rewrite get_bind. erewrite bind_ok by by apply int_add_ok. by rewrite !Z.add_0_r.
Qed.
Lemma shift_zero d b : shift b (d * 0) 0 0 (d * 0) = b.
Proof. unfold shift. destruct b. simpl. f_equal; lia. Qed.
Lemma shift_shift b x y z w x' y' z' w' :
  shift (shift b x y z w) x' y' z' w' = shift b (x + x') (y + y') (z + z') (w + w').
Proof. unfold shift. simpl. f_equal; lia. Qed.

(** Reading entries. *)
Lemma entry_ok b ps i e :
  camq_ok (queue b) ps → members (queue b) !! i = Some e →
  entry_at (Z.of_nat i + 1) (b, ps) = Ok (e, (b, ps)) ∧ Z.of_nat i + 1 ≤ entries (queue b) ∧
  ∃ p, ps !! e = Some p ∧ CAM_PRIORITY_TO_RL (priority p) = level ps e.
Proof.
  intros Hok Hi. pose proof (camq_entries _ _ Hok) as He. unfold members in Hi.
  apply lookup_take_Some in Hi as Hi'. destruct Hi' as [Hd Hlt]. rewrite lookup_drop in Hd. split_and!; [|lia|].
  - unfold entry_at. rewrite get_bind. rewrite decide_True by lia. by replace (Z.to_nat (Z.of_nat i + 1)) with (1 + i)%nat by lia; rewrite Hd.
  - apply list_elem_of_lookup_2, (camq_pinfos _ _ Hok) in Hi as [[p Hp] _]. exists p. split; [done|]. unfold level. by rewrite Hp.
Qed.

Lemma length_members q ps : camq_ok q ps → Z.of_nat (length (members q)) = entries q.
Proof.
  intros Hok. pose proof (camq_entries _ _ Hok). pose proof (camq_array _ _ Hok). unfold members.
  rewrite length_take, length_drop. lia.
Qed.

Lemma loop_count_bounds lo hi ls : 0 ≤ loop_count lo hi ls ≤ Z.of_nat (length ls).
Proof. induction ls as [|l ls IH]; [done|]. cbn [loop_count length]. repeat case_decide; lia. Qed.

(** The loop over the entries moves one opening per entry it counts. *)
Lemma count_loop_spec ps lo hi d es : (d = 1 ∨ d = -1) →
  ∀ b done fuel n, camq_ok (queue b) ps → members (queue b) = done ++ es → (length es < fuel)%nat →
  0 ≤ n → n + Z.of_nat (length es) < 2 ^ 30 →
  - 2 ^ 31 ≤ devq_openings b - Z.of_nat (length es) ∧ devq_openings b + Z.of_nat (length es) < 2 ^ 31 →
  - 2 ^ 31 ≤ held b - Z.of_nat (length es) ∧ held b + Z.of_nat (length es) < 2 ^ 31 →
  let k := loop_count lo hi (map (level ps) es) in
  count_loop fuel (Z.of_nat (length done) + 1) lo hi d n (b, ps) = Ok (n + k, (shift b (d * k) 0 0 (d * k), ps)).
Proof.
  intros Hd. induction es as [|e es IH]; intros b dn [|fuel] n Hok Hmem Hf Hn Hnb Hdq Hh; cbn [length] in *; try lia;
    cbn [count_loop map loop_count].
  - rewrite get_bind. rewrite decide_False.
    + by rewrite shift_zero, Z.add_0_r.
    + apply length_members in Hok. rewrite app_nil_r in Hmem. rewrite Hmem in Hok. lia.
  - assert (members (queue b) !! length dn = Some e) as Hi by (by rewrite Hmem, lookup_app_r, Nat.sub_diag).
    destruct (entry_ok b ps _ e Hok Hi) as (Ee & Hle & p & Hp & Hl).
    rewrite get_bind, decide_True by done. erewrite bind_ok by exact Ee.
    assert (pinfo e (b, ps) = Ok (p, (b, ps))) as Epi by (unfold pinfo; rewrite get_bind; by rewrite Hp).
    erewrite bind_ok by exact Epi. rewrite Hl. clear Epi Ee.
    assert (members (queue b) = (dn ++ [e]) ++ es) as Hmem' by (by rewrite <-app_assoc).
    replace (Z.of_nat (length dn) + 1 + 1) with (Z.of_nat (length (dn ++ [e])) + 1) by (rewrite length_app; simpl; lia).
    destruct (decide (level ps e < lo)); [apply IH; try done; lia|].
    destruct (decide (level ps e >= hi)).
    + by rewrite shift_zero, Z.add_0_r.
    + erewrite bind_ok by (apply add_devq_ok; unfold is_i32; lia).
      erewrite bind_ok by (apply add_held_ok; unfold is_i32; simpl; lia).
      erewrite bind_ok by (apply int_add_ok; unfold is_i32; lia).
      rewrite shift_shift. rewrite (IH _ (dn ++ [e])); try done; simpl; try lia.
      rewrite shift_shift. pose proof (loop_count_bounds lo hi (map (level ps) es)).
      f_equal. f_equal; [lia|]. f_equal. destruct Hd as [-> | ->]; f_equal; lia.
Qed.

(** ** Freeze counts *)

Definition set_counts (cs : list Z) (b : cam_ccbq) : cam_ccbq :=
  let q := queue b in
  Ccbq (Camq (queue_array q) (array_size q) (entries q) (q_generation q) cs) (devq_openings b) (dev_openings b) (dev_active b) (held b).
Definition bump (rl d : Z) (cs : list Z) : list Z :=
  take (Z.to_nat rl) cs ++ map (λ c, u32 (c + d)) (drop (Z.to_nat rl) cs).

Lemma qfrozen_ok rl c (b : cam_ccbq) (ps : pinfos) :
  0 ≤ rl → qfrozen_cnt (queue b) !! Z.to_nat rl = Some c → qfrozen rl (b, ps) = Ok (c, (b, ps)).
Proof. intros H0 Hc. unfold qfrozen. rewrite get_bind, decide_True by done. by rewrite Hc. Qed.

Lemma first_frozen_spec fuel cs (b : cam_ccbq) (ps : pinfos) : ∀ dn,
  qfrozen_cnt (queue b) = dn ++ cs → length (dn ++ cs) = 5%nat → (length cs < fuel)%nat →
  first_frozen fuel (Z.of_nat (length dn)) (b, ps) = Ok (Z.of_nat (length dn) + zeros cs, (b, ps)).
Proof.
  revert fuel. induction cs as [|c cs IH]; intros [|fuel] dn Hq Hlen Hf; cbn [length] in *; try lia; cbn [first_frozen zeros].
  - rewrite app_nil_r in Hlen. rewrite decide_False by (unfold CAM_RL_VALUES; lia). by rewrite Z.add_0_r.
  - rewrite length_app in Hlen. cbn [length] in Hlen. rewrite decide_True by (unfold CAM_RL_VALUES; lia).
    erewrite bind_ok by (apply (qfrozen_ok _ c); [lia|]; by rewrite Hq, Nat2Z.id, lookup_app_r, Nat.sub_diag).
    destruct (decide (c = 0)); [|by rewrite Z.add_0_r].
    replace (Z.of_nat (length dn) + 1) with (Z.of_nat (length (dn ++ [c]))) by (rewrite length_app; simpl; lia).
    rewrite IH; [|by rewrite <-app_assoc|rewrite <-app_assoc, length_app; simpl; lia|lia].
    do 2 f_equal. rewrite length_app. simpl. lia.
Qed.

Lemma add_frozen_spec d fuel cs (ps : pinfos) : ∀ dn (b : cam_ccbq),
  qfrozen_cnt (queue b) = dn ++ cs → length (dn ++ cs) = 5%nat → (length cs < fuel)%nat →
  add_frozen fuel (Z.of_nat (length dn)) d (b, ps) = Ok (tt, (set_counts (dn ++ map (λ c, u32 (c + d)) cs) b, ps)).
Proof.
  revert fuel. induction cs as [|c cs IH]; intros [|fuel] dn b Hq Hlen Hf; cbn [length] in *; try lia; cbn [add_frozen map].
  - rewrite app_nil_r in *. rewrite decide_False by (unfold CAM_RL_VALUES; lia). rewrite <-Hq. by destruct b as [[]].
  - rewrite length_app in Hlen. cbn [length] in Hlen. rewrite decide_True by (unfold CAM_RL_VALUES; lia).
    erewrite bind_ok by (apply (qfrozen_ok _ c); [lia|]; by rewrite Hq, Nat2Z.id, lookup_app_r, Nat.sub_diag).
    assert (set_qfrozen (Z.of_nat (length dn)) (u32 (c + d)) (b, ps) =
      Ok (tt, (set_counts ((dn ++ [u32 (c + d)]) ++ cs) b, ps))) as E.
    { unfold set_qfrozen, set_queue. rewrite get_bind. rewrite Hq, length_app. cbn [length]. rewrite decide_True by lia. rewrite get_bind.
      unfold put, set_counts. rewrite Nat2Z.id, insert_app_r_alt, Nat.sub_diag, <-app_assoc by lia. done. }
    erewrite bind_ok by exact E. clear E.
    replace (Z.of_nat (length dn) + 1) with (Z.of_nat (length (dn ++ [u32 (c + d)]))) by (rewrite length_app; simpl; lia).
    rewrite IH; [by rewrite <-app_assoc|done|rewrite !length_app; simpl; lia|lia].
Qed.

(** The case analysis on the five counts and a level. *)
Ltac five cs H :=
  let a := fresh in let b := fresh in let c := fresh in let d := fresh in let e := fresh in
  destruct H as (a & b & c & d & e & -> & ?).
Ltac bump_bits :=
  unfold bump; change (Z.to_nat 0) with 0%nat in *; change (Z.to_nat 1) with 1%nat in *; change (Z.to_nat 2) with 2%nat in *;
  change (Z.to_nat 3) with 3%nat in *; change (Z.to_nat 4) with 4%nat in *; cbn [take drop app map zeros nth] in *;
  rewrite !u32_id by (unfold is_u32; lia); (split; [repeat eexists; lia|repeat case_decide; lia]).
Lemma level_cases rl : 0 ≤ rl < CAM_RL_VALUES → rl = 0 ∨ rl = 1 ∨ rl = 2 ∨ rl = 3 ∨ rl = 4.
Proof. unfold CAM_RL_VALUES. lia. Qed.

Lemma zeros_range cs : counts_ok cs → 0 ≤ zeros cs ≤ CAM_RL_VALUES.
Proof. intros H. five cs H. cbn [zeros]. unfold CAM_RL_VALUES. repeat case_decide; lia. Qed.

(** A level is frozen when its count is not zero. *)
Lemma frozen_level cs rl : counts_ok cs → 0 ≤ rl < CAM_RL_VALUES → ∃ c, cs !! Z.to_nat rl = Some c ∧ (c > 0 ↔ zeros cs ≤ rl).
Proof.
  intros H Hrl. five cs H. cbn [zeros]. apply level_cases in Hrl as [-> | [-> | [-> | [-> | ->]]]]; eexists;
    (split; [reflexivity|]); repeat case_decide; lia.
Qed.

Lemma bump_freeze cs rl cnt :
  counts_ok cs → 0 ≤ rl < CAM_RL_VALUES → 0 < cnt → default 0 (last cs) + cnt < 2 ^ 32 →
  counts_ok (bump rl cnt cs) ∧ zeros (bump rl cnt cs) = Z.min rl (zeros cs).
Proof.
  intros H Hrl Hc Hl. five cs H. cbn [last default] in Hl. unfold id in Hl.
  apply level_cases in Hrl as [-> | [-> | [-> | [-> | ->]]]]; bump_bits.
Qed.

(** As many freezes of level [rl] as are released are outstanding. *)
Definition releasable (rl cnt : Z) (cs : list Z) : Prop :=
  0 < cnt ∧ (match Z.to_nat rl with 0%nat => 0 | S i => nth i cs 0 end) + cnt ≤ nth (Z.to_nat rl) cs 0.

Lemma bump_release cs rl cnt :
  counts_ok cs → 0 ≤ rl < CAM_RL_VALUES → releasable rl cnt cs →
  counts_ok (bump rl (- cnt) cs) ∧ zeros cs = Z.min rl (zeros (bump rl (- cnt) cs)).
Proof.
  intros H Hrl [Hc Hl]. five cs H.
  apply level_cases in Hrl as [-> | [-> | [-> | [-> | ->]]]]; bump_bits.
Qed.

Lemma in_levels_split lo mid hi ls : lo ≤ mid → mid ≤ hi → in_levels lo hi ls = in_levels lo mid ls + in_levels mid hi ls.
Proof.
  intros H1 H2. unfold in_levels. induction ls as [|l ls IH]; [done|]. rewrite !filter_cons.
  repeat case_decide; cbn [length]; lia.
Qed.

Lemma in_levels_cons lo hi l ls : in_levels lo hi (l :: ls) = (if decide (lo ≤ l < hi) then 1 else 0) + in_levels lo hi ls.
Proof. unfold in_levels. rewrite filter_cons. case_decide; cbn [length]; lia. Qed.
#[local] Instance in_levels_perm lo hi : Proper ((≡ₚ) ==> eq) (in_levels lo hi).
Proof. intros l l' H. unfold in_levels. by rewrite H. Qed.
Lemma in_levels_empty lo ls : in_levels lo lo ls = 0.
Proof. unfold in_levels. rewrite filter_none; [done|]. apply Forall_forall. intros. lia. Qed.
Lemma in_levels_bounds lo hi ls : 0 ≤ in_levels lo hi ls ≤ Z.of_nat (length ls).
Proof. unfold in_levels. pose proof (length_filter (λ l, lo ≤ l < hi) ls). lia. Qed.

Lemma levels_same ps ps' q : same_priorities ps ps' → levels q ps' = levels q ps.
Proof. intros H. unfold levels. apply map_ext. intros e. by apply level_same. Qed.
Lemma length_levels q ps : camq_ok q ps → Z.of_nat (length (levels q ps)) = entries q.
Proof. intros H. unfold levels. rewrite length_map. by apply (length_members q ps). Qed.

(** ** Accounting for openings *)

(** The entries of a frozen level. *)
Definition frozen_entries (b : cam_ccbq) (ps : pinfos) : Z :=
  in_levels (zeros (qfrozen_cnt (queue b))) CAM_RL_VALUES (levels (queue b) ps).

(** Openings of the device queue: those available, those held (every frozen entry
    holds one besides), those of the active commands and of the entries that are
    not frozen. *)
Definition account (b : cam_ccbq) (ps : pinfos) : Z :=
  devq_openings b + (held b - frozen_entries b ps) + dev_active b + (entries (queue b) - frozen_entries b ps).

Inductive cam_op :=
  | TakeOpening | InsertCcb (e : Z) | RemoveCcb (e : Z) | SendCcb (e : Z) | CcbDone | ReleaseOpening
  | Freeze (rl cnt : Z) | Release (rl cnt : Z).

Definition cam_call (fuel : nat) (op : cam_op) : M cam Z :=
  match op with
  | TakeOpening => _ ← cam_ccbq_take_opening; mret 0
  | InsertCcb e => cam_ccbq_insert_ccb e
  | RemoveCcb e => cam_ccbq_remove_ccb e
  | SendCcb e => _ ← cam_ccbq_send_ccb e; mret 0
  | CcbDone => _ ← cam_ccbq_ccb_done 0; mret 0
  | ReleaseOpening => _ ← cam_ccbq_release_opening; mret 0
  | Freeze rl cnt => cam_ccbq_freeze fuel rl cnt
  | Release rl cnt => cam_ccbq_release fuel rl cnt
  end.

(** The freeze counts afterwards, and the first frozen level. *)
Definition op_counts (op : cam_op) (cs : list Z) : list Z :=
  match op with Freeze rl cnt => bump rl cnt cs | Release rl cnt => bump rl (- cnt) cs | _ => cs end.

Definition op_ok (op : cam_op) (b : cam_ccbq) (ps : pinfos) : Prop :=
  let q := queue b in
  let cs := qfrozen_cnt q in
  match op with
  | InsertCcb e => e ∉ members q ∧ is_Some (ps !! e) ∧ 0 ≤ level ps e < CAM_RL_VALUES ∧
      entries q < array_size q ∧ entries q + 1 < 2 ^ 30
  | RemoveCcb e => e ∈ members q
  | SendCcb e => e ∉ members q ∧ is_Some (ps !! e)
  | Freeze rl cnt => 0 ≤ rl < CAM_RL_VALUES ∧ 0 < cnt ∧ default 0 (last cs) + cnt < 2 ^ 32 ∧
      findable (zeros (op_counts op cs)) (zeros cs) (levels q ps)
  | Release rl cnt => 0 ≤ rl < CAM_RL_VALUES ∧ releasable rl cnt cs ∧
      findable (zeros cs) (zeros (op_counts op cs)) (levels q ps)
  | _ => True
  end.

Definition op_result (op : cam_op) (b : cam_ccbq) (ps : pinfos) : Z :=
  let cs := qfrozen_cnt (queue b) in
  match op with
  | InsertCcb e | RemoveCcb e => if decide (zeros cs ≤ level ps e) then 1 else 0
  | Freeze _ _ => in_levels (zeros (op_counts op cs)) (zeros cs) (levels (queue b) ps)
  | Release _ _ => in_levels (zeros cs) (zeros (op_counts op cs)) (levels (queue b) ps)
  | _ => 0
  end.

(** Commands taken from the queue and not yet sent. *)
Definition op_hand (op : cam_op) : Z := match op with RemoveCcb _ => 1 | SendCcb _ => -1 | _ => 0 end.

Definition op_members (op : cam_op) (es es' : list Z) : Prop :=
  match op with InsertCcb e => es' ≡ₚ e :: es | RemoveCcb e => e :: es' ≡ₚ es | _ => es' = es end.

(** What a call promises of the state before and after it. *)
Record op_post (op : cam_op) (b : cam_ccbq) (ps : pinfos) (b' : cam_ccbq) (ps' : pinfos) : Prop := {
  post_ok : camq_ok (queue b') ps';
  post_account : account b' ps' + op_hand op = account b ps;
  post_device : dev_openings b' + dev_active b' = dev_openings b + dev_active b;
  post_members : op_members op (members (queue b)) (members (queue b'));
  post_counts : qfrozen_cnt (queue b') = op_counts op (qfrozen_cnt (queue b))
}.
Definition op_spec (fuel : nat) (op : cam_op) (b : cam_ccbq) (ps : pinfos) : Prop :=
  ∃ b' ps', cam_call fuel op (b, ps) = Ok (op_result op b ps, (b', ps')) ∧ op_post op b ps b' ps'.

(** Calls that only move openings between the counters. *)
Lemma post_shift op b ps dq do da h :
  camq_ok (queue b) ps → op_counts op (qfrozen_cnt (queue b)) = qfrozen_cnt (queue b) →
  op_members op (members (queue b)) (members (queue b)) → dq + da + h + op_hand op = 0 → do + da = 0 →
  op_post op b ps (shift b dq do da h) ps.
Proof. intros Hok Hc Hm Ha Hd. split; simpl; [done| |lia|done|done]. unfold account, frozen_entries. simpl. lia. Qed.

Lemma take_opening_spec fuel b ps : camq_ok (queue b) ps → room b → op_spec fuel TakeOpening b ps.
Proof.
  intros Hok (? & ? & ? & ?). do 2 eexists. split; [|by apply (post_shift _ b ps (-1) 0 0 1)].
  cbn [cam_call]. unfold cam_ccbq_take_opening. rewrite bind_assoc.
  erewrite bind_ok by (apply add_devq_ok; unfold is_i32; lia).
  erewrite bind_ok by (apply add_held_ok; unfold is_i32; simpl; lia). by rewrite shift_shift.
Qed.

Lemma release_opening_spec fuel b ps : camq_ok (queue b) ps → room b → op_spec fuel ReleaseOpening b ps.
Proof.
  intros Hok (? & ? & ? & ?). do 2 eexists. split; [|by apply (post_shift _ b ps 1 0 0 (-1))].
  cbn [cam_call]. unfold cam_ccbq_release_opening. rewrite bind_assoc.
  erewrite bind_ok by (apply add_held_ok; unfold is_i32; lia).
  erewrite bind_ok by (apply add_devq_ok; unfold is_i32; simpl; lia). by rewrite shift_shift.
Qed.

Lemma ccb_done_spec fuel b ps : camq_ok (queue b) ps → room b → op_spec fuel CcbDone b ps.
Proof.
  intros Hok (? & ? & ? & ?). do 2 eexists. split; [|by apply (post_shift _ b ps 0 1 (-1) 1)].
  cbn [cam_call]. unfold cam_ccbq_ccb_done. rewrite bind_assoc.
  erewrite bind_ok by (apply add_deva_ok; unfold is_i32; lia). rewrite bind_assoc.
  erewrite bind_ok by (apply add_devo_ok; unfold is_i32; simpl; lia).
  erewrite bind_ok by (apply add_held_ok; unfold is_i32; simpl; lia). by rewrite !shift_shift.
Qed.

(** Marking a command that is not queued. *)
Lemma camq_ok_mark q ps e p i :
  camq_ok q ps → e ∉ members q → ps !! e = Some p →
  camq_ok q (<[e := Pinfo (priority p) (generation p) i]> ps) ∧
  same_priorities ps (<[e := Pinfo (priority p) (generation p) i]> ps).
Proof.
  intros Hok He Hp. assert (same_priorities ps (<[e := Pinfo (priority p) (generation p) i]> ps)) as Hsame.
  { intros x. destruct (decide (e = x)) as [->|]; [by rewrite lookup_insert_eq, Hp|by rewrite lookup_insert_ne]. }
  split; [|done]. destruct Hok as [H1 H2 H3 H4 H5 H6]. split; try done.
  - intros x Hx. rewrite (level_same _ _ x Hsame). rewrite lookup_insert_ne by (by intros ->). by apply H4.
  - intros j x Hx. rewrite lookup_insert_ne; [by apply H5|]. intros ->. by apply He, list_elem_of_lookup_2 with j.
Qed.

Lemma account_same b ps ps' : same_priorities ps ps' → account b ps' = account b ps.
Proof. intros H. unfold account, frozen_entries. by rewrite (levels_same ps ps'). Qed.

Lemma send_ccb_spec fuel e b ps : camq_ok (queue b) ps → room b → op_ok (SendCcb e) b ps → op_spec fuel (SendCcb e) b ps.
Proof.
  intros Hok (? & ? & ? & ?) [He [p Hp]].
  destruct (camq_ok_mark (queue b) ps e p CAM_ACTIVE_INDEX Hok He Hp) as [Hok' Hsame].
  exists (shift b 0 (-1) 1 0). eexists. split.
  - cbn [cam_call]. unfold cam_ccbq_send_ccb. rewrite bind_assoc.
    assert (pinfo e (b, ps) = Ok (p, (b, ps))) as Ep by (unfold pinfo; rewrite get_bind; by rewrite Hp).
    erewrite bind_ok by exact Ep. rewrite bind_assoc, get_bind, bind_assoc, put_bind, bind_assoc.
    erewrite bind_ok by (apply add_deva_ok; unfold is_i32; lia).
    erewrite bind_ok by (apply add_devo_ok; unfold is_i32; simpl; lia). by rewrite shift_shift.
  - split; simpl; [done| |lia|done|done]. rewrite (account_same _ ps) by done. unfold account, frozen_entries. simpl. lia.
Qed.

Lemma pinfo_ok (b : cam_ccbq) (ps : pinfos) e p : ps !! e = Some p → pinfo e (b, ps) = Ok (p, (b, ps)).
Proof. intros Hp. unfold pinfo. rewrite get_bind. by rewrite Hp. Qed.

Lemma insert_ccb_spec `{!CamqLaws} fuel e b ps :
  camq_ok (queue b) ps → room b → op_ok (InsertCcb e) b ps → op_spec fuel (InsertCcb e) b ps.
Proof.
  intros Hok (? & ? & ? & ?) (He & Hps & Hl & Hsz & Hmax). unfold op_spec. cbn [cam_call op_result]. unfold cam_ccbq_insert_ccb.
  erewrite bind_ok by (apply add_held_ok; unfold is_i32; lia). rewrite get_bind. cbn [shift queue].
  pose proof (camq_insert_law e (queue b) ps Hok He Hps Hl Hsz Hmax) as Hlaw.
  destruct (camq_insert e (queue b) ps) as [q' ps']. destruct Hlaw as (Hok' & Hmem & Hent & Hcs & Hsame). rewrite put_bind.
  assert (is_Some (ps' !! e)) as [p Hp]. { specialize (Hsame e). destruct Hps as [p Hp]. rewrite Hp in Hsame. destruct (ps' !! e); [by eexists|done]. }
  assert (CAM_PRIORITY_TO_RL (priority p) = level ps e) as Hlp by (rewrite <-(level_same ps ps' e Hsame); unfold level; by rewrite Hp).
  erewrite bind_ok by (by apply pinfo_ok). rewrite Hlp.
  destruct (frozen_level (qfrozen_cnt q') (level ps e) (camq_counts _ _ Hok') Hl) as (c & Hc & Hfr).
  erewrite bind_ok by (by apply (qfrozen_ok _ c); [lia|]). rewrite Hcs in Hfr.
  assert (levels q' ps' ≡ₚ level ps e :: levels (queue b) ps) as Hls.
  { rewrite (levels_same ps) by done. unfold levels. by rewrite Hmem. }
  destruct (decide (c > 0)) as [Hc0|Hc0].
  - rewrite decide_True by tauto. erewrite bind_ok by (apply add_devq_ok; unfold is_i32; simpl; lia).
    erewrite bind_ok by (apply add_held_ok; unfold is_i32; simpl; lia). do 2 eexists. split; [reflexivity|].
    split; simpl; [done| |lia|done|done]. unfold account, frozen_entries. simpl. rewrite Hcs, Hls, in_levels_cons.
    rewrite decide_True by lia. lia.
  - rewrite decide_False by tauto. do 2 eexists. split; [reflexivity|].
    split; simpl; [done| |lia|done|done]. unfold account, frozen_entries. simpl. rewrite Hcs, Hls, in_levels_cons.
    rewrite decide_False by lia. lia.
Qed.

Lemma remove_ccb_spec `{!CamqLaws} fuel e b ps :
  camq_ok (queue b) ps → room b → op_ok (RemoveCcb e) b ps → op_spec fuel (RemoveCcb e) b ps.
Proof.
  intros Hok (? & ? & ? & ?) He. cbn [op_ok] in He. destruct (camq_pinfos _ _ Hok e He) as [[p0 Hp0] Hl].
  apply list_elem_of_lookup in He as [i Hi]. pose proof (camq_index _ _ Hok i e Hi) as Hidx. rewrite Hp0 in Hidx.
  injection Hidx as Hidx. unfold op_spec. cbn [cam_call op_result]. unfold cam_ccbq_remove_ccb.
  erewrite bind_ok by (by apply pinfo_ok). rewrite get_bind, Hidx.
  pose proof (camq_remove_law i e (queue b) ps Hok Hi) as Hlaw.
  destruct (camq_remove (Z.of_nat i + 1) (queue b) ps) as [[e' q'] ps']. destruct Hlaw as (-> & Hok' & Hmem & Hent & Hcs & Hsame).
  rewrite put_bind.
  assert (is_Some (ps' !! e)) as [p Hp]. { specialize (Hsame e). rewrite Hp0 in Hsame. destruct (ps' !! e); [by eexists|done]. }
  assert (CAM_PRIORITY_TO_RL (priority p) = level ps e) as Hlp by (rewrite <-(level_same ps ps' e Hsame); unfold level; by rewrite Hp).
  erewrite bind_ok by (by apply pinfo_ok). rewrite Hlp.
  destruct (frozen_level (qfrozen_cnt q') (level ps e) (camq_counts _ _ Hok') Hl) as (c & Hc & Hfr).
  erewrite bind_ok by (by apply (qfrozen_ok _ c); [lia|]). rewrite Hcs in Hfr.
  assert (level ps e :: levels q' ps' ≡ₚ levels (queue b) ps) as Hls.
  { rewrite (levels_same ps) by done. unfold levels. by rewrite <-Hmem. }
  destruct (decide (c > 0)) as [Hc0|Hc0].
  - rewrite decide_True by tauto. erewrite bind_ok by (apply add_devq_ok; unfold is_i32; simpl; lia).
    erewrite bind_ok by (apply add_held_ok; unfold is_i32; simpl; lia). do 2 eexists. split; [reflexivity|].
    split; simpl; [done| |lia|done|done]. unfold account, frozen_entries. simpl. rewrite Hcs, <-Hls, in_levels_cons.
    rewrite decide_True by lia. lia.
  - rewrite decide_False by tauto. do 2 eexists. split; [reflexivity|].
    split; simpl; [done| |lia|done|done]. unfold account, frozen_entries. simpl. rewrite Hcs, <-Hls, in_levels_cons.
    rewrite decide_False by lia. lia.
Qed.

(** Changing the freeze counts of the levels from [rl] on. *)
Lemma bump_spec fuel rl d b ps :
  camq_ok (queue b) ps → 0 ≤ rl < CAM_RL_VALUES → (5 < fuel)%nat →
  add_frozen fuel rl d (b, ps) = Ok (tt, (set_counts (bump rl d (qfrozen_cnt (queue b))) b, ps)).
Proof.
  intros Hok Hrl Hf. destruct (camq_counts _ _ Hok) as (c0 & c1 & c2 & c3 & c4 & E & _).
  assert (length (qfrozen_cnt (queue b)) = 5%nat) as Hlen by (by rewrite E). unfold CAM_RL_VALUES in Hrl.
  assert (length (take (Z.to_nat rl) (qfrozen_cnt (queue b))) = Z.to_nat rl) as Htk by (rewrite length_take; lia).
  rewrite <-(Z2Nat.id rl) at 1 by lia. rewrite <-Htk at 1.
  apply (add_frozen_spec d fuel (drop (Z.to_nat rl) (qfrozen_cnt (queue b)))).
  - by rewrite take_drop.
  - by rewrite take_drop.
  - rewrite length_drop. lia.
Qed.

Lemma first_level_spec fuel b ps :
  counts_ok (qfrozen_cnt (queue b)) → (5 < fuel)%nat →
  first_frozen fuel 0 (b, ps) = Ok (zeros (qfrozen_cnt (queue b)), (b, ps)).
Proof.
  intros (c0 & c1 & c2 & c3 & c4 & E & _) Hf. rewrite E.
  by apply (first_frozen_spec fuel [c0; c1; c2; c3; c4] b ps []); [|simpl; lia|simpl; lia].
Qed.

Lemma camq_ok_counts b ps cs : camq_ok (queue b) ps → counts_ok cs → camq_ok (queue (set_counts cs b)) ps.
Proof. intros [H1 H2 H3 H4 H5 H6] Hcs. by split. Qed.

(** The loop over all entries. *)
Lemma count_entries_spec fuel lo hi d b ps :
  (d = 1 ∨ d = -1) → camq_ok (queue b) ps → room b → (Z.to_nat (entries (queue b)) < fuel)%nat →
  findable lo hi (levels (queue b) ps) →
  let k := in_levels lo hi (levels (queue b) ps) in
  count_loop fuel CAMQ_HEAD lo hi d 0 (b, ps) = Ok (k, (shift b (d * k) 0 0 (d * k), ps)).
Proof.
  intros Hd Hok (? & ? & ? & ?) Hf Hfind. pose proof (length_members _ _ Hok) as Hlen. pose proof (camq_entries _ _ Hok).
  cbv zeta. rewrite <-(loop_count_all lo hi _ Hfind).
  apply (count_loop_spec ps lo hi d (members (queue b)) Hd b [] fuel 0); [done|done|lia..].
Qed.

Lemma freeze_spec fuel rl cnt b ps :
  camq_ok (queue b) ps → room b → op_ok (Freeze rl cnt) b ps → (5 < fuel)%nat → (Z.to_nat (entries (queue b)) < fuel)%nat →
  op_spec fuel (Freeze rl cnt) b ps.
Proof.
  intros Hok Hroom (Hrl & Hc & Hmax & Hfind) Hf5 Hf. cbn [op_counts] in Hfind.
  destruct (bump_freeze _ rl cnt (camq_counts _ _ Hok) Hrl Hc Hmax) as [Hok' Hz]. unfold op_spec. cbn [cam_call op_result op_counts].
  pose proof (zeros_range _ (camq_counts _ _ Hok)) as Hzr. set (cs' := bump rl cnt (qfrozen_cnt (queue b))) in *.
  pose proof (in_levels_split (zeros cs') (zeros (qfrozen_cnt (queue b))) CAM_RL_VALUES (levels (queue b) ps) ltac:(lia) ltac:(lia)) as Hsp.
  unfold cam_ccbq_freeze. erewrite bind_ok by (apply first_level_spec; [apply (camq_counts _ _ Hok)|done]).
  erewrite bind_ok by (by apply bump_spec). fold cs'. rewrite <-Hz.
  pose proof (camq_ok_counts b ps cs' Hok Hok') as Hok2.
  destruct (decide (zeros cs' = zeros (qfrozen_cnt (queue b)))) as [Ez|Ez].
  - rewrite Ez, in_levels_empty in *. do 2 eexists. split; [reflexivity|]. split; simpl; [done| |done|done|done].
    unfold account, frozen_entries. simpl. change (levels _ ps) with (levels (queue b) ps) at 1 2. rewrite Ez. lia.
  - do 2 eexists. split; [by apply (count_entries_spec fuel _ _ 1 (set_counts cs' b)); auto|].
    split; simpl; [done| |lia|done|done]. unfold account, frozen_entries. simpl. change (levels _ ps) with (levels (queue b) ps). lia.
Qed.

Lemma release_spec fuel rl cnt b ps :
  camq_ok (queue b) ps → room b → op_ok (Release rl cnt) b ps → (5 < fuel)%nat → (Z.to_nat (entries (queue b)) < fuel)%nat →
  op_spec fuel (Release rl cnt) b ps.
Proof.
  intros Hok Hroom (Hrl & Hrel & Hfind) Hf5 Hf. cbn [op_counts] in Hfind.
  destruct (bump_release _ rl cnt (camq_counts _ _ Hok) Hrl Hrel) as [Hok' Hz]. unfold op_spec. cbn [cam_call op_result op_counts].
  pose proof (zeros_range _ Hok') as Hzr. set (cs' := bump rl (- cnt) (qfrozen_cnt (queue b))) in *.
  pose proof (in_levels_split (zeros (qfrozen_cnt (queue b))) (zeros cs') CAM_RL_VALUES (levels (queue b) ps) ltac:(lia) ltac:(lia)) as Hsp.
  pose proof (camq_ok_counts b ps cs' Hok Hok') as Hok2.
  unfold cam_ccbq_release. erewrite bind_ok by (by apply bump_spec). fold cs'.
  erewrite bind_ok by (apply first_level_spec; [apply Hok'|done]). cbn [set_counts queue qfrozen_cnt]. rewrite <-Hz.
  destruct (decide (zeros cs' = zeros (qfrozen_cnt (queue b)))) as [Ez|Ez].
  - rewrite Ez, in_levels_empty in *. do 2 eexists. split; [reflexivity|]. split; simpl; [done| |done|done|done].
    unfold account, frozen_entries. simpl. change (levels _ ps) with (levels (queue b) ps) at 1 2. rewrite Ez. lia.
  - do 2 eexists. split; [by apply (count_entries_spec fuel _ _ (-1) (set_counts cs' b)); auto|].
    split; simpl; [done| |lia|done|done]. unfold account, frozen_entries. simpl. change (levels _ ps) with (levels (queue b) ps). lia.
Qed.

Lemma cam_call_spec `{!CamqLaws} fuel op b ps :
  camq_ok (queue b) ps → room b → op_ok op b ps → (5 < fuel)%nat → (Z.to_nat (entries (queue b)) < fuel)%nat →
  op_spec fuel op b ps.
Proof.
  intros. destruct op.
  - by apply take_opening_spec.
  - by apply insert_ccb_spec.
  - by apply remove_ccb_spec.
  - by apply send_ccb_spec.
  - by apply ccb_done_spec.
  - by apply release_opening_spec.
  - by apply freeze_spec.
  - by apply release_spec.
Qed.

(** Runs: sequences of calls that return, with the number of commands in hand. *)
Inductive cam_run (fuel : nat) : cam → Z → cam → Prop :=
  | run_nil s : cam_run fuel s 0 s
  | run_cons op b ps r s1 h s2 :
      room b → op_ok op b ps → (Z.to_nat (entries (queue b)) < fuel)%nat →
      cam_call fuel op (b, ps) = Ok (r, s1) → cam_run fuel s1 h s2 → cam_run fuel (b, ps) (op_hand op + h) s2.

Lemma cam_run_accounts `{!CamqLaws} fuel s h s' :
  (5 < fuel)%nat → cam_run fuel s h s' → camq_ok (queue s.1) s.2 →
  camq_ok (queue s'.1) s'.2 ∧ account s'.1 s'.2 + h = account s.1 s.2.
Proof.
  intros Hf. induction 1 as [s|op b ps r s1 h s2 Hr Hop He E _ IH]; intros Hok; [split; [done|lia]|].
  destruct (cam_call_spec fuel op b ps Hok Hr Hop Hf He) as (b' & ps' & E' & Hpost).
  rewrite E in E'. injection E' as -> ->. destruct (IH (post_ok _ _ _ _ _ Hpost)) as [Hok2 Ha].
  pose proof (post_account _ _ _ _ _ Hpost). simpl in *. split; [done|lia].
Qed.

End facts.

(** ** A priority queue that keeps its promises *)

Module SortedQueue.

(** The array with the members [ms], which learn their indices. *)
Definition reindex (ms : list Z) (ps : pinfos) : pinfos :=
  map_imap (λ e p, Some (match list_find (eq e) ms with
                         | Some (i, _) => Pinfo (priority p) (generation p) (Z.of_nat i + 1)
                         | None => p end)) ps.
Definition rebuild (ms : list Z) (q : camq) : camq :=
  Camq (take 1 (queue_array q) ++ ms ++ drop (1 + length ms) (queue_array q)) (array_size q)
    (Z.of_nat (length ms)) (q_generation q) (qfrozen_cnt q).

Definition prio (ps : pinfos) (e : Z) : Z := match ps !! e with Some p => priority p | None => 0 end.
Fixpoint insert_by (ps : pinfos) (e : Z) (ms : list Z) : list Z :=
  match ms with
  | [] => [e]
  | m :: ms => if decide (prio ps e < prio ps m) then e :: m :: ms else m :: insert_by ps e ms
  end.

#[global] Instance heap : CamqHeap := {
  camq_insert e q ps := let ms := insert_by ps e (members q) in (rebuild ms q, reindex ms ps);
  camq_remove i q ps :=
    let ms := delete (Z.to_nat (i - 1)) (members q) in
    (default 0 (members q !! Z.to_nat (i - 1)), rebuild ms q, reindex ms ps)
}.

Lemma insert_by_perm ps e ms : insert_by ps e ms ≡ₚ e :: ms.
Proof. induction ms as [|m ms IH]; [done|]. cbn [insert_by]. case_decide; [done|]. rewrite IH. apply Permutation_swap. Qed.

Lemma reindex_same ms ps : same_priorities ps (reindex ms ps).
Proof.
  intros e. unfold reindex. rewrite map_lookup_imap. destruct (ps !! e) as [p|]; [|done]. simpl.
  by destruct (list_find (eq e) ms) as [[]|].
Qed.

Lemma rebuild_members ms q : (1 + length ms ≤ length (queue_array q))%nat → members (rebuild ms q) = ms.
Proof.
  intros Hl. unfold members, rebuild. simpl. destruct (queue_array q) as [|x xs]; [simpl in Hl; lia|].
  simpl. rewrite Nat2Z.id, drop_0. by rewrite take_app_length.
Qed.

Lemma rebuild_ok ms q ps :
  camq_ok q ps → NoDup ms → Z.of_nat (length ms) < 2 ^ 30 → Z.of_nat (length ms) ≤ array_size q →
  (∀ e, e ∈ ms → is_Some (ps !! e) ∧ 0 ≤ level ps e < CAM_RL_VALUES) →
  camq_ok (rebuild ms q) (reindex ms ps) ∧ members (rebuild ms q) = ms.
Proof.
  intros Hok Hnd Hmax Hsz Hms. pose proof (camq_array _ _ Hok) as [_ Harr].
  assert (members (rebuild ms q) = ms) as Hm by (apply rebuild_members; lia). split; [|done].
  split; rewrite ?Hm; try done.
  - simpl. lia.
  - simpl. rewrite !length_app, length_take, length_drop. lia.
  - intros e He. rewrite (level_same ps _ e (reindex_same ms ps)). destruct (Hms e He) as [[p Hp] Hl]. split; [|done].
    unfold reindex. rewrite map_lookup_imap, Hp. by eexists.
  - intros i e Hi. destruct (Hms e) as [[p Hp] _]; [by eapply list_elem_of_lookup_2|].
    unfold reindex. rewrite map_lookup_imap, Hp. simpl.
    assert (list_find (eq e) ms = Some (i, e)) as ->; [|done]. apply list_find_Some. split_and!; [done..|].
    intros j y Hy Hj <-. pose proof (NoDup_lookup ms i j e Hnd Hi Hy). lia.
  - exact (camq_counts _ _ Hok).
Qed.

#[global] Instance heap_laws : CamqLaws.
Proof.
  split.
  - intros e q ps Hok He Hps Hl Hsz Hmax. cbn. pose proof (length_members q ps Hok) as Hlen.
    pose proof (insert_by_perm ps e (members q)) as Hperm. set (ms := insert_by ps e (members q)) in *.
    pose proof (Permutation_length Hperm) as Hpl. cbn [length] in Hpl.
    destruct (rebuild_ok ms q ps Hok) as [Hok' Hm].
    + rewrite Hperm. apply NoDup_cons. split; [done|by apply (camq_nodup _ _ Hok)].
    + lia.
    + lia.
    + intros x. rewrite Hperm, elem_of_cons. intros [->|Hx]; [done|by apply (camq_pinfos _ _ Hok)].
    + split_and!; [done|by rewrite Hm|simpl; lia|done|apply reindex_same].
  - intros i e q ps Hok Hi. cbn. replace (Z.to_nat (Z.of_nat i + 1 - 1)) with i by lia. rewrite Hi.
    pose proof (length_members q ps Hok) as Hlen. pose proof (camq_entries _ _ Hok). pose proof (camq_array _ _ Hok).
    assert (e :: delete i (members q) ≡ₚ members q) as Hperm by (symmetry; by apply delete_Permutation).
    set (ms := delete i (members q)) in *. pose proof (Permutation_length Hperm) as Hpl. cbn [length] in Hpl.
    destruct (rebuild_ok ms q ps Hok) as [Hok' Hm].
    + pose proof (camq_nodup _ _ Hok) as Hnd. rewrite <-Hperm in Hnd. by apply NoDup_cons in Hnd as [_ ?].
    + lia.
    + lia.
    + intros x Hx. apply (camq_pinfos _ _ Hok). rewrite <-Hperm. by right.
    + split_and!; [done|done|by rewrite Hm|simpl; lia|done|apply reindex_same].
Qed.

End SortedQueue.

(** ** Properties *)

(** C13: the openings of a device queue are accounted for. From a well-formed queue,
    taking, inserting, removing, sending, completing, freezing and releasing
    return: inserting and removing report 1 exactly when the command's run level is
    frozen, freezing and releasing the number of entries whose levels become frozen
    or released; the queue stays well-formed and the sum of available openings, of
    held ones beyond the frozen entries, of active commands and of entries not
    frozen changes only by the commands in the caller's hand, in a call and in any
    run. Freezing and releasing need that the loop over the array, which stops at
    the first entry beyond the range, does not miss an entry: so it is when the
    array is sorted by level, or no other level is frozen. *)
Theorem cam_openings_accounted `{CamqHeap} `{!CamqLaws} (fuel : nat) (op : cam_op) (b : cam_ccbq) (ps : pinfos) (h : Z) (s : cam)
    (Hok : camq_ok (queue b) ps) (Hroom : room b) (Hop : op_ok op b ps)
    (Hf : (5 < fuel)%nat) (Hf' : (Z.to_nat (entries (queue b)) < fuel)%nat) (Hrun : cam_run fuel (b, ps) h s) :
  op_spec fuel op b ps ∧
  (camq_ok (queue s.1) s.2 ∧ account s.1 s.2 + h = account b ps) ∧
  (∀ lo hi, StronglySorted Z.le (levels (queue b) ps) ∨ hi = CAM_RL_VALUES → findable lo hi (levels (queue b) ps)).
Proof.
  split; [by apply cam_call_spec|]. split; [by apply (cam_run_accounts fuel (b, ps) h s)|].
  intros lo hi [Hs| ->]; [by apply findable_sorted|]. apply findable_below. unfold levels. apply Forall_map, Forall_forall.
  intros e He. by apply (camq_pinfos _ _ Hok).
Qed.

(** Two commands, at the levels BUS and NORMAL; nothing is frozen. *)
Definition sample_infos : pinfos := list_to_map [(10, Pinfo 0x180 0 1); (20, Pinfo 0x480 0 2); (30, Pinfo 0x280 0 (-1))].
Definition sample_ccbq : cam_ccbq := Ccbq (Camq [0; 10; 20; 0; 0] 4 2 0 [0; 0; 0; 0; 0]) 3 5 0 1.

Lemma sample_ok : camq_ok (queue sample_ccbq) sample_infos.
Proof.
  split; [cbn; lia|cbn; lia|apply (bool_decide_unpack _); vm_compute; exact I| | |exists 0, 0, 0, 0, 0; split; [done|lia]].
  - intros e He. change (members _) with [10; 20] in He. unfold level, CAM_RL_VALUES.
    rewrite !elem_of_cons, elem_of_nil in He. destruct He as [-> | [-> | []]]; (split; [vm_compute; by eexists|vm_compute; done]).
  - intros [|[|i]] e Hi; simpl in Hi; simplify_eq; reflexivity.
Qed.

Lemma cam_openings_accounted_witness :
  @op_spec SortedQueue.heap 6 (Freeze CAM_RL_XPT 1) sample_ccbq sample_infos ∧
  op_result (Freeze CAM_RL_XPT 1) sample_ccbq sample_infos = 1 ∧ account sample_ccbq sample_infos = 6.
Proof.
  split; [|split; reflexivity].
  apply (cam_openings_accounted 6 (Freeze CAM_RL_XPT 1) sample_ccbq sample_infos 0 (sample_ccbq, sample_infos)).
  - exact sample_ok.
  - unfold room. cbn. lia.
  - cbn. unfold CAM_RL_XPT, CAM_RL_VALUES. split; [lia|]. split; [lia|]. split; [vm_compute; reflexivity|].
    apply findable_below. repeat constructor.
  - lia.
  - cbn. lia.
  - apply run_nil.
Defined.

(** Every entry of a binary heap is not before its parent. *)
Definition heap_ordered (q : camq) (ps : pinfos) : bool :=
  forallb (λ i : nat, bool_decide (SortedQueue.prio ps (default 0 (queue_array q !! (i / 2)%nat)) ≤
                                   SortedQueue.prio ps (default 0 (queue_array q !! i))))
    (seq 2 (length (members q) - 1)).

Definition heap_infos : pinfos := list_to_map [(10, Pinfo 0x80 0 1); (20, Pinfo 0x480 0 2); (30, Pinfo 0x180 0 3)].
Definition heap_ccbq : cam_ccbq := Ccbq (Camq [0; 10; 20; 30; 0] 4 3 0 [0; 0; 0; 0; 1]) 2 5 0 1.

(** Freezing a heap loses openings. The array of a heap need not be sorted,
    and the loop of cam_ccbq_freeze stops at the first entry of a level that was
    frozen before: in this heap of three entries, with the level NORMAL frozen, an
    entry behind it becomes frozen without being counted. The call reports 0
    instead of 1, and two openings are missing from the account. *)
Theorem freeze_of_a_heap_undercounts :
  heap_ordered (queue heap_ccbq) heap_infos = true ∧
  in_levels CAM_RL_BUS CAM_RL_NORMAL (levels (queue heap_ccbq) heap_infos) = 1 ∧
  ∃ b ps, cam_ccbq_freeze 6 CAM_RL_BUS 1 (heap_ccbq, heap_infos) = Ok (0, (b, ps)) ∧
    account b ps = account heap_ccbq heap_infos - 2.
Proof. split; [reflexivity|]. split; [reflexivity|]. exists (set_counts [0; 1; 1; 1; 2] heap_ccbq), heap_infos. split; vm_compute; reflexivity. Qed.
