(* ===== verification/OrderedSet.v ===== *)
(** * Ordered sets

    What the trees of sys/tree.h implement: a set of elements ordered by the user's
    comparison, as the sorted list of them. The operations on that list, the calls
    of a program that uses a tree, and the interface that a kind of tree offers. *)

From Stdlib Require Import Sorting.Sorted.
From S2P Require Import Prelude WordHeap.

(** The user's comparison: the sign of a total preorder. *)
Class CmpOrder (cmp : Z → Z → Z) := {
  cmp_flip a b : Z.sgn (cmp b a) = - Z.sgn (cmp a b);
  cmp_trans a b c : cmp a b ≤ 0 → cmp b c ≤ 0 → cmp a c ≤ 0;
}.

(** Comparing the keys of two elements. *)
#[global] Instance cmp_key (key : Z → Z) : CmpOrder (λ a b, key a - key b).
Proof. split; intros; lia. Qed.

Section order.
Context (cmp : Z → Z → Z) `{!CmpOrder cmp}.

Abbreviation lt := (λ a b, cmp a b < 0).

Lemma cmp_lt_gt a b : cmp a b < 0 ↔ 0 < cmp b a.
Proof. pose proof (cmp_flip a b) as H. destruct (Z.sgn_spec (cmp a b)), (Z.sgn_spec (cmp b a)); lia. Qed.
Lemma cmp_refl a : cmp a a = 0.
Proof. pose proof (cmp_flip a a) as H. lia. Qed.
Lemma cmp_eq_flip a b : cmp a b = 0 ↔ cmp b a = 0.
Proof. pose proof (cmp_lt_gt a b). pose proof (cmp_lt_gt b a). lia. Qed.
Lemma cmp_lt_le_trans a b c : cmp a b < 0 → cmp b c ≤ 0 → cmp a c < 0.
Proof.
  intros H1 H2. destruct (decide (cmp a c < 0)) as [|Hn]; [done|].
  assert (cmp c a ≤ 0) as H3 by (pose proof (cmp_lt_gt a c); lia).
  pose proof (cmp_trans _ _ _ H2 H3). pose proof (cmp_lt_gt a b). lia.
Qed.
Lemma cmp_le_lt_trans a b c : cmp a b ≤ 0 → cmp b c < 0 → cmp a c < 0.
Proof.
  intros H1 H2. destruct (decide (cmp a c < 0)) as [|Hn]; [done|].
  assert (cmp c a ≤ 0) as H3 by (pose proof (cmp_lt_gt a c); lia).
  pose proof (cmp_trans _ _ _ H3 H1). pose proof (cmp_lt_gt b c). lia.
Qed.

(** Elements in order, no two of them equal. *)
Definition sorted : list Z → Prop := StronglySorted lt.

Lemma sorted_app xs ys :
  sorted (xs ++ ys) ↔ sorted xs ∧ sorted ys ∧ ∀ x y, x ∈ xs → y ∈ ys → lt x y.
Proof.
  unfold sorted. induction xs as [|x xs IH]; simpl.
  - split; [|tauto]. intros H. split_and!; [constructor|done|by intros ? ? ?%elem_of_nil].
  - split.
    + inversion 1 as [|? ? Hs Hf]; subst. apply IH in Hs as (H1 & H2 & H3). apply Forall_app in Hf as [Hf1 Hf2].
      split_and!; [by constructor|done|]. intros a b [->|Ha]%elem_of_cons Hb; [|by apply H3].
      by apply (proj1 (Forall_forall _ _) Hf2).
    + intros (H1 & H2 & H3). inversion H1; subst. constructor.
      * apply IH. split_and!; [done|done|]. intros a b Ha Hb. apply H3; [by right|done].
      * apply Forall_app. split; [done|]. apply Forall_forall. intros b Hb. apply H3; [left|done].
Qed.

Lemma sorted_cons x xs : sorted (x :: xs) ↔ sorted xs ∧ ∀ y, y ∈ xs → lt x y.
Proof.
  unfold sorted. split.
  - inversion 1 as [|? ? Hs Hf]; subst. by rewrite Forall_forall in Hf.
  - intros [H1 H2]. constructor; [done|]. by apply Forall_forall.
Qed.

Lemma sorted_NoDup xs : sorted xs → NoDup xs.
Proof.
  induction xs as [|x xs IH]; [constructor|]. intros [Hs Hx]%sorted_cons.
  constructor; [|by apply IH]. intros Hin. specialize (Hx x Hin). pose proof (cmp_refl x). lia.
Qed.
End order.

(** ** The operations on the sorted list *)

(** The element behind [a] in a list, or null. *)
Fixpoint behind (a : Z) (xs : list Z) : Z :=
  match xs with
  | [] => 0
  | x :: ys => if decide (x = a) then hd 0 ys else behind a ys
  end.

Lemma behind_split a xs ys : a ∉ xs → behind a (xs ++ a :: ys) = hd 0 ys.
Proof.
  induction xs as [|x xs IH]; simpl; [by rewrite decide_True|].
  intros [Hax Hx]%not_elem_of_cons. rewrite decide_False by done. by apply IH.
Qed.

Lemma split_unique (a : Z) xs ys pre zs :
  NoDup (xs ++ a :: ys) → xs ++ a :: ys = pre ++ a :: zs → xs = pre ∧ ys = zs.
Proof.
  revert pre. induction xs as [|x xs IH]; intros [|y pre] Hnd E; simplify_eq/=; [done|..];
    apply NoDup_cons in Hnd as [Hnd Hnd']; [set_solver..|]. edestruct IH as [-> ->]; [done..|done].
Qed.

Section os.
Context (cmp : Z → Z → Z) `{!CmpOrder cmp}.

(** The elements from [elm] on. *)
Definition not_less (elm : Z) (xs : list Z) : list Z := filter (λ x, cmp elm x ≤ 0) xs.

Lemma not_less_in elm xs x ys : not_less elm xs = x :: ys → x ∈ xs.
Proof. intros E. assert (x ∈ not_less elm xs) as [_ H]%list_elem_of_filter by (rewrite E; left). done. Qed.

Definition os_insert (elm : Z) (xs : list Z) : list Z :=
  filter (λ x, cmp elm x > 0) xs ++ elm :: filter (λ x, cmp elm x < 0) xs.

(** The element equal to [elm], or null. *)
Definition os_find (elm : Z) (xs : list Z) : Z := hd 0 (filter (λ x, cmp elm x = 0) xs).

Lemma os_find_none elm xs : 0 ∉ xs → os_find elm xs = 0 → ∀ x, x ∈ xs → cmp elm x ≠ 0.
Proof.
  unfold os_find. intros H0 Hhd x Hx Hc.
  assert (x ∈ filter (λ x, cmp elm x = 0) xs) as Hin by (by apply list_elem_of_filter).
  destruct (filter _ xs) as [|y ys] eqn:Ef; [by apply elem_of_nil in Hin|]. simpl in Hhd. subst y.
  apply H0. assert (0 ∈ filter (λ x, cmp elm x = 0) xs) as [_ H]%list_elem_of_filter by (rewrite Ef; left). done.
Qed.

Definition os_nfind (elm : Z) (xs : list Z) : Z := hd 0 (not_less elm xs).
Definition os_remove (elm : Z) (xs : list Z) : list Z := filter (λ x, x ≠ elm) xs.

Lemma os_remove_split xs a ys : NoDup (xs ++ a :: ys) → os_remove a (xs ++ a :: ys) = xs ++ ys.
Proof.
  intros (Hx & Hd & [Ha Hy]%NoDup_cons)%NoDup_app. unfold os_remove.
  rewrite filter_app, filter_cons_False by naive_solver.
  rewrite !filter_all; [done|..]; apply Forall_forall; intros x Hin ->; [done|].
  by apply (Hd a Hin); left.
Qed.

Lemma os_insert_app elm xs ys :
  Forall (λ x, cmp elm x > 0) xs → Forall (λ x, cmp elm x < 0) ys → os_insert elm (xs ++ ys) = xs ++ elm :: ys.
Proof.
  intros Hx Hy. unfold os_insert. rewrite !filter_app.
  rewrite (filter_all (λ x, cmp elm x > 0) xs), (filter_all (λ x, cmp elm x < 0) ys) by done.
  rewrite (filter_none (λ x, cmp elm x > 0) ys), (filter_none (λ x, cmp elm x < 0) xs);
    [by rewrite app_nil_r|..]; (eapply Forall_impl; [done|]); simpl; intros; lia.
Qed.

Lemma sorted_insert elm xs ys :
  Forall (λ x, cmp elm x > 0) xs → Forall (λ x, cmp elm x < 0) ys → sorted cmp (xs ++ ys) →
  sorted cmp (xs ++ elm :: ys).
Proof.
  rewrite !Forall_forall, !(sorted_app cmp), (sorted_cons cmp). intros Hx Hy (H1 & H2 & H3).
  split_and!; [done|done|done|]. intros x y Hxs [->|Hys]%elem_of_cons; [|by apply H3].
  apply cmp_lt_gt; [done|]. specialize (Hx x Hxs). lia.
Qed.

Lemma sorted_equal xs a b : sorted cmp xs → a ∈ xs → b ∈ xs → cmp a b = 0 → a = b.
Proof.
  intros Hs Ha Hb Hab. apply list_elem_of_split in Ha as (ys & zs & ->).
  apply sorted_app in Hs as (_ & Hs & Hlt). apply sorted_cons in Hs as [_ Hgt].
  apply elem_of_app in Hb as [Hb|[->|Hb]%elem_of_cons]; [|done|].
  - specialize (Hlt b a Hb ltac:(left)). apply (cmp_lt_gt cmp) in Hlt. lia.
  - specialize (Hgt b Hb). lia.
Qed.

Lemma os_find_equal elm a xs : sorted cmp xs → a ∈ xs → cmp elm a = 0 → os_find elm xs = a.
Proof.
  intros Hs Ha Hc. unfold os_find.
  assert (a ∈ filter (λ x, cmp elm x = 0) xs) as Hin by (by apply list_elem_of_filter).
  destruct (filter _ xs) as [|y ys] eqn:Ef; [by apply elem_of_nil in Hin|]. simpl.
  assert (y ∈ filter (λ x, cmp elm x = 0) xs) as [Hy Hyx]%list_elem_of_filter by (rewrite Ef; left).
  apply (sorted_equal xs); [done..|].
  pose proof (cmp_trans y elm a). pose proof (cmp_trans a elm y).
  pose proof (cmp_eq_flip cmp elm y). pose proof (cmp_eq_flip cmp elm a). pose proof (cmp_lt_gt cmp a y). pose proof (cmp_lt_gt cmp y a).
  destruct (decide (cmp y a < 0)); lia.
Qed.

Lemma os_find_absent elm xs : (∀ x, x ∈ xs → cmp elm x ≠ 0) → os_find elm xs = 0.
Proof. intros H. unfold os_find. rewrite filter_none; [done|]. by apply Forall_forall. Qed.

Lemma os_insert_perm e xs : (∀ x, x ∈ xs → cmp e x ≠ 0) → os_insert e xs ≡ₚ e :: xs.
Proof.
  intros Hno. unfold os_insert. rewrite <-Permutation_middle. f_equiv.
  induction xs as [|x xs IH]; [done|]. pose proof (Hno x ltac:(left)) as Hx.
  specialize (IH (λ y Hy, Hno y (list_elem_of_further _ _ _ Hy))).
  destruct (decide (cmp e x > 0)).
  - rewrite filter_cons_True, filter_cons_False by lia. simpl. by rewrite IH.
  - rewrite filter_cons_False, filter_cons_True by lia. by rewrite <-Permutation_middle, IH.
Qed.

(** ** Programs that use a set *)

Inductive set_op :=
  | OpInsert (elm : Z) | OpRemove (elm : Z) | OpFind (elm : Z) | OpNfind (elm : Z)
  | OpMin | OpMax | OpNext (elm : Z) | OpPrev (elm : Z) | OpForeach | OpForeachReverse.

(** The same on the sorted list of the elements: the result and the new list. *)
Definition os_call (op : set_op) (xs : list Z) : list Z * list Z :=
  match op with
  | OpInsert elm =>
      if decide (os_find elm xs = 0) then ([0], os_insert elm xs) else ([os_find elm xs], xs)
  | OpRemove elm => ([elm], os_remove elm xs)
  | OpFind elm => ([os_find elm xs], xs)
  | OpNfind elm => ([os_nfind elm xs], xs)
  | OpMin => ([hd 0 xs], xs)
  | OpMax => ([List.last xs 0], xs)
  | OpNext elm => ([behind elm xs], xs)
  | OpPrev elm => ([behind elm (reverse xs)], xs)
  | OpForeach => (xs, xs)
  | OpForeachReverse => (reverse xs, xs)
  end.

(** What the macros ask of their caller: an element to insert is one of [pool]; an
    element to remove or to walk from is in the tree. *)
Definition op_ok (pool : list Z) (op : set_op) (xs : list Z) : Prop :=
  match op with
  | OpInsert elm => elm ∈ pool
  | OpRemove elm | OpNext elm | OpPrev elm => elm ∈ xs
  | _ => True
  end.

Fixpoint os_calls (ops : list set_op) (xs : list Z) : list (list Z) * list Z :=
  match ops with
  | [] => ([], xs)
  | op :: ops => let '(r, xs) := os_call op xs in let '(rs, xs) := os_calls ops xs in (r :: rs, xs)
  end.

Fixpoint ops_ok (pool : list Z) (ops : list set_op) (xs : list Z) : Prop :=
  match ops with
  | [] => True
  | op :: ops => op_ok pool op xs ∧ ops_ok pool ops (os_call op xs).2
  end.

#[global] Instance op_ok_dec pool op xs : Decision (op_ok pool op xs).
Proof. destruct op; unfold op_ok; apply _. Defined.
#[global] Instance ops_ok_dec pool ops xs : Decision (ops_ok pool ops xs).
Proof. revert xs. induction ops as [|op ops IH]; intros xs; simpl; [apply _|]. apply and_dec; [apply _|apply IH]. Defined.
End os.

(** The calls of a program, one after the other. *)
Fixpoint calls (call : set_op → M heap (list Z)) (ops : list set_op) : M heap (list (list Z)) :=
  match ops with
  | [] => mret []
  | op :: ops => r ← call op; rs ← calls call ops; mret (r :: rs)
  end.

(** The null pointer is not an element. *)
Class NonNull (pool : list Z) : Prop := non_null : 0 ∉ pool.

(** A kind of tree: how it performs the calls it [supports], and which cells
    represent a list of elements from [pool]. Each call returns what the list gives
    and leaves cells that represent the new list. *)
Class OrderedSet (cmp : Z → Z → Z) (pool : list Z) (call : set_op → M heap (list Z)) (supports : set_op → bool)
    (represents : list Z → cells → Prop) : Prop :=
  ordered_set_call op xs P :
    represents xs P → op_ok pool op xs → supports op = true →
    ∃ P', triple P (call op) (os_call cmp op xs).1 P' ∧ represents (os_call cmp op xs).2 P'.

Lemma ordered_set_calls `{OrderedSet cmp pool call supports represents} ops xs P :
  represents xs P → ops_ok cmp pool ops xs → forallb supports ops = true →
  ∃ P', triple P (calls call ops) (os_calls cmp ops xs).1 P' ∧ represents (os_calls cmp ops xs).2 P'.
Proof.
  revert xs P. induction ops as [|op ops IH]; intros xs P HP Hok Hsup.
  - exists P. split; [by apply triple_ret|done].
  - destruct Hok as [Hop Hok]. cbn [forallb] in Hsup. apply andb_prop in Hsup as [Hsup1 Hsup].
    destruct (ordered_set_call op xs P HP Hop Hsup1) as (P1 & H1 & HP1).
    destruct (IH _ _ HP1 Hok Hsup) as (P2 & H2 & HP2). exists P2. cbn [os_calls calls].
    destruct (os_call cmp op xs) as [r xs1]. simpl in *. destruct (os_calls cmp ops xs1) as [rs xs2]. split; [|done].
    eapply triple_bind; [exact H1|]. eapply triple_bind; [exact H2|]. by apply triple_ret.
Qed.
