(* ===== verification/RBTree.v ===== *)
(** * Red-black trees of the kernel: sys/tree.h, RB_*

    The operations as the macros generate them, on pointer cells. A node has four
    cells: the two children, the parent and the colour; the head is one pointer.
    The code writes each of its rotations, fix-ups and walks twice, once with left
    and right exchanged; here a [side] is the argument that tells the two apart. *)

From S2P Require Import Prelude WordHeap.

Inductive side := SL | SR.

#[global] Instance side_eq_dec : EqDecision side.
Proof. solve_decision. Defined.

Definition opp (d : side) : side := match d with SL => SR | SR => SL end.

Lemma opp_opp d : opp (opp d) = d.
Proof. by destruct d. Qed.

Definition RB_BLACK : Z := 0.
Definition RB_RED : Z := 1.
Definition RB_NEGINF : Z := -1.
Definition RB_INF : Z := 1.

Section rb.
(** The offset of the links in an element, the address of the head, and the
    user's comparison of two elements. *)
Context (field head : Z) (cmp : Z → Z → Z).

Definition rbe_left (elm : Z) : Z := elm + field.
Definition rbe_right (elm : Z) : Z := elm + field + 8.
Definition rbe_parent (elm : Z) : Z := elm + field + 16.
Definition rbe_color (elm : Z) : Z := elm + field + 24.
Definition rbe_child (d : side) : Z → Z := match d with SL => rbe_left | SR => rbe_right end.

Definition RB_LEFT (elm : Z) : M heap Z := load (rbe_left elm).
Definition RB_RIGHT (elm : Z) : M heap Z := load (rbe_right elm).
Definition RB_PARENT (elm : Z) : M heap Z := load (rbe_parent elm).
Definition RB_COLOR (elm : Z) : M heap Z := load (rbe_color elm).
Definition RB_CHILD (d : side) (elm : Z) : M heap Z := load (rbe_child d elm).
Definition RB_ROOT : M heap Z := load head.

Definition RB_EMPTY : M heap bool := r ← RB_ROOT; mret (bool_decide (r = 0)).
Definition RB_INIT : M heap unit := store head 0.

Definition RB_SET (elm parent : Z) : M heap unit :=
  _ ← store (rbe_parent elm) parent;
  _ ← store (rbe_right elm) 0;
  _ ← store (rbe_left elm) 0;
  store (rbe_color elm) RB_RED.

Definition RB_SET_BLACKRED (black red : Z) : M heap unit :=
  _ ← store (rbe_color black) RB_BLACK;
  store (rbe_color red) RB_RED.

(** [if (elm) RB_PARENT(elm) = parent] *)
Definition RB_SET_PARENT (elm parent : Z) : M heap unit :=
  if decide (elm ≠ 0) then store (rbe_parent elm) parent else mret tt.

(** [new] in the place of [elm], a child of [parent] or the root. *)
Definition RB_LINK (parent elm new : Z) : M heap unit :=
  if decide (parent ≠ 0) then
    l ← RB_LEFT parent;
    if decide (l = elm) then store (rbe_left parent) new else store (rbe_right parent) new
  else store head new.

(** Rotation towards [d]; the result is [tmp]. [RB_AUGMENT] is empty. *)
Definition RB_ROTATE (d : side) (elm : Z) : M heap Z :=
  tmp ← RB_CHILD (opp d) elm;
  b ← RB_CHILD d tmp;
  _ ← store (rbe_child (opp d) elm) b;
  _ ← RB_SET_PARENT b elm;
  p ← RB_PARENT elm;
  _ ← store (rbe_parent tmp) p;
  _ ← RB_LINK p elm tmp;
  _ ← store (rbe_child d tmp) elm;
  _ ← store (rbe_parent elm) tmp;
  mret tmp.

Definition RB_ROTATE_LEFT : Z → M heap Z := RB_ROTATE SL.
Definition RB_ROTATE_RIGHT : Z → M heap Z := RB_ROTATE SR.

(** ** Insertion *)

(** [elm && RB_COLOR(elm) == RB_RED], and the opposite. *)
Definition RB_IS_RED (elm : Z) : M heap bool :=
  if decide (elm ≠ 0) then c ← RB_COLOR elm; mret (bool_decide (c = RB_RED)) else mret false.
Definition RB_IS_BLACK (elm : Z) : M heap bool :=
  if decide (elm = 0) then mret true else c ← RB_COLOR elm; mret (bool_decide (c = RB_BLACK)).

(** One turn of the loop of [RB_INSERT_COLOR] when [parent] is the child of
    [gparent] on side [d]; the result is the next [elm]. *)
Definition RB_INSERT_COLOR_turn (d : side) (elm parent gparent : Z) : M heap Z :=
  tmp ← RB_CHILD (opp d) gparent;
  red ← RB_IS_RED tmp;
  if red : bool then
    _ ← store (rbe_color tmp) RB_BLACK;
    _ ← RB_SET_BLACKRED parent gparent;
    mret gparent
  else
    c ← RB_CHILD (opp d) parent;
    if decide (c = elm) then
      _ ← RB_ROTATE d parent;
      _ ← RB_SET_BLACKRED elm gparent;
      _ ← RB_ROTATE (opp d) gparent;
      mret parent
    else
      _ ← RB_SET_BLACKRED parent gparent;
      _ ← RB_ROTATE (opp d) gparent;
      mret elm.

Fixpoint RB_INSERT_COLOR_loop (fuel : nat) (elm : Z) : M heap unit :=
  match fuel with
  | 0%nat => out_of_fuel
  | S fuel =>
      parent ← RB_PARENT elm;
      red ← RB_IS_RED parent;
      if red : bool then
        gparent ← RB_PARENT parent;
        l ← RB_LEFT gparent;
        elm ← RB_INSERT_COLOR_turn (if decide (parent = l) then SL else SR) elm parent gparent;
        RB_INSERT_COLOR_loop fuel elm
      else mret tt
  end.

Definition RB_INSERT_COLOR (fuel : nat) (elm : Z) : M heap unit :=
  _ ← RB_INSERT_COLOR_loop fuel elm;
  root ← RB_ROOT;
  store (rbe_color root) RB_BLACK.

(** The search of [RB_INSERT]: an equal element, or the last element on the way
    and the comparison with it. *)
Fixpoint RB_INSERT_loop (fuel : nat) (elm tmp parent comp : Z) : M heap (Z + Z * Z) :=
  match fuel with
  | 0%nat => out_of_fuel
  | S fuel =>
      if decide (tmp = 0) then mret (inr (parent, comp))
      else
        let comp := cmp elm tmp in
        if decide (comp < 0) then
          l ← RB_LEFT tmp; RB_INSERT_loop fuel elm l tmp comp
        else if decide (comp > 0) then
          r ← RB_RIGHT tmp; RB_INSERT_loop fuel elm r tmp comp
        else mret (inl tmp)
  end.

Definition RB_INSERT (fuel : nat) (elm : Z) : M heap Z :=
  tmp ← RB_ROOT;
  found ← RB_INSERT_loop fuel elm tmp 0 0;
  match found with
  | inl tmp => mret tmp
  | inr (parent, comp) =>
      _ ← RB_SET elm parent;
      _ ← (if decide (parent ≠ 0) then
             if decide (comp < 0) then store (rbe_left parent) elm else store (rbe_right parent) elm
           else store head elm);
      _ ← RB_INSERT_COLOR fuel elm;
      mret 0
  end.

(** ** Removal *)

(** [if (elm) RB_COLOR(elm) = RB_BLACK] *)
Definition RB_PAINT_BLACK (elm : Z) : M heap unit :=
  if decide (elm ≠ 0) then store (rbe_color elm) RB_BLACK else mret tt.

(** The test that neither child is red, the left one first. *)
Definition RB_BOTH_BLACK (elm : Z) : M heap bool :=
  l ← RB_LEFT elm;
  lb ← RB_IS_BLACK l;
  if lb : bool then r ← RB_RIGHT elm; RB_IS_BLACK r else mret false.

(** The sibling of the child of [parent] on side [d], not red: recoloured or
    rotated. [Some] is the next [elm] of the loop, [None] is the [break]. *)
Definition RB_REMOVE_COLOR_black (d : side) (parent tmp : Z) : M heap (option Z) :=
  bb ← RB_BOTH_BLACK tmp;
  if bb : bool then
    _ ← store (rbe_color tmp) RB_RED;
    mret (Some parent)
  else
    f ← RB_CHILD (opp d) tmp;
    fb ← RB_IS_BLACK f;
    tmp ← (if fb : bool then
             oclose ← RB_CHILD d tmp;
             _ ← RB_PAINT_BLACK oclose;
             _ ← store (rbe_color tmp) RB_RED;
             _ ← RB_ROTATE (opp d) tmp;
             RB_CHILD (opp d) parent
           else mret tmp);
    c ← RB_COLOR parent;
    _ ← store (rbe_color tmp) c;
    _ ← store (rbe_color parent) RB_BLACK;
    f ← RB_CHILD (opp d) tmp;
    _ ← RB_PAINT_BLACK f;
    _ ← RB_ROTATE d parent;
    mret None.

(** One turn of the loop of [RB_REMOVE_COLOR], [elm] the child of [parent] on
    side [d]: a red sibling is rotated away first. *)
Definition RB_REMOVE_COLOR_sibling (d : side) (parent : Z) : M heap Z :=
  tmp ← RB_CHILD (opp d) parent;
  c ← RB_COLOR tmp;
  if decide (c = RB_RED) then
    _ ← RB_SET_BLACKRED tmp parent;
    _ ← RB_ROTATE d parent;
    RB_CHILD (opp d) parent
  else mret tmp.

Definition RB_REMOVE_COLOR_turn (d : side) (parent : Z) : M heap (option Z) :=
  tmp ← RB_REMOVE_COLOR_sibling d parent;
  RB_REMOVE_COLOR_black d parent tmp.

Fixpoint RB_REMOVE_COLOR_loop (fuel : nat) (parent elm : Z) : M heap Z :=
  match fuel with
  | 0%nat => out_of_fuel
  | S fuel =>
      b ← RB_IS_BLACK elm;
      if b : bool then
        root ← RB_ROOT;
        if decide (elm ≠ root) then
          l ← RB_LEFT parent;
          next ← RB_REMOVE_COLOR_turn (if decide (l = elm) then SL else SR) parent;
          match next with
          | Some elm => parent ← RB_PARENT elm; RB_REMOVE_COLOR_loop fuel parent elm
          | None => RB_ROOT
          end
        else mret elm
      else mret elm
  end.

Definition RB_REMOVE_COLOR (fuel : nat) (parent elm : Z) : M heap unit :=
  elm ← RB_REMOVE_COLOR_loop fuel parent elm;
  RB_PAINT_BLACK elm.

(** [while (RB_LEFT(elm)) elm = RB_LEFT(elm)], or to the right. *)
Fixpoint RB_descend (fuel : nat) (d : side) (elm : Z) : M heap Z :=
  match fuel with
  | 0%nat => out_of_fuel
  | S fuel => c ← RB_CHILD d elm; if decide (c ≠ 0) then RB_descend fuel d c else mret elm
  end.

(** The walk to the root that calls the empty [RB_AUGMENT]. *)
Fixpoint RB_augment_path (fuel : nat) (left : Z) : M heap unit :=
  match fuel with
  | 0%nat => out_of_fuel
  | S fuel => left ← RB_PARENT left; if decide (left ≠ 0) then RB_augment_path fuel left else mret tt
  end.

(** [(elm)->field = (old)->field] *)
Definition RB_COPY (elm old : Z) : M heap unit :=
  l ← RB_LEFT old;
  _ ← store (rbe_left elm) l;
  r ← RB_RIGHT old;
  _ ← store (rbe_right elm) r;
  p ← RB_PARENT old;
  _ ← store (rbe_parent elm) p;
  c ← RB_COLOR old;
  store (rbe_color elm) c.

(** The successor [elm] takes the place of [old]. *)
Definition RB_REMOVE_replace (old elm : Z) : M heap unit :=
  _ ← RB_COPY elm old;
  p ← RB_PARENT old;
  _ ← RB_LINK p old elm;
  l ← RB_LEFT old;
  _ ← store (rbe_parent l) elm;
  r ← RB_RIGHT old;
  RB_SET_PARENT r elm.

(** The rest of the branch, [RB_AUGMENT] and the label [color]. *)
Definition RB_REMOVE_finish (fuel : nat) (parent child color : Z) : M heap unit :=
  _ ← (if decide (parent ≠ 0) then RB_augment_path fuel parent else mret tt);
  if decide (color = RB_BLACK) then RB_REMOVE_COLOR fuel parent child else mret tt.

Definition RB_REMOVE (fuel : nat) (elm : Z) : M heap Z :=
  let old := elm in
  l ← RB_LEFT elm;
  r ← RB_RIGHT elm;
  if decide (l = 0 ∨ r = 0) then
    let child := if decide (l = 0) then r else l in
    parent ← RB_PARENT elm;
    color ← RB_COLOR elm;
    _ ← RB_SET_PARENT child parent;
    _ ← RB_LINK parent elm child;
    _ ← (if decide (color = RB_BLACK) then RB_REMOVE_COLOR fuel parent child else mret tt);
    mret old
  else
    elm ← RB_descend fuel SL r;
    child ← RB_RIGHT elm;
    parent ← RB_PARENT elm;
    color ← RB_COLOR elm;
    _ ← RB_SET_PARENT child parent;
    _ ← RB_LINK parent elm child;
    p ← RB_PARENT elm;
    let parent := if decide (p = old) then elm else parent in
    _ ← RB_REMOVE_replace old elm;
    _ ← RB_REMOVE_finish fuel parent child color;
    mret old.

(** ** Searching *)

Fixpoint RB_FIND_loop (fuel : nat) (elm tmp : Z) : M heap Z :=
  match fuel with
  | 0%nat => out_of_fuel
  | S fuel =>
      if decide (tmp = 0) then mret 0
      else if decide (cmp elm tmp < 0) then l ← RB_LEFT tmp; RB_FIND_loop fuel elm l
      else if decide (cmp elm tmp > 0) then r ← RB_RIGHT tmp; RB_FIND_loop fuel elm r
      else mret tmp
  end.

Definition RB_FIND (fuel : nat) (elm : Z) : M heap Z := tmp ← RB_ROOT; RB_FIND_loop fuel elm tmp.

Fixpoint RB_NFIND_loop (fuel : nat) (elm tmp res : Z) : M heap Z :=
  match fuel with
  | 0%nat => out_of_fuel
  | S fuel =>
      if decide (tmp = 0) then mret res
      else if decide (cmp elm tmp < 0) then l ← RB_LEFT tmp; RB_NFIND_loop fuel elm l tmp
      else if decide (cmp elm tmp > 0) then r ← RB_RIGHT tmp; RB_NFIND_loop fuel elm r res
      else mret tmp
  end.

Definition RB_NFIND (fuel : nat) (elm : Z) : M heap Z := tmp ← RB_ROOT; RB_NFIND_loop fuel elm tmp 0.

Fixpoint RB_MINMAX_loop (fuel : nat) (val tmp parent : Z) : M heap Z :=
  match fuel with
  | 0%nat => out_of_fuel
  | S fuel =>
      if decide (tmp = 0) then mret parent
      else if decide (val < 0) then l ← RB_LEFT tmp; RB_MINMAX_loop fuel val l tmp
      else r ← RB_RIGHT tmp; RB_MINMAX_loop fuel val r tmp
  end.

Definition RB_MINMAX (fuel : nat) (val : Z) : M heap Z := tmp ← RB_ROOT; RB_MINMAX_loop fuel val tmp 0.
Definition RB_MIN (fuel : nat) : M heap Z := RB_MINMAX fuel RB_NEGINF.
Definition RB_MAX (fuel : nat) : M heap Z := RB_MINMAX fuel RB_INF.

(** ** Walking *)

(** [while (RB_PARENT(elm) && elm == RB_RIGHT(RB_PARENT(elm))) elm = RB_PARENT(elm)],
    or with the other side. *)
Fixpoint RB_ascend (fuel : nat) (d : side) (elm : Z) : M heap Z :=
  match fuel with
  | 0%nat => out_of_fuel
  | S fuel =>
      p ← RB_PARENT elm;
      if decide (p ≠ 0) then
        c ← RB_CHILD d p;
        if decide (elm = c) then RB_ascend fuel d p else mret elm
      else mret elm
  end.

(** The element after [elm] in the direction [d]: [RB_NEXT] goes to the right. *)
Definition RB_STEP (fuel : nat) (d : side) (elm : Z) : M heap Z :=
  r ← RB_CHILD d elm;
  if decide (r ≠ 0) then RB_descend fuel (opp d) r
  else
    p ← RB_PARENT elm;
    above ← (if decide (p ≠ 0) then c ← RB_CHILD (opp d) p; mret (bool_decide (elm = c)) else mret false);
    if above : bool then RB_PARENT elm
    else elm ← RB_ascend fuel d elm; RB_PARENT elm.

Definition RB_NEXT (fuel : nat) : Z → M heap Z := RB_STEP fuel SR.
Definition RB_PREV (fuel : nat) : Z → M heap Z := RB_STEP fuel SL.

Fixpoint RB_FOREACH_loop (turns fuel : nat) (d : side) (x : Z) : M heap (list Z) :=
  match turns with
  | 0%nat => out_of_fuel
  | S turns =>
      if decide (x = 0) then mret []
      else
        y ← RB_STEP fuel d x;
        rest ← RB_FOREACH_loop turns fuel d y;
        mret (x :: rest)
  end.

Definition RB_FOREACH (turns fuel : nat) : M heap (list Z) :=
  x ← RB_MIN fuel; RB_FOREACH_loop turns fuel SR x.
Definition RB_FOREACH_REVERSE (turns fuel : nat) : M heap (list Z) :=
  x ← RB_MAX fuel; RB_FOREACH_loop turns fuel SL x.
End rb.
