(* ===== verification/RBShape.v ===== *)
(** * Red-black trees: shapes, their cells, and rotation

    A tree of [tree] is the shape that the pointer cells of RBTree form; a list of
    frames is the path from a subtree up to the root. The cells of the whole tree
    are those of the subtree in its slot and those of the path. *)

From S2P Require Import Prelude WordHeap RBTree.

Inductive color := Black | Red.

#[global] Instance color_eq_dec : EqDecision color.
Proof. solve_decision. Defined.

Definition color_val (c : color) : Z := match c with Black => RB_BLACK | Red => RB_RED end.

Inductive tree := E | T (c : color) (l : tree) (a : Z) (r : tree).

#[global] Instance tree_eq_dec : EqDecision tree.
Proof. solve_decision. Defined.

(** The node with the subtree [n] on side [d] and [f] on the other. *)
Definition node (d : side) (c : color) (n : tree) (a : Z) (f : tree) : tree :=
  match d with SL => T c n a f | SR => T c f a n end.

(** A step down to the child on side [d]: the node and its other subtree. *)
Record frame := Frame { fr_side : side; fr_color : color; fr_elm : Z; fr_sib : tree }.
Abbreviation path := (list frame).

Definition plug1 (f : frame) (t : tree) : tree := node (fr_side f) (fr_color f) t (fr_elm f) (fr_sib f).
Fixpoint plug (p : path) (t : tree) : tree :=
  match p with [] => t | f :: p => plug p (plug1 f t) end.

Definition root (t : tree) : Z := match t with E => 0 | T _ _ a _ => a end.
Definition is_red (t : tree) : bool := match t with T Red _ _ _ => true | _ => false end.
Definition paint (c : color) (t : tree) : tree := match t with E => E | T _ l a r => T c l a r end.

Fixpoint inorder (t : tree) : list Z :=
  match t with E => [] | T _ l a r => inorder l ++ a :: inorder r end.

Definition frame_before (f : frame) : list Z :=
  match fr_side f with SL => [] | SR => inorder (fr_sib f) ++ [fr_elm f] end.
Definition frame_after (f : frame) : list Z :=
  match fr_side f with SL => fr_elm f :: inorder (fr_sib f) | SR => [] end.
Fixpoint before (p : path) : list Z := match p with [] => [] | f :: p => before p ++ frame_before f end.
Fixpoint after (p : path) : list Z := match p with [] => [] | f :: p => frame_after f ++ after p end.

Lemma inorder_plug p t : inorder (plug p t) = before p ++ inorder t ++ after p.
Proof.
  revert t. induction p as [|[[] c a s] p IH]; intros t; simpl; [by rewrite app_nil_r|..];
    rewrite IH; unfold frame_before, frame_after; simpl; by rewrite <-!app_assoc, ?app_nil_l.
Qed.

Lemma plug_app p q t : plug (p ++ q) t = plug q (plug p t).
Proof. revert t. induction p as [|f p IH]; intros t; simpl; [done|]. apply IH. Qed.

Lemma plug_nonempty p t : t ≠ E → plug p t ≠ E.
Proof.
  revert t. induction p as [|f p IH]; intros t Ht; simpl; [done|].
  apply IH. unfold plug1. by destruct (fr_side f).
Qed.

Lemma before_app p q : before (p ++ q) = before q ++ before p.
Proof. induction p as [|f p IH]; simpl; [by rewrite app_nil_r|]. by rewrite IH, app_assoc. Qed.
Lemma after_app p q : after (p ++ q) = after p ++ after q.
Proof. induction p as [|f p IH]; simpl; [done|]. by rewrite IH, app_assoc. Qed.

(** ** The colour invariant *)

(** A tree with a root of colour [c] (empty counts as black) and [n] black nodes
    on every way down, in which no red node has a red child. *)
Inductive rbt : color → nat → tree → Prop :=
  | rbt_E : rbt Black 0 E
  | rbt_R n l a r : rbt Black n l → rbt Black n r → rbt Red n (T Red l a r)
  | rbt_B c c' n l a r : rbt c n l → rbt c' n r → rbt Black (S n) (T Black l a r).

(** A path in whose hole a tree with root [c] and [n] black nodes makes a
    red-black tree. *)
Inductive rbp : color → nat → path → Prop :=
  | rbp_nil n : rbp Black n []
  | rbp_R n d a s p : rbt Black n s → rbp Red n p → rbp Black n (Frame d Red a s :: p)
  | rbp_B c c' n d a s p : rbt c' n s → rbp Black (S n) p → rbp c n (Frame d Black a s :: p).

Lemma rbt_node_B d c c' n l a r : rbt c n l → rbt c' n r → rbt Black (S n) (node d Black l a r).
Proof. destruct d; by econstructor. Qed.
Lemma rbt_node_R d n l a r : rbt Black n l → rbt Black n r → rbt Red n (node d Red l a r).
Proof. destruct d; by constructor. Qed.

Lemma rbp_black c n p : rbp c n p → rbp Black n p.
Proof. destruct 1; by econstructor. Qed.

(** A red root may be painted black, one more black node. *)
Lemma rbt_paint c n t : rbt c n t → ∃ m, rbt Black m (paint Black t).
Proof. destruct 1; simpl; eauto using rbt. Qed.

Lemma plug_rbt c n p t : rbp c n p → rbt c n t → ∃ m, rbt Black m (plug p t).
Proof.
  intros Hp. revert t. induction Hp as [n|n d a s p Hs Hp IH|c c' n d a s p Hs Hp IH]; intros t Ht; simpl.
  - by exists n.
  - apply IH. by apply rbt_node_R.
  - apply IH. by eapply rbt_node_B.
Qed.

(** Every node of a red-black tree splits it into a subtree and a path. *)
Lemma unplug_rbt p t m :
  rbt Black m (plug p t) → ∃ c n, rbt c n t ∧ rbp c n p.
Proof.
  revert t m. induction p as [|[d c a s] p IH]; intros t m Ht; simpl in *.
  - exists Black, m. split; [done|constructor].
  - apply IH in Ht as (c' & n & Ht & Hp). unfold plug1 in Ht. simpl in Ht.
    destruct d, c; inversion Ht; subst; eauto using rbp, rbp_black.
Qed.

Lemma inorder_split t a :
  a ∈ inorder t → ∃ p c l r, t = plug p (T c l a r).
Proof.
  induction t as [|c l IHl b r IHr]; simpl; [by rewrite elem_of_nil|].
  rewrite elem_of_app, elem_of_cons. intros [Ha|[->|Ha]].
  - destruct (IHl Ha) as (p & c' & l' & r' & ->). exists (p ++ [Frame SL c b r]), c', l', r'. by rewrite plug_app.
  - by exists [], c, l, r.
  - destruct (IHr Ha) as (p & c' & l' & r' & ->). exists (p ++ [Frame SR c b l]), c', l', r'. by rewrite plug_app.
Qed.

(** ** Height *)

Fixpoint height (t : tree) : nat := match t with E => 0 | T _ l _ r => S (height l `max` height r) end.

Lemma rbt_height c n t : rbt c n t → (height t ≤ 2 * n + (if c is Red then 1 else 0))%nat.
Proof.
  induction 1 as [|n l a r ? IHl ? IHr|c c' n l a r ? IHl ? IHr]; simpl; [lia|lia|].
  destruct c, c'; lia.
Qed.

Lemma rbt_size c n t : rbt c n t → (2 ^ n ≤ length (inorder t) + 1)%nat.
Proof.
  induction 1; simpl; rewrite ?length_app; simpl; lia.
Qed.

(** The maximum height of a red-black tree is 2lg (n+1). *)
Lemma rb_height n t : rbt Black n t → (height t ≤ 2 * Nat.log2 (length (inorder t) + 1))%nat.
Proof.
  intros Ht. pose proof (rbt_height _ _ _ Ht) as H1. pose proof (rbt_size _ _ _ Ht) as H2. simpl in H1.
  assert (n ≤ Nat.log2 (length (inorder t) + 1))%nat; [|lia].
  rewrite <-(Nat.log2_pow2 n) by lia. by apply Nat.log2_le_mono.
Qed.

Lemma plug_height p t : (length p + height t ≤ height (plug p t))%nat.
Proof.
  revert t. induction p as [|[d c a s] p IH]; intros t; simpl; [done|].
  specialize (IH (plug1 (Frame d c a s) t)). assert (S (height t) ≤ height (plug1 (Frame d c a s) t))%nat;
    [unfold plug1; destruct d; simpl; lia|lia].
Qed.

(** ** Cells *)

(** Elements are distinct and not null. *)
Definition sound (t : tree) : Prop := NoDup (inorder t) ∧ 0 ∉ inorder t.

Lemma sound_perm t t' : inorder t ≡ₚ inorder t' → sound t → sound t'.
Proof. unfold sound. by intros ->. Qed.

Lemma inorder_plug_perm p t : inorder (plug p t) ≡ₚ inorder t ++ before p ++ after p.
Proof. rewrite inorder_plug. solve_Permutation. Qed.

Section cells.
Context (field head : Z).

Abbreviation left := (rbe_left field).
Abbreviation right := (rbe_right field).
Abbreviation parent := (rbe_parent field).
Abbreviation colour := (rbe_color field).
Abbreviation child := (rbe_child field).

(** The cells of an element that is in no tree. *)
Definition entry (a l r p c : Z) : cells := [(left a, l); (right a, r); (parent a, p); (colour a, c)].

Definition par_cells (par : Z) (t : tree) : cells :=
  match t with E => [] | T _ _ a _ => [(parent a, par)] end.

Fixpoint inner (t : tree) : cells :=
  match t with
  | E => []
  | T c l a r =>
      (colour a, color_val c) :: (left a, root l) :: (right a, root r) ::
      par_cells a l ++ inner l ++ par_cells a r ++ inner r
  end.

(** A tree whose root is in the pointer at [slot], with the parent [par]. *)
Definition tree_cells (slot par : Z) (t : tree) : cells := (slot, root t) :: par_cells par t ++ inner t.

Definition slot_of (p : path) : Z := match p with [] => head | Frame d _ a _ :: _ => child d a end.
Definition par_of (p : path) : Z := match p with [] => 0 | Frame _ _ a _ :: _ => a end.

Fixpoint path_cells (p : path) : cells :=
  match p with
  | [] => []
  | Frame d c a s :: p =>
      (colour a, color_val c) :: (parent a, par_of p) :: (slot_of p, a) :: (child (opp d) a, root s) ::
      par_cells a s ++ inner s ++ path_cells p
  end.

Lemma inner_node d c n a f :
  inner (node d c n a f) ≡ₚ
  (colour a, color_val c) :: (child d a, root n) :: (child (opp d) a, root f) ::
  par_cells a n ++ inner n ++ par_cells a f ++ inner f.
Proof. destruct d; simpl; [done|]. solve_Permutation. Qed.

Lemma root_node d c n a f : root (node d c n a f) = a.
Proof. by destruct d. Qed.
Lemma par_cells_node par d c n a f : par_cells par (node d c n a f) = [(parent a, par)].
Proof. by destruct d. Qed.

(** The cells of a subtree and of the path above it, one step up. *)
Lemma plug1_cells f p t :
  tree_cells (slot_of (f :: p)) (par_of (f :: p)) t ++ path_cells (f :: p) ≡ₚ
  tree_cells (slot_of p) (par_of p) (plug1 f t) ++ path_cells p.
Proof.
  destruct f as [d c a s]. unfold plug1, tree_cells. simpl.
  rewrite root_node, par_cells_node, inner_node. simpl. solve_Permutation.
Qed.

(** The whole tree, seen from a subtree. *)
Lemma plug_cells p t :
  tree_cells head 0 (plug p t) ≡ₚ tree_cells (slot_of p) (par_of p) t ++ path_cells p.
Proof.
  revert t. induction p as [|f p IH]; intros t; simpl; [by rewrite app_nil_r|].
  by rewrite IH, <-plug1_cells.
Qed.

(** What [RB_LINK] asks of the place it changes. *)
Definition link_ok (p : path) (a : Z) : Prop :=
  match p with [] => True | Frame _ _ b s :: _ => b ≠ 0 ∧ root s ≠ a end.

Lemma root_in t : t ≠ E → root t ∈ inorder t.
Proof. destruct t; simpl; [done|]. intros _. apply elem_of_app. right. left. Qed.

Lemma sound_root t : sound t → t ≠ E → root t ≠ 0.
Proof. intros [_ H0] Ht Hr. apply H0. rewrite <-Hr. by apply root_in. Qed.

Lemma sound_link p t : sound (plug p t) → t ≠ E → link_ok p (root t).
Proof.
  intros [Hnd H0] Ht. destruct p as [|[d c a s] p]; simpl in *; [done|].
  rewrite inorder_plug_perm in Hnd, H0. pose proof (root_in t Ht) as Hin.
  assert (inorder (plug1 (Frame d c a s) t) ≡ₚ a :: inorder s ++ inorder t) as Hp
    by (unfold plug1; destruct d; simpl; solve_Permutation).
  rewrite Hp in *. split; [intros ->; apply H0; left|].
  intros Heq. destruct (decide (s = E)) as [->|Hs].
  - simpl in Heq. rewrite <-Heq in Hin. apply H0. simpl. right. apply elem_of_app. by left.
  - pose proof (root_in s Hs) as Hins. rewrite Heq in Hins.
    apply NoDup_app in Hnd as [Hnd _]. apply NoDup_cons in Hnd as [_ Hnd].
    apply NoDup_app in Hnd as (_ & Hd & _). by eapply Hd.
Qed.

Lemma rb_link_spec p a v :
  link_ok p a →
  triple ((slot_of p, a) :: path_cells p) (RB_LINK field head (par_of p) a v) tt
    ((slot_of p, v) :: path_cells p).
Proof.
  unfold RB_LINK, RB_LEFT. destruct p as [|[d c b s] p]; simpl; [intros _; heap_steps; done|].
  intros [Hb Hs]. heap_step. destruct d; simpl in *; heap_steps; solve_Permutation.
Qed.

Lemma rb_set_parent_spec t par par' :
  (t ≠ E → root t ≠ 0) →
  triple (par_cells par t) (RB_SET_PARENT field (root t) par') tt (par_cells par' t).
Proof.
  unfold RB_SET_PARENT. destruct t; simpl; intros Hr; [heap_steps; done|].
  specialize (Hr ltac:(done)). heap_steps. done.
Qed.

(** ** Rotation *)

Lemma rb_rotate_spec p d c c' x y A B C :
  link_ok p x → (B ≠ E → root B ≠ 0) →
  triple (tree_cells (slot_of p) (par_of p) (node d c A x (node d c' B y C)) ++ path_cells p)
    (RB_ROTATE field head d x) y
    (tree_cells (slot_of p) (par_of p) (node d c' (node d c A x B) y C) ++ path_cells p).
Proof.
  intros Hl HB. unfold tree_cells. rewrite !inner_node, !root_node, !par_cells_node.
  unfold RB_ROTATE, RB_CHILD, RB_PARENT. cbn [app].
  do 3 heap_step.
  heap_call (rb_set_parent_spec B y x HB). do 2 heap_step.
  heap_call (rb_link_spec p x y Hl). heap_steps. solve_Permutation.
Qed.

(** ** Colours *)

Lemma rb_is_red_spec t :
  (t ≠ E → root t ≠ 0) → triple (inner t) (RB_IS_RED field (root t)) (is_red t) (inner t).
Proof.
  unfold RB_IS_RED, RB_COLOR. destruct t as [|c l a r]; simpl; intros Ha; [by heap_steps|].
  specialize (Ha ltac:(done)). do 2 heap_step. destruct c; simpl; by heap_steps.
Qed.

Lemma rb_is_black_spec t :
  (t ≠ E → root t ≠ 0) → triple (inner t) (RB_IS_BLACK field (root t)) (negb (is_red t)) (inner t).
Proof.
  unfold RB_IS_BLACK, RB_COLOR. destruct t as [|c l a r]; simpl; intros Ha; [by heap_steps|].
  specialize (Ha ltac:(done)). do 2 heap_step. destruct c; simpl; by heap_steps.
Qed.

Lemma rb_paint_spec c t :
  t ≠ E → triple (inner t) (store (colour (root t)) (color_val c)) tt (inner (paint c t)).
Proof. destruct t as [|c' l a r]; simpl; [done|]. intros _. by heap_steps. Qed.

Lemma rb_paint_black_spec t :
  (t ≠ E → root t ≠ 0) → triple (inner t) (RB_PAINT_BLACK field (root t)) tt (inner (paint Black t)).
Proof.
  unfold RB_PAINT_BLACK. destruct t as [|c' l a r]; simpl; intros Ha; [by heap_steps|].
  specialize (Ha ltac:(done)). by heap_steps.
Qed.

Lemma rb_both_black_spec d a n f :
  (n ≠ E → root n ≠ 0) → (f ≠ E → root f ≠ 0) →
  let P := (child d a, root n) :: (child (opp d) a, root f) :: inner n ++ inner f in
  triple P (RB_BOTH_BLACK field a) (negb (is_red n) && negb (is_red f)) P.
Proof.
  intros Hn Hf P. subst P. unfold RB_BOTH_BLACK, RB_LEFT, RB_RIGHT.
  destruct d; cbn [rbe_child opp]; [|rewrite andb_comm]; heap_step.
  - heap_call (rb_is_black_spec n Hn). destruct (is_red n); simpl; [heap_steps; solve_Permutation|].
    heap_step. heap_call (rb_is_black_spec f Hf). solve_Permutation.
  - heap_call (rb_is_black_spec f Hf). destruct (is_red f); simpl; [heap_steps; solve_Permutation|].
    heap_step. heap_call (rb_is_black_spec n Hn). solve_Permutation.
Qed.
End cells.

Lemma node_opp d c n a f : node (opp d) c n a f = node d c f a n.
Proof. by destruct d. Qed.
Lemma root_paint c t : root (paint c t) = root t.
Proof. by destruct t. Qed.
Lemma inorder_paint c t : inorder (paint c t) = inorder t.
Proof. by destruct t. Qed.
Lemma par_cells_paint field par c t : par_cells field par (paint c t) = par_cells field par t.
Proof. by destruct t. Qed.
Lemma paint_E c t : paint c t = E ↔ t = E.
Proof. by destruct t. Qed.

(** A sound tree has sound subtrees along every path. *)
Lemma sound_incl t t' r : inorder t ≡ₚ inorder t' ++ r → sound t → sound t'.
Proof.
  unfold sound. intros ->. intros [Hnd H0]. apply NoDup_app in Hnd as [Hnd _].
  split; [done|]. intros Hin. apply H0. apply elem_of_app. by left.
Qed.
Lemma sound_plug p t : sound (plug p t) → sound t.
Proof. eapply sound_incl, inorder_plug_perm. Qed.
Lemma sound_sib p d c a s t : sound (plug (Frame d c a s :: p) t) → sound s.
Proof.
  intros H. simpl in H. apply sound_plug in H. apply (sound_incl _ s (a :: inorder t)) in H; [done|].
  unfold plug1. destruct d; simpl; solve_Permutation.
Qed.
Lemma node_of d c l a r : ∃ n f, T c l a r = node d c n a f.
Proof. destruct d; [by exists l, r|by exists r, l]. Qed.
Lemma height_node d c n a f : height (node d c n a f) = S (height n `max` height f).
Proof. destruct d; simpl; [done|]. by rewrite Nat.max_comm. Qed.
Lemma sound_node d c n a f : sound (node d c n a f) → sound n ∧ sound f ∧ a ≠ 0.
Proof.
  intros Hs. split_and!.
  - apply (sound_incl _ n (a :: inorder f)) in Hs; [done|]. destruct d; simpl; solve_Permutation.
  - apply (sound_incl _ f (a :: inorder n)) in Hs; [done|]. destruct d; simpl; solve_Permutation.
  - intros ->. destruct Hs as [_ H0]. apply H0. destruct d; simpl; set_solver.
Qed.
Lemma sound_siblings p d c a s t : sound (plug (Frame d c a s :: p) t) → s ≠ E → root s ≠ root t.
Proof.
  intros H Hs. destruct (decide (t = E)) as [->|Ht]; [by apply sound_root; [by apply sound_sib in H|]|].
  by apply (sound_link _ _ H Ht).
Qed.

(** The root of the whole tree is not in the subtree. *)
Lemma root_plug p t : p ≠ [] → root (plug p t) ∈ before p ++ after p.
Proof.
  revert t. induction p as [|[d c a s] p IH]; intros t Hp; [done|]. simpl.
  destruct p as [|f p].
  - simpl. unfold plug1. simpl. rewrite root_node. destruct d; simpl; unfold frame_before, frame_after; simpl; set_solver.
  - specialize (IH (plug1 (Frame d c a s) t) ltac:(done)). rewrite !elem_of_app in *. naive_solver.
Qed.
Lemma sound_root_plug p t : sound (plug p t) → p ≠ [] → root t ≠ root (plug p t).
Proof.
  intros Hs Hp Heq. pose proof (root_plug p t Hp) as Hin. rewrite <-Heq in Hin.
  destruct (decide (t = E)) as [->|Ht].
  - apply (sound_root _ Hs); [|done]. intros HE. destruct p as [|f p]; [done|]. simpl in HE.
    apply (plug_nonempty p (plug1 f E)); [|done]. unfold plug1. by destruct (fr_side f).
  - destruct Hs as [Hnd _]. rewrite inorder_plug_perm in Hnd. apply NoDup_app in Hnd as (_ & Hd & _).
    eapply Hd; [by apply root_in|done].
Qed.
Lemma sound_elm p d c a s t : sound (plug (Frame d c a s :: p) t) → a ≠ 0.
Proof.
  intros H. simpl in H. pose proof (sound_root _ (sound_plug _ _ H)) as Hr. unfold plug1 in Hr. simpl in Hr.
  rewrite root_node in Hr. apply Hr. by destruct d.
Qed.
Lemma sound_link_frame p d c a s t : sound (plug (Frame d c a s :: p) t) → link_ok p a.
Proof.
  intros H. pose proof (sound_link p (plug1 (Frame d c a s) t) H) as Hl. unfold plug1 in Hl.
  simpl in Hl. rewrite root_node in Hl. apply Hl. by destruct d.
Qed.
Lemma sound_flip p d c a s t : sound (plug (Frame d c a s :: p) t) → sound (plug (Frame (opp d) c a t :: p) s).
Proof. simpl. unfold plug1. simpl. by rewrite node_opp. Qed.

(** The cells near the focus, one by one. *)
Ltac shape :=
  unfold tree_cells; cbn [slot_of par_of path_cells];
  rewrite ?inner_node, ?root_node, ?par_cells_node, ?par_cells_paint, ?root_paint, ?opp_opp; cbn [app root color_val].
Ltac shape_in H :=
  unfold tree_cells in H; cbn [slot_of par_of path_cells] in H;
  rewrite ?inner_node, ?root_node, ?par_cells_node, ?par_cells_paint, ?root_paint, ?opp_opp in H; cbn [app root color_val] in H.
Ltac tree_call lem := let H := fresh "Hc" in pose proof lem as H; shape_in H; heap_call H; clear H.

Ltac list_flat := repeat (progress (simpl; rewrite <-?app_assoc)).
