(* ===== verification/RBFix.v ===== *)
(** * Red-black trees: repairing the colours after an insertion

    [RB_INSERT_COLOR] ends, keeps the elements in their order and restores the colour
    invariant. *)

From S2P Require Import Prelude WordHeap RBTree RBShape.

Section fix_up.
Context (field head : Z).

Abbreviation at_path p t :=
  (tree_cells field (slot_of field head p) (par_of p) t ++ path_cells field head p).

Lemma root_sound p t : sound (plug p t) → t ≠ E → root t ≠ 0.
Proof. intros H. by apply sound_root, (sound_plug p). Qed.

(** Replacing a subtree by one with the same elements. *)
Lemma sound_swap p q t t' : sound (plug p t) → inorder (plug q t') = inorder (plug p t) → sound (plug q t').
Proof. intros H E. apply (sound_perm (plug p t)); [by rewrite E|done]. Qed.

(** ** RB_INSERT_COLOR *)

Lemma insert_turn_red p d1 d2 x s g u t :
  sound (plug (Frame d1 Red x s :: Frame d2 Black g u :: p) t) → is_red u = true →
  triple (at_path (Frame d1 Red x s :: Frame d2 Black g u :: p) t)
    (RB_INSERT_COLOR_turn field head d2 (root t) x g) g
    (at_path p (node d2 Red (node d1 Black t x s) g (paint Black u))).
Proof.
  intros Hs Hu. simpl in Hs. pose proof (sound_sib _ _ _ _ _ _ Hs) as Hus.
  assert (u ≠ E) as Hne by (by destruct u).
  unfold RB_INSERT_COLOR_turn, RB_CHILD, RB_SET_BLACKRED. shape. heap_step. heap_call (rb_is_red_spec field u (λ _, sound_root u Hus Hne)).
  rewrite Hu. heap_call (rb_paint_spec field Black u Hne). heap_steps. solve_Permutation.
Qed.

Lemma insert_turn_outer p d x s g u t :
  sound (plug (Frame d Red x s :: Frame d Black g u :: p) t) → is_red u = false → t ≠ E →
  triple (at_path (Frame d Red x s :: Frame d Black g u :: p) t)
    (RB_INSERT_COLOR_turn field head d (root t) x g) (root t)
    (at_path p (node d Black t x (node d Red s g u))).
Proof.
  intros Hs Hu Ht. pose proof (sound_link _ _ Hs Ht) as [_ Hst].
  pose proof (sound_sib _ _ _ _ _ _ Hs) as Hss. simpl in Hs. pose proof (sound_sib _ _ _ _ _ _ Hs) as Hus.
  pose proof (sound_link_frame _ _ _ _ _ _ Hs) as Hl.
  unfold RB_INSERT_COLOR_turn, RB_CHILD, RB_SET_BLACKRED. shape. heap_step.
  heap_call (rb_is_red_spec field u (sound_root u Hus)). rewrite Hu. do 5 heap_step.
  tree_call (rb_rotate_spec field head p (opp d) Red Black g x u s t Hl (sound_root s Hss)).
  heap_steps. solve_Permutation.
Qed.

Lemma insert_turn_inner p d x s g u e X Y :
  sound (plug (Frame (opp d) Red x s :: Frame d Black g u :: p) (node d Red X e Y)) → is_red u = false →
  triple (at_path (Frame (opp d) Red x s :: Frame d Black g u :: p) (node d Red X e Y))
    (RB_INSERT_COLOR_turn field head d e x g) x
    (at_path p (node d Black (node d Red s x X) e (node d Red Y g u))).
Proof.
  intros Hs Hu. destruct (sound_node _ _ _ _ _ (sound_plug _ _ Hs)) as (HX & HY & _).
  pose proof (sound_link_frame _ _ _ _ _ _ Hs) as Hl1. simpl in Hs.
  pose proof (sound_sib _ _ _ _ _ _ Hs) as Hus. pose proof (sound_link_frame _ _ _ _ _ _ Hs) as Hl2.
  unfold RB_INSERT_COLOR_turn, RB_CHILD, RB_SET_BLACKRED. shape. heap_step.
  heap_call (rb_is_red_spec field u (sound_root u Hus)). rewrite Hu. do 2 heap_step.
  tree_call (rb_rotate_spec field head (Frame d Black g u :: p) d Red Red x e s X Y Hl1 (sound_root X HX)).
  do 3 heap_step.
  tree_call (rb_rotate_spec field head p (opp d) Red Black g e u Y (node d Red s x X) Hl2 (sound_root Y HY)).
  heap_steps. solve_Permutation.
Qed.

(** The test of the loop: the colour of the parent. *)
Lemma parent_is_red p t :
  sound (plug p t) → t ≠ E →
  triple (at_path p t) (RB_PARENT field (root t)) (par_of p) (at_path p t) ∧
  triple (at_path p t) (RB_IS_RED field (par_of p))
    (if p is Frame _ Red _ _ :: _ then true else false) (at_path p t).
Proof.
  intros Hs Ht. destruct t as [|c l a r]; [done|]. unfold RB_PARENT, RB_IS_RED, RB_COLOR. shape.
  cbn [par_cells inner]. split; [by heap_steps|]. destruct p as [|[d c' b s] p]; shape.
  - heap_steps. done.
  - pose proof (sound_elm _ _ _ _ _ _ Hs) as Hb. do 2 heap_step. destruct c'; by heap_steps.
Qed.

(** One turn goes up. *)
Lemma insert_turn p d x s f2 t n :
  rbt Red n t → rbt Black n s → rbp Red n (f2 :: p) → sound (plug (Frame d Red x s :: f2 :: p) t) →
  ∃ t' p' n',
    triple (at_path (Frame d Red x s :: f2 :: p) t)
      (RB_INSERT_COLOR_turn field head (fr_side f2) (root t) x (fr_elm f2)) (root t') (at_path p' t') ∧
    rbt Red n' t' ∧ rbp Black n' p' ∧ (length p' < S (S (length p)))%nat ∧
    inorder (plug p' t') = inorder (plug (Frame d Red x s :: f2 :: p) t).
Proof.
  intros Ht Hs Hp Hsnd. inversion Hp as [| |c c' n0 d2 g u p0 Hu Hp']; subst; cbn [fr_side fr_elm].
  assert (t ≠ E) as Hne by (by inversion Ht).
  destruct (is_red u) eqn:Hru; [|destruct (decide (d = d2)) as [->|Hd]].
  - exists (node d2 Red (node d Black t x s) g (paint Black u)), p, (S n).
    rewrite root_node. split; [by apply insert_turn_red|]. split_and!; [|done|lia|].
    + apply rbt_node_R; [by eapply rbt_node_B|]. destruct u; [done|]. inversion Hu; subst; [|done].
      simpl. by econstructor.
    + simpl. rewrite !inorder_plug. f_equal. unfold plug1. destruct d, d2; simpl; by rewrite inorder_paint.
  - exists t, (Frame d2 Black x (node d2 Red s g u) :: p), n. split.
    { eapply triple_perm_post; [by apply insert_turn_outer|]. by rewrite plug1_cells. }
    assert (c' = Black) as -> by (by destruct Hu).
    split_and!; [done| |simpl; lia|].
    + eapply rbp_B; [by apply rbt_node_R|done].
    + simpl. rewrite !inorder_plug. f_equal. unfold plug1. destruct d2; by list_flat.
  - assert (d = opp d2) as -> by (by destruct d, d2).
    assert (c' = Black) as -> by (by destruct Hu).
    assert (∃ X e Y, t = node d2 Red X e Y ∧ rbt Black n X ∧ rbt Black n Y) as (X & e & Y & -> & HX & HY)
      by (inversion Ht; subst; destruct d2; [eexists _, _, _|eexists _, _, _]; split_and!; simpl; done).
    exists (node d2 Red s x X), (Frame d2 Black e (node d2 Red Y g u) :: p), n.
    rewrite !root_node. split.
    { eapply triple_perm_post; [by apply insert_turn_inner|]. by rewrite plug1_cells. }
    split_and!; [by apply rbt_node_R| |simpl; lia|].
    + eapply rbp_B; [by apply rbt_node_R|done].
    + simpl. rewrite !inorder_plug. f_equal. unfold plug1. destruct d2; by list_flat.
Qed.

(** On which side of its parent an element is. *)
Lemma side_of p d c a s t :
  root s ≠ root t →
  ∃ l, triple (at_path (Frame d c a s :: p) t) (RB_LEFT field a) l (at_path (Frame d c a s :: p) t) ∧
    (if decide (l = root t) then SL else SR) = d.
Proof.
  intros Hs. exists (if d is SL then root t else root s). split.
  - unfold RB_LEFT. destruct d; shape; simpl; by heap_steps.
  - destruct d; [by rewrite decide_True|by apply decide_False].
Qed.

Lemma gparent_side p d1 d2 c1 c2 x s g u t :
  sound (plug (Frame d1 c1 x s :: Frame d2 c2 g u :: p) t) →
  let P := at_path (Frame d1 c1 x s :: Frame d2 c2 g u :: p) t in
  triple P (RB_PARENT field x) g P ∧
  ∃ l, triple P (RB_LEFT field g) l P ∧ (if decide (x = l) then SL else SR) = d2.
Proof.
  intros Hs P. subst P. split; [unfold RB_PARENT; shape; by heap_steps|].
  pose proof (sound_link_frame (Frame d2 c2 g u :: p) _ _ _ _ _ Hs) as [_ Hr].
  destruct (side_of p d2 c2 g u (plug1 (Frame d1 c1 x s) t)) as (l & Hl & Hside);
    unfold plug1 in *; cbn [fr_side fr_color fr_elm fr_sib] in *; rewrite root_node in *; [done|].
  exists l. split; [by rewrite plug1_cells|]. rewrite <-Hside. by apply decide_ext.
Qed.

Lemma insert_color_loop_spec fuel p t n :
  rbt Red n t → rbp Black n p → sound (plug p t) → (length p < fuel)%nat →
  ∃ t', triple (at_path p t) (RB_INSERT_COLOR_loop field head fuel (root t)) tt (tree_cells field head 0 t') ∧
    inorder t' = inorder (plug p t) ∧ t' ≠ E ∧ ∃ m, rbt Black m (paint Black t').
Proof.
  revert p t n. induction fuel as [|fuel IH]; intros p t n Ht Hp Hs Hf; [lia|].
  assert (t ≠ E) as Hne by (by inversion Ht).
  destruct (parent_is_red p t Hs Hne) as [Hpar Hred]. cbn [RB_INSERT_COLOR_loop].
  assert (rbt Black (S n) (paint Black t)) as Hpt by (inversion Ht; simpl; by econstructor).
  inversion Hp as [n0|n0 d x s q Hx Hq|c0 c' n0 d x s q Hx Hq]; subst.
  - exists t. split_and!; [|done|done|eauto].
    eapply triple_bind; [exact Hpar|]. eapply triple_bind; [exact Hred|]. apply triple_ret.
    by rewrite <-plug_cells.
  - inversion Hq as [| |c1 c2 n1 d2 g u p0 Hu Hp']; subst.
    destruct (insert_turn p0 d x s (Frame d2 Black g u) t n Ht Hx Hq Hs)
      as (t1 & p1 & n2 & Htr & Ht1 & Hp1 & Hlen & Hin).
    destruct (IH p1 t1 n2 Ht1 Hp1) as (t' & Hloop & Hin' & Hrb).
    { by eapply sound_swap. }
    { simpl in *. lia. }
    destruct (gparent_side _ _ _ _ _ _ _ _ _ _ Hs) as (Hgp & l & Hl & Hside).
    exists t'. split_and!; [|by rewrite Hin', Hin|exact (proj1 Hrb)|exact (proj2 Hrb)].
    eapply triple_bind; [exact Hpar|]. eapply triple_bind; [exact Hred|]. cbv beta iota.
    eapply triple_bind; [exact Hgp|]. eapply triple_bind; [exact Hl|]. cbn [par_of]. rewrite Hside.
    eapply triple_bind; [exact Htr|exact Hloop].
  - destruct (plug_rbt Red n (Frame d Black x s :: q) t) as [m Hm]; [by econstructor|done|].
    exists (plug (Frame d Black x s :: q) t). split_and!; [|done| |].
    + eapply triple_bind; [exact Hpar|]. eapply triple_bind; [exact Hred|]. apply triple_ret.
      by rewrite <-plug_cells.
    + by apply plug_nonempty.
    + by eapply rbt_paint.
Qed.

Lemma insert_color_spec fuel p t n :
  rbt Red n t → rbp Black n p → sound (plug p t) → (length p < fuel)%nat →
  ∃ t', triple (at_path p t) (RB_INSERT_COLOR field head fuel (root t)) tt (tree_cells field head 0 t') ∧
    inorder t' = inorder (plug p t) ∧ ∃ m, rbt Black m t'.
Proof.
  intros Ht Hp Hs Hf. destruct (insert_color_loop_spec fuel p t n Ht Hp Hs Hf) as (t' & Htr & Hin & Hne & m & Hm).
  exists (paint Black t'). rewrite inorder_paint. split_and!; [|done|by exists m].
  unfold RB_INSERT_COLOR, RB_ROOT. eapply triple_bind; [exact Htr|]. unfold tree_cells.
  heap_step. rewrite root_paint, par_cells_paint. heap_call (rb_paint_spec field Black t' Hne). solve_Permutation.
Qed.
End fix_up.
