(* ===== verification/RBFixRemove.v ===== *)
(** * Red-black trees: repairing the colours after a removal

    [RB_REMOVE_COLOR] ends, keeps the elements in their order and restores the
    colour invariant of a tree in which one subtree lacks a black node. *)

From S2P Require Import Prelude WordHeap RBTree RBShape RBFix.

Section fix_up.
Context (field head : Z).

Abbreviation at_path p t :=
  (tree_cells field (slot_of field head p) (par_of p) t ++ path_cells field head p).

(** ** RB_REMOVE_COLOR *)

Lemma sound_sib_node d p d1 c x c' N a F t :
  sound (plug (Frame d1 c x (node d c' N a F) :: p) t) → sound N ∧ sound F ∧ a ≠ 0.
Proof. intros Hs%sound_sib. by eapply sound_node. Qed.

Lemma remove_black_red p d c x N a F t :
  sound (plug (Frame d c x (node d Black N a F) :: p) t) → is_red N = false → is_red F = false →
  triple (at_path (Frame d c x (node d Black N a F) :: p) t)
    (RB_REMOVE_COLOR_black field head d x a) (Some x)
    (at_path p (node d c t x (node d Red N a F))).
Proof.
  intros Hs HN HF. destruct (sound_sib_node _ _ _ _ _ _ _ _ _ _ Hs) as (HsN & HsF & _).
  unfold RB_REMOVE_COLOR_black. shape.
  heap_call (rb_both_black_spec field d a N F (sound_root N HsN) (sound_root F HsF)).
  rewrite HN, HF. cbn [negb andb]. heap_steps. solve_Permutation.
Qed.

(** The far nephew is red. *)
Lemma remove_black_far p d c x N a F t :
  sound (plug (Frame d c x (node d Black N a F) :: p) t) → is_red F = true →
  triple (at_path (Frame d c x (node d Black N a F) :: p) t)
    (RB_REMOVE_COLOR_black field head d x a) None
    (at_path p (node d c (node d Black t x N) a (paint Black F))).
Proof.
  intros Hs HF. destruct (sound_sib_node _ _ _ _ _ _ _ _ _ _ Hs) as (HsN & HsF & _).
  pose proof (sound_link_frame _ _ _ _ _ _ Hs) as Hl.
  unfold RB_REMOVE_COLOR_black, RB_CHILD, RB_COLOR. shape.
  heap_call (rb_both_black_spec field d a N F (sound_root N HsN) (sound_root F HsF)).
  rewrite HF, andb_false_r. heap_step.
  heap_call (rb_is_black_spec field F (sound_root F HsF)). rewrite HF. cbn [negb]. do 5 heap_step.
  heap_call (rb_paint_black_spec field F (sound_root F HsF)).
  tree_call (rb_rotate_spec field head p d Black c x a t N (paint Black F) Hl (sound_root N HsN)).
  heap_steps. solve_Permutation.
Qed.

Lemma paint_black_elm b v :
  b ≠ 0 → triple [(rbe_color field b, v)] (RB_PAINT_BLACK field b) tt [(rbe_color field b, RB_BLACK)].
Proof. intros Hb. unfold RB_PAINT_BLACK. by heap_steps. Qed.

(** The near nephew is red and the far one is not. *)
Lemma remove_black_near p d c x NN b NF a F t :
  sound (plug (Frame d c x (node d Black (node d Red NN b NF) a F) :: p) t) → is_red F = false →
  triple (at_path (Frame d c x (node d Black (node d Red NN b NF) a F) :: p) t)
    (RB_REMOVE_COLOR_black field head d x a) None
    (at_path p (node d c (node d Black t x NN) b (node d Black NF a F))).
Proof.
  intros Hs HF. destruct (sound_sib_node _ _ _ _ _ _ _ _ _ _ Hs) as (HsN & HsF & Ha).
  pose proof (sound_link_frame _ _ _ _ _ _ Hs) as Hl. pose proof (sound_flip _ _ _ _ _ _ Hs) as Hflip.
  pose proof (sound_link _ _ Hflip) as Hl2. rewrite root_node in Hl2. specialize (Hl2 ltac:(by destruct d)).
  destruct (sound_node _ _ _ _ _ HsN) as (HsNN & HsNF & Hb).
  pose proof (rb_both_black_spec field d a (node d Red NN b NF) F (sound_root _ HsN) (sound_root F HsF)) as Hbb.
  cbv zeta in Hbb. shape_in Hbb.
  replace (is_red (node d Red NN b NF)) with true in Hbb by (by destruct d).
  unfold RB_REMOVE_COLOR_black, RB_CHILD, RB_COLOR. shape. heap_call Hbb. cbn [negb andb]. heap_step.
  heap_call (rb_is_black_spec field F (sound_root F HsF)). rewrite HF. cbn [negb].
  do 3 heap_step. heap_call (paint_black_elm b RB_RED Hb). do 3 heap_step.
  tree_call (rb_rotate_spec field head (Frame (opp d) c x t :: p) (opp d) Red Black a b F NF NN Hl2 (sound_root NF HsNF)).
  do 5 heap_step. heap_call (paint_black_elm a RB_RED Ha).
  tree_call (rb_rotate_spec field head p d Black c x b t NN (node d Black NF a F) Hl (sound_root NN HsNN)).
  heap_steps. solve_Permutation.
Qed.

(** *** The shape of what the turns build *)

Lemma rbt_color c n t : rbt c n t → c = if is_red t then Red else Black.
Proof. by destruct 1. Qed.

Lemma rbt_black_node d c n t :
  rbt c (S n) t → is_red t = false →
  ∃ c1 N a c2 F, t = node d Black N a F ∧ rbt c1 n N ∧ rbt c2 n F.
Proof.
  intros Ht Hr. inversion Ht as [| |c1 c2 n0 l a r Hl Hr']; subst; [done|].
  destruct d; [by exists c1, l, a, c2, r|by exists c2, r, a, c1, l].
Qed.

Lemma rbt_red_node d c n t :
  rbt c n t → is_red t = true → ∃ N a F, t = node d Red N a F ∧ rbt Black n N ∧ rbt Black n F.
Proof.
  intros Ht Hr. inversion Ht as [|n0 l a r Hl Hr'|]; subst; [done| |done].
  destruct d; [by exists l, a, r|by exists r, a, l].
Qed.

(** One black node is missing in [t], or the root of [t] can be painted black. *)
Definition deficit (n : nat) (t : tree) : Prop :=
  rbt Black n t ∨ is_red t = true ∧ rbt Black (S n) (paint Black t).

Lemma rbp_replace d d' c x w m p L a R :
  rbp Black m (Frame d c x w :: p) → rbt Black m L → rbt Black m R →
  ∃ k, rbt Black k (plug p (node d' c L a R)).
Proof.
  intros Hp HL HR. inversion Hp as [|n0 d0 a0 s p0 Hs Hp0|c0 c' n0 d0 a0 s p0 Hs Hp0]; subst.
  - eapply plug_rbt; [exact Hp0|by apply rbt_node_R].
  - eapply plug_rbt; [exact Hp0|by eapply rbt_node_B].
Qed.

(** The recoloured parent, one step up. *)
Lemma rbp_recolor d c x w n p t W :
  rbp Black (S n) (Frame d c x w :: p) → rbt Black n t → rbt Red n W →
  ∃ k, deficit k (node d c t x W) ∧ rbp Black (S k) p ∧ (c = Red → is_red (node d c t x W) = true).
Proof.
  intros Hp Ht HW. inversion Hp as [|n0 d0 a0 s p0 Hs Hp0|c0 c' n0 d0 a0 s p0 Hs Hp0]; subst.
  - exists n. split_and!; [right|by eapply rbp_black|by destruct d].
    split; [by destruct d|]. replace (paint Black _) with (node d Black t x W) by (by destruct d).
    by eapply rbt_node_B.
  - exists (S n). split_and!; [left; by eapply rbt_node_B|done|done].
Qed.

Lemma rbt_paint_black n t : rbt Black n t → rbt Black n (paint Black t).
Proof. inversion 1; subst; simpl; by econstructor. Qed.

(** *** One turn *)

Abbreviation goes_up p c xs P f :=
  (∃ t1 n1, triple P f (Some (root t1)) (at_path p t1) ∧ deficit n1 t1 ∧ rbp Black (S n1) p ∧
    (c = Red → is_red t1 = true) ∧ t1 ≠ E ∧ inorder (plug p t1) = xs).
Abbreviation is_done xs P f :=
  (∃ t1, triple P f None (tree_cells field head 0 t1) ∧ (∃ m, rbt Black m t1) ∧ inorder t1 = xs).

Lemma remove_black p d c x w n t :
  rbt Black n t → rbp Black (S n) (Frame d c x w :: p) → is_red w = false →
  sound (plug (Frame d c x w :: p) t) →
  let P := at_path (Frame d c x w :: p) t in
  let f := RB_REMOVE_COLOR_black field head d x (root w) in
  let xs := inorder (plug (Frame d c x w :: p) t) in
  goes_up p c xs P f ∨ is_done xs P f.
Proof.
  intros Ht Hp Hw Hs P f xs. subst P f xs.
  assert (∃ cw, rbt cw (S n) w) as [cw Hrw] by (inversion Hp; subst; eauto).
  destruct (rbt_black_node d _ _ _ Hrw Hw) as (c1 & N & a & c2 & F & -> & HN & HF). rewrite root_node.
  pose proof (rbt_color _ _ _ HN) as Hc1. pose proof (rbt_color _ _ _ HF) as Hc2.
  destruct (is_red F) eqn:EF; [|destruct (is_red N) eqn:EN]; subst.
  - right. exists (plug p (node d c (node d Black t x N) a (paint Black F))). split_and!.
    + rewrite plug_cells. by apply remove_black_far.
    + eapply rbp_replace; [exact Hp|by eapply rbt_node_B|].
      destruct (rbt_red_node SL _ _ _ HF EF) as (l & b & r & -> & Hl & Hr). by eapply rbt_B.
    + simpl. rewrite !inorder_plug. f_equal. unfold plug1. destruct d; list_flat; by rewrite inorder_paint.
  - right. destruct (rbt_red_node d _ _ _ HN EN) as (NN & b & NF & -> & HNN & HNF).
    exists (plug p (node d c (node d Black t x NN) b (node d Black NF a F))). split_and!.
    + rewrite plug_cells. by apply remove_black_near.
    + eapply rbp_replace; [exact Hp|by eapply rbt_node_B..].
    + simpl. rewrite !inorder_plug. f_equal. unfold plug1. destruct d; by list_flat.
  - left. destruct (rbp_recolor d c x _ n p t (node d Red N a F) Hp Ht) as (k & Hk & Hpk & Hred).
    { by apply rbt_node_R. }
    exists (node d c t x (node d Red N a F)), k. rewrite root_node. split_and!; [|done|done|done|by destruct d|].
    + by apply remove_black_red.
    + simpl. rewrite !inorder_plug. f_equal. unfold plug1. destruct d; by list_flat.
Qed.

Lemma remove_sibling_black p d c x w t :
  w ≠ E → is_red w = false →
  triple (at_path (Frame d c x w :: p) t) (RB_REMOVE_COLOR_sibling field head d x) (root w)
    (at_path (Frame d c x w :: p) t).
Proof.
  intros Hne Hw. unfold RB_REMOVE_COLOR_sibling, RB_CHILD, RB_COLOR. shape. heap_step.
  destruct w as [|[] l a r]; [done| |done]. cbn [inner root color_val]. heap_steps. done.
Qed.

Lemma remove_sibling_red p d c x N a F t :
  sound (plug (Frame d c x (node d Red N a F) :: p) t) →
  triple (at_path (Frame d c x (node d Red N a F) :: p) t)
    (RB_REMOVE_COLOR_sibling field head d x) (root N)
    (at_path (Frame d Red x N :: Frame d Black a F :: p) t).
Proof.
  intros Hs. destruct (sound_sib_node _ _ _ _ _ _ _ _ _ _ Hs) as (HsN & HsF & Ha).
  pose proof (sound_link_frame _ _ _ _ _ _ Hs) as Hl.
  eapply triple_perm_post; [|rewrite plug1_cells, plug1_cells; reflexivity].
  unfold plug1; cbn [fr_side fr_color fr_elm fr_sib].
  unfold RB_REMOVE_COLOR_sibling, RB_CHILD, RB_COLOR, RB_SET_BLACKRED. shape. do 6 heap_step.
  tree_call (rb_rotate_spec field head p d Red Black x a t N F Hl (sound_root N HsN)).
  heap_steps. solve_Permutation.
Qed.

Lemma remove_turn p d c x w n t :
  rbt Black n t → rbp Black (S n) (Frame d c x w :: p) → sound (plug (Frame d c x w :: p) t) →
  let P := at_path (Frame d c x w :: p) t in
  let f := RB_REMOVE_COLOR_turn field head d x in
  let xs := inorder (plug (Frame d c x w :: p) t) in
  (∃ t1 p1 n1, triple P f (Some (root t1)) (at_path p1 t1) ∧ deficit n1 t1 ∧ rbp Black (S n1) p1 ∧
     (is_red t1 = true ∨ length p1 = length p) ∧ t1 ≠ E ∧ inorder (plug p1 t1) = xs) ∨
  is_done xs P f.
Proof.
  intros Ht Hp Hs P f xs. subst P f xs.
  assert (∃ cw, rbt cw (S n) w ∧ rbp c (S n + if c is Black then 1 else 0)%nat p ∧ (c = Red → cw = Black))
    as (cw & Hrw & Hpp & Hcw).
  { inversion Hp; subst; [exists Black|exists c']; rewrite ?Nat.add_0_r, ?Nat.add_1_r; done. }
  unfold RB_REMOVE_COLOR_turn. destruct (is_red w) eqn:Hw.
  - destruct (rbt_red_node d _ _ _ Hrw Hw) as (N & a & F & -> & HN & HF).
    assert (cw = Red) as -> by (by rewrite (rbt_color _ _ _ Hrw), Hw).
    destruct c; [|by discriminate Hcw]. rewrite Nat.add_1_r in Hpp.
    assert (inorder (plug (Frame d Red x N :: Frame d Black a F :: p) t) =
            inorder (plug (Frame d Black x (node d Red N a F) :: p) t)) as Hin.
    { simpl. rewrite !inorder_plug. f_equal. unfold plug1. destruct d; by list_flat. }
    destruct (remove_black (Frame d Black a F :: p) d Red x N n t Ht) as [(t1 & n1 & H1 & H2 & H3 & H4 & H5 & H6)|(t1 & H1 & H2 & H3)].
    + apply rbp_R; [done|]. by eapply rbp_B.
    + pose proof (rbt_color _ _ _ HN). by destruct (is_red N).
    + by eapply sound_swap.
    + left. exists t1, (Frame d Black a F :: p), n1. split_and!; [|done|done|left; by apply H4|done|by rewrite H6].
      eapply triple_bind; [by apply remove_sibling_red|exact H1].
    + right. exists t1. split_and!; [|done|by rewrite H3].
      eapply triple_bind; [by apply remove_sibling_red|exact H1].
  - assert (w ≠ E) as Hne by (intros ->; inversion Hrw).
    destruct (remove_black p d c x w n t Ht Hp Hw Hs) as [(t1 & n1 & H1 & H2 & H3 & H4 & H5 & H6)|(t1 & H1 & H2 & H3)].
    + left. exists t1, p, n1. split_and!; [|done|done|by right|done|done].
      eapply triple_bind; [by apply remove_sibling_black|exact H1].
    + right. exists t1. split_and!; [|done|done].
      eapply triple_bind; [by apply remove_sibling_black|exact H1].
Qed.

(** *** The loop *)

Lemma remove_color_loop_spec fuel p t n :
  deficit n t → rbp Black (S n) p → sound (plug p t) →
  ((if is_red t then 0 else S (length p)) < fuel)%nat →
  ∃ q t1, triple (at_path p t) (RB_REMOVE_COLOR_loop field head fuel (par_of p) (root t)) (root t1) (at_path q t1) ∧
    inorder (plug q t1) = inorder (plug p t) ∧ ∃ m, rbt Black m (plug q (paint Black t1)).
Proof.
  revert p t n. induction fuel as [|fuel IH]; intros p t n Ht Hp Hs Hf; [lia|]. cbn [RB_REMOVE_COLOR_loop].
  assert (triple (at_path p t) (RB_IS_BLACK field (root t)) (negb (is_red t)) (at_path p t)) as Hblack.
  { unfold tree_cells. heap_call (rb_is_black_spec field t (root_sound _ _ Hs)). solve_Permutation. }
  destruct (is_red t) eqn:Hr.
  { exists p, t. split_and!; [|done|].
    - eapply triple_bind; [exact Hblack|]. by apply triple_ret.
    - eapply plug_rbt; [exact Hp|]. destruct Ht as [Ht|[_ Ht]]; [|done].
      pose proof (rbt_color _ _ _ Ht) as Hc. by rewrite Hr in Hc. }
  destruct Ht as [Ht|[? _]]; [|congruence].
  assert (triple (at_path p t) (RB_ROOT head) (root (plug p t)) (at_path p t)) as Hroot.
  { rewrite <-plug_cells. unfold RB_ROOT, tree_cells. by heap_steps. }
  destruct p as [|[d c x w] p].
  - exists [], t. split_and!; [|done|].
    + eapply triple_bind; [exact Hblack|]. eapply triple_bind; [exact Hroot|]. simpl.
      rewrite decide_False by naive_solver. by apply triple_ret.
    + exists n. by apply rbt_paint_black.
  - pose proof (sound_root_plug _ _ Hs ltac:(done)) as Hne.
    assert (w ≠ E) as Hw by (intros ->; inversion Hp as [|? ? ? ? ? Hw|? ? ? ? ? ? ? Hw]; inversion Hw).
    destruct (side_of field head p d c x w t) as (l & Hl & Hside); [by eapply sound_siblings|].
    destruct (remove_turn p d c x w n t Ht Hp Hs) as [(t1 & p1 & n1 & H1 & H2 & H3 & H4 & H5 & H6)|(t1 & H1 & H2 & H3)].
    + destruct (IH p1 t1 n1 H2 H3) as (q & t2 & Hloop & Hin & Hm).
      { by eapply sound_swap. }
      { simpl in Hf. destruct (is_red t1); [lia|]. destruct H4; [done|]. lia. }
      exists q, t2. split_and!; [|by rewrite Hin, H6|done].
      eapply triple_bind; [exact Hblack|]. cbn [negb]. eapply triple_bind; [exact Hroot|]. cbv beta.
      rewrite decide_True by done. eapply triple_bind; [exact Hl|]. cbn [par_of]. rewrite Hside.
      eapply triple_bind; [exact H1|]. cbv beta iota.
      eapply triple_bind; [|exact Hloop].
      apply (parent_is_red field head p1 t1); [by eapply sound_swap|done].
    + exists [], t1. split_and!; [|done|].
      * eapply triple_bind; [exact Hblack|]. cbn [negb]. eapply triple_bind; [exact Hroot|]. cbv beta.
        rewrite decide_True by done. eapply triple_bind; [exact Hl|]. cbn [par_of]. rewrite Hside.
        eapply triple_bind; [exact H1|]. cbv beta iota. simpl. unfold RB_ROOT, tree_cells. heap_steps.
        by rewrite app_nil_r.
      * simpl. destruct H2 as [m Hm]. exists m. by apply rbt_paint_black.
Qed.

Lemma remove_color_spec fuel p t n :
  deficit n t → rbp Black (S n) p → sound (plug p t) → (S (length p) < fuel)%nat →
  ∃ t', triple (at_path p t) (RB_REMOVE_COLOR field head fuel (par_of p) (root t)) tt (tree_cells field head 0 t') ∧
    inorder t' = inorder (plug p t) ∧ ∃ m, rbt Black m t'.
Proof.
  intros Ht Hp Hs Hf. destruct (remove_color_loop_spec fuel p t n Ht Hp Hs) as (q & t1 & Htr & Hin & m & Hm).
  { destruct (is_red t); lia. }
  exists (plug q (paint Black t1)). split_and!; [| |by exists m].
  - unfold RB_REMOVE_COLOR. eapply triple_bind; [exact Htr|].
    assert (sound (plug q t1)) as Hs1 by (by eapply sound_swap).
    unfold tree_cells at 1. heap_call (rb_paint_black_spec field t1 (root_sound _ _ Hs1)).
    rewrite plug_cells. unfold tree_cells. rewrite root_paint, par_cells_paint. solve_Permutation.
  - rewrite <-Hin, !inorder_plug. by rewrite inorder_paint.
Qed.
End fix_up.
