(* ===== verification/RBWalk.v ===== *)
(** * Red-black trees: searching and walking

    The searches go down one path, [RB_NEXT] and [RB_PREV] down and then up one;
    none of them changes the tree. A side is a direction: the elements of a tree
    in direction [d] are its elements in order, or in the opposite order. *)

From S2P Require Import Prelude WordHeap OrderedSet RBTree RBShape RBFix RBFixRemove.

Section search.
Context (cmp : Z → Z → Z) `{!CmpOrder cmp}.
Context (field head : Z).

(** ** Searching *)

(** The search in a tree: the equal element, else the last one on the way that
    was greater. *)
Fixpoint tsearch (elm : Z) (t : tree) (res : Z) : Z * bool :=
  match t with
  | E => (res, false)
  | T _ l a r =>
      if decide (cmp elm a < 0) then tsearch elm l a
      else if decide (cmp elm a > 0) then tsearch elm r res else (a, true)
  end.

Lemma rb_find_loop_spec fuel elm res t :
  sound t → (height t < fuel)%nat →
  triple (inner field t) (RB_FIND_loop field cmp fuel elm (root t))
    (if (tsearch elm t res).2 then (tsearch elm t res).1 else 0) (inner field t) ∧
  triple (inner field t) (RB_NFIND_loop field cmp fuel elm (root t) res) (tsearch elm t res).1 (inner field t).
Proof.
  revert t res. induction fuel as [|fuel IH]; intros t res Hs Hf; [lia|].
  cbn [RB_FIND_loop RB_NFIND_loop]. destruct t as [|c l a r]; [split; simpl; by heap_steps|].
  pose proof (sound_root _ Hs ltac:(done)) as Ha. cbn [root] in *. cbn [height] in Hf.
  assert (sound l) as Hl by (apply (sound_incl _ l (a :: inorder r)) in Hs; [done|simpl; solve_Permutation]).
  assert (sound r) as Hr by (apply (sound_incl _ r (a :: inorder l)) in Hs; [done|simpl; solve_Permutation]).
  cbn [tsearch inner]. unfold RB_LEFT, RB_RIGHT. destruct (decide (cmp elm a < 0)) as [|].
  - destruct (IH l a Hl ltac:(lia)) as [H1 H2]. split; do 2 heap_step; [heap_call H1|heap_call H2]; solve_Permutation.
  - destruct (decide (cmp elm a > 0)).
    + destruct (IH r res Hr ltac:(lia)) as [H1 H2]. split; do 2 heap_step; [heap_call H1|heap_call H2]; solve_Permutation.
    + split; by heap_steps.
Qed.

Lemma not_less_none elm xs : (∀ x, x ∈ xs → cmp elm x > 0) → not_less cmp elm xs = [].
Proof.
  intros H. unfold not_less. induction xs as [|x xs IH]; [done|].
  rewrite filter_cons_False; [|specialize (H x ltac:(left)); lia]. apply IH. intros y Hy. apply H. by right.
Qed.

Lemma tsearch_inorder elm res t :
  sorted cmp (inorder t) →
  tsearch elm t res =
    match not_less cmp elm (inorder t) with [] => (res, false) | x :: _ => (x, bool_decide (cmp elm x = 0)) end.
Proof.
  revert res. induction t as [|c l IHl a r IHr]; intros res Hs; simpl; [done|].
  apply sorted_app in Hs as (Hsl & Hsr & Hlr). apply sorted_cons in Hsr as [Hsr Har].
  unfold not_less. rewrite filter_app. fold (not_less cmp elm (inorder l)).
  assert (∀ x, x ∈ inorder l → cmp x a < 0) as Hla by (intros x Hx; apply Hlr; [done|left]).
  destruct (decide (cmp elm a < 0)) as [Hlt|Hge].
  - rewrite IHl by done. destruct (not_less cmp elm (inorder l)); [|done].
    simpl. rewrite filter_cons_True by lia. by rewrite bool_decide_eq_false_2 by lia.
  - rewrite (not_less_none elm (inorder l)); simpl.
    + destruct (decide (cmp elm a > 0)).
      * rewrite IHr by done. by rewrite filter_cons_False by lia.
      * rewrite filter_cons_True by lia. by rewrite bool_decide_eq_true_2 by lia.
    + intros x Hx. pose proof (cmp_lt_gt cmp a elm). pose proof (cmp_lt_gt cmp elm a). pose proof (cmp_lt_gt cmp x elm).
      pose proof (cmp_lt_le_trans cmp x a elm (Hla x Hx)). lia.
Qed.

(** ** The first and the last element *)

Lemma rb_minmax_loop_spec fuel val parent t :
  sound t → (height t < fuel)%nat →
  triple (inner field t) (RB_MINMAX_loop field fuel val (root t) parent)
    (if decide (val < 0) then hd parent (inorder t) else List.last (inorder t) parent) (inner field t).
Proof.
  revert t parent. induction fuel as [|fuel IH]; intros t parent Hs Hf; [lia|].
  cbn [RB_MINMAX_loop]. destruct t as [|c l a r]; [destruct (decide (val < 0)); simpl; by heap_steps|].
  pose proof (sound_root _ Hs ltac:(done)) as Ha. cbn [root] in *. cbn [height] in Hf.
  rewrite decide_False by done.
  assert (sound l) as Hl by (apply (sound_incl _ l (a :: inorder r)) in Hs; [done|simpl; solve_Permutation]).
  assert (sound r) as Hr by (apply (sound_incl _ r (a :: inorder l)) in Hs; [done|simpl; solve_Permutation]).
  cbn [inner inorder]. unfold RB_LEFT, RB_RIGHT.
  pose proof (IH l a Hl ltac:(lia)) as H1. pose proof (IH r a Hr ltac:(lia)) as H2.
  destruct (decide (val < 0)); heap_step.
  - replace (hd parent (inorder l ++ a :: inorder r)) with (hd a (inorder l)) by (by destruct (inorder l)).
    heap_call H1. solve_Permutation.
  - replace (List.last (inorder l ++ a :: inorder r) parent) with (List.last (inorder r) a).
    + heap_call H2. solve_Permutation.
    + clear. induction (inorder l) as [|x xs IH]; simpl.
      * revert a. induction (inorder r) as [|y ys IH]; intros a; [done|]. simpl. destruct ys; [done|]. apply IH.
      * rewrite <-IH. by destruct xs.
Qed.
End search.

(** ** Walking *)

Definition dir_list (d : side) (xs : list Z) : list Z := match d with SR => xs | SL => reverse xs end.

Lemma elem_of_dir d a xs : a ∈ dir_list d xs ↔ a ∈ xs.
Proof. destruct d; [apply elem_of_reverse|done]. Qed.
Lemma NoDup_dir d xs : NoDup (dir_list d xs) ↔ NoDup xs.
Proof. destruct d; simpl; [by rewrite reverse_Permutation|done]. Qed.

(** The elements outside a subtree, in direction [d] from it. *)
Definition beyond (d : side) (p : path) : list Z :=
  match d with SR => after p | SL => reverse (before p) end.

Lemma dir_node d c n a f :
  dir_list d (inorder (node (opp d) c n a f)) = dir_list d (inorder n) ++ a :: dir_list d (inorder f).
Proof. destruct d; simpl; [|done]. by rewrite reverse_app, reverse_cons, <-app_assoc. Qed.

Lemma beyond_away d c a s p :
  beyond d (Frame (opp d) c a s :: p) = a :: dir_list d (inorder s) ++ beyond d p.
Proof.
  destruct d; simpl; unfold frame_before, frame_after; simpl; [|done].
  by rewrite !reverse_app, reverse_cons, reverse_nil.
Qed.
Lemma beyond_toward d c a s p : beyond d (Frame d c a s :: p) = beyond d p.
Proof. destruct d; simpl; unfold frame_before, frame_after; simpl; [|done]. by rewrite app_nil_r. Qed.

Lemma dir_plug d p c n a f :
  ∃ pre, dir_list d (inorder (plug p (node (opp d) c n a f))) = pre ++ a :: dir_list d (inorder f) ++ beyond d p.
Proof.
  rewrite inorder_plug. destruct d; simpl.
  - exists (reverse (after p) ++ reverse (inorder n)).
    rewrite !reverse_app, reverse_cons. by rewrite <-!app_assoc.
  - exists (before p ++ inorder n). by rewrite <-!app_assoc.
Qed.

Lemma hd_dir d f ys : f ≠ E → hd 0 (dir_list d (inorder f) ++ ys) = hd 0 (dir_list d (inorder f)).
Proof.
  intros Hf. destruct (dir_list d (inorder f)) eqn:En; [|done]. exfalso. destruct f; [done|].
  apply (f_equal length) in En. destruct d; simpl in En; rewrite ?length_reverse, length_app in En; simpl in En; lia.
Qed.

Section walk.
Context (field head : Z).

Abbreviation at_path p t :=
  (tree_cells field (slot_of field head p) (par_of p) t ++ path_cells field head p).

Lemma rb_descend_spec fuel d f :
  sound f → f ≠ E → (height f ≤ fuel)%nat →
  triple (inner field f) (RB_descend field fuel (opp d) (root f)) (hd 0 (dir_list d (inorder f))) (inner field f).
Proof.
  revert f. induction fuel as [|fuel IH]; intros f Hs Hne Hf; [destruct f; simpl in *; [done|lia]|].
  destruct f as [|c l a r]; [done|]. destruct (node_of (opp d) c l a r) as (n & g & E). rewrite E in *.
  destruct (sound_node _ _ _ _ _ Hs) as (Hn & _ & _). rewrite height_node in Hf. rewrite dir_node.
  cbn [RB_descend]. unfold RB_CHILD. rewrite inner_node, root_node. heap_step.
  destruct (decide (n = RBShape.E)) as [->|Hne2].
  - destruct d; simpl; heap_steps; done.
  - pose proof (sound_root _ Hn Hne2). rewrite decide_True by done.
    rewrite hd_dir by done. heap_call (IH n Hn Hne2 ltac:(lia)). solve_Permutation.
Qed.

Lemma rb_parent_spec p t :
  sound (plug p t) → t ≠ E → triple (at_path p t) (RB_PARENT field (root t)) (par_of p) (at_path p t).
Proof. intros Hs Ht. by apply parent_is_red. Qed.

(** The child of the parent on side [d]. *)
Lemma rb_parent_child d d' c a s p t :
  triple (at_path (Frame d' c a s :: p) t) (RB_CHILD field d a) (if decide (d = d') then root t else root s)
    (at_path (Frame d' c a s :: p) t).
Proof. unfold RB_CHILD. destruct d, d'; shape; simpl; by heap_steps. Qed.

Lemma rb_ascend_spec fuel d p t :
  sound (plug p t) → t ≠ E → (length p < fuel)%nat →
  triple (at_path p t) (elm ← RB_ascend field fuel d (root t); RB_PARENT field elm) (hd 0 (beyond d p)) (at_path p t).
Proof.
  revert p t. induction fuel as [|fuel IH]; intros p t Hs Ht Hf; [lia|]. cbn [RB_ascend].
  pose proof (rb_parent_spec p t Hs Ht) as Hpar.
  apply triple_assoc. eapply triple_bind; [exact Hpar|]. cbv beta.
  destruct p as [|[d' c a s] p]; cbn [par_of].
  - rewrite decide_False by naive_solver. rewrite ret_bind. destruct d; exact Hpar.
  - pose proof (sound_elm _ _ _ _ _ _ Hs) as Ha. rewrite decide_True by done.
    pose proof (rb_parent_child d d' c a s p t) as Hc.
    apply triple_assoc. eapply triple_bind; [exact Hc|]. cbv beta.
    destruct (decide (d = d')) as [<-|Hd].
    + rewrite decide_True by done. rewrite beyond_toward.
      assert (root (plug1 (Frame d c a s) t) = a) as Er by apply root_node.
      pose proof (IH p (plug1 (Frame d c a s) t) Hs) as H. rewrite Er, <-plug1_cells in H.
      apply H; [unfold plug1; by destruct d|simpl in *; lia].
    + assert (d' = opp d) as -> by (by destruct d, d'). rewrite beyond_away.
      pose proof (sound_link _ _ Hs Ht) as [_ Hsib]. rewrite decide_False by done.
      rewrite ret_bind. exact Hpar.
Qed.

Lemma rb_step_at fuel d p c n a f :
  let t := node (opp d) c n a f in
  sound (plug p t) → (height (plug p t) ≤ fuel)%nat →
  triple (at_path p t) (RB_STEP field fuel d a) (hd 0 (dir_list d (inorder f) ++ beyond d p)) (at_path p t).
Proof.
  intros t Hs Hf. assert (t ≠ E) as Hne by (subst t; by destruct d).
  pose proof (plug_height p t) as Hh. subst t. rewrite height_node in Hh.
  destruct (sound_node _ _ _ _ _ (sound_plug _ _ Hs)) as (Hn & Hsf & Ha).
  unfold RB_STEP. assert (triple (at_path p (node (opp d) c n a f)) (RB_CHILD field d a) (root f)
    (at_path p (node (opp d) c n a f))) as Hc by (unfold RB_CHILD; shape; by heap_steps).
  eapply triple_bind; [exact Hc|]. cbv beta. destruct (decide (f = E)) as [->|Hfe].
  - rewrite decide_False by naive_solver. replace (dir_list d (inorder E)) with (@nil Z) by (by destruct d). simpl.
    pose proof (rb_parent_spec p _ Hs Hne) as Hpar. rewrite root_node in Hpar.
    pose proof (rb_ascend_spec fuel d p _ Hs Hne ltac:(lia)) as Hup. rewrite root_node in Hup.
    eapply triple_bind; [exact Hpar|]. cbv beta. destruct p as [|[d' c' b s] p]; cbn [par_of].
    + rewrite decide_False by naive_solver. rewrite ret_bind. exact Hup.
    + pose proof (sound_elm _ _ _ _ _ _ Hs) as Hb. rewrite decide_True by done.
      pose proof (rb_parent_child (opp d) d' c' b s p (node (opp d) c n a E)) as Hc'. rewrite root_node in Hc'.
      apply triple_assoc. eapply triple_bind; [exact Hc'|]. cbv beta. rewrite ret_bind.
      destruct (decide (opp d = d')) as [<-|Hd].
      * rewrite bool_decide_eq_true_2 by done. rewrite beyond_away. exact Hpar.
      * pose proof (sound_link _ _ Hs Hne) as [_ Hsib]. rewrite root_node in Hsib.
        rewrite bool_decide_eq_false_2 by done. exact Hup.
  - pose proof (sound_root _ Hsf Hfe). rewrite decide_True by done.
    rewrite hd_dir by done. shape. heap_call (rb_descend_spec fuel d f Hsf Hfe ltac:(lia)). solve_Permutation.
Qed.
End walk.
