(* ===== verification/RBTreeSpec.v ===== *)
(** * Red-black trees implement ordered sets

    Every operation of sys/tree.h's red-black trees, run on the cells of a tree,
    against the operation on the sorted list of its elements; the height bound the
    header promises; and whole sequences of calls. *)

From S2P Require Import Prelude WordHeap OrderedSet RBTree RBShape RBFix RBFixRemove RBWalk.

Section spec.
Context (field head : Z) (cmp : Z → Z → Z) `{!CmpOrder cmp}.

Abbreviation at_path p t :=
  (tree_cells field (slot_of field head p) (par_of p) t ++ path_cells field head p).

(** A search tree that satisfies the colour invariant. *)
Definition rb_tree (t : tree) : Prop :=
  sorted cmp (inorder t) ∧ 0 ∉ inorder t ∧ ∃ m, rbt Black m t.

(** Enough fuel for every loop on a tree with [n] elements. *)
Definition rb_fuel (n : nat) : nat := S (S (2 * Nat.log2 (S n))).

Lemma rb_tree_sound t : rb_tree t → sound t.
Proof. intros (Hs & H0 & _). split; [by apply (sorted_NoDup cmp)|done]. Qed.

Lemma rb_tree_height t fuel :
  rb_tree t → (rb_fuel (length (inorder t)) ≤ fuel)%nat → (S (height t) < fuel)%nat.
Proof.
  intros (_ & _ & m & Hm). pose proof (rb_height _ _ Hm) as Hh. unfold rb_fuel.
  replace (S (length (inorder t))) with (length (inorder t) + 1)%nat by lia. lia.
Qed.

(** ** Insertion *)

(** The last comparison tells on which side of the path's end the hole is. *)
Definition side_comp (p : path) (comp : Z) : Prop :=
  match p with [] => True | Frame SL _ _ _ :: _ => comp < 0 | Frame SR _ _ _ :: _ => 0 ≤ comp end.

Definition fits (elm : Z) (p : path) : Prop :=
  Forall (λ x, cmp elm x > 0) (before p) ∧ Forall (λ x, cmp elm x < 0) (after p).

Lemma insert_search fuel elm t p comp :
  sound t → sorted cmp (inorder t) → (height t < fuel)%nat → fits elm p → side_comp p comp →
  (∀ x, x ∈ inorder t → cmp elm x ≠ 0) →
  ∃ q comp', triple (inner field t) (RB_INSERT_loop field cmp fuel elm (root t) (par_of p) comp)
      (inr (par_of q, comp')) (inner field t) ∧
    plug q E = plug p t ∧ fits elm q ∧ side_comp q comp'.
Proof.
  revert t p comp. induction fuel as [|fuel IH]; intros t p comp Hs Hsort Hf [Hb Ha] Hc Hno; [lia|].
  cbn [RB_INSERT_loop]. destruct t as [|c l a r].
  { exists p, comp. split_and!; [simpl; by heap_steps|done..]. }
  destruct (sound_node SL _ _ _ _ Hs) as (Hsl & Hsr & Hna). cbn [root height inorder] in *.
  apply sorted_app in Hsort as (Hsortl & Hsortr & Hlr).
  apply sorted_cons in Hsortr as [Hsortr Har].
  assert (cmp elm a ≠ 0) as Hnea by (apply Hno; set_solver).
  assert (∀ x, x ∈ inorder l → cmp x a < 0) as Hla by (intros; apply Hlr; set_solver).
  destruct (decide (cmp elm a < 0)) as [Hlt|Hge].
  - destruct (IH l (Frame SL c a r :: p) (cmp elm a) Hsl Hsortl) as (q & comp' & Htr & Hq & Hfit & Hside);
      [lia| |done|set_solver|].
    { split; simpl; unfold frame_before, frame_after; simpl; [by rewrite app_nil_r|].
      constructor; [done|]. apply Forall_app. split; [|done]. apply Forall_forall. intros x Hx.
      apply (cmp_lt_le_trans cmp _ a); [done|]. specialize (Har x Hx). lia. }
    exists q, comp'. split_and!; [|done..]. cbn [inner]. unfold RB_LEFT. do 2 heap_step.
    cbn [par_of] in Htr. heap_call Htr. solve_Permutation.
  - destruct (IH r (Frame SR c a l :: p) (cmp elm a) Hsr Hsortr) as (q & comp' & Htr & Hq & Hfit & Hside);
      [lia| |simpl; lia|set_solver|].
    { split; simpl; unfold frame_before, frame_after; simpl; [|done].
      rewrite !Forall_app, Forall_singleton. split_and!; [done| |lia]. apply Forall_forall. intros x Hx.
      assert (cmp a elm < 0) as H by (apply cmp_lt_gt; [done|lia]).
      pose proof (cmp_lt_le_trans cmp x a elm (Hla x Hx) ltac:(lia)) as Hxe.
      apply cmp_lt_gt in Hxe; [lia|done]. }
    exists q, comp'. split_and!; [|done..]. cbn [inner]. unfold RB_RIGHT. heap_step.
    rewrite (decide_True (P := cmp elm a > 0)) by lia. heap_step.
    cbn [par_of] in Htr. heap_call Htr. solve_Permutation.
Qed.

(** Putting the new leaf into the hole. *)
Lemma insert_leaf q elm l r pp c0 comp :
  side_comp q comp → (q ≠ [] → par_of q ≠ 0) →
  triple (at_path q E ++ entry field elm l r pp c0)
    (_ ← RB_SET field elm (par_of q);
     if decide (par_of q ≠ 0) then
       if decide (comp < 0) then store (rbe_left field (par_of q)) elm else store (rbe_right field (par_of q)) elm
     else store head elm) tt
    (at_path q (T Red E elm E)).
Proof.
  intros Hc Hq. unfold RB_SET, entry. shape. cbn [par_cells inner]. simpl.
  do 6 heap_step. destruct q as [|[[] c a s] q]; simpl in *.
  - heap_steps. solve_Permutation.
  - specialize (Hq ltac:(done)). rewrite (decide_True (P := a ≠ 0)), decide_True by done. heap_steps. solve_Permutation.
  - specialize (Hq ltac:(done)). rewrite (decide_True (P := a ≠ 0)), decide_False by (done || lia).
    heap_steps. solve_Permutation.
Qed.

Lemma fits_plug elm q :
  fits elm q → inorder (plug q (T Red E elm E)) = os_insert cmp elm (inorder (plug q E)).
Proof. intros [Hb Ha]. rewrite !inorder_plug. simpl. by rewrite os_insert_app. Qed.

Lemma fits_sorted elm q :
  fits elm q → sorted cmp (inorder (plug q E)) → sorted cmp (inorder (plug q (T Red E elm E))).
Proof. intros [Hb Ha]. rewrite !inorder_plug. simpl. by apply sorted_insert. Qed.

(** Inserting an element that is equal to none. *)
Lemma rb_insert_absent fuel t elm l r pp c0 :
  rb_tree t → elm ≠ 0 → (∀ x, x ∈ inorder t → cmp elm x ≠ 0) →
  (rb_fuel (length (inorder t)) ≤ fuel)%nat →
  ∃ t', rb_tree t' ∧ inorder t' = os_insert cmp elm (inorder t) ∧
    triple (tree_cells field head 0 t ++ entry field elm l r pp c0) (RB_INSERT field head cmp fuel elm) 0
      (tree_cells field head 0 t').
Proof.
  intros Ht He Hno Hfuel. pose proof (rb_tree_height _ _ Ht Hfuel) as Hh. pose proof (rb_tree_sound _ Ht) as Hs.
  destruct Ht as (Hsort & H0 & m & Hm).
  destruct (insert_search fuel elm t [] 0 Hs Hsort) as (q & comp & Htr & Hq & Hfit & Hside);
    [lia|by split; constructor|done|done|]. simpl in Hq. subst t.
  pose proof (fits_plug elm q Hfit) as Hin. pose proof (fits_sorted elm q Hfit Hsort) as Hsort'.
  assert (0 ∉ inorder (plug q (T Red E elm E))) as H0'.
  { rewrite inorder_plug in *. simpl. set_solver. }
  pose proof (plug_height q E) as Hqh. destruct (unplug_rbt q E m Hm) as (c & n & HE & Hq).
  assert (c = Black ∧ n = 0%nat) as [-> ->] by (by inversion HE).
  destruct (insert_color_spec field head fuel q (T Red E elm E) 0) as (t' & Hfix & Hin' & Hm').
  { by repeat constructor. }
  { done. }
  { split; [by apply (sorted_NoDup cmp)|done]. }
  { lia. }
  exists t'. split_and!; [split_and!; [by rewrite Hin'|by rewrite Hin'|done]|by rewrite Hin', Hin|].
  unfold RB_INSERT. eapply (triple_bind _ _ (root (plug q E)) _).
  { unfold RB_ROOT, tree_cells. heap_steps. done. }
  cbv beta. eapply (triple_bind _ _ (inr (par_of q, comp)) (tree_cells field head 0 (plug q E) ++ entry field elm l r pp c0)).
  { cbn [par_of] in Htr. unfold tree_cells. heap_call Htr. solve_Permutation. }
  cbv beta iota. rewrite plug_cells. apply triple_assoc_inv.
  eapply triple_bind; [|eapply triple_bind; [exact Hfix|by apply triple_ret]].
  apply insert_leaf; [done|]. intros Hne. destruct q as [|[d c1 b s] q]; [done|]. by eapply sound_elm.
Qed.

(** An equal element is returned and nothing changes. *)
Lemma insert_search_found fuel elm t par comp res :
  sound t → (height t < fuel)%nat → (tsearch cmp elm t res).2 = true →
  triple (inner field t) (RB_INSERT_loop field cmp fuel elm (root t) par comp)
    (inl (tsearch cmp elm t res).1) (inner field t).
Proof.
  revert t par comp res. induction fuel as [|fuel IH]; intros t par comp res Hs Hf Hfound; [lia|].
  cbn [RB_INSERT_loop]. destruct t as [|c l a r]; [done|].
  destruct (sound_node SL _ _ _ _ Hs) as (Hsl & Hsr & Hna). cbn [root height inner tsearch] in *.
  unfold RB_LEFT, RB_RIGHT. heap_step. destruct (decide (cmp elm a < 0)).
  - heap_step. heap_call (IH l a (cmp elm a) a Hsl ltac:(lia) Hfound). solve_Permutation.
  - destruct (decide (cmp elm a > 0)).
    + heap_step. heap_call (IH r a (cmp elm a) res Hsr ltac:(lia) Hfound). solve_Permutation.
    + by heap_steps.
Qed.

Lemma os_find_search elm res t :
  rb_tree t →
  os_find cmp elm (inorder t) = (if (tsearch cmp elm t res).2 then (tsearch cmp elm t res).1 else 0) ∧
  (os_find cmp elm (inorder t) = 0 ↔ (tsearch cmp elm t res).2 = false).
Proof.
  intros (Hs & H0 & _). rewrite (tsearch_inorder cmp) by done.
  unfold os_find.
  assert (filter (λ x, cmp elm x = 0) (inorder t) =
    match not_less cmp elm (inorder t) with
    | [] => [] | x :: _ => if decide (cmp elm x = 0) then [x] else [] end) as ->.
  { clear H0. unfold not_less. induction (inorder t) as [|x xs IH]; [done|].
    apply (sorted_cons cmp) in Hs as [Hs Hx].
    destruct (decide (cmp elm x ≤ 0)).
    - rewrite (filter_cons_True (λ x, cmp elm x ≤ 0)) by done.
      assert (filter (λ x, cmp elm x = 0) xs = []) as Hnil.
      { apply filter_none, Forall_forall. intros y Hy. pose proof (cmp_le_lt_trans cmp elm x y ltac:(done) (Hx y Hy)). lia. }
      destruct (decide (cmp elm x = 0)); [by rewrite filter_cons_True, Hnil|by rewrite filter_cons_False, Hnil].
    - rewrite (filter_cons_False (λ x, cmp elm x ≤ 0)), filter_cons_False by lia. by apply IH. }
  destruct (not_less cmp elm (inorder t)) as [|x xs] eqn:En; simpl.
  - done.
  - pose proof (not_less_in cmp _ _ _ _ En) as Hx. assert (x ≠ 0) as Hx0 by (by intros ->).
    destruct (decide (cmp elm x = 0)) as [Hc|Hc]; simpl.
    + by rewrite bool_decide_eq_true_2 by done.
    + by rewrite bool_decide_eq_false_2 by done.
Qed.

Lemma rb_insert_present fuel t elm :
  rb_tree t → os_find cmp elm (inorder t) ≠ 0 → (rb_fuel (length (inorder t)) ≤ fuel)%nat →
  triple (tree_cells field head 0 t) (RB_INSERT field head cmp fuel elm) (os_find cmp elm (inorder t))
    (tree_cells field head 0 t).
Proof.
  intros Ht Hf Hfuel. pose proof (rb_tree_height _ _ Ht Hfuel) as Hh. pose proof (rb_tree_sound _ Ht) as Hs.
  destruct (os_find_search elm 0 t Ht) as [Hfind Hnf].
  destruct (tsearch cmp elm t 0).2 eqn:E; [|by destruct Hf; apply Hnf].
  pose proof (insert_search_found fuel elm t 0 0 0 Hs ltac:(lia) E) as Htr. rewrite <-Hfind in Htr.
  unfold RB_INSERT, RB_ROOT, tree_cells. heap_step. heap_call Htr. heap_steps. solve_Permutation.
Qed.

(** ** Removal *)

(** A node with at most one child, unlinked. *)
Lemma unlink_spec p c l a r ch :
  sound (plug p (T c l a r)) → (l = E ∧ ch = r) ∨ (r = E ∧ ch = l) →
  triple (at_path p (T c l a r))
    (_ ← RB_SET_PARENT field (root ch) (par_of p); RB_LINK field head (par_of p) a (root ch)) tt
    (at_path p ch ++ entry field a (root l) (root r) (par_of p) (color_val c)).
Proof.
  intros Hs Hch. pose proof (sound_link _ _ Hs ltac:(done)) as Hl. cbn [root] in Hl.
  assert (sound ch) as Hsc by (destruct (sound_node SL _ _ _ _ (sound_plug _ _ Hs)) as (?&?&_); by destruct Hch as [[_ ->]|[_ ->]]).
  unfold tree_cells, entry. cbn [inner par_cells root app].
  destruct Hch as [[-> ->]|[-> ->]]; cbn [inner par_cells root app].
  - heap_call (rb_set_parent_spec field r a (par_of p) (sound_root r Hsc)).
    heap_call (rb_link_spec field head p a (root r) Hl). solve_Permutation.
  - heap_call (rb_set_parent_spec field l a (par_of p) (sound_root l Hsc)).
    heap_call (rb_link_spec field head p a (root l) Hl). solve_Permutation.
Qed.

(** The colours after taking [ch] for its parent of colour [c]. *)
Lemma unlink_fix fuel p c l a r ch m :
  rbt Black m (plug p (T c l a r)) → (l = E ∧ ch = r) ∨ (r = E ∧ ch = l) → sound (plug p ch) →
  (S (length p) < fuel)%nat →
  ∃ t', triple (at_path p ch)
      (if decide (color_val c = RB_BLACK) then RB_REMOVE_COLOR field head fuel (par_of p) (root ch) else mret tt) tt
      (tree_cells field head 0 t') ∧ inorder t' = inorder (plug p ch) ∧ ∃ m', rbt Black m' t'.
Proof.
  intros Hm Hch Hs Hf. destruct (unplug_rbt _ _ _ Hm) as (c0 & n & Ht & Hp).
  inversion Ht as [|n0 l0 a0 r0 Hl Hr|c1 c2 n0 l0 a0 r0 Hl Hr]; subst.
  - exists (plug p ch). assert (rbt Black n ch) as Hc by (by destruct Hch as [[_ ->]|[_ ->]]).
    rewrite decide_False by done. split_and!; [|done|].
    + apply triple_ret. by rewrite plug_cells.
    + eapply plug_rbt; [by eapply rbp_black|done].
  - rewrite decide_True by done. apply (remove_color_spec field head fuel p ch n0); [|done..].
    assert (∃ c', rbt c' n0 ch) as [c' Hc] by (destruct Hch as [[_ ->]|[_ ->]]; eauto).
    destruct Hc; [left; constructor|right; split; [done|by econstructor]|left; by econstructor].
Qed.

(** The leftmost node of a subtree. *)
Lemma leftmost r :
  r ≠ E → ∃ p c s rr, r = plug p (T c E s rr) ∧ before p = [] ∧ inorder r = s :: inorder rr ++ after p.
Proof.
  induction r as [|c l IHl a rr _]; [done|]. intros _. destruct (decide (l = E)) as [->|Hl].
  - exists [], c, a, rr. split_and!; [done..|]. simpl. by rewrite app_nil_r.
  - destruct (IHl Hl) as (p & c' & s & r' & Hlp & Hb & Hin). exists (p ++ [Frame SL c a rr]), c', s, r'.
    rewrite plug_app, before_app, after_app, <-Hlp, Hb. split_and!; [done|done|].
    simpl. rewrite Hin. unfold frame_after. simpl. by rewrite app_nil_r, <-app_assoc.
Qed.

(** A path does not mind which element a frame holds. *)
Lemma rbp_rename c n q d c1 a b s p :
  rbp c n (q ++ Frame d c1 a s :: p) → rbp c n (q ++ Frame d c1 b s :: p).
Proof.
  revert c n. induction q as [|f q IH]; intros c n H; simpl in *.
  - inversion H; subst; by econstructor.
  - inversion H; subst; [eapply rbp_R|eapply rbp_B]; eauto.
Qed.

(** Cells of a subtree seen from further up. *)
Lemma plug_cells_app q p t : at_path (q ++ p) t ≡ₚ at_path p (plug q t).
Proof.
  revert t. induction q as [|f q IH]; intros t; cbn [plug app]; [done|]. by rewrite plug1_cells, IH.
Qed.

(** The successor's cells take over those of the removed element. *)
Lemma replace_spec p c l a r s w x y z :
  link_ok p a → l ≠ E → (r ≠ E → root r ≠ 0) →
  triple (at_path p (T c l a r) ++ entry field s w x y z) (RB_REMOVE_replace field head a s) tt
    (at_path p (T c l s r) ++ entry field a (root l) (root r) (par_of p) (color_val c)).
Proof.
  intros Hl Hne Hr. destruct l as [|cl ll la lr]; [done|]. unfold RB_REMOVE_replace, RB_COPY, entry, tree_cells.
  unfold RB_LEFT, RB_RIGHT, RB_PARENT, RB_COLOR. cbn [inner par_cells root app]. heap_steps.
  heap_call (rb_link_spec field head p a s Hl). heap_steps.
  heap_call (rb_set_parent_spec field r a s Hr). solve_Permutation.
Qed.

Lemma augment_spec fuel p t :
  sound (plug p t) → t ≠ E → (length p < fuel)%nat →
  triple (at_path p t) (RB_augment_path field fuel (root t)) tt (at_path p t).
Proof.
  revert p t. induction fuel as [|fuel IH]; intros p t Hs Ht Hf; [lia|]. cbn [RB_augment_path].
  eapply triple_bind; [by apply rb_parent_spec|]. destruct p as [|[d c a s] p]; cbn [par_of].
  - rewrite decide_False by naive_solver. by apply triple_ret.
  - pose proof (sound_elm _ _ _ _ _ _ Hs). rewrite decide_True by done.
    pose proof (IH p (plug1 (Frame d c a s) t) Hs) as H'.
    assert (root (plug1 (Frame d c a s) t) = a) as Er by apply root_node.
    rewrite Er, <-plug1_cells in H'. apply H'; [unfold plug1; by destruct d|simpl in *; lia].
Qed.

(** The elements without one. *)
Lemma rb_list_drop xs a ys :
  sorted cmp (xs ++ a :: ys) ∧ 0 ∉ xs ++ a :: ys → sorted cmp (xs ++ ys) ∧ 0 ∉ xs ++ ys.
Proof.
  rewrite !(sorted_app cmp), (sorted_cons cmp). intros [(H1 & (H2 & _) & H3) H0]. split; [|set_solver].
  split_and!; [done..|]. intros x y Hx Hy. apply H3; [done|by right].
Qed.
Lemma rb_list_sound t : sorted cmp (inorder t) ∧ 0 ∉ inorder t → sound t.
Proof. intros [Hs H0]. split; [by apply (sorted_NoDup cmp)|done]. Qed.

(** The members of a node of the tree. *)
Lemma node_members p c l a r :
  let P := at_path p (T c l a r) in
  triple P (RB_LEFT field a) (root l) P ∧ triple P (RB_RIGHT field a) (root r) P ∧
  triple P (RB_PARENT field a) (par_of p) P ∧ triple P (RB_COLOR field a) (color_val c) P.
Proof.
  intros P. subst P. unfold RB_LEFT, RB_RIGHT, RB_PARENT, RB_COLOR, tree_cells. cbn [inner par_cells root app].
  split_and!; by heap_steps.
Qed.

(** [RB_REMOVE] of an element with at most one child. *)
Lemma rb_remove_leaf fuel p c l a r :
  rb_tree (plug p (T c l a r)) → l = E ∨ r = E → (S (height (plug p (T c l a r))) < fuel)%nat →
  ∃ t' x y z w, rb_tree t' ∧ inorder t' = (before p ++ inorder l) ++ inorder r ++ after p ∧
    triple (at_path p (T c l a r)) (RB_REMOVE field head fuel a) a
      (tree_cells field head 0 t' ++ entry field a x y z w).
Proof.
  intros Ht Hlr Hf. pose proof (rb_tree_sound _ Ht) as Hs. destruct Ht as (Hsort & H0 & m & Hm).
  assert (∃ ch, ((l = E ∧ ch = r) ∨ (r = E ∧ ch = l)) ∧
    root ch = (if decide (root l = 0) then root r else root l)) as (ch & Hch & Hroot).
  { destruct (sound_node SL _ _ _ _ (sound_plug _ _ Hs)) as (Hsl & _ & _).
    destruct (decide (l = E)) as [->|Hl]; [exists r; split; [by left|done]|]. destruct Hlr as [|Hr]; [done|].
    exists l. split; [by right|]. rewrite decide_False; [done|]. by apply sound_root. }
  assert (inorder (plug p ch) = (before p ++ inorder l) ++ inorder r ++ after p) as Hin.
  { rewrite inorder_plug. destruct Hch as [[-> ->]|[-> ->]]; simpl; by rewrite ?app_nil_r, <-?app_assoc. }
  assert (sorted cmp (inorder (plug p ch)) ∧ 0 ∉ inorder (plug p ch)) as Hch'.
  { rewrite Hin. apply (rb_list_drop _ a). rewrite inorder_plug in Hsort, H0. simpl in Hsort, H0.
    by rewrite <-!app_assoc in *. }
  pose proof (plug_height p (T c l a r)) as Hh. cbn [height] in Hh.
  destruct (unlink_fix fuel p c l a r ch m Hm Hch (rb_list_sound _ Hch')) as (t' & Hfix & Hin' & Hm'); [lia|].
  exists t', (root l), (root r), (par_of p), (color_val c). rewrite Hin in Hin'. rewrite Hin in Hch'.
  split; [by unfold rb_tree; rewrite Hin'; destruct Hch'|split; [done|]].
  destruct (node_members p c l a r) as (H1 & H2 & H3 & H4). unfold RB_REMOVE.
  eapply triple_bind; [exact H1|]. eapply triple_bind; [exact H2|]. cbv beta.
  rewrite decide_True by (destruct Hlr as [->| ->]; auto). rewrite <-Hroot.
  eapply triple_bind; [exact H3|]. eapply triple_bind; [exact H4|]. cbv beta.
  apply triple_assoc_inv. eapply triple_bind; [by apply unlink_spec|]. cbv beta.
  eapply triple_bind; [apply triple_frame; exact Hfix|]. by apply triple_ret.
Qed.

Lemma sound_frame_elm p d c a l X : sound (plug (Frame d c a l :: p) X) → a ∉ inorder X.
Proof.
  intros [Hnd _] Ha. simpl in Hnd. rewrite inorder_plug_perm in Hnd. apply NoDup_app in Hnd as [Hnd _].
  unfold plug1 in Hnd. destruct d; simpl in Hnd; apply NoDup_app in Hnd as (_ & Hd & Hnd).
  - by eapply (Hd a); [|left].
  - apply NoDup_cons in Hnd as [Hnd _]. done.
Qed.

(** Where the parent of the successor is after the replacement. *)
Lemma successor_parent q d c a b l p t :
  sound (plug (q ++ Frame d c a l :: p) t) →
  (if decide (par_of (q ++ Frame d c a l :: p) = a) then b else par_of (q ++ Frame d c a l :: p)) =
  par_of (q ++ Frame d c b l :: p).
Proof.
  destruct q as [|f q]; simpl; [by rewrite decide_True|]. destruct f as [d0 c0 b0 s0]. simpl. intros Hs.
  apply decide_False. intros ->. rewrite plug_app in Hs. apply sound_frame_elm in Hs. apply Hs.
  rewrite inorder_plug. apply elem_of_app. right. apply elem_of_app. left. unfold plug1. simpl.
  destruct d0; simpl; set_solver.
Qed.

(** The end of [RB_REMOVE], from the colour [c2] of the unlinked successor. *)
Lemma remove_finish fuel p c2 s rr m :
  rbt Black m (plug p (T c2 E s rr)) → sound (plug p rr) → p ≠ [] → (S (length p) < fuel)%nat →
  ∃ t', triple (at_path p rr) (RB_REMOVE_finish field head fuel (par_of p) (root rr) (color_val c2)) tt
      (tree_cells field head 0 t') ∧ inorder t' = inorder (plug p rr) ∧ ∃ m', rbt Black m' t'.
Proof.
  intros Hm Hs Hne Hf.
  destruct (unlink_fix fuel p c2 E s rr rr m Hm (or_introl (conj eq_refl eq_refl)) Hs Hf) as (t' & Hfix & Hin & Hm').
  exists t'. split_and!; [|done|done]. unfold RB_REMOVE_finish.
  destruct p as [|[d c b u] p]; [done|]. cbn [par_of] in *.
  pose proof (sound_elm _ _ _ _ _ _ Hs) as Hb. rewrite (decide_True (P := b ≠ 0)) by done.
  eapply triple_bind; [|exact Hfix].
  pose proof (augment_spec fuel p (plug1 (Frame d c b u) rr) Hs) as Ha.
  assert (root (plug1 (Frame d c b u) rr) = b) as Er by apply root_node.
  rewrite Er, <-plug1_cells in Ha. apply Ha; [unfold plug1; by destruct d|simpl in Hf; lia].
Qed.

(** The way to the successor. *)
Lemma find_successor fuel p c l a r q c2 s rr :
  sound (plug p (T c l a r)) → r = plug q (T c2 E s rr) → before q = [] → (height r ≤ fuel)%nat →
  triple (at_path p (T c l a r)) (RB_descend field fuel SL (root r)) s
    (at_path (q ++ Frame SR c a l :: p) (T c2 E s rr)).
Proof.
  intros Hs Hq Hbq Hf. destruct (sound_node SL _ _ _ _ (sound_plug _ _ Hs)) as (_ & Hsr & _).
  assert (r ≠ E) as Hr by (rewrite Hq; by apply plug_nonempty).
  pose proof (rb_descend_spec field fuel SR r Hsr Hr Hf) as Hd.
  replace (hd 0 (dir_list SR (inorder r))) with s in Hd by (simpl; by rewrite Hq, inorder_plug, Hbq).
  eapply triple_perm_post.
  - unfold tree_cells. cbn [inner par_cells root app]. heap_call Hd. reflexivity.
  - rewrite plug_cells_app, <-Hq, plug1_cells. unfold plug1, tree_cells. simpl. solve_Permutation.
Qed.

(** [RB_REMOVE] of an element with two children: its successor [s] replaces it. *)
Lemma rb_remove_inner fuel p c l a r :
  rb_tree (plug p (T c l a r)) → l ≠ E → r ≠ E → (S (height (plug p (T c l a r))) < fuel)%nat →
  ∃ t' x y z w, rb_tree t' ∧ inorder t' = (before p ++ inorder l) ++ inorder r ++ after p ∧
    triple (at_path p (T c l a r)) (RB_REMOVE field head fuel a) a
      (tree_cells field head 0 t' ++ entry field a x y z w).
Proof.
  intros Ht Hl Hr Hf. pose proof (rb_tree_sound _ Ht) as Hs. destruct Ht as (Hsort & H0 & m & Hm).
  destruct (leftmost r Hr) as (q & c2 & s & rr & Hq & Hbq & Hin).
  destruct (sound_node SL _ _ _ _ (sound_plug _ _ Hs)) as (Hsl & Hsr & Ha).
  pose proof (sound_link _ _ Hs ltac:(done)) as Hlink. cbn [root] in Hlink.
  pose proof (find_successor fuel p c l a r q c2 s rr Hs Hq Hbq) as Hdesc.
  assert (plug p (T c l a r) = plug (q ++ Frame SR c a l :: p) (T c2 E s rr)) as HQ by (by rewrite plug_app, <-Hq).
  assert (inorder (plug (q ++ Frame SR c s l :: p) rr) = (before p ++ inorder l) ++ inorder r ++ after p) as HQ'.
  { rewrite inorder_plug, before_app, after_app, Hbq, Hin. simpl.
    unfold frame_before, frame_after. simpl. by list_flat. }
  assert (sorted cmp (inorder (plug (q ++ Frame SR c s l :: p) rr)) ∧
    0 ∉ inorder (plug (q ++ Frame SR c s l :: p) rr)) as HQl.
  { rewrite HQ'. apply (rb_list_drop _ a). rewrite inorder_plug in Hsort, H0. simpl in Hsort, H0.
    by rewrite <-!app_assoc in *. }
  pose proof (plug_height p (T c l a r)) as Hh1. cbn [height] in Hh1.
  rewrite HQ in Hm, Hf. destruct (unplug_rbt _ _ _ Hm) as (c3 & n & Hleaf & HpQ).
  apply (rbp_rename _ _ _ _ _ _ s) in HpQ. destruct (plug_rbt _ _ _ _ HpQ Hleaf) as [m' Hm'].
  pose proof (plug_height (q ++ Frame SR c a l :: p) (T c2 E s rr)) as Hh2. cbn [height] in Hh2.
  destruct (remove_finish fuel _ c2 s rr m' Hm' (rb_list_sound _ HQl)) as (t' & Hfin & Hin' & Hmt').
  { by destruct q. } { rewrite length_app in *. simpl in *. lia. }
  exists t', (root l), (root (plug q rr)), (par_of p), (color_val c). rewrite HQ' in Hin', HQl.
  split; [by unfold rb_tree; rewrite Hin'; destruct HQl|split; [done|]].
  destruct (node_members p c l a r) as (H1 & H2 & _ & _). unfold RB_REMOVE.
  eapply triple_bind; [exact H1|]. eapply triple_bind; [exact H2|]. cbv beta.
  rewrite decide_False by (intros [?|?]; [by apply (sound_root l)|by apply (sound_root r)]).
  eapply triple_bind; [apply Hdesc; rewrite HQ in Hh1; lia|]. cbv beta.
  destruct (node_members (q ++ Frame SR c a l :: p) c2 E s rr) as (_ & H3 & H4 & H5).
  eapply triple_bind; [exact H3|]. eapply triple_bind; [exact H4|]. eapply triple_bind; [exact H5|]. cbv beta.
  apply triple_assoc_inv. eapply triple_bind; [apply (unlink_spec _ c2 E s rr rr); [by rewrite <-HQ|by left]|].
  cbv beta. eapply triple_bind; [unfold RB_PARENT, entry; by heap_steps|]. cbv beta.
  rewrite HQ in Hs. rewrite (successor_parent _ _ _ _ s _ _ _ Hs).
  eapply triple_bind.
  { rewrite plug_cells_app, plug1_cells. apply replace_spec; [done|done|]. apply sound_root.
    apply (sound_incl r _ [s]); [|done]. rewrite inorder_plug, Hbq, Hin. simpl. solve_Permutation. }
  cbv beta. pose proof (plug1_cells field head (Frame SR c s l) p (plug q rr)) as Hv.
  unfold plug1 in Hv. cbn [fr_side fr_color fr_elm fr_sib RBShape.node] in Hv. rewrite <-Hv, <-plug_cells_app.
  eapply triple_bind; [apply triple_frame; exact Hfin|]. by apply triple_ret.
Qed.
End spec.
