(* ===== verification/RBSet.v ===== *)
(** * Red-black trees as ordered sets

    The operations of sys/tree.h on the cells of a tree are the operations on the
    sorted list of its elements, call by call and over any sequence of calls. *)

From S2P Require Import Prelude WordHeap OrderedSet RBTree RBShape RBFix RBFixRemove RBWalk RBTreeSpec.

Section rbset.
Context (field head : Z) (cmp : Z → Z → Z) `{!CmpOrder cmp}.

Abbreviation cells_of t := (tree_cells field head 0 t).

Lemma rb_remove_spec fuel t a :
  rb_tree cmp t → a ∈ inorder t → (rb_fuel (length (inorder t)) ≤ fuel)%nat →
  ∃ t' x y z w, rb_tree cmp t' ∧ inorder t' = os_remove a (inorder t) ∧
    triple (cells_of t) (RB_REMOVE field head fuel a) a (cells_of t' ++ entry field a x y z w).
Proof.
  intros Ht Ha Hfuel. pose proof (rb_tree_height cmp _ _ Ht Hfuel) as Hh.
  pose proof (rb_tree_sound cmp _ Ht) as [Hnd _].
  destruct (inorder_split t a Ha) as (p & c & l & r & ->).
  assert (inorder (plug p (T c l a r)) = (before p ++ inorder l) ++ a :: inorder r ++ after p) as Eo
    by (rewrite inorder_plug; by list_flat).
  assert (∃ t' x y z w, rb_tree cmp t' ∧ inorder t' = (before p ++ inorder l) ++ inorder r ++ after p ∧
    triple (cells_of (plug p (T c l a r))) (RB_REMOVE field head fuel a) a
      (cells_of t' ++ entry field a x y z w)) as (t' & x & y & z & w & Ht' & Hin & Htr).
  { destruct (decide (l = E ∨ r = E)) as [Hlr|Hlr].
    - destruct (rb_remove_leaf field head cmp fuel p c l a r Ht Hlr Hh) as (t'&x&y&z&w&?&?&?).
      exists t', x, y, z, w. by rewrite plug_cells.
    - destruct (rb_remove_inner field head cmp fuel p c l a r Ht) as (t'&x&y&z&w&?&?&?); [naive_solver..|done|].
      exists t', x, y, z, w. by rewrite plug_cells. }
  exists t', x, y, z, w. split_and!; [done| |done]. rewrite Hin, Eo in *. by rewrite os_remove_split.
Qed.

(** ** The operations that change nothing *)

Lemma query_height fuel t : rb_tree cmp t → (rb_fuel (length (inorder t)) ≤ fuel)%nat → (height t < fuel)%nat.
Proof. intros Ht Hf. pose proof (rb_tree_height cmp _ _ Ht Hf). lia. Qed.

Section queries.
Context (fuel : nat) (t : tree).
Hypothesis Ht : rb_tree cmp t.
Hypothesis Hheight : (height t < fuel)%nat.

(** A search that reads the tree below its root. *)
Lemma query_root {A} (f : Z → M heap A) a :
  triple (inner field t) (f (root t)) a (inner field t) →
  triple (cells_of t) (r ← RB_ROOT head; f r) a (cells_of t).
Proof. intros Hf. unfold RB_ROOT, tree_cells. heap_step. heap_call Hf. solve_Permutation. Qed.

Lemma rb_find_spec elm : triple (cells_of t) (RB_FIND field head cmp fuel elm) (os_find cmp elm (inorder t)) (cells_of t).
Proof.
  apply query_root. destruct (os_find_search cmp elm 0 t Ht) as [-> _].
  apply rb_find_loop_spec; [by apply (rb_tree_sound cmp)|lia].
Qed.

Lemma rb_nfind_spec elm : triple (cells_of t) (RB_NFIND field head cmp fuel elm) (os_nfind cmp elm (inorder t)) (cells_of t).
Proof.
  apply (query_root (λ r, RB_NFIND_loop field cmp fuel elm r 0)).
  replace (os_nfind cmp elm (inorder t)) with (tsearch cmp elm t 0).1.
  - apply rb_find_loop_spec; [by apply (rb_tree_sound cmp)|lia].
  - rewrite (tsearch_inorder cmp) by apply Ht. unfold os_nfind. by destruct (not_less cmp elm (inorder t)).
Qed.

Lemma rb_minmax_spec val :
  triple (cells_of t) (RB_MINMAX field head fuel val)
    (if decide (val < 0) then hd 0 (inorder t) else List.last (inorder t) 0) (cells_of t).
Proof.
  apply (query_root (λ r, RB_MINMAX_loop field fuel val r 0)).
  apply rb_minmax_loop_spec; [by apply (rb_tree_sound cmp)|lia].
Qed.

(** One step of a walk in either direction. *)
Lemma rb_step_split d xs a ys :
  dir_list d (inorder t) = xs ++ a :: ys →
  triple (cells_of t) (RB_STEP field fuel d a) (hd 0 ys) (cells_of t).
Proof.
  intros Hd. pose proof (rb_tree_sound cmp _ Ht) as Hs.
  assert (a ∈ inorder t) as Ha.
  { apply (elem_of_dir d). rewrite Hd. set_solver. }
  destruct (inorder_split t a Ha) as (p & c & l & r & Et). destruct (node_of (opp d) c l a r) as (n & f & En).
  rewrite Et, En in *. destruct (dir_plug d p c n a f) as (pre & Epre). rewrite plug_cells.
  pose proof (rb_step_at field head fuel d p c n a f Hs ltac:(lia)) as Hstep.
  assert (NoDup (xs ++ a :: ys)) as Hnd by (rewrite <-Hd, NoDup_dir; apply Hs).
  rewrite Hd in Epre. by destruct (split_unique _ _ _ _ _ Hnd Epre) as [_ ->].
Qed.

Lemma rb_step_spec d a :
  a ∈ inorder t →
  triple (cells_of t) (RB_STEP field fuel d a) (behind a (dir_list d (inorder t))) (cells_of t).
Proof.
  intros Ha. pose proof (rb_tree_sound cmp _ Ht) as [Hnd _].
  apply (elem_of_dir d) in Ha as Hin. apply (NoDup_dir d) in Hnd as Hnd'.
  apply list_elem_of_split in Hin as (xs & ys & E). rewrite E in *.
  rewrite behind_split by (apply NoDup_app in Hnd' as (_ & Hx & _); intros H; by eapply Hx; [|left]).
  by eapply rb_step_split.
Qed.

Lemma rb_foreach_loop_spec d xs ys turns :
  dir_list d (inorder t) = xs ++ ys → (length ys < turns)%nat →
  triple (cells_of t) (RB_FOREACH_loop field turns fuel d (hd 0 ys)) ys (cells_of t).
Proof.
  revert xs turns. induction ys as [|y ys IH]; intros xs [|turns] Hd Hf; simpl in Hf; [lia| |lia|];
    cbn [RB_FOREACH_loop hd].
  - rewrite decide_True by done. by apply triple_ret.
  - assert (y ≠ 0) as Hy.
    { intros ->. apply (rb_tree_sound cmp _ Ht). apply (elem_of_dir d). rewrite Hd. set_solver. }
    rewrite decide_False by done. eapply triple_bind; [by eapply rb_step_split|].
    eapply triple_bind; [apply (IH (xs ++ [y])); [by rewrite Hd, <-app_assoc|lia]|]. by apply triple_ret.
Qed.

Lemma rb_foreach_spec turns :
  (length (inorder t) < turns)%nat →
  triple (cells_of t) (RB_FOREACH field head turns fuel) (inorder t) (cells_of t) ∧
  triple (cells_of t) (RB_FOREACH_REVERSE field head turns fuel) (reverse (inorder t)) (cells_of t).
Proof.
  intros Hf. pose proof (rb_minmax_spec RB_NEGINF) as Hmin. pose proof (rb_minmax_spec RB_INF) as Hmax.
  rewrite decide_True in Hmin by done. rewrite decide_False in Hmax by done. split.
  - eapply triple_bind; [exact Hmin|]. by apply (rb_foreach_loop_spec SR []).
  - eapply triple_bind; [exact Hmax|].
    replace (List.last (inorder t) 0) with (hd 0 (reverse (inorder t))).
    + apply (rb_foreach_loop_spec SL []); [done|]. by rewrite length_reverse.
    + induction (inorder t) as [|x xs IH] using rev_ind; [done|]. by rewrite reverse_snoc, List.last_last.
Qed.
End queries.

(** ** Sequences of calls *)

(** The macro a call stands for, and what it returns. *)
Definition rb_call (turns fuel : nat) (op : set_op) : M heap (list Z) :=
  match op with
  | OpInsert elm => a ← RB_INSERT field head cmp fuel elm; mret [a]
  | OpRemove elm => a ← RB_REMOVE field head fuel elm; mret [a]
  | OpFind elm => a ← RB_FIND field head cmp fuel elm; mret [a]
  | OpNfind elm => a ← RB_NFIND field head cmp fuel elm; mret [a]
  | OpMin => a ← RB_MIN field head fuel; mret [a]
  | OpMax => a ← RB_MAX field head fuel; mret [a]
  | OpNext elm => a ← RB_NEXT field fuel elm; mret [a]
  | OpPrev elm => a ← RB_PREV field fuel elm; mret [a]
  | OpForeach => RB_FOREACH field head turns fuel
  | OpForeachReverse => RB_FOREACH_REVERSE field head turns fuel
  end.

(** Nodes outside the tree: an address and the values of the four members. *)
Definition spare_cells (free : list (Z * (Z * Z * Z * Z))) : cells :=
  concat (map (λ '(a, (l, r, p, c)), entry field a l r p c) free).

(** The cells [P] are a tree with the elements [xs] and the other nodes of [pool]. *)
Definition represents (pool xs : list Z) (P : cells) : Prop :=
  ∃ t free, rb_tree cmp t ∧ inorder t = xs ∧ xs ++ free.*1 ≡ₚ pool ∧ P = cells_of t ++ spare_cells free.

Lemma spare_cells_perm free free' : free ≡ₚ free' → spare_cells free ≡ₚ spare_cells free'.
Proof. intros H. unfold spare_cells. by rewrite H. Qed.

Lemma rb_fuel_mono n m : (n ≤ m)%nat → (rb_fuel n ≤ rb_fuel m)%nat.
Proof. intros H. unfold rb_fuel. pose proof (Nat.log2_le_mono (S n) (S m)). lia. Qed.

(** A call whose tree stays the same. *)
Lemma query_represents pool xs P fuel (f : M heap Z) a :
  represents pool xs P → (rb_fuel (length pool) ≤ fuel)%nat →
  (∀ t, rb_tree cmp t → inorder t = xs → (rb_fuel (length (inorder t)) ≤ fuel)%nat →
    triple (cells_of t) f a (cells_of t)) →
  ∃ P', triple P (a ← f; mret [a]) [a] P' ∧ represents pool xs P'.
Proof.
  intros (t & free & Ht & Hin & Hpool & ->) Hfuel Hf. exists (cells_of t ++ spare_cells free).
  split; [|by exists t, free]. eapply triple_bind; [|by apply triple_ret]. apply triple_frame, Hf; [done..|].
  etrans; [|exact Hfuel]. apply rb_fuel_mono. rewrite <-Hpool, Hin, length_app. lia.
Qed.

(** The calls that return an element and leave the tree alone. *)
Lemma rb_query_spec pool op xs P :
  represents pool xs P → op_ok pool op xs →
  match op with OpInsert _ | OpRemove _ | OpForeach | OpForeachReverse => False | _ => True end →
  ∃ P', triple P (rb_call (S (length pool)) (rb_fuel (length pool)) op) (os_call cmp op xs).1 P' ∧
    represents pool (os_call cmp op xs).2 P'.
Proof.
  intros HP Hok Hq. destruct op as [e|e|e|e| | |e|e| |]; try done; cbn [rb_call os_call fst snd];
    (eapply query_represents; [exact HP|reflexivity|]); intros t Ht <- Hfuel%query_height; try done.
  - by apply rb_find_spec.
  - by apply rb_nfind_spec.
  - by apply (rb_minmax_spec _ _ Ht Hfuel RB_NEGINF).
  - by apply (rb_minmax_spec _ _ Ht Hfuel RB_INF).
  - by apply (rb_step_spec _ _ Ht Hfuel SR).
  - by apply (rb_step_spec _ _ Ht Hfuel SL).
Qed.

Lemma rb_insert_represents pool xs P e :
  0 ∉ pool → represents pool xs P → e ∈ pool →
  ∃ P', triple P (rb_call (S (length pool)) (rb_fuel (length pool)) (OpInsert e)) (os_call cmp (OpInsert e) xs).1 P' ∧
    represents pool (os_call cmp (OpInsert e) xs).2 P'.
Proof.
  intros H0 HP He. cbn [rb_call os_call]. destruct (decide (os_find cmp e xs = 0)) as [Hnone|Hsome]; cbn [fst snd]; cycle 1.
  { eapply query_represents; [exact HP|reflexivity|]. intros t Ht <- Hfuel. by apply rb_insert_present. }
  destruct HP as (t & free & Ht & Hin & Hpool & ->).
  assert (0 ∉ xs) as H0x by (intros Hx; apply H0; rewrite <-Hpool; set_solver).
  pose proof (os_find_none cmp e xs H0x Hnone) as Hno.
  assert (e ∉ xs) as Hex by (intros Hx; apply (Hno e Hx), (cmp_refl cmp)).
  assert (e ∈ free.*1) as Hfree by (rewrite <-Hpool in He; set_solver).
  apply list_elem_of_fmap in Hfree as ([e' [[[l r] pp] c]] & Ee & Hfree). simpl in Ee. subst e'.
  apply elem_of_Permutation in Hfree as (free' & Hfree).
  assert (e ≠ 0) as He0 by (by intros ->). subst xs.
  destruct (rb_insert_absent field head cmp (rb_fuel (length pool)) t e l r pp c Ht He0 Hno) as (t' & Ht' & Hin' & Htr).
  { apply rb_fuel_mono. rewrite <-Hpool, length_app. lia. }
  exists (cells_of t' ++ spare_cells free'). split.
  - rewrite (spare_cells_perm _ _ Hfree). unfold spare_cells at 1. cbn [map concat]. fold (spare_cells free').
    rewrite app_assoc. eapply triple_bind; [apply triple_frame; exact Htr|]. by apply triple_ret.
  - exists t', free'. split_and!; [done|done| |done]. rewrite <-Hpool, Hfree. cbn [fmap list_fmap fst].
    rewrite os_insert_perm by done. solve_Permutation.
Qed.

Lemma rb_remove_represents pool xs P e :
  represents pool xs P → e ∈ xs →
  ∃ P', triple P (rb_call (S (length pool)) (rb_fuel (length pool)) (OpRemove e)) [e] P' ∧
    represents pool (os_remove e xs) P'.
Proof.
  intros (t & free & Ht & Hin & Hpool & ->) He. subst xs. cbn [rb_call].
  destruct (rb_remove_spec (rb_fuel (length pool)) t e Ht He) as (t' & x & y & z & w & Ht' & Hin' & Htr).
  { apply rb_fuel_mono. rewrite <-Hpool, length_app. lia. }
  exists (cells_of t' ++ spare_cells ((e, (x, y, z, w)) :: free)). split.
  - eapply triple_bind; [apply triple_frame; exact Htr|]. apply triple_ret. unfold spare_cells. simpl.
    by rewrite <-app_assoc.
  - exists t', ((e, (x, y, z, w)) :: free). split_and!; [done|done| |done]. rewrite <-Hpool. simpl.
    pose proof (rb_tree_sound cmp _ Ht) as [Hnd _]. apply list_elem_of_split in He as (ys & zs & E).
    rewrite E in *. rewrite os_remove_split by done. solve_Permutation.
Qed.

Lemma rb_walk_represents pool xs P op :
  represents pool xs P → op = OpForeach ∨ op = OpForeachReverse →
  ∃ P', triple P (rb_call (S (length pool)) (rb_fuel (length pool)) op) (os_call cmp op xs).1 P' ∧
    represents pool (os_call cmp op xs).2 P'.
Proof.
  intros (t & free & Ht & Hin & Hpool & ->) Hop. subst xs. exists (cells_of t ++ spare_cells free).
  assert (length (inorder t) ≤ length pool)%nat as Hlen by (rewrite <-Hpool, length_app; lia).
  destruct (rb_foreach_spec (rb_fuel (length pool)) t Ht (query_height _ _ Ht (rb_fuel_mono _ _ Hlen)) (S (length pool))) as [H1 H2]; [lia|].
  destruct Hop as [-> | ->]; (split; [by apply triple_frame|by exists t, free]).
Qed.

Lemma rb_call_spec pool op xs P :
  0 ∉ pool → represents pool xs P → op_ok pool op xs →
  ∃ P', triple P (rb_call (S (length pool)) (rb_fuel (length pool)) op) (os_call cmp op xs).1 P' ∧
    represents pool (os_call cmp op xs).2 P'.
Proof.
  intros H0 HP Hok. destruct op; try (by apply rb_query_spec).
  - by apply rb_insert_represents.
  - by apply rb_remove_represents.
  - apply rb_walk_represents; [done|by left].
  - apply rb_walk_represents; [done|by right].
Qed.

(** Red-black trees are an implementation of ordered sets. *)
#[global] Instance rb_ordered_set pool :
  NonNull pool →
  OrderedSet cmp pool (rb_call (S (length pool)) (rb_fuel (length pool))) (λ _, true) (represents pool).
Proof. intros H0 op xs P HP Hok _. by apply rb_call_spec. Qed.
End rbset.

(** ** Properties *)

(** C9: red-black trees are ordered sets. From an empty head and nodes with any
    contents, whatever insertions, removals, searches, steps and walks are called,
    with the elements to insert taken from those nodes and the elements to remove
    or to step from in the tree, each call returns what the operation on the
    sorted list of the elements returns, no loop takes more than 2lg(n+1)+2 turns
    (a walk one per element), and at the end the cells are a red-black tree with
    the list's elements and the nodes outside it. *)
Theorem rb_trees_are_ordered_sets (field head v : Z) (cmp : Z → Z → Z) `{!CmpOrder cmp}
    (nodes : list (Z * (Z * Z * Z * Z))) (ops : list set_op)
    (Hnull : 0 ∉ nodes.*1) (Hok : ops_ok cmp nodes.*1 ops []) :
  ∃ Q,
    triple ((head, v) :: spare_cells field nodes)
      (_ ← RB_INIT head; calls (rb_call field head cmp (S (length nodes)) (rb_fuel (length nodes))) ops)
      (os_calls cmp ops []).1 Q ∧
    represents field head cmp nodes.*1 (os_calls cmp ops []).2 Q.
Proof.
  destruct (ordered_set_calls (H := rb_ordered_set field head cmp nodes.*1 Hnull)
    ops [] ((head, 0) :: spare_cells field nodes)) as (Q & H & HQ).
  { exists E, nodes. split_and!; [|done..]. split_and!; [constructor|set_solver|exists 0%nat; constructor]. }
  { done. }
  { by apply forallb_forall. }
  rewrite length_fmap in H. exists Q. split; [|done]. unfold RB_INIT. heap_step. exact H.
Qed.

(** C11: insertion and removal keep a red-black tree one. Inserting an element that
    is equal to none returns null and adds it where the order wants it; inserting
    one that is equal to some element returns that element and writes nothing;
    removing an element returns it, leaves the others in their order and gives its
    four members back. In each case the tree is sorted, no red node has a red
    child, and every way down meets the same number of black nodes. *)
Theorem rb_tree_preserved (field head : Z) (cmp : Z → Z → Z) `{!CmpOrder cmp} (t : tree) (elm l r p c : Z)
    (Ht : rb_tree cmp t) (Helm : elm ≠ 0) :
  let xs := inorder t in
  let fuel := rb_fuel (length xs) in
  let P := tree_cells field head 0 t in
  (os_find cmp elm xs = 0 → ∃ t', rb_tree cmp t' ∧ inorder t' = os_insert cmp elm xs ∧
     triple (P ++ entry field elm l r p c) (RB_INSERT field head cmp fuel elm) 0 (tree_cells field head 0 t')) ∧
  (os_find cmp elm xs ≠ 0 → triple P (RB_INSERT field head cmp fuel elm) (os_find cmp elm xs) P) ∧
  (elm ∈ xs → ∃ t' l' r' p' c', rb_tree cmp t' ∧ inorder t' = os_remove elm xs ∧
     triple P (RB_REMOVE field head fuel elm) elm (tree_cells field head 0 t' ++ entry field elm l' r' p' c')).
Proof.
  intros xs fuel P. split_and!.
  - intros Hnone. apply rb_insert_absent; [done..| |done].
    intros x Hx. by eapply os_find_none; [apply Ht|..].
  - intros Hsome. by apply rb_insert_present.
  - intros He. by apply rb_remove_spec.
Qed.

(** C31: the searches of a red-black tree take at most 2lg(n+1) steps down, the
    bound the header states for its height. *)
Theorem rb_searches_logarithmic (field head : Z) (cmp : Z → Z → Z) `{!CmpOrder cmp} (t : tree) (elm val : Z)
    (Ht : rb_tree cmp t) :
  let xs := inorder t in
  let fuel := S (2 * Nat.log2 (length xs + 1)) in
  let P := tree_cells field head 0 t in
  (height t ≤ 2 * Nat.log2 (length xs + 1))%nat ∧
  triple P (RB_FIND field head cmp fuel elm) (os_find cmp elm xs) P ∧
  triple P (RB_NFIND field head cmp fuel elm) (os_nfind cmp elm xs) P ∧
  triple P (RB_MINMAX field head fuel val) (if decide (val < 0) then hd 0 xs else List.last xs 0) P.
Proof.
  intros xs fuel P. destruct Ht as (Hs & H0 & m & Hm). pose proof (rb_height m t Hm) as Hh.
  assert (rb_tree cmp t) as Ht by (split_and!; eauto). assert (height t < fuel)%nat as Hf by (subst fuel xs; lia).
  split_and!; [done|by apply rb_find_spec|by apply rb_nfind_spec|by apply (rb_minmax_spec _ _ _ _ _ Ht)].
Qed.

(** Nodes at multiples of 100, compared by address. *)
Definition nodes_at (xs : list Z) : list (Z * (Z * Z * Z * Z)) := map (λ a, (a, (7, 7, 7, 7))) xs.

Example rb_run :
  match (_ ← RB_INIT 8;
         calls (rb_call 0 8 (λ a b, a - b) 9 9)
           [OpInsert 500; OpInsert 100; OpInsert 300; OpInsert 200; OpInsert 700; OpInsert 600; OpInsert 400;
            OpInsert 300; OpForeach; OpRemove 300; OpRemove 500; OpNfind 250; OpNext 400; OpPrev 100;
            OpForeachReverse])
        (list_to_map ((8, 1) :: spare_cells 0 (nodes_at [100; 200; 300; 400; 500; 600; 700]))) with
  | Ok (rs, _) => Some rs
  | _ => None
  end = Some [[0]; [0]; [0]; [0]; [0]; [0]; [0]; [300]; [100; 200; 300; 400; 500; 600; 700];
              [300]; [500]; [400]; [600]; [0]; [700; 600; 400; 200; 100]].
Proof. vm_compute. reflexivity. Qed.

Lemma rb_trees_are_ordered_sets_witness :
  ∃ Q,
    triple ((8, 1) :: spare_cells 0 (nodes_at [100; 200; 300]))
      (_ ← RB_INIT 8;
       calls (rb_call 0 8 (λ a b, a - b) 4 6)
         [OpInsert 200; OpInsert 300; OpInsert 100; OpInsert 200; OpForeach; OpRemove 200; OpNext 100])
      [[0]; [0]; [0]; [200]; [100; 200; 300]; [200]; [300]] Q ∧
    represents 0 8 (λ a b, a - b) [100; 200; 300] [100; 300] Q.
Proof.
  refine (rb_trees_are_ordered_sets 0 8 1 (λ a b, a - b) (nodes_at [100; 200; 300])
    [OpInsert 200; OpInsert 300; OpInsert 100; OpInsert 200; OpForeach; OpRemove 200; OpNext 100] _ _);
    apply (bool_decide_unpack _); vm_compute; exact I.
Defined.

Lemma single_rb_tree : rb_tree (λ a b, a - b) (T Black E 100 E).
Proof.
  split_and!; [repeat constructor|apply (bool_decide_unpack _); vm_compute; exact I|].
  exists 1%nat. repeat econstructor.
Qed.

Lemma rb_tree_preserved_witness :
  ∃ t', rb_tree (λ a b, a - b) t' ∧ inorder t' = [100; 200] ∧
    triple (tree_cells 0 8 0 (T Black E 100 E) ++ entry 0 200 7 7 7 7)
      (RB_INSERT 0 8 (λ a b, a - b) 4 200) 0 (tree_cells 0 8 0 t').
Proof.
  destruct (rb_tree_preserved 0 8 (λ a b, a - b) _ 200 7 7 7 7 single_rb_tree ltac:(done)) as (H & _ & _).
  apply H. vm_compute. reflexivity.
Defined.

Lemma rb_searches_logarithmic_witness :
  triple (tree_cells 0 8 0 (T Black E 100 E)) (RB_NFIND 0 8 (λ a b, a - b) 3 50) 100
    (tree_cells 0 8 0 (T Black E 100 E)).
Proof.
  destruct (rb_searches_logarithmic 0 8 (λ a b, a - b) _ 50 0 single_rb_tree) as (_ & _ & H & _). exact H.
Defined.
