(* ===== verification/SplayTree.v ===== *)
(** * Splay trees: sys/tree.h

    The functions that [SPLAY_PROTOTYPE] and [SPLAY_GENERATE] define, over the
    pointer cells of WordHeap. An element is the address of its structure, [field]
    the offset of its SPLAY_ENTRY, whose members are the cells at [field] and
    [field + 8]; [head] is the address of the root pointer, [node] that of
    [__node], the structure [SPLAY] keeps on its stack. The code writes every
    branch twice, for the left and for the right: here a branch has a side. *)

From S2P Require Import Prelude WordHeap RBTree.

Section splay.
Context (field head node : Z) (cmp : Z → Z → Z).

Definition spe_left (elm : Z) : Z := elm + field.
Definition spe_right (elm : Z) : Z := elm + field + 8.
Definition spe_child (d : side) : Z → Z := match d with SL => spe_left | SR => spe_right end.

Definition SPLAY_LEFT (elm : Z) : M heap Z := load (spe_left elm).
Definition SPLAY_RIGHT (elm : Z) : M heap Z := load (spe_right elm).
Definition SPLAY_CHILD (d : side) (elm : Z) : M heap Z := load (spe_child d elm).
Definition SPLAY_ROOT : M heap Z := load head.
Definition SPLAY_EMPTY : M heap bool := r ← SPLAY_ROOT; mret (bool_decide (r = 0)).
Definition SPLAY_INIT : M heap unit := store head 0.

Definition SPLAY_NEGINF : Z := -1.
Definition SPLAY_INF : Z := 1.

(** [tmp], the child of the root on the side opposite to [d], becomes the root. *)
Definition SPLAY_ROTATE (d : side) (tmp : Z) : M heap unit :=
  r ← SPLAY_ROOT;
  c ← SPLAY_CHILD d tmp;
  _ ← store (spe_child (opp d) r) c;
  r ← SPLAY_ROOT;
  _ ← store (spe_child d tmp) r;
  store head tmp.
Definition SPLAY_ROTATE_RIGHT : Z → M heap unit := SPLAY_ROTATE SR.
Definition SPLAY_ROTATE_LEFT : Z → M heap unit := SPLAY_ROTATE SL.

(** The root is hung below [tmp], and its child on side [d] is the root then; the
    result is the new [tmp]. *)
Definition SPLAY_LINK (d : side) (tmp : Z) : M heap Z :=
  r ← SPLAY_ROOT;
  _ ← store (spe_child d tmp) r;
  tmp ← SPLAY_ROOT;
  r ← SPLAY_ROOT;
  c ← SPLAY_CHILD d r;
  _ ← store head c;
  mret tmp.
Definition SPLAY_LINKLEFT : Z → M heap Z := SPLAY_LINK SL.
Definition SPLAY_LINKRIGHT : Z → M heap Z := SPLAY_LINK SR.

Definition SPLAY_ASSEMBLE (left right : Z) : M heap unit :=
  r ← SPLAY_ROOT;
  l' ← SPLAY_LEFT r;
  _ ← store (spe_right left) l';
  r ← SPLAY_ROOT;
  r' ← SPLAY_RIGHT r;
  _ ← store (spe_left right) r';
  r ← SPLAY_ROOT;
  x ← SPLAY_RIGHT node;
  _ ← store (spe_left r) x;
  r ← SPLAY_ROOT;
  y ← SPLAY_LEFT node;
  store (spe_right r) y.

(** ** [SPLAY] *)

(** The branch of the loop towards side [d]; [beyond] is the test of the
    comparison with [tmp], [far] is [__right] for the left side and [__left] for
    the right. The result is the new [far], or nothing on [break]. *)
Definition SPLAY_turn (d : side) (beyond : Z → bool) (far : Z) : M heap (option Z) :=
  r ← SPLAY_ROOT;
  tmp ← SPLAY_CHILD d r;
  if decide (tmp = 0) then mret None else
  stop ← (if beyond tmp then
            _ ← SPLAY_ROTATE (opp d) tmp;
            r ← SPLAY_ROOT;
            c ← SPLAY_CHILD d r;
            mret (bool_decide (c = 0))
          else mret false);
  if stop : bool then mret None else far ← SPLAY_LINK d far; mret (Some far).

(** The loop; the result is [__left] and [__right]. *)
Fixpoint SPLAY_loop (fuel : nat) (elm left right : Z) : M heap (Z * Z) :=
  match fuel with
  | 0%nat => out_of_fuel
  | S fuel =>
      r ← SPLAY_ROOT;
      let comp := cmp elm r in
      if decide (comp = 0) then mret (left, right)
      else if decide (comp < 0) then
        x ← SPLAY_turn SL (λ tmp, bool_decide (cmp elm tmp < 0)) right;
        match x with None => mret (left, right) | Some far => SPLAY_loop fuel elm left far end
      else
        x ← SPLAY_turn SR (λ tmp, bool_decide (cmp elm tmp > 0)) left;
        match x with None => mret (left, right) | Some far => SPLAY_loop fuel elm far right end
  end.

Definition SPLAY (fuel : nat) (elm : Z) : M heap unit :=
  _ ← store (spe_right node) 0;
  _ ← store (spe_left node) 0;
  '(l, r) ← SPLAY_loop fuel elm node node;
  SPLAY_ASSEMBLE l r.

(** ** [SPLAY_MINMAX] *)

Fixpoint SPLAY_MINMAX_loop (fuel : nat) (comp left right : Z) : M heap (Z * Z) :=
  match fuel with
  | 0%nat => out_of_fuel
  | S fuel =>
      if decide (comp < 0) then
        x ← SPLAY_turn SL (λ _, bool_decide (comp < 0)) right;
        match x with None => mret (left, right) | Some far => SPLAY_MINMAX_loop fuel comp left far end
      else if decide (comp > 0) then
        x ← SPLAY_turn SR (λ _, bool_decide (comp > 0)) left;
        match x with None => mret (left, right) | Some far => SPLAY_MINMAX_loop fuel comp far right end
      else SPLAY_MINMAX_loop fuel comp left right
  end.

Definition SPLAY_MINMAX (fuel : nat) (comp : Z) : M heap unit :=
  _ ← store (spe_right node) 0;
  _ ← store (spe_left node) 0;
  '(l, r) ← SPLAY_MINMAX_loop fuel comp node node;
  SPLAY_ASSEMBLE l r.

Definition SPLAY_MIN_MAX (fuel : nat) (val : Z) : M heap Z := _ ← SPLAY_MINMAX fuel val; SPLAY_ROOT.
Definition SPLAY_MIN (fuel : nat) : M heap Z :=
  e ← SPLAY_EMPTY; if e : bool then mret 0 else SPLAY_MIN_MAX fuel SPLAY_NEGINF.
Definition SPLAY_MAX (fuel : nat) : M heap Z :=
  e ← SPLAY_EMPTY; if e : bool then mret 0 else SPLAY_MIN_MAX fuel SPLAY_INF.

(** ** The set operations *)

Definition SPLAY_FIND (fuel : nat) (elm : Z) : M heap Z :=
  e ← SPLAY_EMPTY;
  if e : bool then mret 0 else
  _ ← SPLAY fuel elm;
  r ← SPLAY_ROOT;
  if decide (cmp elm r = 0) then SPLAY_ROOT else mret 0.

Definition SPLAY_INSERT (fuel : nat) (elm : Z) : M heap Z :=
  e ← SPLAY_EMPTY;
  if e : bool then
    _ ← store (spe_right elm) 0;
    _ ← store (spe_left elm) 0;
    _ ← store head elm;
    mret 0
  else
    _ ← SPLAY fuel elm;
    r ← SPLAY_ROOT;
    let comp := cmp elm r in
    if decide (comp < 0) then
      r ← SPLAY_ROOT;
      l ← SPLAY_LEFT r;
      _ ← store (spe_left elm) l;
      r ← SPLAY_ROOT;
      _ ← store (spe_right elm) r;
      r ← SPLAY_ROOT;
      _ ← store (spe_left r) 0;
      _ ← store head elm;
      mret 0
    else if decide (comp > 0) then
      r ← SPLAY_ROOT;
      x ← SPLAY_RIGHT r;
      _ ← store (spe_right elm) x;
      r ← SPLAY_ROOT;
      _ ← store (spe_left elm) r;
      r ← SPLAY_ROOT;
      _ ← store (spe_right r) 0;
      _ ← store head elm;
      mret 0
    else SPLAY_ROOT.

Definition SPLAY_REMOVE (fuel : nat) (elm : Z) : M heap Z :=
  e ← SPLAY_EMPTY;
  if e : bool then mret 0 else
  _ ← SPLAY fuel elm;
  r ← SPLAY_ROOT;
  if decide (cmp elm r = 0) then
    r ← SPLAY_ROOT;
    l ← SPLAY_LEFT r;
    _ ← (if decide (l = 0) then
           r ← SPLAY_ROOT;
           x ← SPLAY_RIGHT r;
           store head x
         else
           r ← SPLAY_ROOT;
           tmp ← SPLAY_RIGHT r;
           r ← SPLAY_ROOT;
           l ← SPLAY_LEFT r;
           _ ← store head l;
           _ ← SPLAY fuel elm;
           r ← SPLAY_ROOT;
           store (spe_right r) tmp);
    mret elm
  else mret 0.

(** [while (SPLAY_LEFT(elm) != NULL) elm = SPLAY_LEFT(elm)] *)
Fixpoint SPLAY_descend (fuel : nat) (elm : Z) : M heap Z :=
  match fuel with
  | 0%nat => out_of_fuel
  | S fuel => l ← SPLAY_LEFT elm; if decide (l = 0) then mret elm else l ← SPLAY_LEFT elm; SPLAY_descend fuel l
  end.

Definition SPLAY_NEXT (fuel : nat) (elm : Z) : M heap Z :=
  _ ← SPLAY fuel elm;
  r ← SPLAY_RIGHT elm;
  if decide (r = 0) then mret 0 else elm ← SPLAY_RIGHT elm; SPLAY_descend fuel elm.

(** The elements a [SPLAY_FOREACH] visits. *)
Fixpoint SPLAY_FOREACH_loop (turns fuel : nat) (x : Z) : M heap (list Z) :=
  match turns with
  | 0%nat => out_of_fuel
  | S turns =>
      if decide (x = 0) then mret [] else
      y ← SPLAY_NEXT fuel x; xs ← SPLAY_FOREACH_loop turns fuel y; mret (x :: xs)
  end.
Definition SPLAY_FOREACH (turns fuel : nat) : M heap (list Z) := x ← SPLAY_MIN fuel; SPLAY_FOREACH_loop turns fuel x.
End splay.
