(* ===== verification/SplayShape.v ===== *)
(** * Splay trees: shapes, cells, and the splay

    While it splays, the code holds three trees: the one at the root and two that
    it has cut off, of smaller elements on the left and of greater ones on the
    right. Each of those is open on its inner side: a spine of nodes, each with
    its outer subtree, whose last inner pointer is not set yet. *)

From S2P Require Import Prelude WordHeap RBTree OrderedSet SplayTree.

Inductive tree := E | T (l : tree) (a : Z) (r : tree).

#[global] Instance splay_tree_eq_dec : EqDecision tree.
Proof. solve_decision. Defined.

(** The node with the subtree [n] on side [d] and [f] on the other. *)
Definition node (d : side) (n : tree) (a : Z) (f : tree) : tree :=
  match d with SL => T n a f | SR => T f a n end.
Definition root (t : tree) : Z := match t with E => 0 | T _ a _ => a end.

Fixpoint inorder (t : tree) : list Z :=
  match t with E => [] | T l a r => inorder l ++ a :: inorder r end.
Fixpoint height (t : tree) : nat := match t with E => 0 | T l _ r => S (height l `max` height r) end.

(** The latest node of a spine first, each with its outer subtree; [d] is the side
    of the inner pointers. *)
Abbreviation spine := (list (Z * tree)).
Fixpoint close (d : side) (s : spine) (t : tree) : tree :=
  match s with [] => t | (a, f) :: s => close d s (node d t a f) end.
Fixpoint gathered (d : side) (s : spine) : list Z :=
  match s with
  | [] => []
  | (a, f) :: s => match d with SL => a :: inorder f ++ gathered d s | SR => gathered d s ++ inorder f ++ [a] end
  end.

Lemma inorder_close d s t :
  inorder (close d s t) = match d with SL => inorder t ++ gathered d s | SR => gathered d s ++ inorder t end.
Proof.
  revert t. induction s as [|[a f] s IH]; intros t; simpl; [destruct d; by rewrite ?app_nil_r|].
  rewrite IH. destruct d; simpl; by rewrite <-!app_assoc.
Qed.

Lemma splay_height_node d n a f : height (node d n a f) = S (height n `max` height f).
Proof. destruct d; simpl; lia. Qed.
Lemma splay_root_node d n a f : root (node d n a f) = a.
Proof. by destruct d. Qed.
Lemma splay_node_of d t : t ≠ E → ∃ n a f, t = node d n a f.
Proof. destruct t as [|l a r]; [done|]. intros _. destruct d; by eexists _, a, _. Qed.
Lemma elem_node d n a f x : x ∈ inorder (node d n a f) ↔ x = a ∨ x ∈ inorder n ∨ x ∈ inorder f.
Proof. destruct d; simpl; rewrite elem_of_app, elem_of_cons; naive_solver. Qed.
Lemma splay_root_in l b r : b ∈ inorder (T l b r).
Proof. simpl. set_solver. Qed.
Lemma height_inorder t : (height t ≤ length (inorder t))%nat.
Proof. induction t; simpl; rewrite ?length_app; simpl; lia. Qed.

(** Rotation keeps the order. *)
Lemma inorder_rotate d nn y nf a f :
  inorder (node d nn y (node d nf a f)) = inorder (node d (node d nn y nf) a f).
Proof. destruct d; simpl; by rewrite <-!app_assoc. Qed.

Lemma splay_node_opp d n a f : node (opp d) f a n = node d n a f.
Proof. by destruct d. Qed.

Section cells.
Context (field head nd : Z).

Abbreviation left := (spe_left field).
Abbreviation right := (spe_right field).
Abbreviation child := (spe_child field).

Fixpoint inner (t : tree) : cells :=
  match t with
  | E => []
  | T l a r => (left a, root l) :: (right a, root r) :: inner l ++ inner r
  end.
Definition tree_cells (t : tree) : cells := (head, root t) :: inner t.
(** The cells of a structure that is in no tree. *)
Definition entry (a l r : Z) : cells := [(left a, l); (right a, r)].

Definition end_of (s : spine) : Z := match s with [] => nd | (a, _) :: _ => a end.
Fixpoint spine_rest (d : side) (s : spine) : cells :=
  match s with
  | [] => []
  | (a, f) :: s => (child (opp d) a, root f) :: (child d (end_of s), a) :: inner f ++ spine_rest d s
  end.
(** A spine whose open pointer holds [v]. *)
Definition spine_cells (d : side) (s : spine) (v : Z) : cells := (child d (end_of s), v) :: spine_rest d s.

Lemma splay_inner_node d n a f :
  inner (node d n a f) ≡ₚ (child d a, root n) :: (child (opp d) a, root f) :: inner n ++ inner f.
Proof. destruct d; simpl; [done|]. solve_Permutation. Qed.

(** Setting the open pointer to a tree closes the spine; it then hangs on [nd]. *)
Lemma close_cells d s t :
  spine_cells d s (root t) ++ inner t ≡ₚ (child d nd, root (close d s t)) :: inner (close d s t).
Proof.
  revert t. induction s as [|[a f] s IH]; intros t; simpl; [done|].
  rewrite <-IH, splay_root_node, splay_inner_node. unfold spine_cells. simpl. solve_Permutation.
Qed.

(** ** One turn of the loop *)

Lemma splay_rotate_spec d nn y nf a f :
  triple (tree_cells (node d (node d nn y nf) a f)) (SPLAY_ROTATE field head (opp d) y) tt
    (tree_cells (node d nn y (node d nf a f))).
Proof.
  unfold tree_cells. rewrite !splay_root_node, !splay_inner_node, !splay_root_node. unfold SPLAY_ROTATE, SPLAY_ROOT, SPLAY_CHILD.
  destruct d; simpl; heap_steps; solve_Permutation.
Qed.

Lemma splay_link_spec d n a f s v :
  triple (tree_cells (node d n a f) ++ spine_cells d s v) (SPLAY_LINK field head d (end_of s)) a
    (tree_cells n ++ spine_cells d ((a, f) :: s) (root n)).
Proof.
  unfold tree_cells, spine_cells. rewrite splay_root_node, splay_inner_node. unfold SPLAY_LINK, SPLAY_ROOT, SPLAY_CHILD.
  cbn [app spine_rest end_of]. heap_steps. solve_Permutation.
Qed.

Definition nonnull (t : tree) : Prop := 0 ∉ inorder t.
Lemma nonnull_root t : nonnull t → t ≠ E → root t ≠ 0.
Proof. unfold nonnull. destruct t; [done|]. simpl. intros H _ ->. apply H. set_solver. Qed.
Lemma nonnull_node d n a f : nonnull (node d n a f) → nonnull n ∧ nonnull f ∧ a ≠ 0.
Proof. unfold nonnull. rewrite elem_node. naive_solver. Qed.

Lemma triple_root {B} t a F (g : Z → M heap B) b Q :
  root t = a → triple (tree_cells t ++ F) (g a) b Q → triple (tree_cells t ++ F) (r ← SPLAY_ROOT head; g r) b Q.
Proof. intros <- Hg. apply (triple_load _ head (root t)); [left|done]. Qed.
Lemma triple_child {B} t d a v F (g : Z → M heap B) b Q :
  (child d a, v) ∈ inner t → triple (tree_cells t ++ F) (g v) b Q →
  triple (tree_cells t ++ F) (c ← SPLAY_CHILD field d a; g c) b Q.
Proof. intros Hin Hg. apply (triple_load _ _ v); [|done]. unfold tree_cells. set_solver. Qed.

(** Rotating and looking whether the new root has a child there. *)
Lemma splay_rotate_check d nn y nf a f :
  nonnull nn →
  triple (tree_cells (node d (node d nn y nf) a f))
    (_ ← SPLAY_ROTATE field head (opp d) y; r ← SPLAY_ROOT head; c ← SPLAY_CHILD field d r; mret (bool_decide (c = 0)))
    (bool_decide (nn = E)) (tree_cells (node d nn y (node d nf a f))).
Proof.
  intros Hnn. eapply triple_bind; [apply splay_rotate_spec|]. cbv beta.
  rewrite <-(app_nil_r (tree_cells (node d nn y _))). eapply (triple_root _ y); [by rewrite splay_root_node|].
  eapply (triple_child _ d y (root nn)); [rewrite splay_inner_node; left|].
  replace (bool_decide (root nn = 0)) with (bool_decide (nn = E)); [by apply triple_ret|].
  apply bool_decide_ext. split; [by intros ->|]. intros H. apply dec_stable. intros Hne. by apply (nonnull_root nn).
Qed.

(** What the turn does with a child [tmp]. *)
Definition turn_rest (d : side) (b : Z → bool) (far tmp : Z) : M heap (option Z) :=
  stop ← (if b tmp then
            _ ← SPLAY_ROTATE field head (opp d) tmp; r ← SPLAY_ROOT head; c ← SPLAY_CHILD field d r;
            mret (bool_decide (c = 0))
          else mret false);
  if stop : bool then mret None else far ← SPLAY_LINK field head d far; mret (Some far).

Lemma splay_turn_start d b nn y nf a f far F x Q :
  y ≠ 0 →
  triple (tree_cells (node d (node d nn y nf) a f) ++ F) (turn_rest d b far y) x Q →
  triple (tree_cells (node d (node d nn y nf) a f) ++ F) (SPLAY_turn field head d b far) x Q.
Proof.
  intros Hy Htr. unfold SPLAY_turn. eapply (triple_root _ a); [by rewrite splay_root_node|]. eapply (triple_child _ d a y).
  { rewrite splay_inner_node, splay_root_node. left. }
  by rewrite decide_False.
Qed.

(** The turn leaves the loop with a root that has no child on side [d], or goes on
    with that child and a longer spine; it has rotated or not. *)
Lemma splay_turn_spec d b n a f s v :
  nonnull (node d n a f) →
  ∃ n' a' f' v', inorder (node d n' a' f') = inorder (node d n a f) ∧ (a' = a ∨ b a' = true) ∧
    (height n' < height (node d n a f))%nat ∧
    triple (tree_cells (node d n a f) ++ spine_cells d s v) (SPLAY_turn field head d b (end_of s))
      (if decide (n' = E) then None else Some a')
      (if decide (n' = E) then tree_cells (node d E a' f') ++ spine_cells d s v'
       else tree_cells n' ++ spine_cells d ((a', f') :: s) v').
Proof.
  intros Hnn. rewrite splay_height_node. apply nonnull_node in Hnn as (Hn & Hf & Ha).
  destruct (decide (n = E)) as [->|Hne].
  { exists E, a, f, v. split_and!; [done|by left|simpl; lia|]. rewrite !decide_True by done.
    unfold SPLAY_turn, SPLAY_ROOT, SPLAY_CHILD, tree_cells. rewrite splay_inner_node, splay_root_node. cbn [app root].
    heap_steps. done. }
  pose proof (nonnull_root n Hn Hne) as Hy. destruct (splay_node_of d n Hne) as (nn & y & nf & ->).
  rewrite splay_root_node in Hy. apply nonnull_node in Hn as (Hnn & Hnf & _).
  destruct (b y) eqn:Eb.
  - exists nn, y, (node d nf a f), (if decide (nn = E) then v else root nn).
    split_and!; [apply inorder_rotate|by right|rewrite splay_height_node; lia|].
    apply splay_turn_start; [done|]. unfold turn_rest. rewrite Eb.
    eapply triple_bind; [apply triple_frame, (splay_rotate_check d nn y nf a f Hnn)|].
    destruct (decide (nn = E)) as [->|Hnne]; [by apply triple_ret|].
    rewrite bool_decide_eq_false_2 by done. eapply triple_bind; [apply splay_link_spec|]. by apply triple_ret.
  - exists (node d nn y nf), a, f, y. split_and!; [done|by left|lia|].
    rewrite !decide_False by (by destruct d). apply splay_turn_start; [done|]. unfold turn_rest. rewrite Eb, ret_bind.
    eapply triple_bind; [apply splay_link_spec|]. apply triple_ret. by rewrite splay_root_node.
Qed.
End cells.
