(* ===== verification/SplaySpec.v ===== *)
(** * Splay trees: what a splay does

    [SPLAY] brings the element equal to the given one to the root, or one of its
    neighbours, and [SPLAY_MINMAX] the first or the last; the order of the elements
    stays. The loop makes the tree at the root lower at every turn. *)

From S2P Require Import Prelude WordHeap OrderedSet RBTree SplayTree SplayShape.

Section splay.
Context (field head nd : Z) (cmp : Z → Z → Z) `{!CmpOrder cmp}.

Abbreviation inner := (inner field).
Abbreviation tree_cells := (tree_cells field head).
Abbreviation entry := (entry field).
Abbreviation end_of := (end_of nd).
Abbreviation spine_cells := (spine_cells field nd).

(** The comparison sends to side [d]. *)
Definition toward (d : side) (c : Z) : Prop := match d with SL => c < 0 | SR => c > 0 end.

#[global] Instance toward_dec d c : Decision (toward d c).
Proof. destruct d; simpl; apply _. Defined.

Lemma sorted_far elm d n a f x :
  sorted cmp (inorder (node d n a f)) → toward d (cmp elm a) → x ∈ inorder f → toward d (cmp elm x).
Proof.
  destruct d; simpl; intros (Hl & Hr & Hlr)%sorted_app Ha Hx; apply sorted_cons in Hr as [Hr Har].
  - apply (cmp_lt_le_trans cmp _ a); [done|]. specialize (Har x Hx). lia.
  - pose proof (Hlr x a Hx ltac:(left)) as Hxa. pose proof (cmp_lt_gt cmp a elm) as Hae.
    pose proof (cmp_lt_le_trans cmp x a elm Hxa ltac:(lia)) as Hxe. apply (cmp_lt_gt cmp) in Hxe. lia.
Qed.

Lemma sorted_near d n a f : sorted cmp (inorder (node d n a f)) → sorted cmp (inorder n).
Proof. destruct d; simpl; intros (Hl & Hr & _)%sorted_app; [done|]. by apply sorted_cons in Hr as [? _]. Qed.

Lemma gathered_toward elm d n a f s :
  sorted cmp (inorder (node d n a f)) → toward d (cmp elm a) →
  (∀ x, x ∈ gathered d s → toward d (cmp elm x)) → ∀ x, x ∈ gathered d ((a, f) :: s) → toward d (cmp elm x).
Proof.
  intros Hs Ha Hg x Hx. assert (x = a ∨ x ∈ inorder f ∨ x ∈ gathered d s) as [->|[Hf|Hgx]]
    by (destruct d; simpl in Hx; set_solver); [done| |by apply Hg].
  by eapply sorted_far.
Qed.

(** ** The loop *)

Definition parted (elm : Z) (l : tree) (a : Z) (r : tree) : Prop :=
  cmp elm a = 0 ∨ (cmp elm a < 0 ∧ l = E) ∨ (cmp elm a > 0 ∧ r = E).

(** The three trees, the spine on side [d] (which hangs by pointers on that side)
    before the other one, and the elements in all of them. *)
Definition state_cells (d : side) (t : tree) (s o : spine) (v w : Z) : cells :=
  tree_cells t ++ spine_cells d s v ++ spine_cells (opp d) o w.
Definition whole (d : side) (t : tree) (s o : spine) : list Z :=
  match d with
  | SL => gathered SR o ++ inorder t ++ gathered SL s
  | SR => gathered SR s ++ inorder t ++ gathered SL o
  end.
Definition kept (elm : Z) (d : side) (s : spine) : Prop := ∀ x, x ∈ gathered d s → toward d (cmp elm x).

Lemma state_cells_opp d t s o v w : state_cells d t s o v w ≡ₚ state_cells (opp d) t o s w v.
Proof. unfold state_cells. destruct d; simpl; solve_Permutation. Qed.
Lemma whole_opp d t s o : whole d t s o = whole (opp d) t o s.
Proof. by destruct d. Qed.

(** [far] is [__right] on the left and [__left] on the right. *)
Definition loop_from (d : side) (fuel : nat) (elm far near : Z) : M heap (Z * Z) :=
  match d with
  | SL => SPLAY_loop field head cmp fuel elm near far
  | SR => SPLAY_loop field head cmp fuel elm far near
  end.
Definition ends (d : side) (far near : Z) : Z * Z := match d with SL => (near, far) | SR => (far, near) end.
Definition beyond (d : side) (elm tmp : Z) : bool :=
  match d with SL => bool_decide (cmp elm tmp < 0) | SR => bool_decide (cmp elm tmp > 0) end.

Lemma test_toward d elm a : beyond d elm a = true → toward d (cmp elm a).
Proof. destruct d; simpl; intros H%bool_decide_eq_true; done. Qed.

Lemma loop_turn d fuel elm n a f s o v w x Q :
  toward d (cmp elm a) →
  triple (state_cells d (node d n a f) s o v w)
    (x ← SPLAY_turn field head d (beyond d elm) (end_of s);
     match x with
     | None => mret (ends d (end_of s) (end_of o))
     | Some far => loop_from d fuel elm far (end_of o)
     end) x Q →
  triple (state_cells d (node d n a f) s o v w) (loop_from d (S fuel) elm (end_of s) (end_of o)) x Q.
Proof.
  intros Hd Htr. unfold state_cells, loop_from in *.
  destruct d; simpl in Hd; (eapply triple_root; [apply splay_root_node|]; cbn zeta).
  - by rewrite decide_False, decide_True by lia.
  - by rewrite !decide_False by lia.
Qed.

(** The loop ends with a root at which the search ends. *)
Definition loop_ends (d : side) (fuel : nat) (elm : Z) (t : tree) (s o : spine) (v w : Z) : Prop :=
  ∃ l a r s' o' v' w',
    triple (state_cells d t s o v w) (loop_from d fuel elm (end_of s) (end_of o)) (ends d (end_of s') (end_of o'))
      (state_cells d (T l a r) s' o' v' w') ∧
    whole d (T l a r) s' o' = whole d t s o ∧ parted elm l a r ∧ kept elm d s' ∧ kept elm (opp d) o'.

Lemma loop_ends_opp d fuel elm t s o v w :
  loop_ends (opp d) fuel elm t o s w v → loop_ends d fuel elm t s o v w.
Proof.
  intros (l & a & r & o' & s' & w' & v' & Htr & Hw & Hp & Ho & Hs).
  exists l, a, r, s', o', v', w'. rewrite opp_opp in Hs. split_and!; [|by rewrite (whole_opp d), Hw, <-whole_opp|done..].
  rewrite (state_cells_opp d), (state_cells_opp d (T l a r)). by destruct d.
Qed.

Lemma whole_link d n a f s o : whole d n ((a, f) :: s) o = whole d (node d n a f) s o.
Proof. destruct d; simpl; by rewrite <-!app_assoc. Qed.
Lemma whole_inorder d t t' s o : inorder t = inorder t' → whole d t s o = whole d t' s o.
Proof. intros E. destruct d; simpl; by rewrite E. Qed.

(** A turn towards [d], and the rest of the loop. *)
Lemma loop_ends_turn d fuel elm n a f s o v w :
  nonnull (node d n a f) → sorted cmp (inorder (node d n a f)) → toward d (cmp elm a) →
  kept elm d s → kept elm (opp d) o →
  (∀ n' a' f' v', n' ≠ E → nonnull n' → sorted cmp (inorder n') → (height n' < height (node d n a f))%nat →
     kept elm d ((a', f') :: s) → loop_ends d fuel elm n' ((a', f') :: s) o v' w) →
  loop_ends d (S fuel) elm (node d n a f) s o v w.
Proof.
  intros Hnn Hs Ha Hks Hko IH.
  destruct (splay_turn_spec field head nd d (beyond d elm) n a f s v Hnn) as (n' & a' & f' & v' & Hin & Ha' & Hh & Htr).
  assert (toward d (cmp elm a')) as Hta by (destruct Ha' as [->|Ha']; [done|by apply test_toward]).
  rewrite <-Hin in Hs. pose proof (gathered_toward elm d n' a' f' s Hs Hta Hks) as Hks'.
  destruct (decide (n' = E)) as [->|Hn'].
  - assert (∃ l r, node d E a' f' = T l a' r ∧ parted elm l a' r) as (l & r & Et & Hp).
    { unfold parted. destruct d; simpl in *; eexists _, _; (split; [done|]); tauto. }
    exists l, a', r, s, o, v', w. rewrite <-Et. split_and!; [|by apply whole_inorder|done..].
    apply loop_turn; [done|]. unfold state_cells. rewrite app_assoc.
    eapply triple_bind; [apply triple_frame, Htr|]. apply triple_ret. by rewrite <-app_assoc.
  - destruct (IH n' a' f' v' Hn') as (l2 & a2 & r2 & s2 & o2 & v2 & w2 & Htr2 & Hw & Hp & Hs2 & Ho2);
      [|by eapply sorted_near|done..|].
    { unfold nonnull in *. rewrite <-Hin, elem_node in Hnn. naive_solver. }
    exists l2, a2, r2, s2, o2, v2, w2. split_and!; [|by rewrite Hw, whole_link; apply whole_inorder|done..].
    apply loop_turn; [done|]. unfold state_cells. rewrite app_assoc.
    eapply triple_bind; [apply triple_frame, Htr|]. cbv beta iota. rewrite <-app_assoc. exact Htr2.
Qed.

Lemma splay_loop_spec d fuel elm t s o v w :
  t ≠ E → nonnull t → sorted cmp (inorder t) → (height t < fuel)%nat → kept elm d s → kept elm (opp d) o →
  loop_ends d fuel elm t s o v w.
Proof.
  revert d t s o v w. induction fuel as [|fuel IH]; intros d t s o v w Hne Hnn Hs Hf Hks Hko; [lia|].
  destruct (splay_node_of d t Hne) as (n & a & f & ->). destruct (decide (cmp elm a = 0)) as [H0|H0].
  - assert (∃ l r, node d n a f = T l a r) as (l & r & Et) by (by destruct d; eexists _, _).
    exists l, a, r, s, o, v, w. rewrite <-Et. split_and!; [|done|by left|done..].
    unfold state_cells. destruct d; (eapply triple_root; [done|]; cbn zeta; rewrite decide_True by done; by apply triple_ret).
  - destruct (decide (toward d (cmp elm a))) as [Hd|Hd].
    + apply loop_ends_turn; [done..|]. intros. apply IH; try done. lia.
    + apply loop_ends_opp. rewrite <-(splay_node_opp d) in *. apply loop_ends_turn; [done|done| |done|by rewrite opp_opp|].
      * destruct d; simpl in *; lia.
      * intros. apply IH; try done; [lia|by rewrite opp_opp].
Qed.
(** ** [SPLAY] *)

(** The cells of a tree and those of [__node]. *)
Abbreviation at_node t x y := (tree_cells t ++ entry nd x y).

Lemma splay_assemble_spec l a r L R v w :
  triple (state_cells SR (T l a r) L R v w) (SPLAY_ASSEMBLE field head nd (end_of L) (end_of R)) tt
    (at_node (T (close SR L l) a (close SL R r)) (root (close SL R r)) (root (close SR L l))).
Proof.
  unfold SPLAY_ASSEMBLE, SPLAY_ROOT, SPLAY_LEFT, SPLAY_RIGHT, state_cells, SplayShape.spine_cells, SplayShape.tree_cells.
  cbn [opp spe_child SplayShape.inner root app]. do 6 heap_step.
  pose proof (close_cells field nd SR L l) as HL. pose proof (close_cells field nd SL R r) as HR.
  unfold SplayShape.spine_cells in HL, HR. cbn [spe_child] in HL, HR.
  match goal with |- triple ?P _ _ _ =>
    assert (P ≡ₚ (head, a) :: (spe_left field a, root l) :: (spe_right field a, root r) ::
      ((spe_right field (end_of L), root l) :: spine_rest field nd SR L) ++ inner l ++
      ((spe_left field (end_of R), root r) :: spine_rest field nd SL R) ++ inner r) as ->
      by (cbn [app]; solve_Permutation)
  end.
  rewrite (app_assoc _ (inner l)), HL, HR. cbn [app].
  do 6 heap_step. unfold SplayShape.entry. cbn [app]. solve_Permutation.
Qed.

(** The root that a splay leaves: equal, or all elements on its near side lie
    beyond [elm]. *)
Definition splayed (elm : Z) (l : tree) (a : Z) (r : tree) : Prop :=
  cmp elm a = 0 ∨ (cmp elm a < 0 ∧ ∀ x, x ∈ inorder l → cmp elm x > 0) ∨
  (cmp elm a > 0 ∧ ∀ x, x ∈ inorder r → cmp elm x < 0).

Lemma splay_spec fuel elm t x y :
  t ≠ E → nonnull t → sorted cmp (inorder t) → (height t < fuel)%nat →
  ∃ l a r x' y', triple (at_node t x y) (SPLAY field head nd cmp fuel elm) tt (at_node (T l a r) x' y') ∧
    inorder (T l a r) = inorder t ∧ splayed elm l a r.
Proof.
  intros Hne Hnn Hs Hf.
  destruct (splay_loop_spec SR fuel elm t [] [] 0 0 Hne Hnn Hs Hf) as (l & a & r & L & R & v & w & Htr & Hw & Hp & HL & HR);
    [by intros z Hz%elem_of_nil..|].
  exists (close SR L l), a, (close SL R r), (root (close SL R r)), (root (close SR L l)). split_and!.
  - unfold SPLAY, SplayShape.entry. do 2 heap_step. eapply (triple_bind _ _ (end_of L, end_of R)).
    + eapply triple_perm; [|done|done|reflexivity|exact Htr]. unfold state_cells, SplayShape.spine_cells. simpl. solve_Permutation.
    + cbv beta iota. apply splay_assemble_spec.
  - unfold whole in Hw. simpl in Hw. rewrite app_nil_r in Hw. rewrite <-Hw. simpl. rewrite !inorder_close.
    by rewrite <-!app_assoc.
  - unfold splayed. rewrite !inorder_close. destruct Hp as [Hp|[[Hp ->]|[Hp ->]]]; [by left|right; left|right; right];
      (split; [done|]); intros z Hz; simpl in Hz; rewrite ?app_nil_r in Hz; [by apply HL|by apply HR].
Qed.

(** ** [SPLAY_MINMAX] *)

Definition minmax_from (d : side) (fuel : nat) (comp far near : Z) : M heap (Z * Z) :=
  match d with
  | SL => SPLAY_MINMAX_loop field head fuel comp near far
  | SR => SPLAY_MINMAX_loop field head fuel comp far near
  end.

Lemma minmax_turn d comp fuel far near :
  toward d comp →
  minmax_from d (S fuel) comp far near =
    (x ← SPLAY_turn field head d (λ _, true) far;
     match x with None => mret (ends d far near) | Some far => minmax_from d fuel comp far near end).
Proof.
  intros Hd. destruct d; simpl in Hd; unfold minmax_from; cbn [SPLAY_MINMAX_loop].
  - by rewrite decide_True, bool_decide_eq_true_2 by lia.
  - rewrite decide_False, decide_True by lia. by rewrite bool_decide_eq_true_2 by lia.
Qed.

Lemma splay_minmax_loop_spec d comp fuel t s v w :
  toward d comp → t ≠ E → nonnull t → (height t < fuel)%nat →
  ∃ a f s' v', triple (state_cells d t s [] v w) (minmax_from d fuel comp (end_of s) nd) (ends d (end_of s') nd)
      (state_cells d (node d E a f) s' [] v' w) ∧
    whole d (node d E a f) s' [] = whole d t s [].
Proof.
  intros Hd. revert t s v. induction fuel as [|fuel IH]; intros t s v Hne Hnn Hf; [lia|].
  destruct (splay_node_of d t Hne) as (n & a & f & ->).
  destruct (splay_turn_spec field head nd d (λ _, true) n a f s v Hnn) as (n' & a' & f' & v' & Hin & _ & Hh & Htr).
  rewrite minmax_turn by done. destruct (decide (n' = E)) as [->|Hn'].
  - exists a', f', s, v'. split; [|by apply whole_inorder]. unfold state_cells. rewrite !app_assoc.
    eapply triple_bind; [apply triple_frame, Htr|]. by apply triple_ret.
  - destruct (IH n' ((a', f') :: s) v' Hn') as (a2 & f2 & s2 & v2 & Htr2 & Hw); [|lia|].
    { unfold nonnull in *. rewrite <-Hin, elem_node in Hnn. naive_solver. }
    exists a2, f2, s2, v2. split; [|by rewrite Hw, whole_link; apply whole_inorder].
    unfold state_cells. rewrite !app_assoc. eapply triple_bind; [apply triple_frame, Htr|]. cbv beta iota.
    unfold state_cells in Htr2. rewrite !app_assoc in Htr2. exact Htr2.
Qed.

Lemma assemble_end d a f s v w :
  ∃ x y, triple (state_cells d (node d E a f) s [] v w)
    (let '(l, r) := ends d (end_of s) nd in SPLAY_ASSEMBLE field head nd l r) tt
    (at_node (node d E a (close d s f)) x y).
Proof.
  destruct d.
  - eexists _, _. rewrite state_cells_opp. exact (splay_assemble_spec E a f [] s w v).
  - eexists _, _. exact (splay_assemble_spec f a E s [] v w).
Qed.

Lemma splay_minmax_spec d comp fuel t x y :
  toward d comp → t ≠ E → nonnull t → (height t < fuel)%nat →
  ∃ a f x' y', triple (at_node t x y) (SPLAY_MINMAX field head nd fuel comp) tt (at_node (node d E a f) x' y') ∧
    inorder (node d E a f) = inorder t.
Proof.
  intros Hd Hne Hnn Hf.
  destruct (splay_minmax_loop_spec d comp fuel t [] 0 0 Hd Hne Hnn Hf) as (a & f & s & v & Htr & Hw).
  destruct (assemble_end d a f s v 0) as (x' & y' & Hend).
  exists a, (close d s f), x', y'. split.
  - unfold SPLAY_MINMAX, SplayShape.entry. do 2 heap_step. eapply triple_bind; [|exact Hend].
    change (SPLAY_MINMAX_loop field head fuel comp nd nd) with (minmax_from SL fuel comp nd nd).
    replace (minmax_from SL fuel comp nd nd) with (minmax_from d fuel comp nd nd) by by destruct d.
    eapply triple_perm; [|done|done|reflexivity|exact Htr].
    unfold state_cells, SplayShape.spine_cells. destruct d; simpl; solve_Permutation.
  - transitivity (whole d (node d E a f) s []).
    + destruct d; simpl; rewrite inorder_close; simpl; by rewrite ?app_nil_r, <-?app_assoc.
    + rewrite Hw. destruct d; simpl; by rewrite ?app_nil_r.
Qed.
End splay.
