(* ===== verification/SplaySet.v ===== *)
(** * Splay trees implement ordered sets

    Every operation changes the shape of the tree, by a splay; the elements and
    their order change as the operation on the sorted list says. *)

From S2P Require Import Prelude WordHeap OrderedSet RBTree SplayTree SplayShape SplaySpec.

Section splay.
Context (field head nd : Z) (cmp : Z → Z → Z) `{!CmpOrder cmp}.

Abbreviation tree_cells := (tree_cells field head).
Abbreviation entry := (entry field).
Abbreviation at_node t x y := (tree_cells t ++ entry nd x y).

(** A search tree; it need not be balanced. *)
Definition splay_tree (t : tree) : Prop := sorted cmp (inorder t) ∧ nonnull t.

Lemma splay_tree_inorder t t' : inorder t = inorder t' → splay_tree t → splay_tree t'.
Proof. unfold splay_tree, nonnull. by intros ->. Qed.

(** With the cells [P0] besides the tree, the program returns [a] and leaves a tree
    with the elements [ys] and cells of the kind [K]. *)
Definition leads {A} (P0 : cells) (t : tree) (f : M heap A) (a : A) (ys : list Z) (K : cells → Prop) : Prop :=
  ∀ x y, ∃ t' x' y' Q0,
    triple (at_node t x y ++ P0) f a (at_node t' x' y' ++ Q0) ∧ splay_tree t' ∧ inorder t' = ys ∧ K Q0.

(** The operations that keep the elements. *)
Abbreviation answers t f a := (leads [] t f a (inorder t) (λ Q, Q = [])).

Lemma leads_root {A} P0 t (g : Z → M heap A) a ys K :
  leads P0 t (g (root t)) a ys K → leads P0 t (r ← SPLAY_ROOT head; g r) a ys K.
Proof.
  intros Hg x y. destruct (Hg x y) as (t' & x' & y' & Q0 & Htr & H). exists t', x', y', Q0. split; [|done].
  rewrite <-app_assoc. eapply triple_root; [done|]. by rewrite app_assoc.
Qed.

Lemma leads_ret {A} P0 t (a : A) (K : cells → Prop) : splay_tree t → K P0 → leads P0 t (mret a) a (inorder t) K.
Proof. intros Ht HK x y. exists t, x, y, P0. split_and!; [by apply triple_ret|done..]. Qed.

Lemma leads_empty {A} P0 t (g : bool → M heap A) a ys K :
  nonnull t → leads P0 t (g (bool_decide (t = E))) a ys K → leads P0 t (e ← SPLAY_EMPTY head; g e) a ys K.
Proof.
  intros Hnn Hg. unfold SPLAY_EMPTY. intros x y.
  destruct (leads_root P0 t (λ r, g (bool_decide (r = 0))) a ys K) with x y as (t' & x' & y' & Q0 & Htr & H).
  - enough (bool_decide (root t = 0) = bool_decide (t = E)) as -> by done.
    apply bool_decide_ext. split; [|by intros ->]. intros Hr. apply dec_stable. intros Hne. by apply (nonnull_root t).
  - exists t', x', y', Q0. split; [|done]. by apply triple_assoc.
Qed.

Lemma splayed_other elm l b r x :
  splay_tree (T l b r) → splayed cmp elm l b r → cmp elm b ≠ 0 → x ∈ inorder (T l b r) → cmp elm x ≠ 0.
Proof.
  intros [Hs _] Hsp Hb. simpl in *. intros [Hx|[->|Hx]%elem_of_cons]%elem_of_app; [|done|].
  - destruct Hsp as [?|[[Hc Hl]|[Hc Hl]]]; [done|specialize (Hl x Hx); lia|].
    pose proof (sorted_far cmp elm SR r b l x Hs Hc Hx). simpl in *. lia.
  - destruct Hsp as [?|[[Hc Hl]|[Hc Hl]]]; [done| |specialize (Hl x Hx); lia].
    pose proof (sorted_far cmp elm SL l b r x Hs Hc Hx). simpl in *. lia.
Qed.

Lemma splay_found t elm l b r :
  inorder (T l b r) = inorder t → splay_tree (T l b r) → splayed cmp elm l b r → os_find cmp elm (inorder t) ≠ 0 →
  cmp elm b = 0 ∧ os_find cmp elm (inorder t) = b.
Proof.
  intros <- Htb Hsp Hf. destruct (decide (cmp elm b = 0)) as [Hb|Hb].
  - split; [done|]. apply os_find_equal; [done|apply Htb|apply splay_root_in|done].
  - destruct Hf. apply os_find_absent. intros z. by eapply splayed_other.
Qed.

Section ops.
Context (fuel : nat) (t : tree).
Hypothesis Ht : splay_tree t.
Hypothesis Hfuel : (length (inorder t) < fuel)%nat.

(** A program that begins with a splay. *)
Lemma leads_splay {A} P0 elm (f : M heap A) a ys K :
  t ≠ E →
  (∀ l b r, inorder (T l b r) = inorder t → splay_tree (T l b r) → splayed cmp elm l b r →
    leads P0 (T l b r) f a ys K) →
  leads P0 t (_ ← SPLAY field head nd cmp fuel elm; f) a ys K.
Proof.
  intros Hne Hf x y. destruct Ht as [Hs Hnn].
  destruct (splay_spec field head nd cmp fuel elm t x y Hne Hnn Hs) as (l & b & r & x1 & y1 & Htr & Hin & Hsp).
  { pose proof (height_inorder t). lia. }
  destruct (Hf l b r Hin) with x1 y1 as (t' & x' & y' & Q0 & Htr' & H); [by eapply splay_tree_inorder|done|].
  exists t', x', y', Q0. split; [|done]. eapply triple_bind; [apply triple_frame; exact Htr|exact Htr'].
Qed.

Lemma splay_find_spec elm : answers t (SPLAY_FIND field head nd cmp fuel elm) (os_find cmp elm (inorder t)).
Proof.
  apply leads_empty; [apply Ht|]. case_bool_decide as Hne.
  { rewrite Hne. by apply (leads_ret [] E 0); [rewrite <-Hne|]. }
  apply leads_splay; [done|]. intros l b r <- Htb Hsp. apply leads_root. cbn [root].
  destruct (decide (cmp elm b = 0)) as [Hb|Hb].
  - rewrite (os_find_equal cmp elm b); [|apply Htb|apply splay_root_in|done]. intros x y. exists (T l b r), x, y, [].
    split_and!; [|done..]. rewrite <-!app_assoc. apply (triple_load_end _ head b); [left|done].
  - rewrite os_find_absent; [by apply leads_ret|]. intros z. by eapply splayed_other.
Qed.

Lemma found_nonempty elm : os_find cmp elm (inorder t) ≠ 0 → t ≠ E.
Proof. intros Hf E. by rewrite E in Hf. Qed.

(** ** Insertion *)

Lemma splay_insert_present elm :
  os_find cmp elm (inorder t) ≠ 0 →
  answers t (SPLAY_INSERT field head nd cmp fuel elm) (os_find cmp elm (inorder t)).
Proof.
  intros Hf. pose proof (found_nonempty elm Hf) as Hne. apply leads_empty; [apply Ht|].
  rewrite bool_decide_eq_false_2 by done. apply leads_splay; [done|]. intros l b r Hin Htb Hsp.
  destruct (splay_found t elm l b r Hin Htb Hsp Hf) as [Hb Hfind]. apply leads_root. cbn [root].
  rewrite !decide_False by lia. intros x y. exists (T l b r), x, y, []. split_and!; [|done..].
  rewrite <-!app_assoc, Hfind. apply (triple_load_end _ head b); [left|done].
Qed.

(** What the new root takes from the old one. *)
Lemma splayed_insert elm l b r :
  splay_tree (T l b r) → splayed cmp elm l b r → elm ≠ 0 → cmp elm b ≠ 0 →
  let t' := if decide (cmp elm b < 0) then T l elm (T E b r) else T (T l b E) elm r in
  splay_tree t' ∧ inorder t' = os_insert cmp elm (inorder (T l b r)).
Proof.
  intros [Hs Hnn] Hsp He Hb t'.
  assert (∃ xs ys, inorder (T l b r) = xs ++ ys ∧ inorder t' = xs ++ elm :: ys ∧
    Forall (λ x, cmp elm x > 0) xs ∧ Forall (λ x, cmp elm x < 0) ys) as (xs & ys & E1 & E2 & Hx & Hy).
  { subst t'. destruct Hsp as [?|[[Hc Hl]|[Hc Hl]]]; [done|..].
    - rewrite decide_True by done. exists (inorder l), (b :: inorder r). split_and!; [done..|by apply Forall_forall|].
      constructor; [done|]. apply Forall_forall. intros x Hxr. by apply (sorted_far cmp elm SL l b r x Hs Hc).
    - rewrite decide_False by lia. exists (inorder l ++ [b]), (inorder r). simpl. rewrite <-!app_assoc.
      split_and!; [done..| |by apply Forall_forall]. apply Forall_app. split; [|by repeat constructor].
      apply Forall_forall. intros x Hxl. by apply (sorted_far cmp elm SR r b l x Hs Hc). }
  unfold splay_tree, nonnull in *. rewrite E1 in Hs, Hnn. rewrite E1, E2, os_insert_app by done.
  split_and!; [by apply sorted_insert|set_solver|done].
Qed.

Lemma splay_insert_absent elm u v :
  elm ≠ 0 → (∀ x, x ∈ inorder t → cmp elm x ≠ 0) →
  leads (entry elm u v) t (SPLAY_INSERT field head nd cmp fuel elm) 0 (os_insert cmp elm (inorder t)) (λ Q, Q = []).
Proof.
  intros He Hno. apply leads_empty; [apply Ht|]. case_bool_decide as Hne.
  - rewrite Hne. intros x y. exists (T E elm E), x, y, []. split_and!; [| |done..].
    + unfold SplayShape.entry, SplayShape.tree_cells. cbn [app root SplayShape.inner]. heap_steps. solve_Permutation.
    + split; [repeat constructor|]. unfold nonnull. simpl. set_solver.
  - apply leads_splay; [done|]. intros l b r Hin Htb Hsp. apply leads_root. cbn [root]. rewrite <-Hin in Hno |- *.
    pose proof (Hno b (splay_root_in l b r)) as Hb.
    destruct (splayed_insert elm l b r Htb Hsp He Hb) as [Ht' Hin']. intros x y.
    eexists _, x, y, []. split_and!; [|exact Ht'|exact Hin'|done].
    unfold SPLAY_ROOT, SPLAY_LEFT, SPLAY_RIGHT, SplayShape.entry, SplayShape.tree_cells.
    destruct (decide (cmp elm b < 0)); [|rewrite decide_True by lia]; cbn [app root SplayShape.inner]; heap_steps; solve_Permutation.
Qed.

(** ** Removal *)

(** The left subtree, splayed, has no element on the right of its root. *)
Lemma splayed_left elm l b r l2 a2 r2 :
  splay_tree (T l b r) → cmp elm b = 0 → inorder (T l2 a2 r2) = inorder l → splayed cmp elm l2 a2 r2 → r2 = E.
Proof.
  intros [Hs _] Hb Hin Hsp. simpl in Hs. apply (sorted_app cmp) in Hs as (_ & _ & Hlt).
  assert (∀ x, x ∈ inorder l → cmp elm x > 0) as Hgt.
  { intros x Hx. specialize (Hlt x b Hx ltac:(left)). apply cmp_eq_flip in Hb; [|done].
    pose proof (cmp_lt_le_trans cmp x b elm Hlt ltac:(lia)) as Hxe. apply (cmp_lt_gt cmp) in Hxe. lia. }
  rewrite <-Hin in Hgt. pose proof (Hgt a2 (splay_root_in l2 a2 r2)) as Ha.
  destruct Hsp as [?|[[? _]|[_ Hr]]]; [lia|lia|]. destruct r2 as [|l3 a3 r3]; [done|].
  specialize (Hr a3 (splay_root_in _ _ _)). specialize (Hgt a3). simpl in Hgt. rewrite !elem_of_app, !elem_of_cons, !elem_of_app, !elem_of_cons in Hgt.
  naive_solver lia.
Qed.

(** An element equal to the argument is removed; the argument is returned. *)
Lemma splay_remove_spec elm :
  os_find cmp elm (inorder t) ≠ 0 →
  leads [] t (SPLAY_REMOVE field head nd cmp fuel elm) elm (os_remove (os_find cmp elm (inorder t)) (inorder t))
    (λ Q, ∃ u v, Q = entry (os_find cmp elm (inorder t)) u v).
Proof.
  intros Hf. pose proof (found_nonempty elm Hf) as Hne. apply leads_empty; [apply Ht|].
  rewrite bool_decide_eq_false_2 by done. apply leads_splay; [done|]. intros l b r Hin Htb Hsp.
  destruct (splay_found t elm l b r Hin Htb Hsp Hf) as [Hb ->].
  pose proof (sorted_NoDup cmp _ (proj1 Htb)) as Hnd.
  assert (os_remove b (inorder t) = inorder l ++ inorder r) as -> by (rewrite <-Hin; exact (os_remove_split _ _ _ Hnd)).
  destruct Htb as [Hs Hnn]. pose proof Hs as Hs'. cbn [inorder] in Hs. apply sorted_app in Hs as (Hsl & Hsr & Hlr).
  apply sorted_cons in Hsr as [Hsr _].
  assert (splay_tree l) as Hl by (split; [done|unfold nonnull in *; set_solver]).
  intros x y. destruct (decide (l = E)) as [->|Hle].
  - exists r, x, y, (entry b 0 (root r)). split_and!; [|split; [done|unfold nonnull in *; set_solver]|done|by eexists _, _].
    unfold SPLAY_ROOT, SPLAY_LEFT, SPLAY_RIGHT, SplayShape.entry, SplayShape.tree_cells.
    cbn [app root SplayShape.inner]. heap_steps. solve_Permutation.
  - pose proof (nonnull_root l (proj2 Hl) Hle) as Hlr0.
    destruct (splay_spec field head nd cmp fuel elm l x y Hle (proj2 Hl) Hsl) as (l2 & a2 & r2 & x' & y' & Htr & Hin2 & Hsp2).
    { pose proof (height_inorder l). rewrite <-Hin in Hfuel. simpl in Hfuel. rewrite length_app in Hfuel. lia. }
    pose proof (splayed_left elm l b r l2 a2 r2 (conj Hs' Hnn) Hb Hin2 Hsp2) as ->.
    exists (T l2 a2 r), x', y', (entry b (root l) (root r)).
    assert (inorder (T l2 a2 r) = inorder l ++ inorder r) as Hin3 by (rewrite <-Hin2; simpl; by rewrite <-app_assoc).
    split_and!; [| |done|by eexists _, _].
    + unfold SPLAY_ROOT, SPLAY_LEFT, SPLAY_RIGHT, SplayShape.entry, SplayShape.tree_cells.
      unfold SplayShape.entry, SplayShape.tree_cells in Htr.
      cbn [app root SplayShape.inner]. heap_steps. heap_call Htr. cbn [app root SplayShape.inner]. heap_steps. solve_Permutation.
    + split; [|unfold nonnull in *; rewrite Hin3; set_solver]. rewrite Hin3. apply (sorted_app cmp).
      split_and!; [done..|]. intros; apply Hlr; set_solver.
Qed.

(** ** Walking *)

Lemma splay_descend_spec n s :
  nonnull s → s ≠ E → (height s ≤ n)%nat →
  triple (inner field s) (SPLAY_descend field n (root s)) (hd 0 (inorder s)) (inner field s).
Proof.
  revert s. induction n as [|n IH]; intros [|l a r] Hnn Hne Hh; try done; cbn [height] in Hh; [lia|].
  cbn [SPLAY_descend SplayShape.inner inorder root]. unfold SPLAY_LEFT. heap_step.
  destruct (decide (l = E)) as [->|Hl]; [by heap_steps|].
  assert (nonnull l) as Hnl by (unfold nonnull in *; set_solver).
  pose proof (nonnull_root l Hnl Hl). heap_step. heap_step.
  replace (hd 0 (inorder l ++ a :: inorder r)) with (hd 0 (inorder l)) by (destruct l; [done|]; simpl; by destruct (inorder l1)).
  heap_call (IH l Hnl Hl ltac:(lia)). solve_Permutation.
Qed.

Lemma splay_next_spec elm :
  elm ∈ inorder t → answers t (SPLAY_NEXT field head nd cmp fuel elm) (behind elm (inorder t)).
Proof.
  intros He. destruct Ht as [Hs Hnn]. pose proof (cmp_refl cmp elm) as Hee.
  pose proof (os_find_equal cmp elm elm _ Hs He Hee) as Hfe.
  assert (elm ≠ 0) as He0 by (by intros ->).
  apply leads_splay; [by intros ->; apply elem_of_nil in He|]. intros l b r Hin Htb Hsp.
  destruct (splay_found t elm l b r Hin Htb Hsp) as [Hb Hfb]; [by rewrite Hfe|]. assert (b = elm) as -> by congruence.
  pose proof (sorted_NoDup cmp _ (proj1 Htb)) as Hnd. simpl in Hnd. rewrite <-Hin. cbn [inorder].
  rewrite behind_split by (apply NoDup_app in Hnd as (_ & Hd & _); intros Hl; by apply (Hd elm Hl); left).
  intros x y. exists (T l elm r), x, y, []. split_and!; [|done..].
  unfold SPLAY_RIGHT, SplayShape.tree_cells. cbn [app root SplayShape.inner]. heap_step.
  assert (nonnull r) as Hnr by (destruct Htb as [_ Hn]; unfold nonnull in *; simpl in Hn; set_solver).
  destruct (decide (r = E)) as [->|Hr]; [by heap_steps|]. pose proof (nonnull_root r Hnr Hr). do 2 heap_step.
  assert (height r ≤ fuel)%nat as Hh.
  { pose proof (height_inorder r). rewrite <-Hin in Hfuel. simpl in Hfuel. rewrite length_app in Hfuel. simpl in Hfuel. lia. }
  heap_call (splay_descend_spec fuel r Hnr Hr Hh). solve_Permutation.
Qed.

Lemma leads_minmax {A} d comp (f : M heap A) a :
  t ≠ E → toward d comp →
  (∀ b g, inorder (node d E b g) = inorder t → splay_tree (node d E b g) → answers (node d E b g) f a) →
  answers t (_ ← SPLAY_MINMAX field head nd fuel comp; f) a.
Proof.
  intros Hne Hd Hf x y. destruct Ht as [Hs Hnn].
  destruct (splay_minmax_spec field head nd d comp fuel t x y Hd Hne Hnn) as (b & g & x1 & y1 & Htr & Hin).
  { pose proof (height_inorder t). lia. }
  destruct (Hf b g Hin) with x1 y1 as (t' & x' & y' & Q0 & Htr' & Ht' & Hin' & HQ); [by eapply splay_tree_inorder|].
  exists t', x', y', Q0. split_and!; [|done|by rewrite Hin'|done]. eapply triple_bind; [apply triple_frame; exact Htr|exact Htr'].
Qed.

Lemma splay_minmax_root d comp :
  t ≠ E → toward d comp →
  answers t (SPLAY_MIN_MAX field head nd fuel comp) (match d with SL => hd 0 (inorder t) | SR => List.last (inorder t) 0 end).
Proof.
  intros Hne Hd. apply (leads_minmax d); [done..|]. intros b g <- Htb x y.
  exists (node d E b g), x, y, []. split_and!; [|done..].
  rewrite <-!app_assoc. apply (triple_load_end _ head); [|done].
  unfold SplayShape.tree_cells. rewrite splay_root_node. destruct d; simpl; rewrite ?List.last_last; left.
Qed.

Lemma splay_min_spec :
  answers t (SPLAY_MIN field head nd fuel) (hd 0 (inorder t)) ∧
  answers t (SPLAY_MAX field head nd fuel) (List.last (inorder t) 0).
Proof.
  split; (apply leads_empty; [apply Ht|]); (case_bool_decide as Hne;
    [rewrite Hne; by apply (leads_ret [] E 0); [rewrite <-Hne|]|]).
  - by apply (splay_minmax_root SL).
  - by apply (splay_minmax_root SR).
Qed.
End ops.

(** A call after another. *)
Lemma leads_bind {A B} t (f : M heap A) a (g : A → M heap B) b ys K :
  answers t f a → (∀ t', inorder t' = inorder t → splay_tree t' → leads [] t' (g a) b ys K) →
  leads [] t (f ≫= g) b ys K.
Proof.
  intros Hf Hg x y. destruct (Hf x y) as (t1 & x1 & y1 & Q1 & Htr1 & Ht1 & Hin1 & ->).
  destruct (Hg t1 Hin1 Ht1 x1 y1) as (t2 & x2 & y2 & Q2 & Htr2 & H2). exists t2, x2, y2, Q2. split; [|done].
  by eapply triple_bind.
Qed.

Lemma splay_foreach_loop_spec fuel turns t xs ys :
  splay_tree t → (length (inorder t) < fuel)%nat → inorder t = xs ++ ys → (length ys < turns)%nat →
  answers t (SPLAY_FOREACH_loop field head nd cmp turns fuel (hd 0 ys)) ys.
Proof.
  intros Ht Hfuel. revert xs turns t Ht Hfuel. induction ys as [|y ys IH]; intros xs [|turns] t Ht Hfuel Hin Hf; simpl in Hf; try lia;
    cbn [SPLAY_FOREACH_loop hd].
  - rewrite decide_True by done. by apply leads_ret.
  - assert (y ≠ 0) as Hy by (intros ->; apply (proj2 Ht); rewrite Hin; set_solver).
    rewrite decide_False by done. eapply leads_bind; [apply splay_next_spec; [done..|rewrite Hin; set_solver]|].
    intros t1 Hin1 Ht1. rewrite Hin, behind_split.
    2: { pose proof (sorted_NoDup cmp _ (proj1 Ht)) as Hnd. rewrite Hin in Hnd.
         apply NoDup_app in Hnd as (_ & Hd & _). intros Hx. by apply (Hd y Hx); left. }
    rewrite <-Hin, <-Hin1. eapply leads_bind; [apply (IH (xs ++ [y]) turns); [done|by rewrite Hin1|by rewrite Hin1, Hin, <-app_assoc|lia]|].
    intros t2 Hin2 Ht2. rewrite <-Hin2. by apply leads_ret.
Qed.

Lemma splay_foreach_spec fuel turns t :
  splay_tree t → (length (inorder t) < fuel)%nat → (length (inorder t) < turns)%nat →
  answers t (SPLAY_FOREACH field head nd cmp turns fuel) (inorder t).
Proof.
  intros Ht Hfuel Hturns. eapply leads_bind; [by apply splay_min_spec|]. intros t1 Hin1 Ht1.
  rewrite <-Hin1. by apply (splay_foreach_loop_spec _ _ _ []); rewrite ?Hin1.
Qed.

(** ** Programs that use a splay tree *)

(** The macro a call stands for; there are none for the others. *)
Definition splay_call (turns fuel : nat) (op : set_op) : M heap (list Z) :=
  match op with
  | OpInsert elm => a ← SPLAY_INSERT field head nd cmp fuel elm; mret [a]
  | OpRemove elm => a ← SPLAY_REMOVE field head nd cmp fuel elm; mret [a]
  | OpFind elm => a ← SPLAY_FIND field head nd cmp fuel elm; mret [a]
  | OpMin => a ← SPLAY_MIN field head nd fuel; mret [a]
  | OpMax => a ← SPLAY_MAX field head nd fuel; mret [a]
  | OpNext elm => a ← SPLAY_NEXT field head nd cmp fuel elm; mret [a]
  | OpForeach => SPLAY_FOREACH field head nd cmp turns fuel
  | _ => out_of_fuel
  end.
Definition splay_supports (op : set_op) : bool :=
  match op with OpNfind _ | OpPrev _ | OpForeachReverse => false | _ => true end.

(** Nodes outside the tree: an address and the values of the two members. *)
Definition spare_cells (free : list (Z * (Z * Z))) : cells := concat (map (λ '(a, (l, r)), entry a l r) free).

(** The cells [P] are a tree with the elements [xs], [__node], and the other nodes
    of [pool]. *)
Definition represents (pool xs : list Z) (P : cells) : Prop :=
  ∃ t free x y, splay_tree t ∧ inorder t = xs ∧ xs ++ free.*1 ≡ₚ pool ∧ P = at_node t x y ++ spare_cells free.

(** From a specified program to a call that keeps the representation. *)
Lemma leads_represents {A} pool P0 free rest t (f : M heap A) a ys K x y :
  leads P0 t f a ys K → spare_cells free ≡ₚ P0 ++ spare_cells rest →
  (∀ Q, K Q → ∃ e, Q = spare_cells e ∧ ys ++ e.*1 ++ rest.*1 ≡ₚ pool) →
  ∃ P', triple (at_node t x y ++ spare_cells free) f a P' ∧ represents pool ys P'.
Proof.
  intros Hf Hfree HK. destruct (Hf x y) as (t' & x' & y' & Q & Htr & Ht' & Hin & HQ).
  destruct (HK Q HQ) as (e & -> & Hpool). exists (at_node t' x' y' ++ spare_cells (e ++ rest)). split.
  - rewrite Hfree. unfold spare_cells at 2. rewrite map_app, concat_app, !app_assoc.
    apply triple_frame. by rewrite <-!app_assoc in *.
  - exists t', (e ++ rest), x', y'. split_and!; [done|done|by rewrite fmap_app|done].
Qed.

Lemma call_ret P (f : M heap Z) a (R : cells → Prop) :
  (∃ P', triple P f a P' ∧ R P') → ∃ P', triple P (a ← f; mret [a]) [a] P' ∧ R P'.
Proof. intros (P' & Htr & HR). exists P'. split; [|done]. eapply triple_bind; [exact Htr|]. by apply triple_ret. Qed.

Lemma answers_represents {A} pool t (f : M heap A) a free x y :
  answers t f a → inorder t ++ free.*1 ≡ₚ pool →
  ∃ P', triple (at_node t x y ++ spare_cells free) f a P' ∧ represents pool (inorder t) P'.
Proof. intros Hf Hpool. eapply (leads_represents pool [] free free); [exact Hf|done|]. intros Q ->. by exists []. Qed.

Lemma splay_insert_represents pool t free x y e :
  0 ∉ pool → splay_tree t → inorder t ++ free.*1 ≡ₚ pool → e ∈ pool →
  ∃ P', triple (at_node t x y ++ spare_cells free)
      (splay_call (S (length pool)) (S (length pool)) (OpInsert e)) (os_call cmp (OpInsert e) (inorder t)).1 P' ∧
    represents pool (os_call cmp (OpInsert e) (inorder t)).2 P'.
Proof.
  intros H0 Ht Hpool He. assert (length (inorder t) < S (length pool))%nat as Hlen by (rewrite <-Hpool, length_app; lia).
  cbn [splay_call os_call]. destruct (decide (os_find cmp e (inorder t) = 0)) as [Hnone|Hsome]; cbn [fst snd]; cycle 1.
  { apply call_ret, answers_represents; [by apply splay_insert_present|done]. }
  pose proof (os_find_none cmp e _ (proj2 Ht) Hnone) as Hno.
  assert (e ∉ inorder t) as Hex by (intros Hx; apply (Hno e Hx), (cmp_refl cmp)).
  assert (e ∈ free.*1) as Hfree by (rewrite <-Hpool in He; set_solver).
  apply list_elem_of_fmap in Hfree as ([e' [u v]] & Ee & Hfree). simpl in Ee. subst e'.
  apply elem_of_Permutation in Hfree as (rest & Hfree).
  apply call_ret. eapply (leads_represents pool (entry e u v) free rest).
  - apply splay_insert_absent; [done|done|by intros ->|done].
  - unfold spare_cells. by rewrite Hfree.
  - intros Q ->. exists []. split; [done|]. rewrite os_insert_perm by done. rewrite <-Hpool, Hfree. simpl. solve_Permutation.
Qed.

Lemma splay_remove_represents pool t free x y e :
  splay_tree t → inorder t ++ free.*1 ≡ₚ pool → e ∈ inorder t →
  ∃ P', triple (at_node t x y ++ spare_cells free)
      (splay_call (S (length pool)) (S (length pool)) (OpRemove e)) [e] P' ∧
    represents pool (os_remove e (inorder t)) P'.
Proof.
  intros Ht Hpool He. assert (length (inorder t) < S (length pool))%nat as Hlen by (rewrite <-Hpool, length_app; lia).
  pose proof (os_find_equal cmp e e _ (proj1 Ht) He (cmp_refl cmp e)) as Hfe.
  assert (os_find cmp e (inorder t) ≠ 0) as Hne by (rewrite Hfe; intros ->; by apply (proj2 Ht)).
  pose proof (splay_remove_spec (S (length pool)) t Ht Hlen e Hne) as Hrem. rewrite Hfe in Hrem.
  apply call_ret. eapply (leads_represents pool [] free free); [exact Hrem|done|].
  intros Q (u & v & ->). exists [(e, (u, v))]. split; [done|].
  rewrite <-Hpool. simpl. pose proof (sorted_NoDup cmp _ (proj1 Ht)) as Hnd.
  apply list_elem_of_split in He as (ys & zs & E). rewrite E in *. rewrite os_remove_split by done. solve_Permutation.
Qed.

(** Splay trees are an implementation of ordered sets. *)
#[global] Instance splay_ordered_set pool :
  NonNull pool →
  OrderedSet cmp pool (splay_call (S (length pool)) (S (length pool))) splay_supports (represents pool).
Proof.
  intros H0 op xs P (t & free & x & y & Ht & <- & Hpool & ->) Hok Hsup.
  assert (length (inorder t) < S (length pool))%nat as Hlen by (rewrite <-Hpool, length_app; lia).
  destruct op as [e|e|e|e| | |e|e| |]; try done; cbn [os_call fst snd].
  - by apply splay_insert_represents.
  - by apply splay_remove_represents.
  - apply call_ret, answers_represents; [by apply splay_find_spec|done].
  - apply call_ret, answers_represents; [by apply splay_min_spec|done].
  - apply call_ret, answers_represents; [by apply splay_min_spec|done].
  - apply call_ret, answers_represents; [by apply splay_next_spec|done].
  - apply answers_represents; [by apply splay_foreach_spec|done].
Qed.
End splay.

(** ** Properties *)

(** C19: splay trees are ordered sets, the same as red-black trees: from an empty
    head and nodes with any contents, whatever insertions, removals, searches,
    steps and walks a program calls, each call returns what the operation on the
    sorted list of the elements returns, although every call reshapes the tree;
    every loop ends within one turn per element and one more; at the end the
    cells are a search tree with the list's elements and the nodes outside it. *)
Theorem splay_trees_are_ordered_sets (field head nd v x y : Z) (cmp : Z → Z → Z) `{!CmpOrder cmp}
    (nodes : list (Z * (Z * Z))) (ops : list set_op)
    (Hnull : 0 ∉ nodes.*1) (Hok : ops_ok cmp nodes.*1 ops []) (Hsup : forallb splay_supports ops = true) :
  ∃ Q,
    triple ((head, v) :: entry field nd x y ++ spare_cells field nodes)
      (_ ← SPLAY_INIT head; calls (splay_call field head nd cmp (S (length nodes)) (S (length nodes))) ops)
      (os_calls cmp ops []).1 Q ∧
    represents field head nd cmp nodes.*1 (os_calls cmp ops []).2 Q.
Proof.
  destruct (ordered_set_calls (H := splay_ordered_set field head nd cmp nodes.*1 Hnull)
    ops [] ((head, 0) :: entry field nd x y ++ spare_cells field nodes)) as (Q & H & HQ); [|done|done|].
  { exists E, nodes, x, y. split_and!; [|done..]. split; [constructor|apply not_elem_of_nil]. }
  rewrite length_fmap in H. exists Q. split; [|done]. unfold SPLAY_INIT. heap_step. exact H.
Qed.

(** What a splay does to a tree. The element equal to the argument becomes the
    root if there is one, otherwise an element next to where it would be: nothing
    lies between it and the root. The elements and their order stay, and the loop
    takes at most as many turns as the tree is high. *)
Theorem splay_brings_to_root (field head nd x y : Z) (cmp : Z → Z → Z) `{!CmpOrder cmp} (elm : Z) (t : tree)
    (Ht : splay_tree cmp t) (Hne : t ≠ E) :
  ∃ l a r x' y',
    triple (tree_cells field head t ++ entry field nd x y) (SPLAY field head nd cmp (S (height t)) elm) tt
      (tree_cells field head (T l a r) ++ entry field nd x' y') ∧
    inorder (T l a r) = inorder t ∧
    (os_find cmp elm (inorder t) ≠ 0 → a = os_find cmp elm (inorder t)) ∧
    (os_find cmp elm (inorder t) = 0 →
      if decide (cmp elm a < 0) then ∀ z, z ∈ inorder l → cmp elm z > 0 else ∀ z, z ∈ inorder r → cmp elm z < 0).
Proof.
  destruct Ht as [Hs Hnn].
  destruct (splay_spec field head nd cmp (S (height t)) elm t x y Hne Hnn Hs) as (l & a & r & x' & y' & Htr & Hin & Hsp); [lia|].
  exists l, a, r, x', y'. split_and!; [done|done|..].
  - intros Hf. destruct (splay_found cmp t elm l a r Hin) as [_ ->]; [|done..].
    by apply (splay_tree_inorder cmp t).
  - intros Hf. destruct Hsp as [Ha|[[Ha Hl]|[Ha Hr]]].
    + destruct (os_find_none cmp elm (inorder t) Hnn Hf a) as []; [|done]. rewrite <-Hin. apply splay_root_in.
    + by rewrite decide_True.
    + by rewrite decide_False by lia.
Qed.

(** Nodes at multiples of 100, compared by address. *)
Definition nodes_at (xs : list Z) : list (Z * (Z * Z)) := map (λ a, (a, (7, 7))) xs.

Example splay_run :
  match (_ ← SPLAY_INIT 8;
         calls (splay_call 0 8 50 (λ a b, a - b) 9 9)
           [OpInsert 500; OpInsert 100; OpInsert 300; OpInsert 200; OpInsert 700; OpInsert 600; OpInsert 400;
            OpInsert 300; OpForeach; OpRemove 300; OpRemove 500; OpFind 500; OpNext 400; OpMin; OpMax; OpForeach])
        (list_to_map ((8, 1) :: entry 0 50 3 3 ++ spare_cells 0 (nodes_at [100; 200; 300; 400; 500; 600; 700]))) with
  | Ok (rs, _) => Some rs
  | _ => None
  end = Some [[0]; [0]; [0]; [0]; [0]; [0]; [0]; [300]; [100; 200; 300; 400; 500; 600; 700];
              [300]; [500]; [0]; [600]; [100]; [700]; [100; 200; 400; 600; 700]].
Proof. vm_compute. reflexivity. Qed.

Lemma splay_trees_are_ordered_sets_witness :
  ∃ Q,
    triple ((8, 1) :: entry 0 50 3 3 ++ spare_cells 0 (nodes_at [100; 200; 300]))
      (_ ← SPLAY_INIT 8;
       calls (splay_call 0 8 50 (λ a b, a - b) 4 4)
         [OpInsert 200; OpInsert 300; OpInsert 100; OpInsert 200; OpForeach; OpRemove 200; OpNext 100])
      [[0]; [0]; [0]; [200]; [100; 200; 300]; [200]; [300]] Q ∧
    represents 0 8 50 (λ a b, a - b) [100; 200; 300] [100; 300] Q.
Proof.
  refine (splay_trees_are_ordered_sets 0 8 50 1 3 3 (λ a b, a - b) (nodes_at [100; 200; 300])
    [OpInsert 200; OpInsert 300; OpInsert 100; OpInsert 200; OpForeach; OpRemove 200; OpNext 100] _ _ _);
    [apply (bool_decide_unpack _); vm_compute; exact I..|reflexivity].
Defined.

Lemma splay_brings_to_root_witness :
  ∃ l a r x' y',
    triple (tree_cells 0 8 (T E 100 (T E 200 E)) ++ entry 0 50 3 3) (SPLAY 0 8 50 (λ a b, a - b) 3 200) tt
      (tree_cells 0 8 (T l a r) ++ entry 0 50 x' y') ∧ a = 200.
Proof.
  destruct (splay_brings_to_root 0 8 50 3 3 (λ a b, a - b) 200 (T E 100 (T E 200 E))) as
    (l & a & r & x' & y' & Htr & _ & Hf & _).
  - split; [repeat constructor|apply (bool_decide_unpack _); vm_compute; exact I].
  - discriminate.
  - exists l, a, r, x', y'. split; [exact Htr|]. apply Hf. vm_compute. discriminate.
Defined.
