(* ===== verification/BufRing.v ===== *)
(** * Lock-free ring buffers: sys/buf_ring.h

    Many producers and consumers share a [struct buf_ring]. A thread inside one of
    the functions is at one access to shared memory ([pc]); an execution is a
    sequence of such accesses by any threads in any order, memory being
    sequentially consistent (wmb and rmb order the stores of one thread and the
    loads of another, as x86 does anyway). The debugging checks of DEBUG_BUFRING
    and the prefetch are not compiled in.

    Next to the structure the state keeps its history, which no access reads: all
    reservations in order, how many were published, claimed and released, and what
    the calls returned. *)

From S2P Require Import Prelude.

Definition ENOBUFS : Z := 55.

Record buf_ring := BufRing {
  br_prod_head : Z;
  br_prod_tail : Z;
  br_prod_size : Z;
  br_prod_mask : Z;
  br_prod_bufs : Z;
  br_prod_bytes : Z;
  br_cons_head : Z;
  br_cons_tail : Z;
  br_cons_size : Z;
  br_cons_mask : Z;
  br_ring : list Z;
}.

Definition set_prod_head v r := BufRing v (br_prod_tail r) (br_prod_size r) (br_prod_mask r) (br_prod_bufs r)
  (br_prod_bytes r) (br_cons_head r) (br_cons_tail r) (br_cons_size r) (br_cons_mask r) (br_ring r).
Definition set_prod_tail v r := BufRing (br_prod_head r) v (br_prod_size r) (br_prod_mask r) (br_prod_bufs r)
  (br_prod_bytes r) (br_cons_head r) (br_cons_tail r) (br_cons_size r) (br_cons_mask r) (br_ring r).
Definition set_prod_bufs v r := BufRing (br_prod_head r) (br_prod_tail r) (br_prod_size r) (br_prod_mask r) v
  (br_prod_bytes r) (br_cons_head r) (br_cons_tail r) (br_cons_size r) (br_cons_mask r) (br_ring r).
Definition set_prod_bytes v r := BufRing (br_prod_head r) (br_prod_tail r) (br_prod_size r) (br_prod_mask r)
  (br_prod_bufs r) v (br_cons_head r) (br_cons_tail r) (br_cons_size r) (br_cons_mask r) (br_ring r).
Definition set_cons_head v r := BufRing (br_prod_head r) (br_prod_tail r) (br_prod_size r) (br_prod_mask r)
  (br_prod_bufs r) (br_prod_bytes r) v (br_cons_tail r) (br_cons_size r) (br_cons_mask r) (br_ring r).
Definition set_cons_tail v r := BufRing (br_prod_head r) (br_prod_tail r) (br_prod_size r) (br_prod_mask r)
  (br_prod_bufs r) (br_prod_bytes r) (br_cons_head r) v (br_cons_size r) (br_cons_mask r) (br_ring r).
(** [br->br_ring[i] = buf]; an index outside the array is undefined behaviour. *)
Definition set_slot i v r := BufRing (br_prod_head r) (br_prod_tail r) (br_prod_size r) (br_prod_mask r)
  (br_prod_bufs r) (br_prod_bytes r) (br_cons_head r) (br_cons_tail r) (br_cons_size r) (br_cons_mask r)
  (<[Z.to_nat i := v]> (br_ring r)).
Definition slot (i : Z) (r : buf_ring) : option Z := br_ring r !! Z.to_nat i.

(** [(head + 1) & mask], in [uint32_t]. *)
Definition ring_next (i mask : Z) : Z := Z.land (u32 (i + 1)) mask.

(** ** The functions that only look *)

Definition buf_ring_full (r : buf_ring) : bool :=
  bool_decide (ring_next (br_prod_head r) (br_prod_mask r) = br_cons_tail r).
Definition buf_ring_empty (r : buf_ring) : bool := bool_decide (br_cons_head r = br_prod_tail r).
Definition buf_ring_count (r : buf_ring) : Z :=
  Z.land (u32 (br_prod_size r + br_prod_tail r - br_cons_tail r)) (br_prod_mask r).
Definition buf_ring_peek (r : buf_ring) : option Z :=
  if decide (br_cons_head r = br_prod_tail r) then Some 0 else slot (br_cons_head r) r.

(** ** Threads *)

(** A producer has read [head], when [at] buffers had been reserved; it has
    reserved the place [at]; [next] is [prod_next]. A consumer likewise; [mc] tells
    [buf_ring_dequeue_mc] from [buf_ring_dequeue_sc]. *)
Inductive pc :=
  | Idle
  | EnqHead (buf nbytes : Z)
  | EnqTail (buf nbytes head : Z) (at_ : nat)
  | EnqCas (buf nbytes head next : Z) (at_ : nat)
  | EnqStore (buf nbytes head next : Z) (at_ : nat)
  | EnqSpin (buf nbytes head next : Z) (at_ : nat)
  | EnqBufs (buf nbytes next : Z) (at_ : nat)
  | EnqBufsAdd (buf nbytes next bufs : Z) (at_ : nat)
  | EnqBytes (buf nbytes next : Z) (at_ : nat)
  | EnqBytesAdd (buf nbytes next bytes : Z) (at_ : nat)
  | EnqPublish (buf next : Z) (at_ : nat)
  | DeqHead (mc : bool)
  | DeqTail (mc : bool) (head : Z) (at_ : nat)
  | DeqClaim (mc : bool) (head next : Z) (at_ : nat)
  | DeqLoad (mc : bool) (head next : Z) (at_ : nat)
  | DeqSpin (buf head next : Z) (at_ : nat)
  | DeqRelease (mc : bool) (buf next : Z) (at_ : nat).

#[global] Instance pc_eq_dec : EqDecision pc.
Proof. solve_decision. Defined.

(** What a call returned, and for which place. *)
Inductive event := Enqueued (at_ : nat) (buf : Z) | Full | Dequeued (at_ : nat) (buf : Z) | Empty.

Record shared := Shared {
  ring : buf_ring;
  reserved : list (Z * Z);   (** buffers and their [nbytes] *)
  published : nat;
  claimed : nat;
  released : nat;
  returned : list event;
}.

Definition set_ring r s := Shared r (reserved s) (published s) (claimed s) (released s) (returned s).
Definition reserve e s := Shared (ring s) (reserved s ++ [e]) (published s) (claimed s) (released s) (returned s).
Definition publish s := Shared (ring s) (reserved s) (S (published s)) (claimed s) (released s) (returned s).
Definition claim s := Shared (ring s) (reserved s) (published s) (S (claimed s)) (released s) (returned s).
Definition release s := Shared (ring s) (reserved s) (published s) (claimed s) (S (released s)) (returned s).
Definition log e s := Shared (ring s) (reserved s) (published s) (claimed s) (released s) (returned s ++ [e]).

(** ** One access *)

(** The next access of a thread at [p]: where it is then, and the memory. *)
Definition run (p : pc) (s : shared) : option (pc * shared) :=
  let r := ring s in
  match p with
  | Idle => None
  (* buf_ring_enqueue_bytes *)
  | EnqHead buf n => Some (EnqTail buf n (br_prod_head r) (length (reserved s)), s)
  | EnqTail buf n head a =>
      let next := ring_next head (br_prod_mask r) in
      if decide (next = br_cons_tail r) then Some (Idle, log Full s) else Some (EnqCas buf n head next a, s)
  | EnqCas buf n head next a =>
      if decide (br_prod_head r = head) then
        Some (EnqStore buf n head next (length (reserved s)), reserve (buf, n) (set_ring (set_prod_head next r) s))
      else Some (EnqHead buf n, s)
  | EnqStore buf n head next a =>
      _ ← slot head r; Some (EnqSpin buf n head next a, set_ring (set_slot head buf r) s)
  | EnqSpin buf n head next a =>
      if decide (br_prod_tail r = head) then Some (EnqBufs buf n next a, s) else Some (p, s)
  | EnqBufs buf n next a => Some (EnqBufsAdd buf n next (br_prod_bufs r) a, s)
  | EnqBufsAdd buf n next v a => Some (EnqBytes buf n next a, set_ring (set_prod_bufs (u64 (v + 1)) r) s)
  | EnqBytes buf n next a => Some (EnqBytesAdd buf n next (br_prod_bytes r) a, s)
  | EnqBytesAdd buf n next v a => Some (EnqPublish buf next a, set_ring (set_prod_bytes (u64 (v + n)) r) s)
  | EnqPublish buf next a => Some (Idle, log (Enqueued a buf) (publish (set_ring (set_prod_tail next r) s)))
  (* buf_ring_dequeue_mc and buf_ring_dequeue_sc *)
  | DeqHead mc => Some (DeqTail mc (br_cons_head r) (claimed s), s)
  | DeqTail mc head a =>
      if decide (head = br_prod_tail r) then Some (Idle, log Empty s)
      else Some (DeqClaim mc head (ring_next head (br_cons_mask r)) a, s)
  | DeqClaim mc head next a =>
      if decide (mc = true ∧ br_cons_head r ≠ head) then Some (DeqHead mc, s)
      else Some (DeqLoad mc head next (claimed s), claim (set_ring (set_cons_head next r) s))
  | DeqLoad mc head next a =>
      buf ← slot head r; Some (if mc then DeqSpin buf head next a else DeqRelease mc buf next a, s)
  | DeqSpin buf head next a =>
      if decide (br_cons_tail r = head) then Some (DeqRelease true buf next a, s) else Some (p, s)
  | DeqRelease mc buf next a => Some (Idle, log (Dequeued a buf) (release (set_ring (set_cons_tail next r) s)))
  end.

(** ** Executions *)

(** A thread calls a function, or makes its next access. *)
Inductive label := CallEnqueue (i : nat) (buf nbytes : Z) | CallDequeue (i : nat) (mc : bool) | Run (i : nat).

(** [buf_ring_enqueue(br, buf)] does not count bytes. *)
Definition buf_ring_enqueue (i : nat) (buf : Z) : label := CallEnqueue i buf 0.

Definition in_dequeue (p : pc) : bool :=
  match p with
  | DeqHead _ | DeqTail _ _ _ | DeqClaim _ _ _ _ | DeqLoad _ _ _ _ | DeqSpin _ _ _ _ | DeqRelease _ _ _ _ => true
  | _ => false
  end.
Definition single_consumer (p : pc) : bool :=
  match p with
  | DeqHead mc | DeqTail mc _ _ | DeqClaim mc _ _ _ | DeqLoad mc _ _ _ | DeqRelease mc _ _ _ => negb mc
  | _ => false
  end.

(** [buf_ring_dequeue_sc] is for consumers that hold a lock: none starts while
    another consumer is at work. *)
Definition may_dequeue (mc : bool) (ts : list pc) : bool :=
  if mc then forallb (λ p, negb (single_consumer p)) ts else forallb (λ p, negb (in_dequeue p)) ts.

Record state := State { threads : list pc; memory : shared }.

Definition exec (l : label) (s : state) : option state :=
  match l with
  | CallEnqueue i buf n =>
      match threads s !! i with
      | Some Idle => Some (State (<[i := EnqHead buf n]> (threads s)) (memory s))
      | _ => None
      end
  | CallDequeue i mc =>
      match threads s !! i with
      | Some Idle =>
          if may_dequeue mc (threads s) then Some (State (<[i := DeqHead mc]> (threads s)) (memory s)) else None
      | _ => None
      end
  | Run i =>
      p ← threads s !! i;
      '(p', m) ← run p (memory s);
      Some (State (<[i := p']> (threads s)) m)
  end.

Fixpoint execs (ls : list label) (s : state) : option state :=
  match ls with [] => Some s | l :: ls => s ← exec l s; execs ls s end.

(** A ring of 2^k slots that was not used yet ([buf_ring_alloc] is elsewhere);
    what is in the slots does not matter. *)
Record unused (k : nat) (r : buf_ring) : Prop := {
  unused_indices : br_prod_head r = 0 ∧ br_prod_tail r = 0 ∧ br_cons_head r = 0 ∧ br_cons_tail r = 0;
  unused_sizes : br_prod_size r = 2 ^ Z.of_nat k ∧ br_prod_mask r = 2 ^ Z.of_nat k - 1 ∧
                 br_cons_mask r = 2 ^ Z.of_nat k - 1 ∧ length (br_ring r) = (2 ^ k)%nat;
  unused_stats : br_prod_bufs r = 0 ∧ br_prod_bytes r = 0;
}.

(** [n] idle threads and the ring. *)
Definition initial (r : buf_ring) (n : nat) : state := State (replicate n Idle) (Shared r [] 0 0 0 []).

(** The buffers of the calls that succeeded, in the order in which they returned. *)
Definition enqueued_buf (e : event) : option Z := match e with Enqueued _ b => Some b | _ => None end.
Definition dequeued_buf (e : event) : option Z := match e with Dequeued _ b => Some b | _ => None end.
Definition enqueued (s : state) : list Z := omap enqueued_buf (returned (memory s)).
Definition dequeued (s : state) : list Z := omap dequeued_buf (returned (memory s)).

(** No thread that has read a head is overtaken by as many others as there are
    slots before its compare-and-swap: the indices are kept modulo the size, so it
    could not tell. *)
Definition fresh (k : nat) (p : pc) (m : shared) : Prop :=
  match p with
  | EnqCas _ _ _ _ a => (length (reserved m) < a + 2 ^ k)%nat
  | DeqTail _ _ a | DeqClaim _ _ _ a => (claimed m < a + 2 ^ k)%nat
  | _ => True
  end.
Definition no_lap (k : nat) (l : label) (s : state) : Prop :=
  match l with
  | Run i => match threads s !! i with Some p => fresh k p (memory s) | None => True end
  | _ => True
  end.

(** What can happen to a ring of 2^k slots shared by [n] threads. *)
Inductive reachable (k n : nat) : state → Prop :=
  | reach_initial r : unused k r → reachable k n (initial r n)
  | reach_step l s s' : reachable k n s → no_lap k l s → exec l s = Some s' → reachable k n s'.
