(* ===== verification/BufRingInv.v ===== *)
(** * Ring buffers: the invariant

    The four counters without wrap-around, released ≤ claimed ≤ published ≤
    reserved < released + size, give the four indices; every place between
    published and reserved belongs to one producer, every place between released
    and claimed to one consumer. *)

From S2P Require Import Prelude BufRing.

(** Threads are considered up to their order. *)
Definition prod_place (p : pc) : option nat :=
  match p with
  | EnqStore _ _ _ _ a | EnqSpin _ _ _ _ a | EnqBufs _ _ _ a | EnqBufsAdd _ _ _ _ a | EnqBytes _ _ _ a
  | EnqBytesAdd _ _ _ _ a | EnqPublish _ _ a => Some a
  | _ => None
  end.
Definition unstored (p : pc) : option nat := match p with EnqStore _ _ _ _ a => Some a | _ => None end.
Definition cons_place (p : pc) : option nat :=
  match p with DeqLoad _ _ _ a | DeqSpin _ _ _ a | DeqRelease _ _ _ a => Some a | _ => None end.
Definition bufs_counted (p : pc) : bool :=
  match p with EnqBytes _ _ _ _ | EnqBytesAdd _ _ _ _ _ | EnqPublish _ _ _ => true | _ => false end.
Definition bytes_counted (p : pc) : bool := match p with EnqPublish _ _ _ => true | _ => false end.

Definition one_if (b : bool) : nat := if b then 1 else 0.
Definition total_bytes (l : list (Z * Z)) : Z := foldr (λ e z, e.2 + z) 0 l.

Section inv.
Context (k : nat).
Hypothesis Hk : (1 ≤ k ≤ 30)%nat.

Definition slots : nat := 2 ^ k.
(** The index of a place. *)
Definition index (a : nat) : Z := Z.of_nat a `mod` 2 ^ Z.of_nat k.

Lemma slots_Z : Z.of_nat slots = 2 ^ Z.of_nat k.
Proof. unfold slots. by rewrite Nat2Z.inj_pow. Qed.
Lemma slots_range : (2 ≤ slots)%nat ∧ 2 ^ Z.of_nat k ≤ 2 ^ 30.
Proof.
  split; [unfold slots; change 2%nat with (2 ^ 1)%nat at 1; apply Nat.pow_le_mono_r; lia|].
  apply Z.pow_le_mono_r; lia.
Qed.

Lemma index_range a : 0 ≤ index a < 2 ^ Z.of_nat k.
Proof. unfold index. apply Z.mod_pos_bound. lia. Qed.

Lemma index_inj a b : index a = index b → (a ≤ b < a + slots)%nat → a = b.
Proof.
  unfold index. intros E [Hab Hb]. rewrite <-slots_Z in E. pose proof slots_range as [Hs _].
  rewrite <-!Nat2Z.inj_mod in E. apply Nat2Z.inj in E.
  pose proof (Nat.div_mod_eq a slots). pose proof (Nat.div_mod_eq b slots).
  assert (a / slots = b / slots)%nat; [|lia].
  pose proof (Nat.mod_upper_bound a slots). pose proof (Nat.mod_upper_bound b slots).
  assert (a / slots ≤ b / slots)%nat by (apply Nat.Div0.div_le_mono; lia). nia.
Qed.

Lemma index_slots a : index (a + slots) = index a.
Proof.
  unfold index. rewrite Nat2Z.inj_add, slots_Z. rewrite <-(Z.mul_1_l (2 ^ Z.of_nat k)) at 1.
  apply Z.mod_add. lia.
Qed.

Lemma mask_ones : 2 ^ Z.of_nat k - 1 = Z.ones (Z.of_nat k).
Proof. by rewrite Z.ones_equiv. Qed.

Lemma ring_next_index a : ring_next (index a) (2 ^ Z.of_nat k - 1) = index (S a).
Proof.
  unfold ring_next. pose proof (index_range a). pose proof slots_range as [_ ?].
  rewrite u32_id by (unfold is_u32; lia). rewrite mask_ones, Z.land_ones by lia.
  unfold index. rewrite Zplus_mod_idemp_l. f_equal. lia.
Qed.

(** What a thread knows at its place. *)
Definition thread_ok (m : shared) (p : pc) : Prop :=
  match p with
  | Idle | EnqHead _ _ | DeqHead _ => True
  | EnqTail _ _ h a => h = index a ∧ (a ≤ length (reserved m))%nat
  | EnqCas _ _ h nx a =>
      h = index a ∧ nx = index (S a) ∧ (a ≤ length (reserved m))%nat ∧
      (length (reserved m) = a → S a < released m + slots)%nat
  | EnqStore b n h nx a | EnqSpin b n h nx a => h = index a ∧ nx = index (S a) ∧ reserved m !! a = Some (b, n)
  | EnqBufs b n nx a | EnqBytes b n nx a =>
      nx = index (S a) ∧ reserved m !! a = Some (b, n) ∧ a = published m
  | EnqBufsAdd b n nx v a => nx = index (S a) ∧ reserved m !! a = Some (b, n) ∧ a = published m ∧ v = br_prod_bufs (ring m)
  | EnqBytesAdd b n nx v a => nx = index (S a) ∧ reserved m !! a = Some (b, n) ∧ a = published m ∧ v = br_prod_bytes (ring m)
  | EnqPublish b nx a => nx = index (S a) ∧ (reserved m).*1 !! a = Some b ∧ a = published m
  | DeqTail mc h a => h = index a ∧ (a ≤ claimed m)%nat ∧ (mc = false → a = claimed m)
  | DeqClaim mc h nx a =>
      h = index a ∧ nx = index (S a) ∧ (a ≤ claimed m)%nat ∧ (mc = false → a = claimed m) ∧
      (claimed m = a → a < published m)%nat
  | DeqLoad mc h nx a => h = index a ∧ nx = index (S a)
  | DeqSpin b h nx a => h = index a ∧ nx = index (S a) ∧ (reserved m).*1 !! a = Some b
  | DeqRelease mc b nx a => nx = index (S a) ∧ (reserved m).*1 !! a = Some b ∧ a = released m
  end.

Record inv (ts : list pc) (m : shared) : Prop := {
  inv_order : (released m ≤ claimed m ≤ published m)%nat ∧ (published m ≤ length (reserved m) < released m + slots)%nat;
  inv_prod_head : br_prod_head (ring m) = index (length (reserved m));
  inv_prod_tail : br_prod_tail (ring m) = index (published m);
  inv_cons_head : br_cons_head (ring m) = index (claimed m);
  inv_cons_tail : br_cons_tail (ring m) = index (released m);
  inv_sizes : br_prod_size (ring m) = 2 ^ Z.of_nat k ∧ br_prod_mask (ring m) = 2 ^ Z.of_nat k - 1 ∧
              br_cons_mask (ring m) = 2 ^ Z.of_nat k - 1 ∧ length (br_ring (ring m)) = slots;
  inv_slots : ∀ a b, (released m ≤ a)%nat → (reserved m).*1 !! a = Some b → a ∉ omap unstored ts →
              br_ring (ring m) !! Z.to_nat (index a) = Some b;
  inv_threads : Forall (thread_ok m) ts;
  inv_producers : omap prod_place ts ≡ₚ seq (published m) (length (reserved m) - published m);
  inv_consumers : omap cons_place ts ≡ₚ seq (released m) (claimed m - released m);
  inv_bufs : br_prod_bufs (ring m) = u64 (Z.of_nat (published m + one_if (existsb bufs_counted ts)));
  inv_bytes : br_prod_bytes (ring m) =
    u64 (total_bytes (take (published m + one_if (existsb bytes_counted ts)) (reserved m)));
  inv_single : Exists single_consumer ts → (length (filter in_dequeue ts) ≤ 1)%nat;
  inv_enqueued : omap enqueued_buf (returned m) =
    (take (published m) (reserved m)).*1;
  inv_dequeued : omap dequeued_buf (returned m) =
    (take (released m) (reserved m)).*1;
}.

#[global] Instance inv_perm : Proper ((≡ₚ) ==> eq ==> iff) inv.
Proof.
  assert (∀ ts ts' m, ts ≡ₚ ts' → inv ts m → inv ts' m) as H.
  { intros ts ts' m E [? ? ? ? ? ? Hsl Hth Hp Hc Hb Hby Hsc ? ?]. split; try done.
    - intros a b. rewrite <-E. apply Hsl.
    - by rewrite <-E.
    - by rewrite <-E.
    - by rewrite <-E.
    - by rewrite <-(existsb_perm _ _ _ E).
    - by rewrite <-(existsb_perm _ _ _ E).
    - by rewrite <-E. }
  intros ts ts' E m ? <-. split; apply H; [done|by symmetry].
Qed.

(** ** Steps that only move the thread *)

Lemma single_weaken p p' ts :
  (single_consumer p' → single_consumer p) → (in_dequeue p' → in_dequeue p) →
  (Exists single_consumer (p :: ts) → (length (filter in_dequeue (p :: ts)) ≤ 1)%nat) →
  Exists single_consumer (p' :: ts) → (length (filter in_dequeue (p' :: ts)) ≤ 1)%nat.
Proof.
  intros Hs Hd H He. assert (Exists single_consumer (p :: ts)) as He'.
  { apply Exists_cons in He as [He|He]; apply Exists_cons; [left; by apply Hs|by right]. }
  specialize (H He'). rewrite !filter_cons in *.
  destruct (decide (in_dequeue p')), (decide (in_dequeue p)); simpl in *; naive_solver lia.
Qed.

Lemma inv_goto p p' ts m e :
  inv (p :: ts) m → thread_ok m p' → prod_place p' = prod_place p → cons_place p' = cons_place p →
  (unstored p' = unstored p) → bufs_counted p' = bufs_counted p → bytes_counted p' = bytes_counted p →
  (single_consumer p' → single_consumer p) → (in_dequeue p' → in_dequeue p) →
  match e with None | Some Full | Some Empty => True | _ => False end →
  inv (p' :: ts) (if e is Some e then log e m else m).
Proof.
  intros [? ? ? ? ? ? Hsl Hth Hp Hc Hb Hby Hsc He Hd] Hok Epp Ecp Eun Ebu Eby Hs Hq Hev.
  apply Forall_cons in Hth as [_ Hth].
  assert (inv (p' :: ts) m) as Hinv.
  { split; try done.
    - simpl. rewrite Eun. exact Hsl.
    - by constructor.
    - simpl. rewrite Epp. exact Hp.
    - simpl. rewrite Ecp. exact Hc.
    - simpl. rewrite Ebu. exact Hb.
    - simpl. rewrite Eby. exact Hby.
    - by apply (single_weaken p). }
  destruct e as [e|]; [|done]. destruct Hinv. split; try done.
  - simpl. rewrite omap_app. destruct e; try done; simpl; by rewrite app_nil_r.
  - simpl. rewrite omap_app. destruct e; try done; simpl; by rewrite app_nil_r.
Qed.

(** ** Steps that write *)

(** Two producers, or two consumers, have different places. *)
Lemma other_producer p q ts m a :
  inv (p :: ts) m → prod_place p = Some a → q ∈ ts → prod_place q ≠ Some a.
Proof.
  intros H Hp Hq Hqa. pose proof (NoDup_seq (published m) (length (reserved m) - published m)) as Hnd.
  rewrite <-(inv_producers _ _ H) in Hnd. simpl in Hnd. rewrite Hp in Hnd.
  apply NoDup_cons in Hnd as [Hnd _]. apply Hnd. apply list_elem_of_omap. eauto.
Qed.
Lemma other_consumer p q ts m a :
  inv (p :: ts) m → cons_place p = Some a → q ∈ ts → cons_place q ≠ Some a.
Proof.
  intros H Hp Hq Hqa. pose proof (NoDup_seq (released m) (claimed m - released m)) as Hnd.
  rewrite <-(inv_consumers _ _ H) in Hnd. simpl in Hnd. rewrite Hp in Hnd.
  apply NoDup_cons in Hnd as [Hnd _]. apply Hnd. apply list_elem_of_omap. eauto.
Qed.

(** Where the places are. *)
Lemma producer_range p ts m a :
  inv (p :: ts) m → prod_place p = Some a → (published m ≤ a < length (reserved m))%nat.
Proof.
  intros H Hp. assert (a ∈ omap prod_place (p :: ts)) as Ha by (simpl; rewrite Hp; left).
  rewrite (inv_producers _ _ H) in Ha. apply elem_of_seq in Ha. lia.
Qed.
Lemma consumer_range p ts m a :
  inv (p :: ts) m → cons_place p = Some a → (released m ≤ a < claimed m)%nat.
Proof.
  intros H Hp. assert (a ∈ omap cons_place (p :: ts)) as Ha by (simpl; rewrite Hp; left).
  rewrite (inv_consumers _ _ H) in Ha. apply elem_of_seq in Ha. lia.
Qed.

(** The threads that do not move, when the memory changes. *)
Lemma others_ok p ts m m' :
  inv (p :: ts) m → (∀ q, q ∈ ts → thread_ok m q → thread_ok m' q) → Forall (thread_ok m') ts.
Proof.
  intros H Hq. pose proof (inv_threads _ _ H) as Hth. apply Forall_cons in Hth as [_ Hth].
  rewrite Forall_forall in *. intros q Hin. apply Hq; [done|]. by apply Hth.
Qed.

Lemma counted_le ts m :
  inv ts m → (published m + one_if (existsb bytes_counted ts) ≤ length (reserved m))%nat.
Proof.
  intros H. pose proof (inv_order _ _ H) as [_ [Ho _]]. destruct (existsb bytes_counted ts) eqn:E; simpl; [|lia].
  apply existsb_exists in E as (p & Hin%list_elem_of_In & Hp).
  apply elem_of_Permutation in Hin as (ts' & Ets). rewrite Ets in H.
  destruct p as [| | | | | | | | | |b nx a| | | | | |]; try done.
  pose proof (producer_range _ _ _ a H eq_refl). pose proof (inv_threads _ _ H) as Hth.
  apply Forall_cons in Hth as [(_ & _ & Ha) _]. lia.
Qed.

(** A successful compare-and-swap of [br_prod_head]. *)
Lemma inv_reserve b n h nx a ts m :
  inv (EnqCas b n h nx a :: ts) m → (length (reserved m) < a + slots)%nat → br_prod_head (ring m) = h →
  inv (EnqStore b n h nx (length (reserved m)) :: ts) (reserve (b, n) (set_ring (set_prod_head nx (ring m)) m)).
Proof.
  intros H Hfresh Hh. pose proof (others_ok _ _ _ (reserve (b, n) (set_ring (set_prod_head nx (ring m)) m)) H) as Hoth.
  pose proof (counted_le _ _ H) as Hle.
  destruct H as [[Ho1 Ho2] Hph Hpt Hch Hct (S1 & S2 & S3 & S4) Hsl Hth Hp Hc Hb Hby Hsc He Hd].
  apply Forall_cons in Hth as [(Eh & Enx & Ha & Hroom) _].
  assert (a = length (reserved m)) as -> by (apply index_inj; [congruence|lia]).
  specialize (Hroom eq_refl).
  split; simpl in *; try done; rewrite ?length_app; simpl.
  - split; [done|lia].
  - rewrite Enx. f_equal. lia.
  - intros a b' Hra Hlk Hun. apply not_elem_of_cons in Hun as [Hne Hun].
    rewrite fmap_app, lookup_app in Hlk. destruct ((reserved m).*1 !! a) eqn:E.
    + simplify_eq. by apply Hsl.
    + apply lookup_ge_None in E. rewrite length_fmap in *. simpl in Hlk.
      destruct (a - length (reserved m))%nat eqn:Ea; [|done]. lia.
  - constructor.
    + simpl. rewrite lookup_app_r, Nat.sub_diag by lia. done.
    + apply Hoth. intros q Hq Hok. destruct q; simpl in *; rewrite ?length_app, ?fmap_app; simpl;
        intuition (try lia; eauto using lookup_app_l_Some; try congruence).
  - rewrite Hp. replace (length (reserved m) + 1 - published m)%nat with (S (length (reserved m) - published m)) by lia.
    rewrite seq_S. replace (published m + (length (reserved m) - published m))%nat with (length (reserved m)) by lia.
    solve_Permutation.
  - rewrite Hby. do 2 f_equal. by rewrite take_app_le.
  - by apply (single_weaken (EnqCas b n h nx (length (reserved m)))).
  - rewrite He, take_app_le by lia. done.
  - rewrite Hd, take_app_le by lia. done.
Qed.

Lemma index_slot_ne a b m ts p :
  inv (p :: ts) m → (released m ≤ a < length (reserved m))%nat → (released m ≤ b < length (reserved m))%nat →
  a ≠ b → Z.to_nat (index a) ≠ Z.to_nat (index b).
Proof.
  intros H Ha Hb Hne E. pose proof (inv_order _ _ H) as [_ [_ Hroom]].
  pose proof (index_range a). pose proof (index_range b). assert (index a = index b) as Ei by lia.
  destruct (decide (a ≤ b)%nat); [apply Hne, index_inj; [done|lia]|].
  apply Hne. symmetry. apply index_inj; [done|lia].
Qed.

(** The store into the reserved slot. *)
Lemma inv_store b n h nx a ts m :
  inv (EnqStore b n h nx a :: ts) m →
  inv (EnqSpin b n h nx a :: ts) (set_ring (set_slot h b (ring m)) m).
Proof.
  intros H. pose proof (others_ok _ _ _ (set_ring (set_slot h b (ring m)) m) H) as Hoth.
  pose proof (producer_range _ _ _ a H eq_refl) as Ha. pose proof (λ x y, index_slot_ne x y _ _ _ H) as Hne.
  pose proof (inv_threads _ _ H) as Hth. apply Forall_cons in Hth as [(Eh & Enx & Hres) _].
  destruct H as [[Ho1 Ho2] Hph Hpt Hch Hct (S1 & S2 & S3 & S4) Hsl _ Hp Hc Hb Hby Hsc He Hd].
  split; try done.
  - simpl. by rewrite length_insert.
  - simpl. intros c d Hrc Hlk Hun. subst h. pose proof (lookup_lt_Some _ _ _ Hlk) as Hcl. rewrite length_fmap in Hcl.
    destruct (decide (c = a)) as [->|Hca].
    + rewrite list_lookup_fmap, Hres in Hlk. simpl in Hlk. simplify_eq. apply list_lookup_insert_eq.
      rewrite S4. pose proof (index_range a). rewrite <-slots_Z in *. lia.
    + rewrite list_lookup_insert_ne by (apply Hne; lia). apply Hsl; [done|done|].
      simpl. apply not_elem_of_cons. done.
  - constructor; [done|]. apply Hoth. intros q Hq. by destruct q.
  - by apply (single_weaken (EnqStore b n h nx a)).
Qed.

(** No second producer has passed the wait for [br_prod_tail]. *)
Lemma no_other p ts f m a :
  inv (p :: ts) m → prod_place p = Some a → a = published m → (∀ q, f q = true → bufs_counted q = true) →
  existsb f ts = false.
Proof.
  intros H Hp -> Hf. apply not_true_iff_false. intros (q & Hq%list_elem_of_In & Hcq%Hf)%existsb_exists.
  pose proof (other_producer _ q _ _ _ H Hp Hq) as Hd. pose proof (inv_threads _ _ H) as Hth.
  apply Forall_cons in Hth as [_ Hth]. rewrite Forall_forall in Hth. specialize (Hth q Hq).
  destruct q; simpl in *; naive_solver.
Qed.

(** The statistics: only the producer at [published] writes them. *)
Lemma inv_stat_bufs b n nx a v ts m :
  inv (EnqBufsAdd b n nx v a :: ts) m →
  inv (EnqBytes b n nx a :: ts) (set_ring (set_prod_bufs (u64 (v + 1)) (ring m)) m).
Proof.
  intros H. pose proof (others_ok _ _ _ (set_ring (set_prod_bufs (u64 (v + 1)) (ring m)) m) H) as Hoth.
  pose proof (λ q, other_producer _ q _ _ a H eq_refl) as Hdiff.
  pose proof (inv_threads _ _ H) as Hth. apply Forall_cons in Hth as [(Enx & Hres & Ha & Hv) Hrest].
  pose proof (no_other _ _ bufs_counted _ a H eq_refl Ha ltac:(by intros [])) as Hnone.
  destruct H as [[Ho1 Ho2] Hph Hpt Hch Hct (S1 & S2 & S3 & S4) Hsl _ Hp Hc Hb Hby Hsc He Hd].
  split; try done.
  - constructor; [done|]. apply Hoth. intros q Hq Hok. specialize (Hdiff q Hq).
    destruct q; simpl in *; naive_solver.
  - simpl in *. rewrite Hv, Hb, Hnone. simpl. unfold u64. rewrite Zplus_mod_idemp_l. f_equal. lia.
  - by apply (single_weaken (EnqBufsAdd b n nx v a)).
Qed.

Lemma total_bytes_app l l' : total_bytes (l ++ l') = total_bytes l + total_bytes l'.
Proof. induction l as [|e l IH]; simpl; [done|]. rewrite IH. lia. Qed.

Lemma inv_stat_bytes b n nx a v ts m :
  inv (EnqBytesAdd b n nx v a :: ts) m →
  inv (EnqPublish b nx a :: ts) (set_ring (set_prod_bytes (u64 (v + n)) (ring m)) m).
Proof.
  intros H. pose proof (others_ok _ _ _ (set_ring (set_prod_bytes (u64 (v + n)) (ring m)) m) H) as Hoth.
  pose proof (λ q, other_producer _ q _ _ a H eq_refl) as Hdiff.
  pose proof (inv_threads _ _ H) as Hth. apply Forall_cons in Hth as [(Enx & Hres & Ha & Hv) Hrest].
  pose proof (no_other _ _ bytes_counted _ a H eq_refl Ha ltac:(by intros [])) as Hnone.
  destruct H as [[Ho1 Ho2] Hph Hpt Hch Hct (S1 & S2 & S3 & S4) Hsl _ Hp Hc Hb Hby Hsc He Hd].
  split; try done.
  - constructor.
    + simpl. rewrite list_lookup_fmap, Hres. done.
    + apply Hoth. intros q Hq Hok. specialize (Hdiff q Hq). destruct q; simpl in *; naive_solver.
  - simpl in *. rewrite Hv, Hby, Hnone. simpl. unfold u64. rewrite Zplus_mod_idemp_l, Nat.add_0_r, Nat.add_1_r.
    rewrite (take_S_r _ _ (b, n)) by (by rewrite <-Ha). rewrite total_bytes_app. simpl. f_equal. lia.
  - by apply (single_weaken (EnqBytesAdd b n nx v a)).
Qed.

(** The store of [br_prod_tail]. *)
Lemma inv_publish b nx a ts m :
  inv (EnqPublish b nx a :: ts) m →
  inv (Idle :: ts) (log (Enqueued a b) (publish (set_ring (set_prod_tail nx (ring m)) m))).
Proof.
  intros H. pose proof (others_ok _ _ _ (log (Enqueued a b) (publish (set_ring (set_prod_tail nx (ring m)) m))) H) as Hoth.
  pose proof (λ q, other_producer _ q _ _ a H eq_refl) as Hdiff.
  pose proof (producer_range _ _ _ a H eq_refl) as Hrange.
  pose proof (inv_threads _ _ H) as Hth. apply Forall_cons in Hth as [(Enx & Hres & Ha) Hrest].
  pose proof (no_other _ _ bytes_counted _ a H eq_refl Ha ltac:(by intros [])) as Hby0. pose proof (no_other _ _ bufs_counted _ a H eq_refl Ha ltac:(by intros [])) as Hb0.
  destruct H as [[Ho1 Ho2] Hph Hpt Hch Hct (S1 & S2 & S3 & S4) Hsl _ Hp Hc Hb Hby Hsc He Hd].
  split; simpl in *; try done.
  - lia.
  - by rewrite Enx, Ha.
  - constructor; [done|]. apply Hoth. intros q Hq Hok. specialize (Hdiff q Hq). destruct q; simpl in *; naive_solver lia.
  - apply (Permutation_cons_inv (a := a)). rewrite Hp, Ha.
    replace (length (reserved m) - published m)%nat with (S (length (reserved m) - S (published m))) by lia. done.
  - rewrite Hb, Hb0. simpl. do 2 f_equal. lia.
  - rewrite Hby, Hby0. simpl. do 3 f_equal. lia.
  - by apply (single_weaken (EnqPublish b nx a)).
  - rewrite omap_app. simpl. rewrite He. rewrite list_lookup_fmap in Hres.
    destruct (reserved m !! a) as [[b' n']|] eqn:E; [|done]. simpl in Hres. simplify_eq.
    rewrite (take_S_r _ _ (b, n')) by done. by rewrite fmap_app.
  - rewrite omap_app. simpl. by rewrite app_nil_r.
Qed.

(** A single consumer is alone. *)
Lemma single_alone p q ts m :
  inv (p :: ts) m → in_dequeue p → q ∈ ts → in_dequeue q → single_consumer p = false ∧ single_consumer q = false.
Proof.
  intros H Hp Hq Hdq. pose proof (inv_single _ _ H) as Hs.
  apply elem_of_Permutation in Hq as (ts' & Ets). rewrite Ets in Hs. rewrite !filter_cons_True in Hs by done.
  simpl in Hs. rewrite !Exists_cons in Hs.
  destruct (single_consumer p), (single_consumer q); (split; [|]); try done; simpl in Hs; exfalso;
    assert (2 ≤ 1)%nat; try lia; etrans; try apply Hs; try lia; by auto.
Qed.

(** The claim: a successful compare-and-swap of [br_cons_head], or the store of
    [buf_ring_dequeue_sc]. *)
Lemma inv_claim mc h nx a ts m :
  inv (DeqClaim mc h nx a :: ts) m → (claimed m < a + slots)%nat → (mc = true → br_cons_head (ring m) = h) →
  a = claimed m ∧ inv (DeqLoad mc h nx (claimed m) :: ts) (claim (set_ring (set_cons_head nx (ring m)) m)).
Proof.
  intros H Hfresh Hh. pose proof (others_ok _ _ _ (claim (set_ring (set_cons_head nx (ring m)) m)) H) as Hoth.
  pose proof (λ q, single_alone _ q _ _ H ltac:(done)) as Halone.
  destruct H as [[Ho1 Ho2] Hph Hpt Hch Hct (S1 & S2 & S3 & S4) Hsl Hth Hp Hc Hb Hby Hsc He Hd].
  apply Forall_cons in Hth as [(Eh & Enx & Ha & Hmc & Hroom) _].
  assert (a = claimed m) as ->.
  { destruct mc; [|by apply Hmc]. apply index_inj; [|lia]. rewrite <-Eh, <-Hh by done. done. }
  split; [done|]. specialize (Hroom eq_refl).
  split; simpl in *; try done.
  - lia.
  - constructor; [done|]. apply Hoth. intros q Hq Hok. specialize (Halone q Hq).
    destruct q as [| | | | | | | | | | |mc'|mc' h' a'|mc' h' nx' a'| | |]; simpl in *; try done.
    + destruct Hok as (? & ? & Hm). destruct mc'; [|by destruct Halone]. split_and!; [done|lia|done].
    + destruct Hok as (? & ? & ? & Hm & ?). destruct mc'; [|by destruct Halone]. split_and!; [done|done|lia|done|lia].
  - rewrite Hc. replace (S (claimed m) - released m)%nat with (S (claimed m - released m)) by lia.
    rewrite seq_S. replace (released m + (claimed m - released m))%nat with (claimed m) by lia. solve_Permutation.
  - by apply (single_weaken (DeqClaim mc h nx (claimed m))).
Qed.

(** The load of the claimed slot gives the buffer that was reserved there. *)
Lemma load_claimed mc h nx a ts m :
  inv (DeqLoad mc h nx a :: ts) m → ∃ b, slot h (ring m) = Some b ∧ (reserved m).*1 !! a = Some b.
Proof.
  intros H. pose proof (consumer_range _ _ _ a H eq_refl) as Ha. pose proof (inv_order _ _ H) as [Ho1 Ho2].
  pose proof (inv_threads _ _ H) as Hth. apply Forall_cons in Hth as [[-> _] _].
  destruct (lookup_lt_is_Some_2 (reserved m).*1 a) as [b Hb]; [rewrite length_fmap; lia|].
  exists b. split; [|done]. unfold slot. apply (inv_slots _ _ H); [lia|done|].
  intros (q & Hq & Hqa)%list_elem_of_omap. apply elem_of_Permutation in Hq as (ts' & Ets). rewrite Ets in H.
  pose proof (producer_range _ _ _ a H) as Hr. destruct q; simpl in *; simplify_eq. specialize (Hr eq_refl). lia.
Qed.

(** A single consumer claims the oldest place. *)
Lemma single_first h nx a ts m : inv (DeqLoad false h nx a :: ts) m → a = released m.
Proof.
  intros H. pose proof (consumer_range _ _ _ a H eq_refl) as Ha.
  assert (omap cons_place ts = []) as Hnone.
  { destruct (omap cons_place ts) as [|c cs] eqn:E; [done|]. exfalso.
    assert (c ∈ omap cons_place ts) as (q & Hq & Hqc)%list_elem_of_omap by (rewrite E; left).
    destruct (single_alone _ q _ _ H ltac:(done) Hq) as [? _]; [by destruct q|done]. }
  pose proof (inv_consumers _ _ H) as Hc.
  assert (omap cons_place (DeqLoad false h nx a :: ts) = [a]) as Eo by (simpl; f_equal; exact Hnone).
  rewrite Eo in Hc.
  pose proof (Permutation_length Hc) as Hlen. rewrite length_seq in Hlen. simpl in Hlen. rewrite <-Hlen in Hc.
  simpl in Hc. apply Permutation_singleton_r in Hc. by simplify_eq.
Qed.

Lemma inv_release mc b nx a ts m :
  inv (DeqRelease mc b nx a :: ts) m →
  inv (Idle :: ts) (log (Dequeued a b) (release (set_ring (set_cons_tail nx (ring m)) m))).
Proof.
  intros H. pose proof (others_ok _ _ _ (log (Dequeued a b) (release (set_ring (set_cons_tail nx (ring m)) m))) H) as Hoth.
  pose proof (λ q, other_consumer _ q _ _ a H eq_refl) as Hdiff.
  pose proof (consumer_range _ _ _ a H eq_refl) as Hrange.
  pose proof (inv_threads _ _ H) as Hth. apply Forall_cons in Hth as [(Enx & Hres & Ha) Hrest].
  destruct H as [[Ho1 Ho2] Hph Hpt Hch Hct (S1 & S2 & S3 & S4) Hsl _ Hp Hc Hb Hby Hsc He Hd].
  split; simpl in *; try done.
  - lia.
  - by rewrite Enx, Ha.
  - intros c d Hrc. apply Hsl. lia.
  - constructor; [done|]. apply Hoth. intros q Hq Hok. specialize (Hdiff q Hq). destruct q; simpl in *; naive_solver lia.
  - apply (Permutation_cons_inv (a := a)). rewrite Hc, Ha.
    replace (claimed m - released m)%nat with (S (claimed m - S (released m))) by lia. done.
  - by apply (single_weaken (DeqRelease mc b nx a)).
  - rewrite omap_app. simpl. by rewrite app_nil_r.
  - rewrite omap_app. simpl. rewrite Hd. rewrite list_lookup_fmap in Hres.
    destruct (reserved m !! a) as [[b' n']|] eqn:E; [|done]. simpl in Hres. simplify_eq.
    rewrite (take_S_r _ _ (b, n')) by done. by rewrite fmap_app.
Qed.

(** ** Every step *)

Lemma inv_run p p' ts m m' :
  inv (p :: ts) m → fresh k p m → run p m = Some (p', m') → inv (p' :: ts) m'.
Proof.
  intros H Hf Hr. pose proof (inv_order _ _ H) as [Ho1 Ho2]. pose proof (inv_sizes _ _ H) as (_ & Hpm & Hcm & _).
  pose proof (inv_threads _ _ H) as Hth. apply Forall_cons in Hth as [Hok _].
  destruct p as [|b n|b n h a|b n h nx a|b n h nx a|b n h nx a|b n nx a|b n nx v a|b n nx a|b n nx v a|b nx a
                |mc|mc h a|mc h nx a|mc h nx a|b h nx a|mc b nx a]; simpl in Hr; simplify_eq.
  - apply (inv_goto _ _ _ _ None H); try done. split; [apply (inv_prod_head _ _ H)|lia].
  - destruct Hok as [-> Ha]. case_decide as Hd; simplify_eq; [by apply (inv_goto _ _ _ _ (Some Full) H)|].
    apply (inv_goto _ _ _ _ None H); try done. rewrite Hpm, ring_next_index in *.
    split_and!; [done..|]. intros Hlen. rewrite (inv_cons_tail _ _ H) in Hd.
    assert (S a ≠ released m' + slots)%nat by (intros E; apply Hd; by rewrite E, index_slots). lia.
  - case_decide as Hd; simplify_eq; [by eapply inv_reserve|by apply (inv_goto _ _ _ _ None H)].
  - destruct (slot h (ring m)) eqn:Es; simpl in Hr; simplify_eq. by apply inv_store.
  - destruct Hok as (-> & -> & Hres). pose proof (producer_range _ _ _ a H eq_refl) as Hrange.
    case_decide as Hd; simplify_eq; [|done].
    apply (inv_goto _ _ _ _ None H); try done. split_and!; [done..|].
    rewrite (inv_prod_tail _ _ H) in Hd. symmetry. apply index_inj; [done|lia].
  - by apply (inv_goto _ _ _ _ None H); try (simpl in *; naive_solver).
  - by apply inv_stat_bufs.
  - by apply (inv_goto _ _ _ _ None H); try (simpl in *; naive_solver).
  - by apply inv_stat_bytes.
  - by apply inv_publish.
  - apply (inv_goto _ _ _ _ None H); try done. split_and!; [apply (inv_cons_head _ _ H)|lia|done].
  - destruct Hok as (-> & Ha & Hmc). case_decide as Hd; simplify_eq; [by apply (inv_goto _ _ _ _ (Some Empty) H)|].
    apply (inv_goto _ _ _ _ None H); try done. rewrite Hcm, ring_next_index.
    split_and!; [done..|]. intros <-. rewrite (inv_prod_tail _ _ H) in Hd.
    assert (claimed m' ≠ published m') by (intros E; apply Hd; by rewrite E). lia.
  - case_decide as Hd; simplify_eq; [by apply (inv_goto _ _ _ _ None H)|].
    apply inv_claim in H as [_ H]; [done|done|]. intros ->. apply dec_stable. intros Hne. by apply Hd.
  - destruct (load_claimed _ _ _ _ _ _ H) as (b & Hb & Hres). rewrite Hb in Hr. simpl in Hr. simplify_eq.
    destruct Hok as [-> ->]. apply (inv_goto _ _ _ _ None H); try (by destruct mc).
    destruct mc; [done|]. split_and!; [done..|]. by eapply single_first.
  - destruct Hok as (-> & -> & Hres). pose proof (consumer_range _ _ _ a H eq_refl) as Hrange.
    case_decide as Hd; simplify_eq; [|done].
    apply (inv_goto _ _ _ _ None H); try done. split_and!; [done..|].
    rewrite (inv_cons_tail _ _ H) in Hd. symmetry. apply index_inj; [done|lia].
  - by eapply inv_release.
Qed.

Lemma inv_initial r n : unused k r → inv (replicate n Idle) (memory (initial r n)).
Proof.
  intros [(Eph & Ept & Ech & Ect) Hsz (Eb & Eby)].
  pose proof slots_range as [Hs _].
  assert (∀ {B} (f : pc → option B), f Idle = None → omap f (replicate n Idle) = []) as Ho.
  { intros B f Hf. induction n as [|n IH]; [done|]. simpl. rewrite Hf. exact IH. }
  assert (∀ f : pc → bool, f Idle = false → existsb f (replicate n Idle) = false) as He.
  { clear. intros f Hf. induction n as [|n IH]; [done|]. simpl. by rewrite Hf. }
  split; simpl; try done.
  - lia.
  - by apply Forall_replicate.
  - by rewrite Ho.
  - by rewrite Ho.
  - by rewrite He.
  - by rewrite He.
  - intros Hex. apply Exists_exists in Hex as (p & Hp & Hsp). apply elem_of_replicate in Hp as [-> _]. done.
Qed.
End inv.
