(* ===== verification/BufRingSpec.v ===== *)
(** * Ring buffers: what the callers get

    Over every interleaving: a ring is a bounded first-in first-out queue, its
    counters and tests are right whenever no call is in progress. *)

From S2P Require Import Prelude BufRing BufRingInv.

Section reach.
Context (k : nat).
Hypothesis Hk : (1 ≤ k ≤ 30)%nat.

Abbreviation inv_state s := (inv k (threads s) (memory s)).

Lemma insert_thread (ts : list pc) i p q :
  ts !! i = Some p → ts ≡ₚ p :: delete i ts ∧ <[i := q]> ts ≡ₚ q :: delete i ts.
Proof.
  intros Hp. split; [by apply delete_Permutation|]. pose proof (lookup_lt_Some _ _ _ Hp) as Hlt.
  rewrite insert_take_drop by done. rewrite delete_take_drop. by rewrite <-Permutation_middle.
Qed.

Lemma may_dequeue_other (mc : bool) ts q :
  may_dequeue mc ts = true → q ∈ ts → (if mc then single_consumer q else in_dequeue q) = false.
Proof.
  unfold may_dequeue. intros Hmay Hq%list_elem_of_In. destruct mc; rewrite forallb_forall in Hmay;
    specialize (Hmay q Hq); by destruct (_ q).
Qed.

Lemma inv_call_dequeue (mc : bool) ts m :
  inv k (Idle :: ts) m → (∀ q : pc, q ∈ ts → (if mc then single_consumer q else in_dequeue q) = false) →
  inv k (DeqHead mc :: ts) m.
Proof.
  intros [? ? ? ? ? ? Hsl Hth Hp Hc Hb Hby Hsc He Hd] Hmay. apply Forall_cons in Hth as [_ Hth].
  split; try done; [by constructor|]. intros Hex. rewrite filter_cons_True by done.
  destruct mc.
  - exfalso. apply Exists_cons in Hex as [Hex|Hex]; [done|]. apply Exists_exists in Hex as (q & Hq & Hsq).
    by rewrite (Hmay q Hq) in Hsq.
  - rewrite filter_none; [simpl; lia|]. apply Forall_forall. intros q Hq Hdq. by rewrite (Hmay q Hq) in Hdq.
Qed.

Lemma inv_exec l s s' : inv_state s → no_lap k l s → exec l s = Some s' → inv_state s'.
Proof.
  intros Hinv Hlap Hex. destruct l as [i b n|i mc|i]; simpl in *.
  - destruct (threads s !! i) as [[]|] eqn:E; simplify_eq/=.
    destruct (insert_thread _ _ _ (EnqHead b n) E) as [H1 H2]. rewrite H2. rewrite H1 in Hinv.
    by apply (inv_goto k Hk _ _ _ _ None Hinv).
  - destruct (threads s !! i) as [[]|] eqn:E; simplify_eq/=.
    destruct (may_dequeue mc (threads s)) eqn:Em; simplify_eq/=.
    destruct (insert_thread _ _ _ (DeqHead mc) E) as [H1 H2]. rewrite H2. rewrite H1 in Hinv.
    apply inv_call_dequeue; [done|]. intros q Hq. apply (may_dequeue_other mc (threads s)); [done|].
    rewrite H1. by right.
  - destruct (threads s !! i) as [p|] eqn:E; simplify_eq/=.
    destruct (run p (memory s)) as [[p' m']|] eqn:Er; simplify_eq/=.
    destruct (insert_thread _ _ _ p' E) as [H1 H2]. rewrite H2. rewrite H1 in Hinv. by eapply inv_run.
Qed.

Lemma inv_reachable n s : reachable k n s → inv_state s.
Proof. induction 1; [by apply inv_initial|by eapply inv_exec]. Qed.

(** The buffers that were enqueued and not yet dequeued. *)
Definition contents (s : state) : list Z :=
  drop (released (memory s)) (take (published (memory s)) (reserved (memory s))).*1.

Lemma contents_spec s :
  inv_state s →
  enqueued s = dequeued s ++ contents s ∧
  length (contents s) = (published (memory s) - released (memory s))%nat.
Proof.
  intros H. pose proof (inv_order _ _ _ H) as [Ho1 Ho2]. unfold enqueued, dequeued, contents.
  rewrite (inv_enqueued _ _ _ H), (inv_dequeued _ _ _ H). split.
  - rewrite <-(take_drop (released (memory s)) (take (published (memory s)) (reserved (memory s))).*1) at 1.
    f_equal. rewrite <-fmap_take, take_take. do 2 f_equal. lia.
  - rewrite length_drop, length_fmap, length_take. lia.
Qed.

(** No access is out of bounds. *)
Lemma run_defined s i p : inv_state s → threads s !! i = Some p → p ≠ Idle → is_Some (run p (memory s)).
Proof.
  intros H Hp Hne. destruct (insert_thread _ _ _ p Hp) as [H1 _]. rewrite H1 in H.
  pose proof (inv_threads _ _ _ H) as Hth. apply Forall_cons in Hth as [Hok _].
  pose proof (inv_sizes _ _ _ H) as (_ & _ & _ & Hlen).
  destruct p; try done; simpl; repeat case_decide; eauto.
  - destruct Hok as (-> & _ & _). unfold slot. destruct (lookup_lt_is_Some_2 (br_ring (ring (memory s))) (Z.to_nat (index k at_))) as [v ->]; [|by eexists].
    rewrite Hlen. pose proof (index_range k Hk at_) as Hi. rewrite <-slots_Z in Hi by done. lia.
  - destruct (load_claimed k Hk _ _ _ _ _ _ H) as (b & -> & _). by eexists.
Qed.

(** When no call is in progress nothing is reserved without being published, nor
    claimed without being released. *)
Definition at_rest (s : state) : Prop := Forall (λ p, p = Idle) (threads s).

Lemma at_rest_counts s :
  inv_state s → at_rest s →
  length (reserved (memory s)) = published (memory s) ∧ claimed (memory s) = released (memory s) ∧
  existsb bufs_counted (threads s) = false ∧ existsb bytes_counted (threads s) = false ∧
  omap unstored (threads s) = [].
Proof.
  intros H Hrest. pose proof (inv_order _ _ _ H) as [Ho1 Ho2].
  assert (∀ {B} (f : pc → option B), f Idle = None → omap f (threads s) = []) as Ho.
  { intros B f Hf. clear H. unfold at_rest in Hrest. induction Hrest as [|p ts -> _ IH]; [done|]. simpl. rewrite Hf. exact IH. }
  assert (∀ f : pc → bool, f Idle = false → existsb f (threads s) = false) as He.
  { intros f Hf. clear H Ho. unfold at_rest in Hrest. induction Hrest as [|p ts -> _ IH]; [done|]. simpl. by rewrite Hf. }
  pose proof (inv_producers _ _ _ H) as Hp. rewrite Ho in Hp by done. apply Permutation_length in Hp.
  pose proof (inv_consumers _ _ _ H) as Hc. rewrite Ho in Hc by done. apply Permutation_length in Hc.
  rewrite length_seq in *. simpl in *. rewrite !He, Ho by done. split_and!; [lia|lia|done..].
Qed.

(** The tests and the count, from the counters. *)
Lemma index_eq a b : (a ≤ b < a + slots k)%nat → index k a = index k b ↔ a = b.
Proof. intros H. split; [intros; by apply (index_inj k Hk)|by intros ->]. Qed.

Lemma full_spec s :
  inv_state s →
  buf_ring_full (ring (memory s)) = bool_decide (S (length (reserved (memory s))) = released (memory s) + slots k)%nat.
Proof.
  intros H. pose proof (inv_order _ _ _ H) as [Ho1 Ho2]. pose proof (inv_sizes _ _ _ H) as (_ & Hm & _).
  unfold buf_ring_full. rewrite Hm, (inv_prod_head _ _ _ H), (inv_cons_tail _ _ _ H), (ring_next_index k Hk).
  pose proof (slots_range k Hk) as [Hs _]. apply bool_decide_ext. rewrite <-(index_slots k Hk (released _)).
  split; [|by intros ->]. intros E. apply (index_inj k Hk); [done|lia].
Qed.

Lemma empty_spec s :
  inv_state s → buf_ring_empty (ring (memory s)) = bool_decide (claimed (memory s) = published (memory s)).
Proof.
  intros H. pose proof (inv_order _ _ _ H) as [Ho1 Ho2].
  unfold buf_ring_empty. rewrite (inv_prod_tail _ _ _ H), (inv_cons_head _ _ _ H).
  apply bool_decide_ext, index_eq. lia.
Qed.

Lemma count_spec s :
  inv_state s → buf_ring_count (ring (memory s)) = Z.of_nat (published (memory s) - released (memory s)).
Proof.
  intros H. pose proof (inv_order _ _ _ H) as [Ho1 Ho2]. pose proof (inv_sizes _ _ _ H) as (Hz & Hm & _).
  unfold buf_ring_count. rewrite Hz, Hm, (inv_prod_tail _ _ _ H), (inv_cons_tail _ _ _ H).
  pose proof (slots_Z k) as Hs. rewrite (mask_ones k), Z.land_ones by lia. unfold u32, index.
  pose proof (slots_range k Hk) as [_ Hr].
  assert ((2 ^ Z.of_nat k | 2 ^ 32)) as Hdiv.
  { exists (2 ^ (32 - Z.of_nat k)). rewrite <-Z.pow_add_r by lia. f_equal. lia. }
  rewrite Z.mod_mod_divide by done.
  rewrite Zminus_mod, Zminus_mod_idemp_r, Zplus_mod_idemp_r, <-Zminus_mod.
  replace (2 ^ Z.of_nat k + Z.of_nat (published (memory s)) - Z.of_nat (released (memory s)))
    with (Z.of_nat (published (memory s) - released (memory s)) + 1 * 2 ^ Z.of_nat k) by lia.
  rewrite Z.mod_add by lia. apply Z.mod_small. lia.
Qed.

(** The oldest buffer of the contents is in the slot at [br_cons_head]. *)
Lemma oldest_slot s :
  inv_state s → at_rest s → contents s ≠ [] →
  br_ring (ring (memory s)) !! Z.to_nat (index k (claimed (memory s))) = Some (hd 0 (contents s)) ∧
  (reserved (memory s)).*1 !! claimed (memory s) = Some (hd 0 (contents s)).
Proof.
  intros H Hrest Hne. destruct (at_rest_counts s H Hrest) as (Hr & Hc & _ & _ & Hun).
  destruct (contents_spec s H) as [_ Hlen].
  assert ((reserved (memory s)).*1 !! claimed (memory s) = Some (hd 0 (contents s))) as Hlk.
  { rewrite Hc. unfold contents in *. rewrite take_ge in * by lia.
    destruct (drop (released (memory s)) (reserved (memory s)).*1) as [|x q] eqn:E; [done|].
    rewrite <-(Nat.add_0_r (released (memory s))), <-lookup_drop, E. done. }
  split; [|done]. apply (inv_slots _ _ _ H); [lia|done|]. rewrite Hun. apply not_elem_of_nil.
Qed.

End reach.

(** ** Concrete executions *)

#[global] Instance no_lap_dec k l s : Decision (no_lap k l s).
Proof. destruct l as [i b z|i mc|i]; simpl; [apply _..|]. destruct (threads s !! i) as [[]|]; simpl; apply _. Defined.

Fixpoint runs (k : nat) (ls : list label) (s : state) : option state :=
  match ls with
  | [] => Some s
  | l :: ls => if decide (no_lap k l s) then s ← exec l s; runs k ls s else None
  end.

Lemma runs_reachable k n ls s s' : reachable k n s → runs k ls s = Some s' → reachable k n s'.
Proof.
  revert s. induction ls as [|l ls IH]; intros s Hs Hr; simpl in Hr; [by simplify_eq|].
  case_decide; [|done]. destruct (exec l s) as [s1|] eqn:E; [|done]. simpl in Hr.
  eapply IH; [|done]. by eapply reach_step.
Qed.

(** An unused ring, here with zeroes in the slots. *)
Definition zero_ring (k : nat) : buf_ring :=
  BufRing 0 0 (2 ^ Z.of_nat k) (2 ^ Z.of_nat k - 1) 0 0 0 0 (2 ^ Z.of_nat k) (2 ^ Z.of_nat k - 1) (replicate (2 ^ k) 0).
Lemma zero_ring_unused k : unused k (zero_ring k).
Proof. split; simpl; try done. split_and!; try done. apply length_replicate. Qed.

Definition after (k n : nat) (ls : list label) : state :=
  default (initial (zero_ring k) n) (runs k ls (initial (zero_ring k) n)).
Lemma after_reachable k n ls : reachable k n (after k n ls).
Proof.
  unfold after. pose proof (reach_initial k n _ (zero_ring_unused k)).
  destruct (runs k ls _) eqn:E; [by eapply runs_reachable|done].
Qed.

(** Two producers reserve places; the second stores first and waits for the first,
    then publishes while a consumer takes the buffer of the first. *)
Definition crossing : list label :=
  [CallEnqueue 0 10 100; CallEnqueue 1 20 50] ++ replicate 3 (Run 0) ++ replicate 5 (Run 1) ++
  replicate 7 (Run 0) ++ [CallDequeue 2 true] ++ replicate 3 (Run 2) ++ replicate 6 (Run 1) ++ replicate 2 (Run 2).

Example crossing_busy :
  threads (after 2 3 crossing) = [Idle; Idle; DeqRelease true 10 1 0] ∧
  returned (memory (after 2 3 crossing)) = [Enqueued 0 10; Enqueued 1 20].
Proof. vm_compute. done. Qed.

(** ** Properties *)

(** C10: a ring buffer is a bounded first-in first-out queue, whatever the
    interleaving. In every execution of any number of producers and consumers in
    which no thread is overtaken by a whole lap between reading a head and its
    compare-and-swap, the buffers that dequeues returned, in the order of their
    returns, are the first of the buffers that enqueues accepted, in the order of
    theirs: none is lost, returned twice or reordered. Fewer are in the ring than
    it has slots, and no thread ever accesses a slot outside the array. *)
Theorem buf_ring_is_fifo (k n : nat) (s : state) (Hk : (1 ≤ k ≤ 30)%nat) (Hs : reachable k n s) :
  (∃ rest, enqueued s = dequeued s ++ rest ∧ (length rest < 2 ^ k)%nat) ∧
  (∀ i p, threads s !! i = Some p → p ≠ Idle → is_Some (exec (Run i) s)).
Proof.
  pose proof (inv_reachable k Hk n s Hs) as H. pose proof (inv_order _ _ _ H) as [Ho1 Ho2]. split.
  - destruct (contents_spec k Hk s H) as [Hq Hlen]. exists (contents s). split; [done|].
    unfold slots in *. lia.
  - intros i p Hp Hne. destruct (run_defined k Hk s i p H Hp Hne) as [[p' m'] Hr].
    simpl. rewrite Hp. simpl. rewrite Hr. by eexists.
Qed.

Lemma buf_ring_is_fifo_witness :
  enqueued (after 2 3 crossing) = [10; 20] ∧
  (∃ rest, enqueued (after 2 3 crossing) = dequeued (after 2 3 crossing) ++ rest ∧ (length rest < 2 ^ 2)%nat).
Proof.
  split; [vm_compute; reflexivity|].
  apply (buf_ring_is_fifo 2 3 (after 2 3 crossing) ltac:(lia) (after_reachable _ _ _)).
Defined.

(** The functions that look at a ring are right when no call is in progress,
    and so are the statistics. buf_ring_count is the number of buffers in the
    ring, buf_ring_full says that it is one less than the number of slots,
    buf_ring_empty that there is none, buf_ring_peek gives the oldest without
    taking it; br_prod_bufs counts the accepted buffers and br_prod_bytes adds up
    their sizes, modulo 2^64. *)
Theorem buf_ring_at_rest (k n : nat) (s : state) (Hk : (1 ≤ k ≤ 30)%nat) (Hs : reachable k n s)
    (Hrest : at_rest s) :
  let r := ring (memory s) in
  ∃ q, enqueued s = dequeued s ++ q ∧
    buf_ring_count r = Z.of_nat (length q) ∧
    buf_ring_full r = bool_decide (S (length q) = 2 ^ k)%nat ∧
    buf_ring_empty r = bool_decide (q = []) ∧
    buf_ring_peek r = Some (hd 0 q) ∧
    (reserved (memory s)).*1 = enqueued s ∧
    br_prod_bufs r = u64 (Z.of_nat (length (enqueued s))) ∧
    br_prod_bytes r = u64 (total_bytes (reserved (memory s))).
Proof.
  pose proof (inv_reachable k Hk n s Hs) as H. pose proof (inv_order _ _ _ H) as [Ho1 Ho2].
  destruct (contents_spec k Hk s H) as [Hq Hlen]. destruct (at_rest_counts k Hk s H Hrest) as (Hr & Hc & Hb & Hby & _).
  assert ((reserved (memory s)).*1 = enqueued s) as Hres.
  { unfold enqueued. rewrite (inv_enqueued _ _ _ H), take_ge by lia. done. }
  exists (contents s). split_and!; [done|..|done| |].
  - rewrite (count_spec k Hk s H). by rewrite Hlen.
  - rewrite (full_spec k Hk s H). apply bool_decide_ext. unfold slots. lia.
  - rewrite (empty_spec k Hk s H). apply bool_decide_ext. rewrite <-length_zero_iff_nil. lia.
  - unfold buf_ring_peek. rewrite (inv_cons_head _ _ _ H), (inv_prod_tail _ _ _ H).
    destruct (decide (contents s = [])) as [He|Hne].
    + rewrite He. rewrite decide_True; [done|]. f_equal. rewrite He in Hlen. simpl in Hlen. lia.
    + assert (0 < length (contents s))%nat by (destruct (contents s); [done|simpl; lia]).
      rewrite decide_False by (intros E; apply (index_inj k Hk) in E; lia).
      by apply (oldest_slot k Hk s H Hrest Hne).
  - rewrite (inv_bufs _ _ _ H), Hb, <-Hres, length_fmap, Hr. do 2 f_equal. simpl. lia.
  - rewrite (inv_bytes _ _ _ H), Hby, take_ge by (simpl; lia). done.
Qed.

Lemma buf_ring_at_rest_witness :
  let s := after 2 3 (crossing ++ [Run 2]) in
  at_rest s ∧ ∃ q, enqueued s = dequeued s ++ q ∧ buf_ring_count (ring (memory s)) = Z.of_nat (length q) ∧
    buf_ring_peek (ring (memory s)) = Some (hd 0 q).
Proof.
  intros s. assert (at_rest s) as Hrest by (vm_compute; repeat constructor). split; [exact Hrest|].
  destruct (buf_ring_at_rest 2 3 s ltac:(lia) (after_reachable _ _ _) Hrest) as (q & H1 & H2 & _ & _ & H3 & _).
  exists q. split; [exact H1|split; [exact H2|exact H3]].
Defined.

(** What the calls return is true when they return. An enqueue that returns 0
    has added its buffer behind all others; a dequeue that returns a buffer has
    taken the oldest; ENOBUFS is returned when at that moment the ring is full,
    provided that no other producer has reserved a slot since the head was read;
    NULL when at that moment the ring is empty, always in buf_ring_dequeue_sc, and
    in buf_ring_dequeue_mc provided that no other consumer has claimed a slot
    since the head was read. *)
Theorem buf_ring_results (k n i : nat) (s s' : state) (p : pc) (Hk : (1 ≤ k ≤ 30)%nat) (Hs : reachable k n s)
    (Hp : threads s !! i = Some p) (Hf : fresh k p (memory s)) (Hrun : exec (Run i) s = Some s')
    (Hidle : threads s' !! i = Some Idle) :
  match p with
  | EnqTail b nb h a => a = length (reserved (memory s)) → buf_ring_full (ring (memory s)) = true
  | EnqPublish b nx a => enqueued s' = enqueued s ++ [b] ∧ contents s' = contents s ++ [b]
  | DeqTail mc h a => mc = false ∨ a = claimed (memory s) → buf_ring_empty (ring (memory s)) = true
  | DeqRelease mc b nx a => dequeued s' = dequeued s ++ [b] ∧ contents s = b :: contents s'
  | _ => False
  end.
Proof.
  pose proof (inv_reachable k Hk n s Hs) as H.
  assert (inv k (threads s') (memory s')) as H'.
  { eapply (inv_exec k Hk (Run i)); [done| |done]. simpl. by rewrite Hp. }
  destruct (contents_spec k Hk s H) as [Hq Hlen]. destruct (contents_spec k Hk s' H') as [Hq' Hlen'].
  destruct (insert_thread (threads s) i p p Hp) as [Hperm _].
  pose proof H as Hi. rewrite Hperm in Hi. pose proof (inv_threads _ _ _ Hi) as Hth. apply Forall_cons in Hth as [Hok _].
  simpl in Hrun. rewrite Hp in Hrun. simpl in Hrun.
  destruct (run p (memory s)) as [[p' m']|] eqn:Er; [|done]. simpl in Hrun. injection Hrun as <-. simpl in *.
  rewrite list_lookup_insert_eq in Hidle by (by eapply lookup_lt_Some). injection Hidle as ->.
  pose proof (inv_order _ _ _ H) as [Ho1 Ho2].
  destruct p; simpl in Er; repeat case_decide; simplify_option_eq; try done.
  - intros ->. destruct Hok as [-> _]. unfold buf_ring_full. by rewrite (inv_prod_head _ _ _ H), bool_decide_true.
  - destruct Hok as (_ & Hres & ->). unfold enqueued, contents. simpl. rewrite omap_app. split; [done|].
    destruct (reserved (memory s) !! published (memory s)) as [[b' n']|] eqn:E; rewrite list_lookup_fmap, E in Hres; simplify_eq/=.
    rewrite (take_S_r _ _ (buf, n')) by done.
    rewrite fmap_app, drop_app_le; [done|]. rewrite length_fmap, length_take. lia.
  - intros Ha. assert (at_ = claimed (memory s)) as -> by (destruct mc; naive_solver).
    destruct Hok as [E _]. unfold buf_ring_empty. by rewrite (inv_cons_head _ _ _ H), E, bool_decide_true.
  - by destruct (_ : bool).
  - destruct Hok as (_ & Hres & ->). unfold dequeued, contents. simpl. rewrite omap_app. split; [done|].
    pose proof (consumer_range k Hk _ _ _ (released (memory s)) Hi eq_refl) as Hr.
    rewrite list_lookup_fmap in Hres. destruct (reserved (memory s) !! released (memory s)) as [[b' n']|] eqn:E; simplify_eq/=.
    apply drop_S. rewrite list_lookup_fmap, lookup_take_lt, E by lia. done.
Qed.

Lemma buf_ring_results_witness :
  let s := after 2 3 crossing in let s' := after 2 3 (crossing ++ [Run 2]) in
  dequeued s' = dequeued s ++ [10] ∧ contents s = 10 :: contents s'.
Proof.
  intros s s'.
  apply (buf_ring_results 2 3 2 s s' (DeqRelease true 10 1 0) ltac:(lia) (after_reachable _ _ _));
    vm_compute; reflexivity || exact I.
Defined.
