(* ===== verification/BufRingLive.v ===== *)
(** * Ring buffers: calls end

    A thread waits only for the threads before it, so some call can always be
    completed; what the calls do when no other is in progress; and what goes wrong
    when a thread is delayed between two accesses. *)

From S2P Require Import Prelude BufRing BufRingInv BufRingSpec.

Section live.
Context (k : nat).
Hypothesis Hk : (1 ≤ k ≤ 30)%nat.

Abbreviation inv_state s := (inv k (threads s) (memory s)).

(** The accesses of one call, while no other thread moves. *)
Fixpoint solo (fuel : nat) (p : pc) (m : shared) : option shared :=
  match fuel with
  | 0%nat => None
  | S fuel =>
      '(p', m') ← run p m;
      match p' with Idle => Some m' | _ => solo fuel p' m' end
  end.

Lemma solo_step fuel p m p' m' :
  run p m = Some (p', m') → p' ≠ Idle → solo (S fuel) p m = solo fuel p' m'.
Proof. intros E Hp. cbn [solo]. rewrite E. by destruct p'. Qed.
Lemma solo_done fuel p m m' : run p m = Some (Idle, m') → solo (S fuel) p m = Some m'.
Proof. intros E. cbn [solo]. by rewrite E. Qed.

Lemma solo_execs N i p s m' :
  threads s !! i = Some p → solo N p (memory s) = Some m' →
  ∃ j, (j ≤ N)%nat ∧ execs (replicate j (Run i)) s = Some (State (<[i := Idle]> (threads s)) m').
Proof.
  revert p s. induction N as [|N IH]; intros p s Hp Hs; [done|]. simpl in Hs.
  destruct (run p (memory s)) as [[p' m1]|] eqn:Er; [|done]. simpl in Hs.
  destruct (decide (p' = Idle)) as [->|Hne].
  - injection Hs as <-. exists 1%nat. split; [lia|]. simpl. rewrite Hp. simpl. by rewrite Er.
  - destruct (IH p' (State (<[i := p']> (threads s)) m1)) as (j & Hj & Hex).
    + simpl. rewrite list_lookup_insert_eq by (by eapply lookup_lt_Some). done.
    + simpl. by destruct p'.
    + exists (S j). split; [lia|]. simpl. rewrite Hp. simpl. rewrite Er. simpl. rewrite Hex. simpl.
      by rewrite list_insert_insert_eq.
Qed.

(** A thread that moves alone is not overtaken. *)
Definition undisturbed (p : pc) (m : shared) : Prop :=
  match p with
  | EnqTail _ _ _ a | EnqCas _ _ _ _ a => a = length (reserved m)
  | DeqTail _ _ a | DeqClaim _ _ _ a => a = claimed m
  | _ => True
  end.

Lemma undisturbed_run p m p' m' : undisturbed p m → run p m = Some (p', m') → undisturbed p' m'.
Proof.
  intros Hu Hr. destruct p; simpl in *; simplify_option_eq; repeat case_decide; simplify_eq/=; try done; by case_match.
Qed.
Lemma undisturbed_fresh p m : undisturbed p m → fresh k p m.
Proof. pose proof (slots_range k Hk) as [Hs _]. unfold slots in Hs. destruct p; simpl; intros; subst; lia. Qed.

Lemma reachable_run n i j p s s' :
  reachable k n s → threads s !! i = Some p → undisturbed p (memory s) →
  execs (replicate j (Run i)) s = Some s' → reachable k n s'.
Proof.
  revert p s. induction j as [|j IH]; intros p s Hs Hp Hu Hex; [by injection Hex as <-|]. cbn [replicate execs] in Hex.
  destruct (exec (Run i) s) as [s1|] eqn:E1; [|done]. simpl in Hex.
  assert (reachable k n s1) as Hs1.
  { eapply reach_step; [done| |done]. simpl. rewrite Hp. by apply undisturbed_fresh. }
  simpl in E1. rewrite Hp in E1. simpl in E1. destruct (run p (memory s)) as [[p' m']|] eqn:Er; [|done].
  injection E1 as <-. eapply (IH p'); [done| |by eapply undisturbed_run|done].
  simpl. by rewrite list_lookup_insert_eq by (by eapply lookup_lt_Some).
Qed.

(** The call returns within [N] accesses. *)
Definition finishes (N : nat) (p : pc) (m : shared) : Prop :=
  ∃ m' e, solo N p m = Some m' ∧ returned m' = returned m ++ [e].

Lemma finishes_step N p m p' m1 :
  run p m = Some (p', m1) → p' ≠ Idle → returned m1 = returned m → finishes N p' m1 → finishes (S N) p m.
Proof. intros Er Hne Hret (m' & e & Hs & Hm'). exists m', e. rewrite (solo_step N p m p' m1) by done. by rewrite <-Hret. Qed.

Lemma solo_more N p m m' : solo N p m = Some m' → solo (S N) p m = Some m'.
Proof.
  revert p m. induction N as [|N IH]; intros p m Hs; [done|]. cbn [solo] in *.
  destruct (run p m) as [[p' m1]|]; [|done]. cbn in *. destruct p'; try done; by apply IH.
Qed.
Lemma solo_le N N' p m m' : solo N p m = Some m' → (N ≤ N')%nat → solo N' p m = Some m'.
Proof. intros Hs Hle. induction Hle; [done|]. by apply solo_more. Qed.
Lemma finishes_le N N' p m : finishes N p m → (N ≤ N')%nat → finishes N' p m.
Proof. intros (m' & e & Hs & Hm') Hle. exists m', e. split; [by eapply solo_le|done]. Qed.

Lemma solo_enqueue s b nb :
  inv_state s → at_rest s → (S (length (contents s)) < slots k)%nat →
  ∃ m', solo 10 (EnqHead b nb) (memory s) = Some m' ∧
    returned m' = returned (memory s) ++ [Enqueued (length (reserved (memory s))) b] ∧
    reserved m' = reserved (memory s) ++ [(b, nb)] ∧ published m' = S (published (memory s)) ∧
    released m' = released (memory s).
Proof.
  intros H Hrest Hroom. destruct (at_rest_counts k Hk s H Hrest) as (Hr & Hc & _).
  destruct (contents_spec k Hk s H) as [_ Hlen]. pose proof (inv_sizes _ _ _ H) as (_ & Hm & _ & Hsl).
  pose proof (inv_order _ _ _ H) as [Ho1 Ho2]. pose proof (slots_range k Hk) as [Hs2 _].
  pose proof (inv_prod_head _ _ _ H) as Hph. pose proof (inv_prod_tail _ _ _ H) as Hpt.
  destruct (lookup_lt_is_Some_2 (br_ring (ring (memory s))) (Z.to_nat (index k (length (reserved (memory s)))))) as [v Hv].
  { rewrite Hsl. pose proof (index_range k Hk (length (reserved (memory s)))) as Hi.
    rewrite <-slots_Z in Hi by done. lia. }
  eexists. split.
  - do 2 (erewrite solo_step; [|cbn [run]; rewrite ?Hm, ?Hph, ?(ring_next_index k Hk), ?(inv_cons_tail _ _ _ H), ?decide_False;
      [reflexivity|try (rewrite <-(index_slots k Hk (released _)); intros E; apply (index_inj k Hk) in E; lia)..]|done]).
    erewrite solo_step; [|cbn [run]; rewrite decide_True by done; reflexivity|done].
    erewrite solo_step; [|cbn [run]; unfold slot; cbn; rewrite Hv; reflexivity|done].
    erewrite solo_step; [|cbn [run]; rewrite decide_True by (cbn; by rewrite Hpt, Hr); reflexivity|done].
    do 4 (erewrite solo_step; [|reflexivity|done]). erewrite solo_done; reflexivity.
  - done.
Qed.

Lemma solo_enqueue_full s b nb :
  inv_state s → at_rest s → ¬ (S (length (contents s)) < slots k)%nat →
  solo 10 (EnqHead b nb) (memory s) = Some (log Full (memory s)).
Proof.
  intros H Hrest Hroom. destruct (at_rest_counts k Hk s H Hrest) as (Hr & Hc & _).
  destruct (contents_spec k Hk s H) as [_ Hlen]. pose proof (inv_order _ _ _ H) as [Ho1 Ho2].
  erewrite solo_step; [|reflexivity|done]. apply solo_done. cbn [run].
  assert (buf_ring_full (ring (memory s)) = true) as Hfull%bool_decide_eq_true.
  { rewrite (full_spec k Hk s H). apply bool_decide_eq_true. lia. }
  by rewrite decide_True.
Qed.

Lemma solo_dequeue s mc :
  inv_state s → at_rest s → contents s ≠ [] →
  ∃ m', solo 6 (DeqHead mc) (memory s) = Some m' ∧
    returned m' = returned (memory s) ++ [Dequeued (claimed (memory s)) (hd 0 (contents s))] ∧
    reserved m' = reserved (memory s) ∧ published m' = published (memory s) ∧
    released m' = S (released (memory s)).
Proof.
  intros H Hrest Hne. destruct (at_rest_counts k Hk s H Hrest) as (Hr & Hc & _).
  destruct (contents_spec k Hk s H) as [_ Hlen]. destruct (oldest_slot k Hk s H Hrest Hne) as [Hslot _].
  pose proof (inv_order _ _ _ H) as [Ho1 Ho2]. pose proof (slots_range k Hk) as [Hs2 _].
  assert (0 < length (contents s))%nat as Hpos by (destruct (contents s); [done|simpl; lia]).
  eexists. split.
  - erewrite solo_step; [|cbn [run]; rewrite (inv_cons_head _ _ _ H); reflexivity|done].
    erewrite solo_step; [|cbn [run]; rewrite (inv_prod_tail _ _ _ H), decide_False;
      [reflexivity|intros E; apply (index_inj k Hk) in E; lia]|done].
    erewrite solo_step; [|cbn [run]; rewrite (inv_cons_head _ _ _ H), decide_False by naive_solver; reflexivity|done].
    erewrite solo_step; [|cbn [run]; unfold slot; cbn; rewrite Hslot; reflexivity|by destruct mc].
    destruct mc; [|erewrite solo_done; reflexivity].
    erewrite solo_step; [|cbn [run]; rewrite decide_True by (cbn; by rewrite (inv_cons_tail _ _ _ H), Hc); reflexivity|done].
    erewrite solo_done; reflexivity.
  - by destruct mc.
Qed.
Lemma solo_dequeue_empty s mc :
  inv_state s → at_rest s → contents s = [] →
  solo 6 (DeqHead mc) (memory s) = Some (log Empty (memory s)).
Proof.
  intros H Hrest Hnil. destruct (at_rest_counts k Hk s H Hrest) as (Hr & Hc & _).
  destruct (contents_spec k Hk s H) as [_ Hlen]. pose proof (inv_order _ _ _ H) as [Ho1 Ho2].
  rewrite Hnil in Hlen. simpl in Hlen. erewrite solo_step; [|reflexivity|done]. apply solo_done. cbn [run].
  assert (buf_ring_empty (ring (memory s)) = true) as Hempty%bool_decide_eq_true.
  { rewrite (empty_spec k Hk s H). apply bool_decide_eq_true. lia. }
  by rewrite decide_True.
Qed.

(** ** Threads that need not wait *)

Definition past_spin (p : pc) : bool :=
  match p with
  | EnqBufs _ _ _ _ | EnqBufsAdd _ _ _ _ _ | EnqBytes _ _ _ _ | EnqBytesAdd _ _ _ _ _ | EnqPublish _ _ _
  | DeqRelease _ _ _ _ => true
  | _ => false
  end.

Lemma finishes_past_spin p m : past_spin p = true → finishes 5 p m.
Proof. destruct p; try done; intros _; unfold finishes; simpl; do 2 eexists; split; reflexivity. Qed.

Ltac next_access :=
  eapply finishes_step; [cbn [run]; rewrite ?decide_True by done; reflexivity|done|reflexivity|].

Lemma finishes_spin b n h nx a m : br_prod_tail (ring m) = h → finishes 6 (EnqSpin b n h nx a) m.
Proof. intros E. next_access. by apply finishes_past_spin. Qed.

Lemma finishes_store b n h nx a m :
  br_prod_tail (ring m) = h → is_Some (slot h (ring m)) → finishes 7 (EnqStore b n h nx a) m.
Proof.
  intros E [v Hv]. eapply finishes_step; [cbn [run]; rewrite Hv; reflexivity|done|reflexivity|].
  by apply finishes_spin.
Qed.

Lemma finishes_full N b n h a m :
  (∀ nx, finishes N (EnqCas b n h nx a) m) → finishes (S N) (EnqTail b n h a) m.
Proof.
  intros Hcas. destruct (decide (ring_next h (br_prod_mask (ring m)) = br_cons_tail (ring m))) as [E|E].
  - eexists _, _. split; [apply solo_done; cbn [run]; rewrite decide_True by done; reflexivity|reflexivity].
  - eapply finishes_step; [cbn [run]; rewrite decide_False by done; reflexivity|done|reflexivity|apply Hcas].
Qed.

(** No producer is at work: even a thread with an old head gets through. *)
Lemma finishes_cas b n h nx a m :
  br_prod_head (ring m) = h → br_prod_tail (ring m) = h → is_Some (slot h (ring m)) →
  finishes 8 (EnqCas b n h nx a) m.
Proof. intros E1 E2 Hs. next_access. by apply finishes_store. Qed.

Lemma finishes_enqueue p m :
  br_prod_tail (ring m) = br_prod_head (ring m) → is_Some (slot (br_prod_head (ring m)) (ring m)) →
  match p with EnqHead _ _ | EnqTail _ _ _ _ | EnqCas _ _ _ _ _ => True | _ => False end →
  finishes 12 p m.
Proof.
  intros E Hs Hp.
  assert (∀ b n, finishes 10 (EnqHead b n) m) as Hhead.
  { intros b' n'. next_access. apply finishes_full. intros nx. by apply finishes_cas. }
  assert (∀ b n h nx a, finishes 11 (EnqCas b n h nx a) m) as Hcas.
  { intros b' n' h nx a. destruct (decide (br_prod_head (ring m) = h)) as [<-|Hne].
    - apply (finishes_le 8); [by apply finishes_cas|lia].
    - eapply finishes_step; [cbn [run]; rewrite decide_False by done; reflexivity|done|reflexivity|done]. }
  destruct p; try done.
  - by apply (finishes_le 10); [|lia].
  - by apply finishes_full.
  - by apply (finishes_le 11); [|lia].
Qed.

Lemma finishes_load mc h nx a m :
  br_cons_tail (ring m) = h → is_Some (slot h (ring m)) → finishes 7 (DeqLoad mc h nx a) m.
Proof.
  intros E [v Hv]. eapply finishes_step; [cbn [run]; rewrite Hv; reflexivity|by destruct mc|reflexivity|].
  destruct mc; [|by apply (finishes_le 5); [apply finishes_past_spin|lia]].
  next_access. by apply finishes_past_spin.
Qed.

(** No consumer is at work. *)
Lemma finishes_dequeue p m :
  br_cons_tail (ring m) = br_cons_head (ring m) → is_Some (slot (br_cons_head (ring m)) (ring m)) →
  match p with
  | DeqHead _ => True
  | DeqTail mc h _ | DeqClaim mc h _ _ => mc = false → h = br_cons_head (ring m)
  | _ => False
  end →
  finishes 12 p m.
Proof.
  intros E Hs Hp.
  assert (∀ mc nx a, finishes 8 (DeqClaim mc (br_cons_head (ring m)) nx a) m) as Hclaim.
  { intros mc nx a. eapply finishes_step; [cbn [run]; rewrite decide_False by naive_solver; reflexivity|done|reflexivity|].
    by apply finishes_load. }
  assert (∀ N mc h a, (∀ nx, finishes N (DeqClaim mc h nx a) m) → finishes (S N) (DeqTail mc h a) m) as Htail.
  { intros N mc h a Hc. destruct (decide (h = br_prod_tail (ring m))) as [Ee|Ee].
    - eexists _, _. split; [apply solo_done; cbn [run]; rewrite decide_True by done; reflexivity|reflexivity].
    - eapply finishes_step; [cbn [run]; rewrite decide_False by done; reflexivity|done|reflexivity|apply Hc]. }
  assert (∀ mc, finishes 10 (DeqHead mc) m) as Hhead by (intros mc; next_access; by apply Htail).
  assert (∀ mc h nx a, (mc = false → h = br_cons_head (ring m)) → finishes 11 (DeqClaim mc h nx a) m) as Hany.
  { intros mc h nx a Hmc. destruct (decide (mc = true ∧ br_cons_head (ring m) ≠ h)) as [Hne|Heq].
    - eapply finishes_step; [cbn [run]; rewrite decide_True by done; reflexivity|done|reflexivity|done].
    - assert (h = br_cons_head (ring m)) as ->.
      { destruct mc; [|by apply Hmc]. symmetry. apply dec_stable. intros Hne. by apply Heq. }
      apply (finishes_le 8); [done|lia]. }
  destruct p; try done.
  - by apply (finishes_le 10); [|lia].
  - apply Htail. intros nx. by apply Hany.
  - apply (finishes_le 11); [by apply Hany|lia].
Qed.

Lemma slot_index a m : length (br_ring (ring m)) = slots k → is_Some (slot (index k a) (ring m)).
Proof.
  intros Hlen. apply lookup_lt_is_Some_2. rewrite Hlen. pose proof (index_range k Hk a) as Hi.
  rewrite <-slots_Z in Hi by done. lia.
Qed.

(** The producer that publishes next, the consumer that releases next and, when
    there are none, every thread can finish its call alone. *)
Lemma owner_finishes p ts m :
  inv k (p :: ts) m →
  prod_place p = Some (published m) ∨ cons_place p = Some (released m) → finishes 12 p m.
Proof.
  intros H Hown. pose proof (inv_threads _ _ _ H) as Hth. apply Forall_cons in Hth as [Hok _].
  pose proof (inv_sizes _ _ _ H) as (_ & _ & _ & Hlen).
  destruct (past_spin p) eqn:Ep; [apply (finishes_le 5); [by apply finishes_past_spin|lia]|].
  destruct p; try done; destruct Hown as [Hown|Hown]; try done; simpl in Hown; simplify_eq; simpl in Hok.
  - destruct Hok as (-> & _). apply (finishes_le 7); [|lia].
    apply finishes_store; [apply (inv_prod_tail _ _ _ H)|by apply slot_index].
  - destruct Hok as (-> & _). apply (finishes_le 6); [|lia]. apply finishes_spin, (inv_prod_tail _ _ _ H).
  - destruct Hok as (-> & _). apply (finishes_le 7); [|lia].
    apply finishes_load; [apply (inv_cons_tail _ _ _ H)|by apply slot_index].
  - destruct Hok as (-> & _). apply (finishes_le 6); [|lia].
    pose proof (inv_cons_tail _ _ _ H) as Hct. next_access. by apply finishes_past_spin.
Qed.

Lemma alone_finishes p ts m :
  inv k (p :: ts) m → length (reserved m) = published m → claimed m = released m → p ≠ Idle → finishes 12 p m.
Proof.
  intros H Hr Hc Hne. pose proof (inv_threads _ _ _ H) as Hth. apply Forall_cons in Hth as [Hok _].
  pose proof (inv_sizes _ _ _ H) as (_ & _ & _ & Hlen).
  pose proof (inv_prod_head _ _ _ H) as Hph. pose proof (inv_prod_tail _ _ _ H) as Hpt.
  pose proof (inv_cons_head _ _ _ H) as Hch. pose proof (inv_cons_tail _ _ _ H) as Hct.
  assert (∀ a, prod_place p ≠ Some a) as Hnp by (intros a E; pose proof (producer_range k Hk _ _ _ a H E); lia).
  assert (∀ a, cons_place p ≠ Some a) as Hnc by (intros a E; pose proof (consumer_range k Hk _ _ _ a H E); lia).
  destruct p; try done; try (by edestruct Hnp); try (by edestruct Hnc).
  1-3: apply finishes_enqueue; [by rewrite Hph, Hpt, Hr|rewrite Hph; by apply slot_index|done].
  all: apply finishes_dequeue; [by rewrite Hch, Hct, Hc|rewrite Hch; by apply slot_index|].
  all: simpl in Hok |- *; rewrite ?Hch; naive_solver.
Qed.

Lemma some_call_finishes s :
  inv_state s → ¬ at_rest s → ∃ i p, threads s !! i = Some p ∧ p ≠ Idle ∧ finishes 12 p (memory s).
Proof.
  intros H Hbusy. pose proof (inv_order _ _ _ H) as [Ho1 Ho2].
  assert (∀ p, p ∈ threads s → ∃ i, threads s !! i = Some p ∧ inv k (p :: delete i (threads s)) (memory s)) as Hfind.
  { intros p (i & Hi)%list_elem_of_lookup. exists i. split; [done|]. destruct (insert_thread _ _ _ p Hi) as [Hperm _].
    by rewrite <-Hperm. }
  destruct (decide (published (memory s) = length (reserved (memory s)))) as [Er|Er]; cycle 1.
  { assert (published (memory s) ∈ omap prod_place (threads s)) as (p & Hp & Hpl)%list_elem_of_omap
      by (rewrite (inv_producers _ _ _ H); apply elem_of_seq; lia).
    destruct (Hfind p Hp) as (i & Hi & Hip). exists i, p. split_and!; [done|by intros ->|].
    eapply owner_finishes; [done|by left]. }
  destruct (decide (claimed (memory s) = released (memory s))) as [Ec|Ec]; cycle 1.
  { assert (released (memory s) ∈ omap cons_place (threads s)) as (p & Hp & Hpl)%list_elem_of_omap
      by (rewrite (inv_consumers _ _ _ H); apply elem_of_seq; lia).
    destruct (Hfind p Hp) as (i & Hi & Hip). exists i, p. split_and!; [done|by intros ->|].
    eapply owner_finishes; [done|by right]. }
  apply not_Forall_Exists in Hbusy; [|apply _]. apply Exists_exists in Hbusy as (p & Hp & Hne).
  destruct (Hfind p Hp) as (i & Hi & Hip). exists i, p. split_and!; [done..|]. by eapply alone_finishes.
Qed.
End live.

(** ** The queue that a ring of 2^k slots implements *)

(** A call, what it returns and the contents afterwards; NULL is 0. *)
Inductive call := Enqueue (buf nbytes : Z) | Dequeue (mc : bool).
Definition queue_call (k : nat) (c : call) (q : list Z) : Z * list Z :=
  match c with
  | Enqueue buf _ => if decide (S (length q) < 2 ^ k)%nat then (0, q ++ [buf]) else (ENOBUFS, q)
  | Dequeue _ => (hd 0 q, tail q)
  end.
Definition call_label (i : nat) (c : call) : label :=
  match c with Enqueue buf n => CallEnqueue i buf n | Dequeue mc => CallDequeue i mc end.
Definition start (c : call) : pc := match c with Enqueue buf n => EnqHead buf n | Dequeue mc => DeqHead mc end.
Definition result (e : event) : Z :=
  match e with Enqueued _ _ => 0 | Full => ENOBUFS | Dequeued _ buf => buf | Empty => 0 end.

Lemma exec_threads l s s' : exec l s = Some s' → length (threads s') = length (threads s).
Proof.
  intros Hex. destruct l as [i b n|i mc|i]; simpl in Hex; destruct (threads s !! i) as [p|]; try done; simpl in Hex;
    [destruct p|destruct p; try destruct (may_dequeue _ _)|destruct (run p _) as [[p' m]|]]; simplify_eq/=;
    apply length_insert.
Qed.

Lemma start_call k n i c s :
  (i < n)%nat → reachable k n s → at_rest s →
  ∃ s1, exec (call_label i c) s = Some s1 ∧ reachable k n s1 ∧ memory s1 = memory s ∧
    threads s1 = <[i := start c]> (threads s) ∧ threads s !! i = Some Idle.
Proof.
  intros Hi Hs Hrest. assert (length (threads s) = n) as Hlen.
  { clear Hi Hrest. induction Hs as [r Hr|l s s' Hs IH _ Hex]; [apply length_replicate|].
    by rewrite (exec_threads _ _ _ Hex). }
  destruct (lookup_lt_is_Some_2 (threads s) i) as [p Hp]; [lia|].
  assert (p = Idle) as -> by (eapply (Forall_lookup_1 _ _ _ _ Hrest); done).
  assert (exec (call_label i c) s = Some (State (<[i := start c]> (threads s)) (memory s))) as Hex.
  { destruct c as [b nb|mc]; simpl; rewrite Hp; [done|]. enough (may_dequeue mc (threads s) = true) as -> by done.
    unfold may_dequeue, at_rest in *. destruct mc; rewrite forallb_forall; intros q Hq%list_elem_of_In;
      rewrite Forall_forall in Hrest; by rewrite (Hrest q). }
  eexists. split_and!; [done| |done..]. eapply reach_step; [done| |done]. by destruct c.
Qed.

Lemma solo_call k n c s :
  (1 ≤ k ≤ 30)%nat → reachable k n s → at_rest s →
  ∃ m' e, solo 10 (start c) (memory s) = Some m' ∧ returned m' = returned (memory s) ++ [e] ∧
    (result e, drop (released m') (take (published m') (reserved m')).*1) = queue_call k c (contents s).
Proof.
  intros Hk Hs Hrest. pose proof (inv_reachable k Hk n s Hs) as H. pose proof (inv_order _ _ _ H) as [Ho1 Ho2].
  destruct (at_rest_counts k Hk s H Hrest) as (Hr & Hc & _). destruct (contents_spec k Hk s H) as [_ Hlen].
  destruct c as [b nb|mc]; cbn [start queue_call].
  - case_decide as Hroom.
    + destruct (solo_enqueue k Hk s b nb H Hrest Hroom) as (m' & Hm & Hret & Eres & Epub & Erel).
      exists m'. eexists. split_and!; [done..|]. rewrite Eres, Epub, Erel. simpl. f_equal. unfold contents.
      rewrite take_ge, take_ge by (rewrite ?length_app; simpl; lia). rewrite fmap_app, drop_app_le; [done|].
      rewrite length_fmap. lia.
    + rewrite (solo_enqueue_full k Hk s b nb H Hrest Hroom). by eexists _, Full.
  - destruct (decide (contents s = [])) as [Hnil|Hne].
    + exists (log Empty (memory s)), Empty. split_and!; [|done|].
      * apply (solo_le 6); [|lia]. by apply (solo_dequeue_empty k Hk).
      * change (drop _ _) with (contents s). by rewrite Hnil.
    + destruct (solo_dequeue k Hk s mc H Hrest Hne) as (m' & Hm & Hret & Eres & Epub & Erel).
      exists m'. eexists. split_and!; [by apply (solo_le 6); [|lia]|done|]. rewrite Eres, Epub, Erel. simpl. f_equal.
      unfold contents. destruct (drop (released (memory s)) _) as [|x q] eqn:E; [done|]. simpl.
      rewrite <-Nat.add_1_r, <-drop_drop, E. done.
Qed.

(** ** Properties *)

(** One call at a time, a ring of 2^k slots is a bounded queue. From every
    reachable state in which no call is in progress, any thread may call any of
    the functions; the call returns after at most ten accesses to the ring. An
    enqueue into a ring that holds fewer than 2^k - 1 buffers returns 0 and appends
    the buffer, otherwise ENOBUFS and changes nothing; a dequeue returns the oldest
    buffer and removes it, or NULL. Again no call is in progress, and the state is
    reachable, so this holds for the next call as well. *)
Theorem buf_ring_refines_queue (k n i : nat) (c : call) (s : state) (Hk : (1 ≤ k ≤ 30)%nat) (Hi : (i < n)%nat)
    (Hs : reachable k n s) (Hrest : at_rest s) :
  ∃ j s' e, (j ≤ 10)%nat ∧
    execs (call_label i c :: replicate j (Run i)) s = Some s' ∧ reachable k n s' ∧ at_rest s' ∧
    returned (memory s') = returned (memory s) ++ [e] ∧
    (result e, contents s') = queue_call k c (contents s).
Proof.
  destruct (start_call k n i c s Hi Hs Hrest) as (s1 & Hex & Hs1 & Em & Et & Hidle).
  destruct (solo_call k n c s Hk Hs Hrest) as (m' & e & Hsolo & Hret & Hq). rewrite <-Em in Hsolo.
  assert (threads s1 !! i = Some (start c)) as Hst.
  { rewrite Et, list_lookup_insert_eq; [done|]. by eapply lookup_lt_Some. }
  destruct (solo_execs k Hk 10 i (start c) s1 m' Hst Hsolo) as (j & Hj & Hexs).
  exists j. eexists. exists e. split_and!; [done|cbn [execs]; rewrite Hex; exact Hexs| | |done|done].
  - eapply (reachable_run k Hk n i j (start c) s1); [done|done|by destruct c|done].
  - unfold at_rest in *. simpl. rewrite Et, list_insert_insert_eq. by apply Forall_insert.
Qed.

Lemma buf_ring_refines_queue_witness :
  let s := after 2 3 (crossing ++ [Run 2]) in
  contents s = [20] ∧
  ∃ j s' e, (j ≤ 10)%nat ∧ execs (CallDequeue 0 true :: replicate j (Run 0)) s = Some s' ∧
    (result e, contents s') = (20, []).
Proof.
  intros s. assert (at_rest s) as Hrest by (vm_compute; repeat constructor). split; [vm_compute; reflexivity|].
  destruct (buf_ring_refines_queue 2 3 0 (Dequeue true) s ltac:(lia) ltac:(lia) (after_reachable _ _ _) Hrest)
    as (j & s' & e & Hj & Hex & _ & _ & _ & Hq).
  exists j, s', e. split; [exact Hj|split; [exact Hex|exact Hq]].
Defined.

(** C12: the waiting loops end. Whenever calls are in progress, in whatever way
    they have interleaved so far, one of them can return after at most twelve
    accesses of its own thread, no other thread moving: the threads that wait in a
    loop wait for that one, and nothing deadlocks. *)
Theorem buf_ring_progress (k n : nat) (s : state) (Hk : (1 ≤ k ≤ 30)%nat) (Hs : reachable k n s)
    (Hbusy : at_rest s → False) :
  ∃ i p j s' e, threads s !! i = Some p ∧ p ≠ Idle ∧ (j ≤ 12)%nat ∧
    execs (replicate j (Run i)) s = Some s' ∧ threads s' = <[i := Idle]> (threads s) ∧
    returned (memory s') = returned (memory s) ++ [e].
Proof.
  destruct (some_call_finishes k Hk s (inv_reachable k Hk n s Hs) Hbusy) as (i & p & Hp & Hne & m' & e & Hsolo & Hret).
  destruct (solo_execs k Hk 12 i p s m' Hp Hsolo) as (j & Hj & Hex).
  exists i, p, j. eexists. exists e. by split_and!.
Qed.

Lemma buf_ring_progress_witness :
  let s := after 2 3 (take 10 crossing) in
  threads s !! 1%nat = Some (EnqSpin 20 50 1 2 1) ∧
  ∃ i j s' e, (j ≤ 12)%nat ∧ execs (replicate j (Run i)) s = Some s' ∧
    returned (memory s') = returned (memory s) ++ [e].
Proof.
  intros s. split; [vm_compute; reflexivity|].
  destruct (buf_ring_progress 2 3 s ltac:(lia) (after_reachable _ _ _)) as (i & p & j & s' & e & _ & _ & Hj & Hex & _ & Hret).
  { intros Hrest. apply (Forall_lookup_1 _ _ 1%nat (EnqSpin 20 50 1 2 1)) in Hrest; [discriminate|vm_compute; reflexivity]. }
  exists i, j, s', e. split; [exact Hj|split; [exact Hex|exact Hret]].
Defined.

(** ENOBUFS can be returned although the ring is nearly empty. A producer has
    read the head of a ring of four slots when another producer enqueues a buffer
    and a consumer takes it; the first producer then sees its old head just before
    the new tail and gives up, without looking at the head again. The ring is
    empty, and never held more than one buffer. *)
Theorem stale_head_reports_full :
  ∃ ls, let s := after 2 3 ls in
    reachable 2 3 s ∧ at_rest s ∧
    returned (memory s) = [Enqueued 0 20; Dequeued 0 20; Full] ∧
    buf_ring_empty (ring (memory s)) = true ∧ buf_ring_full (ring (memory s)) = false.
Proof.
  exists ([buf_ring_enqueue 0 10; Run 0; buf_ring_enqueue 1 20] ++ replicate 10 (Run 1) ++
    [CallDequeue 2 false] ++ replicate 5 (Run 2) ++ [Run 0]).
  split; [apply after_reachable|]. split; [vm_compute; repeat constructor|]. vm_compute. done.
Qed.

(** The condition on overtaking is needed. In a ring of two slots a producer
    is delayed before its compare-and-swap while others enqueue and dequeue a
    whole lap: the head has the same value again, the swap succeeds on a full
    ring, and the two buffers whose enqueues returned 0 can not be dequeued, since
    the ring says that it is empty. *)
Theorem lap_loses_buffers :
  ∃ ls s, execs ls (initial (zero_ring 1) 3) = Some s ∧ at_rest s ∧
    enqueued s = [20; 21; 10] ∧ dequeued s = [20] ∧
    buf_ring_empty (ring (memory s)) = true ∧ buf_ring_count (ring (memory s)) = 0.
Proof.
  exists ([buf_ring_enqueue 0 10; Run 0; Run 0; buf_ring_enqueue 1 20] ++ replicate 10 (Run 1) ++
    [CallDequeue 2 false] ++ replicate 5 (Run 2) ++ [buf_ring_enqueue 1 21] ++ replicate 10 (Run 1) ++ replicate 8 (Run 0)).
  eexists. split; [vm_compute; reflexivity|]. split; [vm_compute; repeat constructor|]. vm_compute. done.
Qed.
