(* ===== verification/ProcList.v ===== *)
(** * The kernel's process list and the search for process 1

    The kernel links its processes through [p_list] with the LIST macros; the
    payload searches that list from its own process (src/Payload/ps4-libjbc/
    jailbreak.c, [resolve]) and checks each [le_prev] on the way. What the macros
    maintain is what the search relies on. *)

From S2P Require Import Prelude KMem CStruct KernelRW KernelRWFacts KernelRWSpec Jailbreak JailbreakFacts.
From S2P Require Import JailbreakSpec WordHeap QueueList.
Import Krw Jbc.

(** [p_list] is the first member of a process. *)
Abbreviation p_list := 0.

(** ** The life of the process list *)

(** A process is created, from a free structure, or it exits. *)
Inductive change : Type := Fork (p : Z) | Exit (p : Z).

Definition perform (allproc : Z) (c : change) : M heap unit :=
  match c with
  | Fork p => LIST_INSERT_HEAD p_list allproc p
  | Exit p => LIST_REMOVE p_list p
  end.

Fixpoint perform_all (allproc : Z) (cs : list change) : M heap unit :=
  match cs with
  | [] => mret tt
  | c :: cs => _ ← perform allproc c; perform_all allproc cs
  end.

(** Structures that are on no list, with what is left in their links. *)
Definition spare_cells (spare : list (Z * Z * Z)) : cells :=
  concat ((λ '(e, n, p), node p_list e n p) <$> spare).

(** How the processes and the free structures change. *)
Inductive evolves (allproc : Z) :
    list Z → list (Z * Z * Z) → list change → list Z → list (Z * Z * Z) → Prop :=
  | evolves_done ps spare : evolves allproc ps spare [] ps spare
  | evolves_fork ps s1 s2 p n q cs ps' spare' :
      p ≠ 0 → evolves allproc (p :: ps) (s1 ++ s2) cs ps' spare' →
      evolves allproc ps (s1 ++ (p, n, q) :: s2) (Fork p :: cs) ps' spare'
  | evolves_exit xs p ys spare cs ps' spare' :
      evolves allproc (xs ++ ys) ((p, hd 0 ys, list_end p_list allproc xs) :: spare) cs ps' spare' →
      evolves allproc (xs ++ p :: ys) spare (Exit p :: cs) ps' spare'.

Lemma spare_cells_split s1 p n q s2 :
  spare_cells (s1 ++ (p, n, q) :: s2) ≡ₚ node p_list p n q ++ spare_cells (s1 ++ s2).
Proof. unfold spare_cells. rewrite !fmap_app, !concat_app. simpl. solve_Permutation. Qed.

Lemma evolves_nonnull allproc ps spare cs ps' spare' :
  evolves allproc ps spare cs ps' spare' → nonnull ps → nonnull ps'.
Proof.
  induction 1 as [|? ? ? ? ? ? ? ? ? Hp _ IH|? ? ? ? ? ? ? _ IH]; intros Hn; [done|apply IH; by constructor|].
  apply IH. rewrite Forall_app, Forall_cons in Hn. rewrite Forall_app. tauto.
Qed.

Lemma perform_all_spec allproc ps spare cs ps' spare' :
  evolves allproc ps spare cs ps' spare' → nonnull ps →
  triple (list_cells p_list allproc ps ++ spare_cells spare) (perform_all allproc cs) tt
    (list_cells p_list allproc ps' ++ spare_cells spare').
Proof.
  induction 1 as [|ps s1 s2 p n q cs ps' spare' Hp Hev IH|xs p ys spare cs ps' spare' Hev IH];
    intros Hn; cbn [perform_all perform].
  - apply triple_ret. done.
  - eapply (triple_call _ _ (spare_cells (s1 ++ s2))); [by apply (list_insert_head_spec p_list allproc p n q ps)| |].
    + rewrite spare_cells_split. solve_Permutation.
    + apply IH. by constructor.
  - rewrite Forall_app, Forall_cons in Hn. destruct Hn as (Hx & _ & Hy).
    eapply (triple_call _ _ (spare_cells spare)); [by apply (list_remove_spec p_list allproc xs p ys)|done|].
    rewrite <-app_assoc. apply IH. by apply Forall_app.
Qed.

(** The order of two processes that do not exit is kept. *)
Lemma evolves_order allproc ps spare cs ps' spare' p q :
  evolves allproc ps spare cs ps' spare' → Exit p ∉ cs → Exit q ∉ cs →
  sublist [p; q] ps → sublist [p; q] ps'.
Proof.
  induction 1 as [|ps s1 s2 e n r cs ps' spare' _ _ IH|xs e ys spare cs ps' spare' _ IH]; intros Hp Hq Hs.
  - done.
  - apply not_elem_of_cons in Hp as [_ Hp], Hq as [_ Hq]. apply IH; [done..|]. by constructor.
  - apply not_elem_of_cons in Hp as [Hpe Hp], Hq as [Hqe Hq]. apply IH; [done..|].
    assert (p ≠ e ∧ q ≠ e) as [Hpe' Hqe'] by (split; congruence).
    clear -Hs Hpe' Hqe'. revert Hs. generalize [p; q] (Forall_cons_2 (λ x, x ≠ e) p [q] Hpe'
      (Forall_cons_2 (λ x, x ≠ e) q [] Hqe' (Forall_nil_2 _))). intros l Hl.
    revert l Hl. induction xs as [|x xs IH]; intros l Hl Hs; simpl in *.
    + inversion Hs; subst; [by apply Forall_cons in Hl as [? _]|done].
    + inversion Hs as [| |]; subst; [apply Forall_cons in Hl as [_ Hl]; constructor; by apply IH|].
      constructor. by apply IH.
Qed.

(** ** The list in kernel memory *)

(** Kernel memory shows the pointer cells of the heap. *)
Definition shows (m : kmemory) (c : heap) : Prop :=
  ∀ a v, c !! a = Some v → heap_word 8 m a v.

(** Every listed process has a pid, and only [q] has pid 1. *)
Definition pids (m : kmemory) (ps : list Z) (q : Z) : Prop :=
  ∀ p, p ∈ ps → ∃ pid, heap_word 4 m (p + 0xb0) pid ∧ (pid = 1 ↔ p = q).

Lemma list_shows_proc_list m c head p mid q ys :
  shows m c → holds c (list_cells p_list head (p :: mid ++ q :: ys)) → pids m (p :: mid ++ [q]) q →
  p ≠ q → q ∉ mid → proc_list m p q (S (length mid)).
Proof.
  revert head p. induction mid as [|x mid IH]; intros head p Hsh Hh Hpid Hpq Hq; simpl in Hh.
  - destruct (Hpid p) as (pid & Hw & H1); [left|].
    assert (c !! le_next 0 p = Some q) as Hn by (eapply holds_lookup; [exact Hh|in_cells]).
    assert (c !! le_prev 0 q = Some (le_next 0 p)) as Hb by (eapply holds_lookup; [exact Hh|in_cells]).
    unfold le_next, le_prev in Hn, Hb. rewrite !Z.add_0_r in Hn. rewrite !Z.add_0_r in Hb.
    apply (proc_next m p q q 0 pid); [done|naive_solver|by apply Hsh|by apply Hsh|].
    constructor. destruct (Hpid q) as (pid' & Hw' & H1'); [right; left|]. by rewrite (proj2 H1') in Hw'.
  - apply not_elem_of_cons in Hq as [Hqx Hq].
    destruct (Hpid p) as (pid & Hw & H1); [left|].
    assert (c !! le_next 0 p = Some x) as Hn by (eapply holds_lookup; [exact Hh|in_cells]).
    assert (c !! le_prev 0 x = Some (le_next 0 p)) as Hb by (eapply holds_lookup; [exact Hh|in_cells]).
    assert (proc_list m x q (S (length mid))) as Hrest.
    { apply (IH (le_next 0 p)); [done| | |done|done].
      - destruct Hh as [Hnd Hall]. split; [by do 2 apply NoDup_cons in Hnd as [_ Hnd]|].
        by do 2 apply Forall_cons in Hall as [_ Hall].
      - intros y Hy. apply Hpid. by right. }
    unfold le_next, le_prev in Hn, Hb. rewrite !Z.add_0_r in Hn. rewrite !Z.add_0_r in Hb.
    apply (proc_next m p x q _ pid); [done|naive_solver|by apply Hsh|by apply Hsh|done].
Qed.

Lemma holds_app m P Q : holds m (P ++ Q) → holds m P ∧ holds m Q.
Proof.
  intros [Hnd Hall]. rewrite fmap_app in Hnd. apply NoDup_app in Hnd as (H1 & _ & H2).
  apply Forall_app in Hall as [H3 H4]. by split.
Qed.

Lemma list_cells_prev field p xs x : x ∈ xs → le_prev field x ∈ (list_cells field p xs).*1.
Proof.
  revert p. induction xs as [|y xs IH]; intros p Hx; [by apply elem_of_nil in Hx|].
  simpl. apply elem_of_cons in Hx as [->|Hx]; [right; left|]. right. right. by apply IH.
Qed.

Lemma list_cells_nodup field m p xs : holds m (list_cells field p xs) → NoDup xs.
Proof.
  revert p. induction xs as [|x xs IH]; intros p Hh; [constructor|].
  pose proof (holds_app m [(p, x)] ((le_prev field x, p) :: list_cells field (le_next field x) xs) Hh) as [_ H2].
  pose proof (holds_app m [(le_prev field x, p)] (list_cells field (le_next field x) xs) H2) as [_ H3].
  constructor; [|by eapply IH].
  intros Hin. destruct H2 as [Hnd _]. simpl in Hnd. apply NoDup_cons in Hnd as [Hn _].
  by apply Hn, list_cells_prev.
Qed.

Lemma sublist_pair {A} (p q : A) l : sublist [p; q] l → ∃ xs mid ys, l = xs ++ p :: mid ++ q :: ys.
Proof.
  intros Hs. apply sublist_cons_l in Hs as (xs & l' & -> & Hs).
  apply sublist_cons_l in Hs as (mid & ys & -> & _). by exists xs, mid, ys.
Qed.

(** ** The search succeeds on the kernel's list *)

(** C3: whatever processes are created and exit (through the LIST macros, as
    the kernel keeps [allproc]), the macros run to the end, and as long as the
    caller's process [p] and process 1, [q], do not exit, the payload's [resolve]
    finds process 1 from the caller's process, with one step of fuel per process:
    it returns 0 with the jail of process 1 in [prison0] and its root directory
    in [rootvnode]. Processes are listed newest first, so [q] comes after [p]. *)
Theorem resolve_searches_allproc {KT : KernelText} {LC : Locals} {LOK : LocalsOk} {OS} {SOS : SockOS OS}
    {ML : MiraLaws OS} (c : heap) (allproc p q : Z) (ps ps' : list Z) (spare spare' : list (Z * Z * Z))
    (cs : list change)
    (Hc : holds c (list_cells p_list allproc ps ++ spare_cells spare)) (Hnull : nonnull ps)
    (Hev : evolves allproc ps spare cs ps' spare')
    (Horder : sublist [p; q] ps) (Hp : Exit p ∉ cs) (Hq : Exit q ∉ cs) :
  ∃ c', perform_all allproc cs c = Ok (tt, c') ∧
  ∀ (s : kst OS) (cr fd p0 rv : Z),
    mira_ready s → locals_mapped (kmem s) → is_u64 (curthread s) → is_u64 p → is_u64 q →
    shows (kmem s) c' → pids (kmem s) ps' q →
    heap_word 8 (kmem s) (curthread s + 8) p →
    heap_word 8 (kmem s) (q + 0x40) cr → heap_word 8 (kmem s) (q + 0x48) fd →
    heap_word 8 (kmem s) (cr + 0x30) p0 → heap_word 8 (kmem s) (fd + 0x18) rv →
    ∃ s', resolve (S (length ps')) s = Ok (0, s') ∧ word_at 8 (kmem s') addr_prison0 p0 ∧
          word_at 8 (kmem s') addr_rootvnode rv.
Proof.
  destruct (triple_run _ _ _ _ c (perform_all_spec _ _ _ _ _ _ Hev Hnull) Hc) as (c' & E & Hc').
  exists c'. split; [done|]. intros s cr fd p0 rv Hr Hl Htd Hpu Hqu Hsh Hpid Hproc Hcr Hfd Hp0 Hrv.
  apply holds_app in Hc' as [Hc' _]. pose proof (list_cells_nodup _ _ _ _ Hc') as Hnd.
  destruct (sublist_pair p q ps') as (xs & mid & ys & ->); [by eapply evolves_order|].
  apply NoDup_app in Hnd as (_ & _ & Hnd). apply NoDup_cons in Hnd as [Hpn Hnd].
  apply NoDup_app in Hnd as (_ & Hmid & _).
  assert (proc_list (kmem s) p q (S (length mid))) as Hpl.
  { rewrite list_cells_app in Hc'. apply holds_app in Hc' as [_ Hc'].
    eapply list_shows_proc_list; [exact Hsh|exact Hc'| |set_solver|].
    - intros y Hy. apply Hpid. set_solver.
    - intros Hin. apply (Hmid _ Hin). left. }
  destruct (resolve_spec (S (length (xs ++ p :: mid ++ q :: ys))) s (curthread s) p0 rv (S (length mid)))
    as (s' & E' & St & H1 & H2); [done..| |rewrite !length_app; simpl; rewrite length_app; simpl; lia|by exists s'].
  exists q, cr, fd. split_and!; try done. by exists p.
Qed.

(** ** A witness *)

Module AllProc.
Import Kernel.

Definition allproc : Z := base + 0xa80.
Definition child : Z := base + 0xa90.

(** The list before a process is created and exits again. *)
Definition before : heap :=
  list_to_map [(allproc, own); (own + 8, allproc); (own, init); (init + 8, own); (init, 0);
               (child, 7); (child + 8, 7)].

Definition console : kst MiraWorld.t :=
  KSt (stored_in (memory init) [(8%nat, allproc, own); (8%nat, own + 8, allproc);
        (8%nat, child, own); (8%nat, child + 8, allproc)])
    base 0 (3, 4) (MiraWorld.World true false true []).

Definition after : heap :=
  list_to_map [(allproc, own); (own + 8, allproc); (own, init); (init + 8, own); (init, 0);
               (child, own); (child + 8, allproc)].

Lemma after_run : perform_all allproc [Fork child; Exit child] before = Ok (tt, after).
Proof. by vm_compute. Qed.

Lemma shows_list m l : Forall (λ e, heap_word 8 m e.1 e.2) l → shows m (list_to_map l).
Proof.
  intros Hall a v Hav. apply elem_of_list_to_map_2 in Hav.
  by apply (proj1 (Forall_forall _ _) Hall (a, v)).
Qed.

Lemma console_shows : shows (kmem console) after.
Proof. apply shows_list. repeat (constructor; [split; [ranges|word]|]). constructor. Qed.

Lemma console_pids : pids (kmem console) [own; init] init.
Proof.
  intros p Hp. apply elem_of_cons in Hp as [->|Hp]; [|apply elem_of_cons in Hp as [->|Hp]].
  - exists 77. split; [kword|by vm_compute].
  - exists 1. split; [kword|done].
  - by apply elem_of_nil in Hp.
Qed.

Lemma allproc_locals : locals_mapped (kmem console).
Proof. split_and!; [pages 8%nat|pages 4%nat|pages 8%nat|pages 8%nat]. Qed.

End AllProc.

Lemma resolve_searches_allproc_witness :
  ∃ c', perform_all AllProc.allproc [Fork AllProc.child; Exit AllProc.child] AllProc.before = Ok (tt, c') ∧
  ∃ s', resolve 3 AllProc.console = Ok (0, s') ∧ word_at 8 (kmem s') addr_prison0 Kernel.prison0 ∧
        word_at 8 (kmem s') addr_rootvnode Kernel.rootvnode.
Proof.
  destruct (resolve_searches_allproc (OS := MiraWorld.t) AllProc.before AllProc.allproc Kernel.own Kernel.init
    [Kernel.own; Kernel.init] [Kernel.own; Kernel.init] [(AllProc.child, 7, 7)]
    [(AllProc.child, Kernel.own, AllProc.allproc)] [Fork AllProc.child; Exit AllProc.child])
    as (c' & E & H).
  - split; [apply (bool_decide_eq_true_1 _); by vm_compute|]. repeat (constructor; [by vm_compute|]). constructor.
  - repeat constructor; by vm_compute.
  - apply (evolves_fork _ [Kernel.own; Kernel.init] [] []); [by vm_compute|].
    apply (evolves_exit _ [] AllProc.child [Kernel.own; Kernel.init]). apply evolves_done.
  - done.
  - set_solver.
  - set_solver.
  - exists c'. split; [exact E|]. rewrite AllProc.after_run in E. injection E as <-.
    apply (H AllProc.console (Kernel.base + 0x700) (Kernel.base + 0x800) Kernel.prison0 Kernel.rootvnode);
      [by left|apply AllProc.allproc_locals|Kernel.ranges|Kernel.ranges|Kernel.ranges
      |apply AllProc.console_shows|apply AllProc.console_pids|Kernel.kword..].
Defined.
