(* ===== verification/Endian.v ===== *)
(** * Byte order: sys/endian.h and machine/endian.h of src/Payload/freebsd-headers

    The encoders and decoders of integers at any alignment of a byte buffer, and
    the byte swaps. The buffer is the state; an access outside it is undefined.
    [writes] and [reads] say what such a function does to the bytes it covers,
    whatever surrounds them. *)

From S2P Require Import Prelude.

(** ** Accesses to a buffer of [unsigned char] *)

Definition peek (p : nat) : M (list Z) Z := λ d,
  match d !! p with Some b => Ok (b, d) | None => Undef OutOfBounds end.

Definition poke (p : nat) (v : Z) : M (list Z) unit := λ d,
  if decide (p < length d)%nat then Ok (tt, <[p := u8 v]> d) else Undef OutOfBounds.

(** [bcopy] into and out of the buffer. *)
Definition bcopy_in (src : list Z) (p n : nat) : M (list Z) unit := λ d,
  if decide (n ≤ length src ∧ p + n ≤ length d)%nat
  then Ok (tt, list_inserts p (take n src) d) else Undef OutOfBounds.

Definition bcopy_out (p n : nat) : M (list Z) (list Z) := λ d,
  if decide (p + n ≤ length d)%nat then Ok (take n (drop p d), d) else Undef OutOfBounds.

(** ** Decoders *)

Definition be16dec (p : nat) : M (list Z) Z :=
  p0 ← peek p; p1 ← peek (p + 1);
  mret (u16 (Z.lor (Z.shiftl p0 8) p1)).

Definition be32dec (p : nat) : M (list Z) Z :=
  p0 ← peek p; p1 ← peek (p + 1); p2 ← peek (p + 2); p3 ← peek (p + 3);
  mret (u32 (Z.lor (Z.lor (Z.lor (Z.shiftl p0 24) (Z.shiftl p1 16)) (Z.shiftl p2 8)) p3)).

Definition be64dec (p : nat) : M (list Z) Z :=
  h ← be32dec p; l ← be32dec (p + 4);
  mret (u64 (Z.lor (Z.shiftl h 32) l)).

Definition le16dec (p : nat) : M (list Z) Z :=
  p1 ← peek (p + 1); p0 ← peek p;
  mret (u16 (Z.lor (Z.shiftl p1 8) p0)).

Definition le32dec (p : nat) : M (list Z) Z :=
  p3 ← peek (p + 3); p2 ← peek (p + 2); p1 ← peek (p + 1); p0 ← peek p;
  mret (u32 (Z.lor (Z.lor (Z.lor (Z.shiftl p3 24) (Z.shiftl p2 16)) (Z.shiftl p1 8)) p0)).

Definition le64dec (p : nat) : M (list Z) Z :=
  h ← le32dec (p + 4); l ← le32dec p;
  mret (u64 (Z.lor (Z.shiftl h 32) l)).

(** ** Encoders *)

Definition be16enc (p : nat) (u : Z) : M (list Z) unit :=
  _ ← poke p (Z.land (Z.shiftr u 8) 0xff);
  poke (p + 1) (Z.land u 0xff).

Definition be32enc (p : nat) (u : Z) : M (list Z) unit :=
  _ ← poke p (Z.land (Z.shiftr u 24) 0xff);
  _ ← poke (p + 1) (Z.land (Z.shiftr u 16) 0xff);
  _ ← poke (p + 2) (Z.land (Z.shiftr u 8) 0xff);
  poke (p + 3) (Z.land u 0xff).

Definition be64enc (p : nat) (u : Z) : M (list Z) unit :=
  _ ← be32enc p (u32 (Z.shiftr u 32));
  be32enc (p + 4) (u32 (Z.land u 0xffffffff)).

Definition le16enc (p : nat) (u : Z) : M (list Z) unit :=
  _ ← poke p (Z.land u 0xff);
  poke (p + 1) (Z.land (Z.shiftr u 8) 0xff).

Definition le32enc (p : nat) (u : Z) : M (list Z) unit :=
  _ ← poke p (Z.land u 0xff);
  _ ← poke (p + 1) (Z.land (Z.shiftr u 8) 0xff);
  _ ← poke (p + 2) (Z.land (Z.shiftr u 16) 0xff);
  poke (p + 3) (Z.land (Z.shiftr u 24) 0xff).

Definition le64enc (p : nat) (u : Z) : M (list Z) unit :=
  _ ← le32enc p (u32 (Z.land u 0xffffffff));
  le32enc (p + 4) (u32 (Z.shiftr u 32)).

(** ** Byte swaps *)

Definition bswap64_const (x : Z) : Z :=
  Z.lor (Z.lor (Z.lor (Z.lor (Z.lor (Z.lor (Z.lor
    (Z.shiftr x 56)
    (Z.land (Z.shiftr x 40) (Z.shiftl 0xff 8)))
    (Z.land (Z.shiftr x 24) (Z.shiftl 0xff 16)))
    (Z.land (Z.shiftr x 8) (Z.shiftl 0xff 24)))
    (Z.land (u64 (Z.shiftl x 8)) (Z.shiftl 0xff 32)))
    (Z.land (u64 (Z.shiftl x 24)) (Z.shiftl 0xff 40)))
    (Z.land (u64 (Z.shiftl x 40)) (Z.shiftl 0xff 48)))
    (u64 (Z.shiftl x 56)).

Definition bswap32_const (x : Z) : Z :=
  Z.lor (Z.lor (Z.lor
    (Z.shiftr x 24)
    (Z.shiftr (Z.land x (Z.shiftl 0xff 16)) 8))
    (u32 (Z.shiftl (Z.land x (Z.shiftl 0xff 8)) 8)))
    (u32 (Z.shiftl x 24)).

Definition bswap16_const (x : Z) : Z := u16 (Z.lor (Z.shiftl x 8) (Z.shiftr x 8)).

(** The [bswap] instruction on a register of [n] bytes. *)
Definition bswap (n : Z) (x : Z) : Z := le_word (reverse (le_bytes n x)).

(** [__bswap64] and [__bswap32]: the compiler knows the operand or not. *)
Definition bswap64 (constant : bool) (x : Z) : Z := if constant then bswap64_const x else bswap 8 x.
Definition bswap32 (constant : bool) (x : Z) : Z := if constant then bswap32_const x else bswap 4 x.
Definition bswap16 (x : Z) : Z := bswap16_const x.

(** On this little-endian machine. *)
Definition htobe16 (x : Z) : Z := bswap16 x.
Definition htobe32 (x : Z) : Z := bswap32 false x.
Definition htobe64 (x : Z) : Z := bswap64 false x.
Definition htole16 (x : Z) : Z := u16 x.
Definition htole32 (x : Z) : Z := u32 x.
Definition htole64 (x : Z) : Z := u64 x.
Definition htonl (x : Z) : Z := bswap32 false x.
Definition htons (x : Z) : Z := bswap16 x.

(** [b << 24] of a byte, promoted to [int]: undefined when it reaches the sign
    bit. The decoders above convert to an unsigned type first; those of other
    headers, which do not, use this. *)
Definition shl24 (b : Z) : M (list Z) Z :=
  if decide (b < 0x80) then mret (Z.shiftl b 24) else undef SignedOverflow.

(** ** What the functions do to a buffer *)

Definition writes (m : M (list Z) unit) (p : nat) (bs : list Z) : Prop :=
  ∀ pre old post, length pre = p → length old = length bs →
    m (pre ++ old ++ post) = Ok (tt, pre ++ bs ++ post).

Definition reads {A} (m : M (list Z) A) (p n : nat) (f : list Z → A) : Prop :=
  ∀ pre mid post, length pre = p → length mid = n → bytes_ok mid →
    m (pre ++ mid ++ post) = Ok (f mid, pre ++ mid ++ post).

(** Four bytes read in [int]: undefined for a number of 2^31 or more. *)
Definition reads_int (m : M (list Z) Z) (p : nat) (f : list Z → Z) : Prop :=
  ∀ pre mid post, length pre = p → length mid = 4%nat → bytes_ok mid →
    m (pre ++ mid ++ post) =
      if decide (f mid < 2 ^ 31) then Ok (f mid, pre ++ mid ++ post) else Undef SignedOverflow.

Lemma peek_app pre l p k b :
  length pre = p → l !! k = Some b → peek (p + k) (pre ++ l) = Ok (b, pre ++ l).
Proof. intros <- Hl. unfold peek. rewrite lookup_app_r by lia. by rewrite Nat.add_sub', Hl. Qed.

Lemma peek_app_0 pre l p b :
  length pre = p → l !! 0%nat = Some b → peek p (pre ++ l) = Ok (b, pre ++ l).
Proof. intros. rewrite <- (Nat.add_0_r p) at 1. by apply peek_app. Qed.

Lemma poke_app pre l p k v :
  length pre = p → (k < length l)%nat → poke (p + k) v (pre ++ l) = Ok (tt, pre ++ <[k := u8 v]> l).
Proof.
  intros <- Hk. unfold poke. rewrite decide_True by (rewrite length_app; lia).
  by rewrite insert_app_r.
Qed.

Lemma poke_app_0 pre l p v :
  length pre = p → (0 < length l)%nat → poke p v (pre ++ l) = Ok (tt, pre ++ <[0%nat := u8 v]> l).
Proof. intros. rewrite <- (Nat.add_0_r p) at 1. by apply poke_app. Qed.

Lemma writes_poke p v : writes (poke p v) p [u8 v].
Proof.
  intros pre old post Hp Hl. destruct old as [|o [|]]; try done. simpl.
  rewrite poke_app_0; [done|done|simpl; lia].
Qed.

Lemma reads_peek p : reads (peek p) p 1 le_word.
Proof.
  intros pre mid post Hp Hl _. destruct mid as [|b [|]]; try done. rewrite le_word_1.
  by apply peek_app_0.
Qed.

Lemma writes_seq m1 m2 p1 p2 bs1 bs2 :
  writes m1 p1 bs1 → writes m2 p2 bs2 → p2 = (p1 + length bs1)%nat →
  writes (m1 ≫= λ _, m2) p1 (bs1 ++ bs2).
Proof.
  intros H1 H2 -> pre old post Hp Hl. rewrite length_app in Hl.
  rewrite <- (take_drop (length bs1) old), <- app_assoc.
  erewrite bind_ok by (apply H1; [done|rewrite length_take; lia]).
  rewrite app_assoc, H2 by (rewrite ?length_app, ?length_drop; lia).
  by rewrite <- !app_assoc.
Qed.

Lemma le_word_cons b bs : le_word (b :: bs) = Z.lor b (Z.shiftl (le_word bs) 8).
Proof. done. Qed.
Lemma le_word_nil : le_word [] = 0.
Proof. done. Qed.

Lemma le_word_app bs1 bs2 :
  le_word (bs1 ++ bs2) = Z.lor (le_word bs1) (Z.shiftl (le_word bs2) (8 * Z.of_nat (length bs1))).
Proof.
  induction bs1 as [|b bs1 IH]; [by rewrite Z.shiftl_0_r|].
  rewrite <- app_comm_cons, !le_word_cons, IH, Z.shiftl_lor, Z.lor_assoc.
  rewrite Z.shiftl_shiftl by lia. do 2 f_equal. simpl length. lia.
Qed.

Lemma u8_land x : u8 (Z.land x 0xff) = Z.land x 0xff.
Proof. change 0xff with (Z.ones 8). rewrite Z.land_ones by done. unfold u8. by rewrite Z.mod_mod. Qed.

(** ** The functions are the little-endian images *)

Lemma le_bytes_mod n z : 0 ≤ n → le_bytes n (z `mod` 2 ^ (n * 8)) = le_bytes n z.
Proof.
  intros Hn. rewrite <- le_word_bytes by done. apply le_bytes_word; [|by apply le_bytes_ok].
  rewrite length_le_bytes by done. lia.
Qed.

Lemma le_bytes_u32 z : le_bytes 4 (u32 z) = le_bytes 4 z.
Proof. by apply (le_bytes_mod 4). Qed.

Lemma le_bytes_split u : le_bytes 8 u = le_bytes 4 u ++ le_bytes 4 (Z.shiftr u 32).
Proof. unfold le_bytes, Z_to_little_endian. simpl. by rewrite !Z.shiftr_shiftr by done. Qed.

Lemma u32_land_ones x : u32 (Z.land x 0xffffffff) = u32 x.
Proof. change 0xffffffff with (Z.ones 32). rewrite Z.land_ones by done. unfold u32. by rewrite Z.mod_mod. Qed.

Ltac writes_bytes :=
  unfold le16enc, le32enc, be16enc, be32enc; intros ? old ? Hp Hl; repeat (destruct old as [|? old]; try done);
  repeat first [erewrite bind_ok by (first [apply poke_app_0; [done|simpl; lia]|apply poke_app; [done|simpl; lia]])
               |rewrite poke_app by (done || (simpl; lia))];
  rewrite !u8_land; unfold le_bytes, Z_to_little_endian; simpl; rewrite ?Z.shiftr_shiftr by done.

Lemma writes_le16enc p u : writes (le16enc p u) p (le_bytes 2 u).
Proof. by writes_bytes. Qed.
Lemma writes_le32enc p u : writes (le32enc p u) p (le_bytes 4 u).
Proof. by writes_bytes. Qed.
Lemma writes_be16enc p u : writes (be16enc p u) p (reverse (le_bytes 2 u)).
Proof. by writes_bytes. Qed.
Lemma writes_be32enc p u : writes (be32enc p u) p (reverse (le_bytes 4 u)).
Proof. by writes_bytes. Qed.

Lemma writes_le64enc p u : writes (le64enc p u) p (le_bytes 8 u).
Proof.
  rewrite le_bytes_split. apply (writes_seq _ _ p (p + 4)).
  - rewrite u32_land_ones, <- (le_bytes_u32 u). apply writes_le32enc.
  - rewrite <- (le_bytes_u32 (Z.shiftr u 32)). apply writes_le32enc.
  - by rewrite length_le_bytes.
Qed.

Lemma writes_be64enc p u : writes (be64enc p u) p (reverse (le_bytes 8 u)).
Proof.
  rewrite le_bytes_split, reverse_app. apply (writes_seq _ _ p (p + 4)).
  - rewrite <- (le_bytes_u32 (Z.shiftr u 32)). apply writes_be32enc.
  - rewrite u32_land_ones, <- (le_bytes_u32 u). apply writes_be32enc.
  - by rewrite length_reverse, length_le_bytes.
Qed.

Lemma le_word_trunc (n : Z) bs :
  bytes_ok bs → n = Z.of_nat (length bs) * 8 → le_word bs `mod` 2 ^ n = le_word bs.
Proof. intros Hb ->. apply Z.mod_small. by apply le_word_range. Qed.

Ltac reads_bytes :=
  unfold le16dec, le32dec, be16dec, be32dec; intros ? mid ? Hp Hl Hb; repeat (destruct mid as [|? mid]; try done);
  repeat first [erewrite bind_ok by (first [apply peek_app_0; done|apply peek_app; done])]; rewrite ret_ok;
  do 2 f_equal; unfold u16, u32.

(** The big-endian and the little-endian shape of a sum of shifted bytes. *)
Lemma le_word_2 a b : le_word [b; a] = Z.lor (Z.shiftl a 8) b.
Proof. rewrite !le_word_cons, le_word_nil, Z.shiftl_0_l, Z.lor_0_r. apply Z.lor_comm. Qed.

Lemma le_word_4 a b c d :
  le_word [d; c; b; a] =
  Z.lor (Z.lor (Z.lor (Z.shiftl a 24) (Z.shiftl b 16)) (Z.shiftl c 8)) d.
Proof.
  rewrite !le_word_cons, le_word_nil, Z.shiftl_0_l, Z.lor_0_r, !Z.shiftl_lor, !Z.shiftl_shiftl by done.
  rewrite (Z.lor_comm _ d), <- !Z.lor_assoc. f_equal.
  rewrite (Z.lor_assoc (Z.shiftl a _)), (Z.lor_comm _ (Z.shiftl c _)). f_equal. apply Z.lor_comm.
Qed.

(** The top byte decides whether a number of four bytes is below 2^31. *)
Lemma le_word_top bs t :
  bytes_ok bs → length bs = 3%nat → 0 ≤ t → le_word (bs ++ [t]) < 2 ^ 31 ↔ t < 0x80.
Proof.
  intros Hb Hl Ht. pose proof (le_word_range _ Hb) as Hr. rewrite Hl in Hr.
  change (2 ^ (Z.of_nat 3 * 8)) with (2 ^ 24) in Hr.
  assert (le_word (bs ++ [t]) `div` 2 ^ 24 = t) as E.
  { rewrite <- Z.shiftr_div_pow2 by done. rewrite le_word_app, le_word_1, Hl, Z.shiftr_lor.
    change (8 * Z.of_nat 3) with 24. rewrite Z.shiftr_shiftl_l, Z.sub_diag, Z.shiftl_0_r by done.
    by rewrite Z.shiftr_div_pow2, Z.div_small by done. }
  pose proof (Z.div_mod (le_word (bs ++ [t])) (2 ^ 24) ltac:(lia)) as Hd. rewrite E in Hd.
  pose proof (Z.mod_pos_bound (le_word (bs ++ [t])) (2 ^ 24) ltac:(lia)). lia.
Qed.

Lemma reads_le16dec p : reads (le16dec p) p 2 le_word.
Proof. reads_bytes. rewrite <- le_word_2. f_equal. by apply (le_word_trunc 16). Qed.

Lemma reads_le32dec p : reads (le32dec p) p 4 le_word.
Proof. reads_bytes. rewrite <- le_word_4. f_equal. by apply (le_word_trunc 32). Qed.

Lemma reads_be16dec p : reads (be16dec p) p 2 (λ bs, le_word (reverse bs)).
Proof.
  reads_bytes. rewrite <- le_word_2. f_equal. apply (le_word_trunc 16 [_; _]); [|done].
  by apply (Forall_reverse _ [_; _]).
Qed.

Lemma reads_be32dec p : reads (be32dec p) p 4 (λ bs, le_word (reverse bs)).
Proof.
  reads_bytes. rewrite <- le_word_4. f_equal. apply (le_word_trunc 32 [_; _; _; _]); [|done].
  by apply (Forall_reverse _ [_; _; _; _]).
Qed.

(** Two adjacent words read one after the other. *)
Lemma reads_pair m1 m2 p1 p2 n1 n2 f1 f2 (g : Z → Z → Z) :
  reads m1 p1 n1 f1 → reads m2 p2 n2 f2 → p2 = (p1 + n1)%nat →
  reads (a ← m1; b ← m2; mret (g a b)) p1 (n1 + n2) (λ bs, g (f1 (take n1 bs)) (f2 (drop n1 bs))).
Proof.
  intros H1 H2 -> pre mid post Hp Hl Hb.
  rewrite <- (take_drop n1 mid), <- app_assoc.
  assert (length (take n1 mid) = n1) as Ht by (rewrite length_take; lia).
  erewrite bind_ok by (apply H1; [done|done|by apply Forall_take]).
  rewrite (app_assoc pre).
  erewrite bind_ok by (apply H2; [rewrite length_app; lia|rewrite length_drop; lia|by apply Forall_drop]).
  rewrite ret_ok, <- !app_assoc. by rewrite take_app_length', drop_app_length'.
Qed.

Lemma reads_le64dec p : reads (le64dec p) p 8 le_word.
Proof.
  intros pre mid post Hp Hl Hb.
  assert (le64dec p (pre ++ mid ++ post) =
    (l ← le32dec p; h ← le32dec (p + 4); mret (u64 (Z.lor (Z.shiftl h 32) l))) (pre ++ mid ++ post)) as ->.
  { rewrite <- (take_drop 4 mid), <- !app_assoc. unfold le64dec.
    assert (length (take 4 mid) = 4%nat) by (rewrite length_take; lia).
    assert (bytes_ok (take 4 mid) ∧ bytes_ok (drop 4 mid)) as [? ?] by (split; [by apply Forall_take|by apply Forall_drop]).
    rewrite app_assoc. erewrite bind_ok
      by (apply reads_le32dec; [rewrite length_app; lia|rewrite length_drop; lia|done]).
    rewrite <- app_assoc. do 2 (erewrite bind_ok by (by apply reads_le32dec)).
    rewrite app_assoc. erewrite bind_ok
      by (apply reads_le32dec; [rewrite length_app; lia|rewrite length_drop; lia|done]).
    by rewrite <- app_assoc. }
  rewrite (reads_pair _ _ p (p + 4) 4 4 le_word le_word (λ l h, u64 (Z.lor (Z.shiftl h 32) l)))
    by (done || apply reads_le32dec). do 2 f_equal.
  rewrite <- (le_word_trunc 64 mid) by (rewrite ?Hl; done). unfold u64. f_equal.
  rewrite <- (take_drop 4 mid) at 3. rewrite le_word_app, length_take, Hl. apply Z.lor_comm.
Qed.

Lemma reads_be64dec p : reads (be64dec p) p 8 (λ bs, le_word (reverse bs)).
Proof.
  intros pre mid post Hp Hl Hb. unfold be64dec.
  rewrite (reads_pair _ _ p (p + 4) 4 4 _ _ (λ h l, u64 (Z.lor (Z.shiftl h 32) l))
             (reads_be32dec p) (reads_be32dec (p + 4))) by done.
  do 2 f_equal. rewrite <- (le_word_trunc 64 (reverse mid)); [|by apply Forall_reverse|by rewrite length_reverse, Hl].
  unfold u64. f_equal. rewrite <- (take_drop 4 mid) at 3.
  rewrite reverse_app, le_word_app, length_reverse, length_drop, Hl. apply Z.lor_comm.
Qed.

(** ** Byte swaps *)

(** Bits of shifts, masks and truncations at any index. *)
Lemma bit_shiftl x k n : 0 ≤ k → Z.testbit (Z.shiftl x k) n = Z.testbit x (n - k).
Proof.
  intros Hk. destruct (decide (0 ≤ n)); [by apply Z.shiftl_spec|].
  by rewrite !Z.testbit_neg_r by lia.
Qed.

Lemma bit_shiftr x k n : 0 ≤ k → Z.testbit (Z.shiftr x k) n = bool_decide (0 ≤ n) && Z.testbit x (n + k).
Proof.
  intros Hk. case_bool_decide; [by rewrite Z.shiftr_spec|]. by rewrite Z.testbit_neg_r by lia.
Qed.

Lemma bit_ones k n : 0 ≤ k → Z.testbit (Z.ones k) n = bool_decide (0 ≤ n < k).
Proof. intros Hk. rewrite Z.testbit_ones by done. case_bool_decide; lia. Qed.

Lemma bit_mask k n : 0 ≤ k → Z.testbit (Z.shiftl 0xff k) n = bool_decide (k ≤ n < k + 8).
Proof.
  intros Hk. change 0xff with (Z.ones 8). rewrite bit_shiftl, bit_ones by done.
  repeat case_bool_decide; lia.
Qed.

Lemma bit_mod x k n : 0 ≤ k → Z.testbit (x `mod` 2 ^ k) n = bool_decide (0 ≤ n < k) && Z.testbit x n.
Proof. intros Hk. rewrite <- Z.land_ones, Z.land_spec, bit_ones by done. apply andb_comm. Qed.

Lemma bit_small x k n : 0 ≤ k → 0 ≤ x < 2 ^ k → Z.testbit x n = bool_decide (0 ≤ n < k) && Z.testbit x n.
Proof. intros Hk Hx. rewrite <- (Z.mod_small x (2 ^ k)) at 1 by done. by apply bit_mod. Qed.

Lemma le_word_bit b bs n :
  Z.testbit (le_word (b :: bs)) n = Z.testbit b n || Z.testbit (le_word bs) (n - 8).
Proof. by rewrite le_word_cons, Z.lor_spec, bit_shiftl. Qed.

Lemma bit_above x k i : 0 ≤ x < 2 ^ k → 0 ≤ k ≤ i → Z.testbit x i = false.
Proof. intros Hx Hk. rewrite (bit_small x k) by (done || lia). by rewrite bool_decide_false by lia. Qed.

(** At an index known to lie in one byte: the masks that hold there, the bits
    beyond the width, and the one bit that is left. *)
Ltac decide_masks :=
  repeat match goal with
  | |- context [bool_decide ?P] =>
      first [rewrite (bool_decide_true P) by lia | rewrite (bool_decide_false P) by lia]
  end;
  repeat rewrite ?andb_false_r, ?andb_true_r, ?orb_false_r, ?andb_false_l, ?andb_true_l, ?orb_false_l.

Ltac same_bit x w :=
  repeat match goal with
  | |- context [Z.testbit x ?i] =>
      first [rewrite (bit_above x w i) by (done || lia) | rewrite (Z.testbit_neg_r x i) by lia]
  end;
  rewrite ?orb_false_r, ?orb_false_l; first [reflexivity | f_equal; lia].

Ltac swap_bits :=
  apply Z.bits_inj'; intros n Hn; unfold u64, u32, u16;
  repeat rewrite ?Z.lor_spec, ?Z.land_spec, ?bit_mask, ?bit_mod, ?bit_shiftr, ?bit_shiftl by done;
  rewrite ?le_word_bit, ?le_word_nil, ?Z.bits_0, ?Z.land_spec, ?bit_shiftr, ?bit_ones by done.

Lemma bswap64_const_spec x : is_u64 x → bswap64_const x = bswap 8 x.
Proof.
  intros Hx. unfold bswap64_const, bswap, le_bytes, Z_to_little_endian, reverse. simpl.
  rewrite !Z.shiftr_shiftr by done.
  swap_bits.
  assert (n < 8 ∨ 8 ≤ n < 16 ∨ 16 ≤ n < 24 ∨ 24 ≤ n < 32 ∨ 32 ≤ n < 40 ∨ 40 ≤ n < 48 ∨
    48 ≤ n < 56 ∨ 56 ≤ n < 64 ∨ 64 ≤ n) as Hcase by lia.
  destruct_or! Hcase; decide_masks; same_bit x 64.
Qed.

Lemma bswap32_const_spec x : is_u32 x → bswap32_const x = bswap 4 x.
Proof.
  intros Hx. unfold bswap32_const, bswap, le_bytes, Z_to_little_endian, reverse. simpl.
  rewrite !Z.shiftr_shiftr by done. swap_bits.
  assert (n < 8 ∨ 8 ≤ n < 16 ∨ 16 ≤ n < 24 ∨ 24 ≤ n < 32 ∨ 32 ≤ n) as Hcase by lia.
  destruct_or! Hcase; decide_masks; same_bit x 32.
Qed.

Lemma bswap16_const_spec x : 0 ≤ x < 2 ^ 16 → bswap16_const x = bswap 2 x.
Proof.
  intros Hx. unfold bswap16_const, bswap, le_bytes, Z_to_little_endian, reverse. simpl. swap_bits.
  assert (n < 8 ∨ 8 ≤ n < 16 ∨ 16 ≤ n) as Hcase by lia.
  destruct_or! Hcase; decide_masks; same_bit x 16.
Qed.

Lemma le_bytes_bswap n x : 0 ≤ n → le_bytes n (bswap n x) = reverse (le_bytes n x).
Proof.
  intros Hn. apply le_bytes_word; [|by apply Forall_reverse, le_bytes_ok].
  rewrite length_reverse, length_le_bytes by done. lia.
Qed.

Lemma bswap_bswap n x : 0 ≤ n → 0 ≤ x < 2 ^ (n * 8) → bswap n (bswap n x) = x.
Proof.
  intros Hn Hx. unfold bswap at 1. rewrite le_bytes_bswap, reverse_involutive by done.
  by apply le_word_bytes_small.
Qed.

(** ** Round trips *)

(** [enc] writes [n] bytes and [dec] reads the value back, changing nothing else
    and going no further. *)
Definition codec (enc : nat → Z → M (list Z) unit) (dec : nat → M (list Z) Z) (n : nat)
    (image : Z → list Z) : Prop :=
  ∀ p u d, (p + n ≤ length d)%nat → 0 ≤ u < 2 ^ (Z.of_nat n * 8) →
    (enc p u) d = Ok (tt, list_inserts p (image u) d) ∧
    (_ ← enc p u; dec p) d = Ok (u, list_inserts p (image u) d).

Lemma list_inserts_split (pre old post bs : list Z) :
  length old = length bs → list_inserts (length pre) bs (pre ++ old ++ post) = pre ++ bs ++ post.
Proof.
  revert pre old. induction bs as [|b bs IH]; intros pre old Hl; destruct old as [|o old]; try done.
  cbn [list_inserts app]. replace (pre ++ o :: old ++ post) with ((pre ++ [o]) ++ old ++ post)
    by (by rewrite <- app_assoc).
  assert (S (length pre) = length (pre ++ [o])) as -> by (rewrite length_app; simpl; lia).
  rewrite IH by (simpl in Hl; lia). rewrite <- app_assoc. rewrite insert_app_r_alt by lia.
  by rewrite Nat.sub_diag.
Qed.

Lemma codec_intro enc dec n image g :
  (∀ p u, writes (enc p u) p (image u)) → (∀ p, reads (dec p) p n g) →
  (∀ u, length (image u) = n) → (∀ u, bytes_ok (image u)) →
  (∀ u, 0 ≤ u < 2 ^ (Z.of_nat n * 8) → g (image u) = u) → codec enc dec n image.
Proof.
  intros Hw Hr Hl Hb Hg p u d Hp Hu.
  rewrite <- (take_drop p d), <- (take_drop n (drop p d)).
  set (pre := take p d). set (old := take n (drop p d)). set (post := drop n (drop p d)).
  assert (length pre = p) as Hpre by (unfold pre; rewrite length_take; lia).
  assert (length old = n) as Hold by (unfold old; rewrite length_take, length_drop; lia).
  assert (enc p u (pre ++ old ++ post) = Ok (tt, pre ++ image u ++ post)) as Henc
    by (apply Hw; [done|by rewrite Hl]).
  rewrite <- Hpre at 2 4. rewrite list_inserts_split by (by rewrite Hl). split; [done|].
  erewrite bind_ok by exact Henc. rewrite (Hr p pre (image u) post Hpre (Hl u) (Hb u)).
  by rewrite Hg.
Qed.

Lemma le_codec (n : nat) enc dec :
  (∀ p u, writes (enc p u) p (le_bytes (Z.of_nat n) u)) → (∀ p, reads (dec p) p n le_word) →
  codec enc dec n (le_bytes (Z.of_nat n)).
Proof.
  intros Hw Hr. apply (codec_intro _ _ _ _ le_word Hw Hr); intros u.
  - rewrite length_le_bytes; lia.
  - apply le_bytes_ok. lia.
  - intros Hu. apply le_word_bytes_small; [lia|done].
Qed.

Lemma be_codec (n : nat) enc dec :
  (∀ p u, writes (enc p u) p (reverse (le_bytes (Z.of_nat n) u))) →
  (∀ p, reads (dec p) p n (λ bs, le_word (reverse bs))) →
  codec enc dec n (λ u, reverse (le_bytes (Z.of_nat n) u)).
Proof.
  intros Hw Hr. apply (codec_intro _ _ _ _ _ Hw Hr); intros u.
  - rewrite length_reverse, length_le_bytes; lia.
  - apply Forall_reverse, le_bytes_ok. lia.
  - intros Hu. rewrite reverse_involutive. apply le_word_bytes_small; [lia|done].
Qed.

(** C35: the integer codecs of sys/endian.h. Each encoder writes exactly the
    little-endian, or the reversed, image of its argument at the position it is
    given, and its decoder reads the argument back. The swap macro for constants,
    the function of the bytes in reverse order and the [bswap] instruction are the
    same at all three widths, a swap undoes itself, and writing big-endian is
    writing the swapped number little-endian, at all three widths. *)
Theorem byte_order :
  (codec le16enc le16dec 2 (le_bytes 2) ∧ codec le32enc le32dec 4 (le_bytes 4) ∧
   codec le64enc le64dec 8 (le_bytes 8)) ∧
  (codec be16enc be16dec 2 (λ u, reverse (le_bytes 2 u)) ∧
   codec be32enc be32dec 4 (λ u, reverse (le_bytes 4 u)) ∧
   codec be64enc be64dec 8 (λ u, reverse (le_bytes 8 u))) ∧
  (∀ c x, is_u64 x → bswap64 c x = bswap 8 x ∧ bswap64 c (bswap64 (negb c) x) = x) ∧
  (∀ c x, is_u32 x → bswap32 c x = bswap 4 x ∧ bswap32 c (bswap32 (negb c) x) = x) ∧
  (∀ x, 0 ≤ x < 2 ^ 16 → bswap16 x = bswap 2 x ∧ bswap16 (bswap16 x) = x) ∧
  (∀ n x, 0 ≤ n → le_bytes n (bswap n x) = reverse (le_bytes n x)) ∧
  (∀ p u d, 0 ≤ u < 2 ^ 16 → (p + 2 ≤ length d)%nat → be16enc p u d = le16enc p (htobe16 u) d) ∧
  (∀ p u d, is_u32 u → (p + 4 ≤ length d)%nat → be32enc p u d = le32enc p (htobe32 u) d) ∧
  (∀ p u d, is_u64 u → (p + 8 ≤ length d)%nat → be64enc p u d = le64enc p (htobe64 u) d).
Proof.
  assert (∀ n x, 0 ≤ n → 0 ≤ bswap n x < 2 ^ (n * 8)) as Hrange.
  { intros n x Hn. replace n with (Z.of_nat (length (reverse (le_bytes n x)))) at 3
      by (rewrite length_reverse, length_le_bytes; lia).
    by apply le_word_range, Forall_reverse, le_bytes_ok. }
  assert (∀ n enc enc' dec dec' x x' p d, codec enc dec n (λ u, reverse (le_bytes (Z.of_nat n) u)) →
    codec enc' dec' n (le_bytes (Z.of_nat n)) → 0 ≤ x < 2 ^ (Z.of_nat n * 8) → x' = bswap (Z.of_nat n) x →
    (p + n ≤ length d)%nat → enc p x d = enc' p x' d) as Hswap.
  { intros n enc enc' dec dec' x x' p d Hbe Hle Hx -> Hp.
    destruct (Hbe p x d Hp Hx) as [-> _]. destruct (Hle p _ d Hp (Hrange (Z.of_nat n) x ltac:(lia))) as [-> _].
    by rewrite le_bytes_bswap by lia. }
  split_and!.
  - apply (le_codec 2); [apply writes_le16enc|apply reads_le16dec].
  - apply (le_codec 4); [apply writes_le32enc|apply reads_le32dec].
  - apply (le_codec 8); [apply writes_le64enc|apply reads_le64dec].
  - apply (be_codec 2); [apply writes_be16enc|apply reads_be16dec].
  - apply (be_codec 4); [apply writes_be32enc|apply reads_be32dec].
  - apply (be_codec 8); [apply writes_be64enc|apply reads_be64dec].
  - intros c x Hx. assert (∀ c y, is_u64 y → bswap64 c y = bswap 8 y) as E
      by (intros [] y Hy; [by apply bswap64_const_spec|done]).
    split; [by apply E|]. rewrite (E (negb c)), E by (done || by apply (Hrange 8)). by apply bswap_bswap.
  - intros c x Hx. assert (∀ c y, is_u32 y → bswap32 c y = bswap 4 y) as E
      by (intros [] y Hy; [by apply bswap32_const_spec|done]).
    split; [by apply E|]. rewrite (E (negb c)), E by (done || by apply (Hrange 4)). by apply bswap_bswap.
  - intros x Hx. unfold bswap16. rewrite (bswap16_const_spec x) by done. split; [done|].
    rewrite bswap16_const_spec by (by apply (Hrange 2)).
    by apply bswap_bswap.
  - apply le_bytes_bswap.
  - intros p u d Hu Hp. apply (Hswap 2%nat _ _ be16dec le16dec); [| |done|by apply bswap16_const_spec|done].
    + apply be_codec; [apply writes_be16enc|apply reads_be16dec].
    + apply le_codec; [apply writes_le16enc|apply reads_le16dec].
  - intros p u d Hu Hp. apply (Hswap 4%nat _ _ be32dec le32dec); [| |done|done|done].
    + apply be_codec; [apply writes_be32enc|apply reads_be32dec].
    + apply le_codec; [apply writes_le32enc|apply reads_le32dec].
  - intros p u d Hu Hp. apply (Hswap 8%nat _ _ be64dec le64dec); [| |done|done|done].
    + apply be_codec; [apply writes_be64enc|apply reads_be64dec].
    + apply le_codec; [apply writes_le64enc|apply reads_le64dec].
Qed.
