(* ===== verification/Iso9660.v ===== *)
(** * ISO 9660 descriptors: isofs/cd9660/iso.h and cd9660_rrip.h

    The structures of a volume, declared as byte arrays with their first and last
    position, and the functions that read numbers out of them. A row of a
    structure is a member's name, the two arguments of [ISODCL] and the format its
    comment names. *)

From S2P Require Import Prelude CStruct Endian.
From Stdlib Require Import String.
#[local] Close Scope string_scope.
#[local] Abbreviation length := List.length.

(** ** The declarations *)

(** [char x[ISODCL (from, to)]]. *)
Definition ISODCL (from to : Z) : Z := to - from + 1.

(** The format of a member: [n] numbers of a section 7.x.y, or something else. *)
Inductive iso_format := Numbers (n code : Z) | Text.

Record iso_struct := IsoStruct {
  iso_name : string;
  iso_head : list (string * cty);               (** members before the arrays *)
  iso_rows : list (string * Z * Z * iso_format);
  iso_tail : list (string * cty)                (** members behind them *)
}.

Definition iso_type (s : iso_struct) : cty :=
  CRecord (iso_head s ++ map (λ '(x, from, to, _), (x, CArray (ISODCL from to) c_char)) (iso_rows s) ++ iso_tail s).

#[local] Open Scope string_scope.

Definition iso_volume_descriptor : iso_struct := IsoStruct "iso_volume_descriptor" [] [
  ("type", 1, 1, Numbers 1 711);
  ("id", 2, 6, Text);
  ("version", 7, 7, Text);
  ("unused", 8, 8, Text);
  ("type_sierra", 9, 9, Numbers 1 711);
  ("id_sierra", 10, 14, Text);
  ("version_sierra", 15, 15, Text);
  ("data", 16, 2048, Text)] [].

Definition iso_primary_descriptor : iso_struct := IsoStruct "iso_primary_descriptor" [] [
  ("type", 1, 1, Numbers 1 711);
  ("id", 2, 6, Text);
  ("version", 7, 7, Numbers 1 711);
  ("unused1", 8, 8, Text);
  ("system_id", 9, 40, Text);
  ("volume_id", 41, 72, Text);
  ("unused2", 73, 80, Text);
  ("volume_space_size", 81, 88, Numbers 1 733);
  ("unused3", 89, 120, Text);
  ("volume_set_size", 121, 124, Numbers 1 723);
  ("volume_sequence_number", 125, 128, Numbers 1 723);
  ("logical_block_size", 129, 132, Numbers 1 723);
  ("path_table_size", 133, 140, Numbers 1 733);
  ("type_l_path_table", 141, 144, Numbers 1 731);
  ("opt_type_l_path_table", 145, 148, Numbers 1 731);
  ("type_m_path_table", 149, 152, Numbers 1 732);
  ("opt_type_m_path_table", 153, 156, Numbers 1 732);
  ("root_directory_record", 157, 190, Text);
  ("volume_set_id", 191, 318, Text);
  ("publisher_id", 319, 446, Text);
  ("preparer_id", 447, 574, Text);
  ("application_id", 575, 702, Text);
  ("copyright_file_id", 703, 739, Text);
  ("abstract_file_id", 740, 776, Text);
  ("bibliographic_file_id", 777, 813, Text);
  ("creation_date", 814, 830, Text);
  ("modification_date", 831, 847, Text);
  ("expiration_date", 848, 864, Text);
  ("effective_date", 865, 881, Text);
  ("file_structure_version", 882, 882, Numbers 1 711);
  ("unused4", 883, 883, Text);
  ("application_data", 884, 1395, Text);
  ("unused5", 1396, 2048, Text)] [].

Definition iso_supplementary_descriptor : iso_struct := IsoStruct "iso_supplementary_descriptor" [] [
  ("type", 1, 1, Numbers 1 711);
  ("id", 2, 6, Text);
  ("version", 7, 7, Numbers 1 711);
  ("flags", 8, 8, Text);
  ("system_id", 9, 40, Text);
  ("volume_id", 41, 72, Text);
  ("unused2", 73, 80, Text);
  ("volume_space_size", 81, 88, Numbers 1 733);
  ("escape", 89, 120, Text);
  ("volume_set_size", 121, 124, Numbers 1 723);
  ("volume_sequence_number", 125, 128, Numbers 1 723);
  ("logical_block_size", 129, 132, Numbers 1 723);
  ("path_table_size", 133, 140, Numbers 1 733);
  ("type_l_path_table", 141, 144, Numbers 1 731);
  ("opt_type_l_path_table", 145, 148, Numbers 1 731);
  ("type_m_path_table", 149, 152, Numbers 1 732);
  ("opt_type_m_path_table", 153, 156, Numbers 1 732);
  ("root_directory_record", 157, 190, Text);
  ("volume_set_id", 191, 318, Text);
  ("publisher_id", 319, 446, Text);
  ("preparer_id", 447, 574, Text);
  ("application_id", 575, 702, Text);
  ("copyright_file_id", 703, 739, Text);
  ("abstract_file_id", 740, 776, Text);
  ("bibliographic_file_id", 777, 813, Text);
  ("creation_date", 814, 830, Text);
  ("modification_date", 831, 847, Text);
  ("expiration_date", 848, 864, Text);
  ("effective_date", 865, 881, Text);
  ("file_structure_version", 882, 882, Numbers 1 711);
  ("unused4", 883, 883, Text);
  ("application_data", 884, 1395, Text);
  ("unused5", 1396, 2048, Text)] [].

Definition iso_sierra_primary_descriptor : iso_struct := IsoStruct "iso_sierra_primary_descriptor" [] [
  ("unknown1", 1, 8, Numbers 1 733);
  ("type", 9, 9, Numbers 1 711);
  ("id", 10, 14, Text);
  ("version", 15, 15, Numbers 1 711);
  ("unused1", 16, 16, Text);
  ("system_id", 17, 48, Text);
  ("volume_id", 49, 80, Text);
  ("unused2", 81, 88, Text);
  ("volume_space_size", 89, 96, Numbers 1 733);
  ("unused3", 97, 128, Text);
  ("volume_set_size", 129, 132, Numbers 1 723);
  ("volume_sequence_number", 133, 136, Numbers 1 723);
  ("logical_block_size", 137, 140, Numbers 1 723);
  ("path_table_size", 141, 148, Numbers 1 733);
  ("type_l_path_table", 149, 152, Numbers 1 731);
  ("opt_type_l_path_table", 153, 156, Numbers 1 731);
  ("unknown2", 157, 160, Numbers 1 731);
  ("unknown3", 161, 164, Numbers 1 731);
  ("type_m_path_table", 165, 168, Numbers 1 732);
  ("opt_type_m_path_table", 169, 172, Numbers 1 732);
  ("unknown4", 173, 176, Numbers 1 732);
  ("unknown5", 177, 180, Numbers 1 732);
  ("root_directory_record", 181, 214, Text);
  ("volume_set_id", 215, 342, Text);
  ("publisher_id", 343, 470, Text);
  ("preparer_id", 471, 598, Text);
  ("application_id", 599, 726, Text);
  ("copyright_id", 727, 790, Text);
  ("creation_date", 791, 806, Text);
  ("modification_date", 807, 822, Text);
  ("expiration_date", 823, 838, Text);
  ("effective_date", 839, 854, Text);
  ("file_structure_version", 855, 855, Numbers 1 711);
  ("unused4", 856, 2048, Text)] [].

Definition iso_directory_record : iso_struct := IsoStruct "iso_directory_record" [] [
  ("length", 1, 1, Numbers 1 711);
  ("ext_attr_length", 2, 2, Numbers 1 711);
  ("extent", 3, 10, Numbers 1 733);
  ("size", 11, 18, Numbers 1 733);
  ("date", 19, 25, Numbers 7 711);
  ("flags", 26, 26, Text);
  ("file_unit_size", 27, 27, Numbers 1 711);
  ("interleave", 28, 28, Numbers 1 711);
  ("volume_sequence_number", 29, 32, Numbers 1 723);
  ("name_len", 33, 33, Numbers 1 711)] [("name", CArray 1 c_char)].

Definition iso_extended_attributes : iso_struct := IsoStruct "iso_extended_attributes" [] [
  ("owner", 1, 4, Numbers 1 723);
  ("group", 5, 8, Numbers 1 723);
  ("perm", 9, 10, Text);
  ("ctime", 11, 27, Text);
  ("mtime", 28, 44, Text);
  ("xtime", 45, 61, Text);
  ("ftime", 62, 78, Text);
  ("recfmt", 79, 79, Numbers 1 711);
  ("recattr", 80, 80, Numbers 1 711);
  ("reclen", 81, 84, Numbers 1 723);
  ("system_id", 85, 116, Text);
  ("system_use", 117, 180, Text);
  ("version", 181, 181, Numbers 1 711);
  ("len_esc", 182, 182, Numbers 1 711);
  ("reserved", 183, 246, Text);
  ("len_au", 247, 250, Numbers 1 723)] [].

Definition ISO_SUSP_HEADER : iso_struct := IsoStruct "ISO_SUSP_HEADER" [] [
  ("type", 0, 1, Text);
  ("length", 2, 2, Numbers 1 711);
  ("version", 3, 3, Text)] [].

Definition ISO_RRIP_ATTR : iso_struct := IsoStruct "ISO_RRIP_ATTR" [("h", iso_type ISO_SUSP_HEADER)] [
  ("mode", 4, 11, Numbers 1 733);
  ("links", 12, 19, Numbers 1 733);
  ("uid", 20, 27, Numbers 1 733);
  ("gid", 28, 35, Numbers 1 733)] [].

Definition ISO_RRIP_DEVICE : iso_struct := IsoStruct "ISO_RRIP_DEVICE" [("h", iso_type ISO_SUSP_HEADER)] [
  ("dev_t_high", 4, 11, Numbers 1 733);
  ("dev_t_low", 12, 19, Numbers 1 733)] [].

Definition ISO_RRIP_SLINK_COMPONENT : iso_struct := IsoStruct "ISO_RRIP_SLINK_COMPONENT" [] [
  ("cflag", 1, 1, Text);
  ("clen", 2, 2, Text)] [("name", CArray 1 c_char)].

Definition ISO_RRIP_SLINK : iso_struct := IsoStruct "ISO_RRIP_SLINK" [("h", iso_type ISO_SUSP_HEADER)] [
  ("flags", 4, 4, Text);
  ("component", 5, 5, Text)] [].

Definition ISO_RRIP_ALTNAME : iso_struct := IsoStruct "ISO_RRIP_ALTNAME" [("h", iso_type ISO_SUSP_HEADER)] [
  ("flags", 4, 4, Text)] [].

Definition ISO_RRIP_CLINK : iso_struct := IsoStruct "ISO_RRIP_CLINK" [("h", iso_type ISO_SUSP_HEADER)] [
  ("dir_loc", 4, 11, Numbers 1 733)] [].

Definition ISO_RRIP_PLINK : iso_struct := IsoStruct "ISO_RRIP_PLINK" [("h", iso_type ISO_SUSP_HEADER)] [
  ("dir_loc", 4, 11, Numbers 1 733)] [].

Definition ISO_RRIP_RELDIR : iso_struct := IsoStruct "ISO_RRIP_RELDIR" [("h", iso_type ISO_SUSP_HEADER)] [
  ] [].

Definition ISO_RRIP_TSTAMP : iso_struct := IsoStruct "ISO_RRIP_TSTAMP" [("h", iso_type ISO_SUSP_HEADER)] [
  ("flags", 4, 4, Text);
  ("time", 5, 5, Text)] [].

Definition ISO_RRIP_IDFLAG : iso_struct := IsoStruct "ISO_RRIP_IDFLAG" [("h", iso_type ISO_SUSP_HEADER)] [
  ("flags", 4, 4, Text)] [].

Definition ISO_RRIP_EXTREF : iso_struct := IsoStruct "ISO_RRIP_EXTREF" [("h", iso_type ISO_SUSP_HEADER)] [
  ("len_id", 4, 4, Text);
  ("len_des", 5, 5, Text);
  ("len_src", 6, 6, Text);
  ("version", 7, 7, Text)] [].

Definition ISO_RRIP_OFFSET : iso_struct := IsoStruct "ISO_RRIP_OFFSET" [("h", iso_type ISO_SUSP_HEADER)] [
  ("check", 4, 5, Text);
  ("skip", 6, 6, Text)] [].

Definition ISO_RRIP_CONT : iso_struct := IsoStruct "ISO_RRIP_CONT" [("h", iso_type ISO_SUSP_HEADER)] [
  ("location", 4, 11, Text);
  ("offset", 12, 19, Text);
  ("length", 20, 27, Text)] [].

Definition iso_structs : list iso_struct := [
  iso_volume_descriptor; iso_primary_descriptor; iso_supplementary_descriptor; iso_sierra_primary_descriptor; iso_directory_record; iso_extended_attributes; ISO_SUSP_HEADER; ISO_RRIP_ATTR; ISO_RRIP_DEVICE; ISO_RRIP_SLINK_COMPONENT; ISO_RRIP_SLINK; ISO_RRIP_ALTNAME; ISO_RRIP_CLINK; ISO_RRIP_PLINK; ISO_RRIP_RELDIR; ISO_RRIP_TSTAMP; ISO_RRIP_IDFLAG; ISO_RRIP_EXTREF; ISO_RRIP_OFFSET; ISO_RRIP_CONT].

#[local] Close Scope string_scope.

Definition ISO_DEFAULT_BLOCK_SIZE : Z := 2048.
Definition ISO_DIRECTORY_RECORD_SIZE : Z := 33.

(** ** Reading numbers

    The bytes are promoted to [int], so the top byte of four is shifted as one. *)

Definition isonum_711 (p : nat) : M (list Z) Z := peek p.
Definition isonum_712 (p : nat) : M (list Z) Z := peek p.
Definition isonum_713 (p : nat) : M (list Z) Z := peek p.
Definition isonum_721 (p : nat) : M (list Z) Z :=
  p0 ← peek p; p1 ← peek (p + 1); mret (u16 (Z.lor p0 (Z.shiftl p1 8))).
Definition isonum_722 (p : nat) : M (list Z) Z :=
  p1 ← peek (p + 1); p0 ← peek p; mret (u16 (Z.lor p1 (Z.shiftl p0 8))).
Definition isonum_723 (p : nat) : M (list Z) Z :=
  p0 ← peek p; p1 ← peek (p + 1); mret (u16 (Z.lor p0 (Z.shiftl p1 8))).
Definition isonum_731 (p : nat) : M (list Z) Z :=
  p0 ← peek p; p1 ← peek (p + 1); p2 ← peek (p + 2); p3 ← peek (p + 3); top ← shl24 p3;
  mret (u32 (Z.lor (Z.lor (Z.lor p0 (Z.shiftl p1 8)) (Z.shiftl p2 16)) top)).
Definition isonum_732 (p : nat) : M (list Z) Z :=
  p3 ← peek (p + 3); p2 ← peek (p + 2); p1 ← peek (p + 1); p0 ← peek p; top ← shl24 p0;
  mret (u32 (Z.lor (Z.lor (Z.lor p3 (Z.shiftl p2 8)) (Z.shiftl p1 16)) top)).
Definition isonum_733 (p : nat) : M (list Z) Z :=
  p0 ← peek p; p1 ← peek (p + 1); p2 ← peek (p + 2); p3 ← peek (p + 3); top ← shl24 p3;
  mret (u32 (Z.lor (Z.lor (Z.lor p0 (Z.shiftl p1 8)) (Z.shiftl p2 16)) top)).

(** The function of each section of the comment. *)
Definition isonum (code : Z) : nat → M (list Z) Z :=
  match code with
  | 711 => isonum_711 | 712 => isonum_712 | 713 => isonum_713
  | 721 => isonum_721 | 722 => isonum_722 | 723 => isonum_723
  | 731 => isonum_731 | 732 => isonum_732 | 733 => isonum_733
  | _ => λ _, undef OutOfBounds
  end.

(** ** The functions are the decoders of sys/endian.h *)

(** Both read the same bytes; a missing one is undefined for both. *)
Ltac same_bytes lem :=
  unfold mbind, M_bind, peek; cbv beta;
  repeat (match goal with
          | H : ?d !! ?i = _ |- context [?d !! ?i] => rewrite H
          | |- context [?d !! ?i] => destruct (d !! i) eqn:?
          end; cbv beta iota); try reflexivity; by rewrite lem.

Lemma lor_reverse a b c d : Z.lor (Z.lor (Z.lor a b) c) d = Z.lor (Z.lor (Z.lor d c) b) a.
Proof. rewrite (Z.lor_comm _ d), (Z.lor_comm _ c), (Z.lor_comm a b), !Z.lor_assoc. done. Qed.

Lemma isonum_721_le p d : isonum_721 p d = le16dec p d.
Proof. unfold isonum_721, le16dec. same_bytes Z.lor_comm. Qed.
Lemma isonum_722_be p d : isonum_722 p d = be16dec p d.
Proof. unfold isonum_722, be16dec. same_bytes Z.lor_comm. Qed.
Lemma isonum_731_int p : reads_int (isonum_731 p) p le_word.
Proof.
  unfold isonum_731. intros pre mid post Hp Hl Hb.
  destruct mid as [|a [|b [|c [|t [|]]]]]; try done.
  assert (bytes_ok [a; b; c] ∧ 0 ≤ t) as [Hlow Ht].
  { rewrite !Forall_cons in Hb. destruct Hb as (?&?&?&[? ?]&_). split; [|done]. by rewrite !Forall_cons, Forall_nil. }
  pose proof (le_word_top [a; b; c] t Hlow eq_refl Ht) as Htop. cbn [app] in Htop.
  repeat first [erewrite bind_ok by (first [apply peek_app_0; done|apply peek_app; done])].
  unfold shl24. destruct (decide (t < 0x80)) as [Hs|Hs].
  - rewrite decide_True by tauto. rewrite ret_bind, ret_ok. do 2 f_equal.
    rewrite <-(le_word_trunc 32 [a; b; c; t]) by done. unfold u32. f_equal. rewrite le_word_4. apply lor_reverse.
  - by rewrite decide_False by tauto.
Qed.

Lemma isonum_732_int p : reads_int (isonum_732 p) p (λ bs, le_word (reverse bs)).
Proof.
  unfold isonum_732. intros pre mid post Hp Hl Hb.
  destruct mid as [|t [|c [|b [|a [|]]]]]; try done. change (reverse [t; c; b; a]) with [a; b; c; t].
  assert (bytes_ok [a; b; c] ∧ 0 ≤ t) as [Hlow Ht].
  { rewrite !Forall_cons in Hb. destruct Hb as ([? ?]&?&?&?&_). split; [|done]. by rewrite !Forall_cons, Forall_nil. }
  pose proof (le_word_top [a; b; c] t Hlow eq_refl Ht) as Htop. cbn [app] in Htop.
  repeat first [erewrite bind_ok by (first [apply peek_app_0; done|apply peek_app; done])].
  unfold shl24. destruct (decide (t < 0x80)) as [Hs|Hs].
  - rewrite decide_True by tauto. rewrite ret_bind, ret_ok. do 2 f_equal.
    rewrite <-(le_word_trunc 32 [a; b; c; t]); [|by apply (Forall_reverse _ [t; c; b; a])|done].
    unfold u32. f_equal. rewrite le_word_4. apply lor_reverse.
  - by rewrite decide_False by tauto.
Qed.

(** ** Formats *)

(** The bytes of one number of section 7.[x].[y]. *)
Definition number_bytes (code : Z) : Z := match code `div` 10 with 71 => 1 | 72 => 2 | 73 => 4 | _ => 0 end.
Definition iso_bytes (code v : Z) : list Z :=
  let le := le_bytes (number_bytes code) v in
  match code `mod` 10 with 1 => le | 2 => reverse le | _ => le ++ reverse le end.
Definition iso_codes : list Z := [711; 712; 713; 721; 722; 723; 731; 732; 733].
Definition iso_width (code : Z) : Z := (if decide (code `mod` 10 = 3) then 2 else 1) * number_bytes code.

(** What reading [v] gives: a number of four bytes does not reach the sign bit. *)
Definition iso_read (code v : Z) (buffer : list Z) : outcome (Z * list Z) :=
  if decide (number_bytes code = 4 ∧ 2 ^ 31 ≤ v) then Undef SignedOverflow else Ok (v, buffer).

(** A number at the front of a member. *)
Lemma read_le (m : M (list Z) Z) w v rest pre post :
  0 ≤ w → 0 ≤ v < 2 ^ (w * 8) → reads m (length pre) (Z.to_nat w) le_word →
  m (pre ++ (le_bytes w v ++ rest) ++ post) = Ok (v, pre ++ (le_bytes w v ++ rest) ++ post).
Proof.
  intros Hw Hv Hm. rewrite <-app_assoc. rewrite <-(le_word_bytes_small w v) at 2 by done.
  apply Hm; [done|by apply length_le_bytes|by apply le_bytes_ok].
Qed.
Lemma read_be (m : M (list Z) Z) w v rest pre post :
  0 ≤ w → 0 ≤ v < 2 ^ (w * 8) → reads m (length pre) (Z.to_nat w) (λ bs, le_word (reverse bs)) →
  m (pre ++ (reverse (le_bytes w v) ++ rest) ++ post) = Ok (v, pre ++ (reverse (le_bytes w v) ++ rest) ++ post).
Proof.
  intros Hw Hv Hm. rewrite <-app_assoc. rewrite <-(le_word_bytes_small w v) at 2 by done.
  rewrite <-(reverse_involutive (le_bytes w v)) at 2.
  apply Hm; [done|rewrite length_reverse; by apply length_le_bytes|by apply Forall_reverse, le_bytes_ok].
Qed.

Lemma read_le_int (m : M (list Z) Z) v rest pre post :
  0 ≤ v < 2 ^ 32 → reads_int m (length pre) le_word →
  m (pre ++ (le_bytes 4 v ++ rest) ++ post) = iso_read 731 v (pre ++ (le_bytes 4 v ++ rest) ++ post).
Proof.
  intros Hv Hm. rewrite <-app_assoc. rewrite Hm; [|done|by apply length_le_bytes|by apply le_bytes_ok].
  rewrite le_word_bytes_small by done. unfold iso_read.
  case_decide as D; case_decide as E; try done; exfalso; [lia|]. apply E. split; [done|lia].
Qed.
Lemma read_be_int (m : M (list Z) Z) v rest pre post :
  0 ≤ v < 2 ^ 32 → reads_int m (length pre) (λ bs, le_word (reverse bs)) →
  m (pre ++ (reverse (le_bytes 4 v) ++ rest) ++ post) =
    iso_read 732 v (pre ++ (reverse (le_bytes 4 v) ++ rest) ++ post).
Proof.
  intros Hv Hm. rewrite <-app_assoc.
  rewrite Hm; [|done|rewrite length_reverse; by apply length_le_bytes|by apply Forall_reverse, le_bytes_ok].
  rewrite reverse_involutive, le_word_bytes_small by done. unfold iso_read.
  case_decide as D; case_decide as E; try done; exfalso; [lia|]. apply E. split; [done|lia].
Qed.

Lemma isonum_reads code v pre post :
  code ∈ iso_codes → 0 ≤ v < 2 ^ (number_bytes code * 8) →
  isonum code (length pre) (pre ++ iso_bytes code v ++ post) = iso_read code v (pre ++ iso_bytes code v ++ post).
Proof.
  intros Hc Hv. unfold iso_codes in Hc. rewrite !elem_of_cons, elem_of_nil in Hc.
  assert (∀ p, reads (peek p) p 1 (λ bs, le_word (reverse bs))) as Hpeek.
  { intros p pr mid po Hp Hl Hb. destruct mid as [|b [|]]; try done. by apply (reads_peek p pr [b] po). }
  destruct Hc as [-> |[-> |[-> |[-> |[-> |[-> |[-> |[-> |[-> |[]]]]]]]]]]; cbn [isonum].
  - rewrite <-(app_nil_r (iso_bytes 711 v)). apply (read_le _ 1 v []); [done|exact Hv|apply reads_peek].
  - rewrite <-(app_nil_r (iso_bytes 712 v)). apply (read_be _ 1 v []); [done|exact Hv|by apply Hpeek].
  - apply (read_le _ 1 v (reverse (le_bytes 1 v))); [done|exact Hv|apply reads_peek].
  - rewrite isonum_721_le, <-(app_nil_r (iso_bytes 721 v)). apply (read_le _ 2 v []); [done|exact Hv|apply reads_le16dec].
  - rewrite isonum_722_be, <-(app_nil_r (iso_bytes 722 v)). apply (read_be _ 2 v []); [done|exact Hv|apply reads_be16dec].
  - change isonum_723 with isonum_721. rewrite isonum_721_le.
    apply (read_le _ 2 v (reverse (le_bytes 2 v))); [done|exact Hv|apply reads_le16dec].
  - rewrite <-(app_nil_r (iso_bytes 731 v)). apply (read_le_int _ v []); [exact Hv|apply isonum_731_int].
  - rewrite <-(app_nil_r (iso_bytes 732 v)). apply (read_be_int _ v []); [exact Hv|apply isonum_732_int].
  - apply (read_le_int _ v (reverse (le_bytes 4 v))); [exact Hv|apply isonum_731_int].
Qed.

(** ** The structures *)

(** Positions count from 1, in iso.h and the components of a symbolic link, or from
    0, in the entries of cd9660_rrip.h, which begin with the header of type [0, 1]. *)
Definition iso_origin (s : iso_struct) : Z :=
  match iso_head s, iso_rows s with [], (_, from, _, _) :: _ => from | _, _ => 0 end.

(** A member is where its declaration says, has the length it says and holds as
    many numbers of the format as its comment says. *)
Definition iso_row_ok (s : iso_struct) (r : string * Z * Z * iso_format) : bool :=
  let '(x, from, to, f) := r in
  match List.find (λ '(y, _, _), String.eqb y x) (members (iso_type s)) with
  | Some (_, o, t) => (o =? from - iso_origin s) && (size_of t =? to - from + 1)
  | None => false
  end &&
  (iso_origin s <=? from) && (to - iso_origin s <? size_of (iso_type s)) &&
  match f with Numbers n c => bool_decide (c ∈ iso_codes) && (1 <=? n) && (to - from + 1 =? n * iso_width c) | Text => true end.

Lemma iso_rows_ok : forallb (λ s, forallb (iso_row_ok s) (iso_rows s)) iso_structs = true.
Proof. by vm_compute. Qed.

Lemma iso_row s r : s ∈ iso_structs → r ∈ iso_rows s → iso_row_ok s r = true.
Proof.
  intros Hs Hr. pose proof (table_forall _ _ _ iso_rows_ok Hs) as H. exact (table_forall _ _ _ H Hr).
Qed.

Lemma length_iso_bytes c v : c ∈ iso_codes → Z.of_nat (length (iso_bytes c v)) = iso_width c.
Proof.
  intros Hc. unfold iso_codes in Hc. rewrite !elem_of_cons, elem_of_nil in Hc.
  destruct Hc as [-> |[-> |[-> |[-> |[-> |[-> |[-> |[-> |[-> |[]]]]]]]]]]; reflexivity.
Qed.

Lemma iso_member s x from to f :
  s ∈ iso_structs → (x, from, to, f) ∈ iso_rows s →
  let o := from - iso_origin s in
  offset_of (iso_type s) x = Some o ∧ 0 ≤ o ∧ o + (to - from + 1) ≤ size_of (iso_type s) ∧
  match f with Numbers n c => c ∈ iso_codes ∧ 1 ≤ n ∧ to - from + 1 = n * iso_width c | Text => True end.
Proof.
  intros Hs Hr. pose proof (iso_row s _ Hs Hr) as H. unfold iso_row_ok in H. unfold offset_of.
  rewrite !andb_true_iff in H. destruct H as [[[Ho Hlo] Hhi] Hf].
  destruct (List.find _ _) as [[[y o] t]|]; [|done]. apply andb_true_iff in Ho as [Ho Ht].
  apply Z.eqb_eq in Ho as ->. apply Z.leb_le in Hlo. apply Z.ltb_lt in Hhi. split_and!; [done|lia|lia|].
  destruct f as [n c|]; [|done]. rewrite !andb_true_iff in Hf. destruct Hf as [[Hc Hn] Hw].
  apply bool_decide_eq_true in Hc. apply Z.leb_le in Hn. apply Z.eqb_eq in Hw. done.
Qed.

(** ** Properties *)

(** C37: the members of a volume's structures are where the declarations say. For
    each of the twenty structures and each of their arrays the compiler's offset is
    the first position (counted from the structure's first one), the member ends
    inside the structure, and it has room for exactly as many numbers of the format
    as its comment names; the four volume descriptors have one sector of 2048
    bytes, a directory record 33 bytes before its name. Reading: in an image of the
    structure, at any place of a buffer, where number k of a member is stored in
    its format - one byte order or both - the isonum function of the format, given
    the number's address, returns the number and reads inside the member; except
    that a number of four bytes that is 2^31 or more shifts a bit into the sign of
    an int, which is undefined. *)
Theorem iso_structures (s : iso_struct) (x : string) (from to : Z) (f : iso_format)
    (Hs : s ∈ iso_structs) (Hr : (x, from, to, f) ∈ iso_rows s) :
  let o := from - iso_origin s in
  (offset_of (iso_type s) x = Some o ∧ 0 ≤ o ∧ o + (to - from + 1) ≤ size_of (iso_type s)) ∧
  (∀ n c k v pre a b post, f = Numbers n c → 0 ≤ k < n → 0 ≤ v < 2 ^ (number_bytes c * 8) →
     Z.of_nat (length a) = o + k * iso_width c →
     Z.of_nat (length (a ++ iso_bytes c v ++ b)) = size_of (iso_type s) →
     let buffer := (pre ++ (a ++ iso_bytes c v ++ b) ++ post)%list in
     isonum c (length pre + Z.to_nat (o + k * iso_width c)) buffer =
       (if decide (number_bytes c = 4 ∧ 2 ^ 31 ≤ v) then Undef SignedOverflow else Ok (v, buffer)) ∧
     k * iso_width c + iso_width c ≤ to - from + 1) ∧
  (∀ n c, f = Numbers n c → to - from + 1 = n * iso_width c) ∧
  Forall (λ t, size_of (iso_type t) = ISO_DEFAULT_BLOCK_SIZE)
    [iso_volume_descriptor; iso_primary_descriptor; iso_supplementary_descriptor; iso_sierra_primary_descriptor] ∧
  offset_of (iso_type iso_directory_record) "name" = Some ISO_DIRECTORY_RECORD_SIZE.
Proof.
  destruct (iso_member s x from to f Hs Hr) as (Ho & H0 & Hend & Hf). cbv zeta in *. split_and!; [done..| | | |].
  - intros n c k v pre a b post -> Hk Hv Ha _. destruct Hf as (Hc & Hn & Hw). cbv zeta. split.
    + rewrite <-Ha, Nat2Z.id, <-length_app, <-!app_assoc, app_assoc. by apply isonum_reads.
    + rewrite Hw. pose proof (length_iso_bytes c v Hc). nia.
  - intros n c ->. apply Hf.
  - repeat constructor.
  - reflexivity.
Qed.

Lemma iso_structures_witness :
  offset_of (iso_type iso_directory_record) "size" = Some 10 ∧
  isonum_733 10 (replicate 10 0 ++ iso_bytes 733 0x12345 ++ replicate 16 0) =
    Ok (0x12345, replicate 10 0 ++ iso_bytes 733 0x12345 ++ replicate 16 0)%list.
Proof.
  destruct (iso_structures iso_directory_record "size" 11 18 (Numbers 1 733)) as ((H1 & _) & H2 & _).
  - do 4 right. left.
  - do 3 right. left.
  - split; [exact H1|]. destruct (H2 1 733 0 0x12345 [] (replicate 10 0) (replicate 16 0) []) as [H3 _];
      [reflexivity|lia|vm_compute; by split|reflexivity|reflexivity|]. rewrite app_nil_r in H3. exact H3.
Defined.
