(* ===== verification/Scsi.v ===== *)
(** * SCSI commands: cam/scsi/scsi_all.h

    The structures of command blocks, parameter pages and sense data, which are
    arrays of bytes, with the constants declared between their members, the
    operation codes, and the functions that read and write numbers of 16 to 64 bits
    in them. *)

From S2P Require Import Prelude CStruct Endian.
From Stdlib Require Import String.
#[local] Close Scope string_scope.
#[local] Abbreviation length := List.length.

(** ** The declarations *)

Record scsi_struct := ScsiStruct {
  scsi_name : string;
  scsi_members : list (string * cty);
  scsi_constants : list (string * Z)
}.
Definition scsi_type (s : scsi_struct) : cty := CRecord (scsi_members s).

#[local] Open Scope string_scope.

Definition scsi_generic : scsi_struct := ScsiStruct "scsi_generic" [
  ("opcode", c_u8); ("bytes", CArray 11 c_u8)] [].

Definition scsi_request_sense : scsi_struct := ScsiStruct "scsi_request_sense" [
  ("opcode", c_u8); ("byte2", c_u8); ("unused", CArray 2 c_u8); ("length", c_u8);
  ("control", c_u8)] [
  ("SRS_DESC", 0x01)].

Definition scsi_test_unit_ready : scsi_struct := ScsiStruct "scsi_test_unit_ready" [
  ("opcode", c_u8); ("byte2", c_u8); ("unused", CArray 3 c_u8); ("control", c_u8)] [].

Definition scsi_receive_diag : scsi_struct := ScsiStruct "scsi_receive_diag" [
  ("opcode", c_u8); ("byte2", c_u8); ("page_code", c_u8); ("length", CArray 2 c_u8);
  ("control", c_u8)] [
  ("SRD_PCV", 0x01)].

Definition scsi_send_diag : scsi_struct := ScsiStruct "scsi_send_diag" [
  ("opcode", c_u8); ("byte2", c_u8); ("reserved", c_u8); ("length", CArray 2 c_u8);
  ("control", c_u8)] [
  ("SSD_UNITOFFL", 0x01); ("SSD_DEVOFFL", 0x02); ("SSD_SELFTEST", 0x04); ("SSD_PF", 0x10);
  ("SSD_SELF_TEST_CODE_MASK", 0xE0); ("SSD_SELF_TEST_CODE_SHIFT", 5);
  ("SSD_SELF_TEST_CODE_NONE", 0x00); ("SSD_SELF_TEST_CODE_BG_SHORT", 0x01);
  ("SSD_SELF_TEST_CODE_BG_EXTENDED", 0x02); ("SSD_SELF_TEST_CODE_BG_ABORT", 0x04);
  ("SSD_SELF_TEST_CODE_FG_SHORT", 0x05); ("SSD_SELF_TEST_CODE_FG_EXTENDED", 0x06)].

Definition scsi_sense : scsi_struct := ScsiStruct "scsi_sense" [
  ("opcode", c_u8); ("byte2", c_u8); ("unused", CArray 2 c_u8); ("length", c_u8);
  ("control", c_u8)] [].

Definition scsi_inquiry : scsi_struct := ScsiStruct "scsi_inquiry" [
  ("opcode", c_u8); ("byte2", c_u8); ("page_code", c_u8); ("reserved", c_u8); ("length", c_u8);
  ("control", c_u8)] [
  ("SI_EVPD", 0x01); ("SI_CMDDT", 0x02)].

Definition scsi_mode_sense_6 : scsi_struct := ScsiStruct "scsi_mode_sense_6" [
  ("opcode", c_u8); ("byte2", c_u8); ("page", c_u8); ("subpage", c_u8); ("length", c_u8);
  ("control", c_u8)] [
  ("SMS_DBD", 0x08); ("SMS_PAGE_CODE", 0x3F); ("SMS_VENDOR_SPECIFIC_PAGE", 0x00);
  ("SMS_DISCONNECT_RECONNECT_PAGE", 0x02); ("SMS_FORMAT_DEVICE_PAGE", 0x03);
  ("SMS_GEOMETRY_PAGE", 0x04); ("SMS_CACHE_PAGE", 0x08); ("SMS_PERIPHERAL_DEVICE_PAGE", 0x09);
  ("SMS_CONTROL_MODE_PAGE", 0x0A); ("SMS_PROTO_SPECIFIC_PAGE", 0x19);
  ("SMS_INFO_EXCEPTIONS_PAGE", 0x1C); ("SMS_ALL_PAGES_PAGE", 0x3F);
  ("SMS_PAGE_CTRL_MASK", 0xC0); ("SMS_PAGE_CTRL_CURRENT", 0x00);
  ("SMS_PAGE_CTRL_CHANGEABLE", 0x40); ("SMS_PAGE_CTRL_DEFAULT", 0x80);
  ("SMS_PAGE_CTRL_SAVED", 0xC0); ("SMS_SUBPAGE_PAGE_0", 0x00); ("SMS_SUBPAGE_ALL", 0xff)].

Definition scsi_mode_sense_10 : scsi_struct := ScsiStruct "scsi_mode_sense_10" [
  ("opcode", c_u8); ("byte2", c_u8); ("page", c_u8); ("subpage", c_u8);
  ("unused", CArray 3 c_u8); ("length", CArray 2 c_u8); ("control", c_u8)] [
  ("SMS10_LLBAA", 0x10)].

Definition scsi_mode_select_6 : scsi_struct := ScsiStruct "scsi_mode_select_6" [
  ("opcode", c_u8); ("byte2", c_u8); ("unused", CArray 2 c_u8); ("length", c_u8);
  ("control", c_u8)] [
  ("SMS_SP", 0x01); ("SMS_PF", 0x10)].

Definition scsi_mode_select_10 : scsi_struct := ScsiStruct "scsi_mode_select_10" [
  ("opcode", c_u8); ("byte2", c_u8); ("unused", CArray 5 c_u8); ("length", CArray 2 c_u8);
  ("control", c_u8)] [].

Definition scsi_mode_hdr_6 : scsi_struct := ScsiStruct "scsi_mode_hdr_6" [
  ("datalen", c_u8); ("medium_type", c_u8); ("dev_specific", c_u8); ("block_descr_len", c_u8)] [].

Definition scsi_mode_hdr_10 : scsi_struct := ScsiStruct "scsi_mode_hdr_10" [
  ("datalen", CArray 2 c_u8); ("medium_type", c_u8); ("dev_specific", c_u8);
  ("reserved", CArray 2 c_u8); ("block_descr_len", CArray 2 c_u8)] [].

Definition scsi_mode_block_descr : scsi_struct := ScsiStruct "scsi_mode_block_descr" [
  ("density_code", c_u8); ("num_blocks", CArray 3 c_u8); ("reserved", c_u8);
  ("block_len", CArray 3 c_u8)] [].

Definition scsi_per_res_in : scsi_struct := ScsiStruct "scsi_per_res_in" [
  ("opcode", c_u8); ("action", c_u8); ("reserved", CArray 5 c_u8); ("length", CArray 2 c_u8);
  ("control", c_u8)] [
  ("SPRI_RK", 0x00); ("SPRI_RR", 0x01); ("SPRI_RC", 0x02); ("SPRI_RS", 0x03)].

Definition scsi_per_res_in_header : scsi_struct := ScsiStruct "scsi_per_res_in_header" [
  ("generation", CArray 4 c_u8); ("length", CArray 4 c_u8)] [].

Definition scsi_per_res_key : scsi_struct := ScsiStruct "scsi_per_res_key" [
  ("key", CArray 8 c_u8)] [].

Definition scsi_per_res_in_keys : scsi_struct := ScsiStruct "scsi_per_res_in_keys" [
  ("header", scsi_type scsi_per_res_in_header); ("keys", CArray 0 (scsi_type scsi_per_res_key))] [].

Definition scsi_per_res_cap : scsi_struct := ScsiStruct "scsi_per_res_cap" [
  ("length", CArray 2 c_u8); ("flags1", c_u8); ("flags2", c_u8); ("type_mask", CArray 2 c_u8);
  ("reserved", CArray 2 c_u8)] [
  ("SPRI_CRH", 0x10); ("SPRI_SIP_C", 0x08); ("SPRI_ATP_C", 0x04); ("SPRI_PTPL_C", 0x01);
  ("SPRI_TMV", 0x80); ("SPRI_PTPL_A", 0x01); ("SPRI_TM_WR_EX_AR", 0x8000);
  ("SPRI_TM_EX_AC_RO", 0x4000); ("SPRI_TM_WR_EX_RO", 0x2000); ("SPRI_TM_EX_AC", 0x0800);
  ("SPRI_TM_WR_EX", 0x0200); ("SPRI_TM_EX_AC_AR", 0x0001)].

Definition scsi_per_res_in_rsrv_data : scsi_struct := ScsiStruct "scsi_per_res_in_rsrv_data" [
  ("reservation", CArray 8 c_u8); ("obsolete1", CArray 4 c_u8); ("reserved", c_u8);
  ("scopetype", c_u8); ("obsolete2", CArray 2 c_u8)] [
  ("SPRT_WE", 0x01); ("SPRT_EA", 0x03); ("SPRT_WERO", 0x05); ("SPRT_EARO", 0x06);
  ("SPRT_WEAR", 0x07); ("SPRT_EAAR", 0x08)].

Definition scsi_per_res_in_rsrv : scsi_struct := ScsiStruct "scsi_per_res_in_rsrv" [
  ("header", scsi_type scsi_per_res_in_header); ("data", scsi_type scsi_per_res_in_rsrv_data)] [].

Definition scsi_per_res_out : scsi_struct := ScsiStruct "scsi_per_res_out" [
  ("opcode", c_u8); ("action", c_u8); ("scope_type", c_u8); ("reserved", CArray 2 c_u8);
  ("length", CArray 4 c_u8); ("control", c_u8)] [
  ("SPRO_REGISTER", 0x00); ("SPRO_RESERVE", 0x01); ("SPRO_RELEASE", 0x02); ("SPRO_CLEAR", 0x03);
  ("SPRO_PREEMPT", 0x04); ("SPRO_PRE_ABO", 0x05); ("SPRO_REG_IGNO", 0x06);
  ("SPRO_REG_MOVE", 0x07); ("SPRO_ACTION_MASK", 0x1f); ("SPR_SCOPE_MASK", 0xf0);
  ("SPR_LU_SCOPE", 0x00); ("SPR_TYPE_MASK", 0x0f); ("SPR_TYPE_WR_EX", 0x01);
  ("SPR_TYPE_EX_AC", 0x03); ("SPR_TYPE_WR_EX_RO", 0x05); ("SPR_TYPE_EX_AC_RO", 0x06);
  ("SPR_TYPE_WR_EX_AR", 0x07); ("SPR_TYPE_EX_AC_AR", 0x08)].

Definition scsi_per_res_out_parms : scsi_struct := ScsiStruct "scsi_per_res_out_parms" [
  ("res_key", scsi_type scsi_per_res_key); ("serv_act_res_key", CArray 8 c_u8);
  ("obsolete1", CArray 4 c_u8); ("flags", c_u8); ("reserved1", c_u8);
  ("obsolete2", CArray 2 c_u8)] [
  ("SPR_SPEC_I_PT", 0x08); ("SPR_ALL_TG_PT", 0x04); ("SPR_APTPL", 0x01)].

Definition scsi_log_sense : scsi_struct := ScsiStruct "scsi_log_sense" [
  ("opcode", c_u8); ("byte2", c_u8); ("page", c_u8); ("reserved", CArray 2 c_u8);
  ("paramptr", CArray 2 c_u8); ("length", CArray 2 c_u8); ("control", c_u8)] [
  ("SLS_SP", 0x01); ("SLS_PPC", 0x02); ("SLS_PAGE_CODE", 0x3F); ("SLS_ALL_PAGES_PAGE", 0x00);
  ("SLS_OVERRUN_PAGE", 0x01); ("SLS_ERROR_WRITE_PAGE", 0x02); ("SLS_ERROR_READ_PAGE", 0x03);
  ("SLS_ERROR_READREVERSE_PAGE", 0x04); ("SLS_ERROR_VERIFY_PAGE", 0x05);
  ("SLS_ERROR_NONMEDIUM_PAGE", 0x06); ("SLS_ERROR_LASTN_PAGE", 0x07);
  ("SLS_SELF_TEST_PAGE", 0x10); ("SLS_IE_PAGE", 0x2f); ("SLS_PAGE_CTRL_MASK", 0xC0);
  ("SLS_PAGE_CTRL_THRESHOLD", 0x00); ("SLS_PAGE_CTRL_CUMULATIVE", 0x40);
  ("SLS_PAGE_CTRL_THRESH_DEFAULT", 0x80); ("SLS_PAGE_CTRL_CUMUL_DEFAULT", 0xC0)].

Definition scsi_log_select : scsi_struct := ScsiStruct "scsi_log_select" [
  ("opcode", c_u8); ("byte2", c_u8); ("page", c_u8); ("reserved", CArray 4 c_u8);
  ("length", CArray 2 c_u8); ("control", c_u8)] [
  ("SLS_PCR", 0x02)].

Definition scsi_log_header : scsi_struct := ScsiStruct "scsi_log_header" [
  ("page", c_u8); ("reserved", c_u8); ("datalen", CArray 2 c_u8)] [].

Definition scsi_log_param_header : scsi_struct := ScsiStruct "scsi_log_param_header" [
  ("param_code", CArray 2 c_u8); ("param_control", c_u8); ("param_len", c_u8)] [
  ("SLP_LP", 0x01); ("SLP_LBIN", 0x02); ("SLP_TMC_MASK", 0x0C); ("SLP_TMC_ALWAYS", 0x00);
  ("SLP_TMC_EQUAL", 0x04); ("SLP_TMC_NOTEQUAL", 0x08); ("SLP_TMC_GREATER", 0x0C);
  ("SLP_ETC", 0x10); ("SLP_TSD", 0x20); ("SLP_DS", 0x40); ("SLP_DU", 0x80)].

Definition scsi_control_page : scsi_struct := ScsiStruct "scsi_control_page" [
  ("page_code", c_u8); ("page_length", c_u8); ("rlec", c_u8); ("queue_flags", c_u8);
  ("eca_and_aen", c_u8); ("reserved", c_u8); ("aen_holdoff_period", CArray 2 c_u8)] [
  ("SCP_RLEC", 0x01); ("SCP_GLTSD", 0x02); ("SCP_DSENSE", 0x04); ("SCP_DPICZ", 0x08);
  ("SCP_TMF_ONLY", 0x10); ("SCP_TST_MASK", 0xE0); ("SCP_TST_ONE", 0x00);
  ("SCP_TST_SEPARATE", 0x20); ("SCP_QUEUE_ALG_MASK", 0xF0); ("SCP_QUEUE_ALG_RESTRICTED", 0x00);
  ("SCP_QUEUE_ALG_UNRESTRICTED", 0x10); ("SCP_QUEUE_ERR", 0x02); ("SCP_QUEUE_DQUE", 0x01);
  ("SCP_EECA", 0x80); ("SCP_RAENP", 0x04); ("SCP_UAAENP", 0x02); ("SCP_EAENP", 0x01)].

Definition scsi_cache_page : scsi_struct := ScsiStruct "scsi_cache_page" [
  ("page_code", c_u8); ("page_length", c_u8); ("cache_flags", c_u8); ("rw_cache_policy", c_u8);
  ("dis_prefetch", CArray 2 c_u8); ("min_prefetch", CArray 2 c_u8);
  ("max_prefetch", CArray 2 c_u8); ("max_prefetch_ceil", CArray 2 c_u8)] [
  ("SCHP_PAGE_SAVABLE", 0x80); ("SCHP_FLAGS_WCE", 0x04); ("SCHP_FLAGS_MF", 0x02);
  ("SCHP_FLAGS_RCD", 0x01)].

Definition scsi_caching_page : scsi_struct := ScsiStruct "scsi_caching_page" [
  ("page_code", c_u8); ("page_length", c_u8); ("flags1", c_u8); ("ret_priority", c_u8);
  ("disable_pf_transfer_len", CArray 2 c_u8); ("min_prefetch", CArray 2 c_u8);
  ("max_prefetch", CArray 2 c_u8); ("max_pf_ceiling", CArray 2 c_u8); ("flags2", c_u8);
  ("cache_segments", c_u8); ("cache_seg_size", CArray 2 c_u8); ("reserved", c_u8);
  ("non_cache_seg_size", CArray 3 c_u8)] [
  ("SMS_CACHING_PAGE", 0x08); ("SCP_IC", 0x80); ("SCP_ABPF", 0x40); ("SCP_CAP", 0x20);
  ("SCP_DISC", 0x10); ("SCP_SIZE", 0x08); ("SCP_WCE", 0x04); ("SCP_MF", 0x02);
  ("SCP_RCD", 0x01); ("SCP_FSW", 0x80); ("SCP_LBCSS", 0x40); ("SCP_DRA", 0x20);
  ("SCP_VS1", 0x10); ("SCP_VS2", 0x08)].

Definition scsi_info_exceptions_page : scsi_struct := ScsiStruct "scsi_info_exceptions_page" [
  ("page_code", c_u8); ("page_length", c_u8); ("info_flags", c_u8); ("mrie", c_u8);
  ("interval_timer", CArray 4 c_u8); ("report_count", CArray 4 c_u8)] [
  ("SIEP_PAGE_SAVABLE", 0x80); ("SIEP_FLAGS_PERF", 0x80); ("SIEP_FLAGS_EBF", 0x20);
  ("SIEP_FLAGS_EWASC", 0x10); ("SIEP_FLAGS_DEXCPT", 0x08); ("SIEP_FLAGS_TEST", 0x04);
  ("SIEP_FLAGS_EBACKERR", 0x02); ("SIEP_FLAGS_LOGERR", 0x01)].

Definition scsi_proto_specific_page : scsi_struct := ScsiStruct "scsi_proto_specific_page" [
  ("page_code", c_u8); ("page_length", c_u8); ("protocol", c_u8)] [
  ("SPSP_PAGE_SAVABLE", 0x80); ("SPSP_PROTO_FC", 0x00); ("SPSP_PROTO_SPI", 0x01);
  ("SPSP_PROTO_SSA", 0x02); ("SPSP_PROTO_1394", 0x03); ("SPSP_PROTO_RDMA", 0x04);
  ("SPSP_PROTO_ISCSI", 0x05); ("SPSP_PROTO_SAS", 0x06); ("SPSP_PROTO_ADT", 0x07);
  ("SPSP_PROTO_ATA", 0x08); ("SPSP_PROTO_NONE", 0x0f)].

Definition scsi_reserve : scsi_struct := ScsiStruct "scsi_reserve" [
  ("opcode", c_u8); ("byte2", c_u8); ("resv_id", c_u8); ("length", CArray 2 c_u8);
  ("control", c_u8)] [
  ("SR_EXTENT", 0x01); ("SR_ID_MASK", 0x0e); ("SR_3RDPTY", 0x10); ("SR_LUN_MASK", 0xe0)].

Definition scsi_reserve_10 : scsi_struct := ScsiStruct "scsi_reserve_10" [
  ("opcode", c_u8); ("byte2", c_u8); ("resv_id", c_u8); ("thirdparty_id", c_u8);
  ("reserved", CArray 3 c_u8); ("length", CArray 2 c_u8); ("control", c_u8)] [
  ("SR10_3RDPTY", 0x10); ("SR10_LONGID", 0x02); ("SR10_EXTENT", 0x01)].

Definition scsi_release : scsi_struct := ScsiStruct "scsi_release" [
  ("opcode", c_u8); ("byte2", c_u8); ("resv_id", c_u8); ("unused", CArray 1 c_u8);
  ("length", c_u8); ("control", c_u8)] [].

Definition scsi_release_10 : scsi_struct := ScsiStruct "scsi_release_10" [
  ("opcode", c_u8); ("byte2", c_u8); ("resv_id", c_u8); ("thirdparty_id", c_u8);
  ("reserved", CArray 3 c_u8); ("length", CArray 2 c_u8); ("control", c_u8)] [].

Definition scsi_prevent : scsi_struct := ScsiStruct "scsi_prevent" [
  ("opcode", c_u8); ("byte2", c_u8); ("unused", CArray 2 c_u8); ("how", c_u8); ("control", c_u8)] [].

Definition scsi_sync_cache : scsi_struct := ScsiStruct "scsi_sync_cache" [
  ("opcode", c_u8); ("byte2", c_u8); ("begin_lba", CArray 4 c_u8); ("reserved", c_u8);
  ("lb_count", CArray 2 c_u8); ("control", c_u8)] [
  ("SSC_IMMED", 0x02); ("SSC_RELADR", 0x01)].

Definition scsi_sync_cache_16 : scsi_struct := ScsiStruct "scsi_sync_cache_16" [
  ("opcode", c_u8); ("byte2", c_u8); ("begin_lba", CArray 8 c_u8); ("lb_count", CArray 4 c_u8);
  ("reserved", c_u8); ("control", c_u8)] [].

Definition scsi_format : scsi_struct := ScsiStruct "scsi_format" [
  ("opcode", c_u8); ("byte2", c_u8); ("vendor", c_u8); ("interleave", CArray 2 c_u8);
  ("control", c_u8)] [
  ("SF_LONGLIST", 0x20); ("SF_FMTDATA", 0x10); ("SF_CMPLIST", 0x08); ("SF_FORMAT_MASK", 0x07);
  ("SF_FORMAT_BLOCK", 0x00); ("SF_FORMAT_LONG_BLOCK", 0x03); ("SF_FORMAT_BFI", 0x04);
  ("SF_FORMAT_PHYS", 0x05)].

Definition scsi_format_header_short : scsi_struct := ScsiStruct "scsi_format_header_short" [
  ("reserved", c_u8); ("byte2", c_u8); ("defect_list_len", CArray 2 c_u8)] [
  ("SF_DATA_FOV", 0x80); ("SF_DATA_DPRY", 0x40); ("SF_DATA_DCRT", 0x20); ("SF_DATA_STPF", 0x10);
  ("SF_DATA_IP", 0x08); ("SF_DATA_DSP", 0x04); ("SF_DATA_IMMED", 0x02); ("SF_DATA_VS", 0x01)].

Definition scsi_format_header_long : scsi_struct := ScsiStruct "scsi_format_header_long" [
  ("reserved", c_u8); ("byte2", c_u8); ("reserved2", CArray 2 c_u8);
  ("defect_list_len", CArray 4 c_u8)] [].

Definition scsi_changedef : scsi_struct := ScsiStruct "scsi_changedef" [
  ("opcode", c_u8); ("byte2", c_u8); ("unused1", c_u8); ("how", c_u8);
  ("unused", CArray 4 c_u8); ("datalen", c_u8); ("control", c_u8)] [].

Definition scsi_read_buffer : scsi_struct := ScsiStruct "scsi_read_buffer" [
  ("opcode", c_u8); ("byte2", c_u8); ("buffer_id", c_u8); ("offset", CArray 3 c_u8);
  ("length", CArray 3 c_u8); ("control", c_u8)] [
  ("RWB_MODE", 0x07); ("RWB_MODE_HDR_DATA", 0x00); ("RWB_MODE_VENDOR", 0x01);
  ("RWB_MODE_DATA", 0x02); ("RWB_MODE_DOWNLOAD", 0x04); ("RWB_MODE_DOWNLOAD_SAVE", 0x05)].

Definition scsi_write_buffer : scsi_struct := ScsiStruct "scsi_write_buffer" [
  ("opcode", c_u8); ("byte2", c_u8); ("buffer_id", c_u8); ("offset", CArray 3 c_u8);
  ("length", CArray 3 c_u8); ("control", c_u8)] [].

Definition scsi_rw_6 : scsi_struct := ScsiStruct "scsi_rw_6" [
  ("opcode", c_u8); ("addr", CArray 3 c_u8); ("length", c_u8); ("control", c_u8)] [
  ("SRW_TOPADDR", 0x1F)].

Definition scsi_rw_10 : scsi_struct := ScsiStruct "scsi_rw_10" [
  ("opcode", c_u8); ("byte2", c_u8); ("addr", CArray 4 c_u8); ("reserved", c_u8);
  ("length", CArray 2 c_u8); ("control", c_u8)] [
  ("SRW10_RELADDR", 0x01); ("SRW10_EBP", 0x04); ("SRW10_FUA", 0x08); ("SRW10_DPO", 0x10)].

Definition scsi_rw_12 : scsi_struct := ScsiStruct "scsi_rw_12" [
  ("opcode", c_u8); ("byte2", c_u8); ("addr", CArray 4 c_u8); ("length", CArray 4 c_u8);
  ("reserved", c_u8); ("control", c_u8)] [
  ("SRW12_RELADDR", 0x01); ("SRW12_FUA", 0x08); ("SRW12_DPO", 0x10)].

Definition scsi_rw_16 : scsi_struct := ScsiStruct "scsi_rw_16" [
  ("opcode", c_u8); ("byte2", c_u8); ("addr", CArray 8 c_u8); ("length", CArray 4 c_u8);
  ("reserved", c_u8); ("control", c_u8)] [
  ("SRW16_RELADDR", 0x01); ("SRW16_FUA", 0x08); ("SRW16_DPO", 0x10)].

Definition scsi_write_verify_10 : scsi_struct := ScsiStruct "scsi_write_verify_10" [
  ("opcode", c_u8); ("byte2", c_u8); ("addr", CArray 4 c_u8); ("group", c_u8);
  ("length", CArray 2 c_u8); ("control", c_u8)] [
  ("SWV_BYTCHK", 0x02); ("SWV_DPO", 0x10); ("SWV_WRPROECT_MASK", 0xe0)].

Definition scsi_write_verify_12 : scsi_struct := ScsiStruct "scsi_write_verify_12" [
  ("opcode", c_u8); ("byte2", c_u8); ("addr", CArray 4 c_u8); ("length", CArray 4 c_u8);
  ("group", c_u8); ("control", c_u8)] [].

Definition scsi_write_verify_16 : scsi_struct := ScsiStruct "scsi_write_verify_16" [
  ("opcode", c_u8); ("byte2", c_u8); ("addr", CArray 8 c_u8); ("length", CArray 4 c_u8);
  ("group", c_u8); ("control", c_u8)] [].

Definition scsi_start_stop_unit : scsi_struct := ScsiStruct "scsi_start_stop_unit" [
  ("opcode", c_u8); ("byte2", c_u8); ("reserved", CArray 2 c_u8); ("how", c_u8);
  ("control", c_u8)] [
  ("SSS_IMMED", 0x01); ("SSS_START", 0x01); ("SSS_LOEJ", 0x02); ("SSS_PC_MASK", 0xf0);
  ("SSS_PC_START_VALID", 0x00); ("SSS_PC_ACTIVE", 0x10); ("SSS_PC_IDLE", 0x20);
  ("SSS_PC_STANDBY", 0x30); ("SSS_PC_LU_CONTROL", 0x70); ("SSS_PC_FORCE_IDLE_0", 0xa0);
  ("SSS_PC_FORCE_STANDBY_0", 0xb0)].

Definition ata_pass_12 : scsi_struct := ScsiStruct "ata_pass_12" [
  ("opcode", c_u8); ("protocol", c_u8); ("flags", c_u8); ("features", c_u8);
  ("sector_count", c_u8); ("lba_low", c_u8); ("lba_mid", c_u8); ("lba_high", c_u8);
  ("device", c_u8); ("command", c_u8); ("reserved", c_u8); ("control", c_u8)] [
  ("AP_MULTI", 0xe0); ("AP_T_LEN", 0x03); ("AP_BB", 0x04); ("AP_T_DIR", 0x08);
  ("AP_CK_COND", 0x20); ("AP_OFFLINE", 0x60)].

Definition scsi_maintenance_in : scsi_struct := ScsiStruct "scsi_maintenance_in" [
  ("opcode", c_u8); ("byte2", c_u8); ("reserved", CArray 4 c_u8); ("length", CArray 4 c_u8);
  ("reserved1", c_u8); ("control", c_u8)] [
  ("SERVICE_ACTION_MASK", 0x1f); ("SA_RPRT_TRGT_GRP", 0x0a)].

Definition ata_pass_16 : scsi_struct := ScsiStruct "ata_pass_16" [
  ("opcode", c_u8); ("protocol", c_u8); ("flags", c_u8); ("features_ext", c_u8);
  ("features", c_u8); ("sector_count_ext", c_u8); ("sector_count", c_u8); ("lba_low_ext", c_u8);
  ("lba_low", c_u8); ("lba_mid_ext", c_u8); ("lba_mid", c_u8); ("lba_high_ext", c_u8);
  ("lba_high", c_u8); ("device", c_u8); ("command", c_u8); ("control", c_u8)] [
  ("AP_EXTEND", 0x01)].

Definition scsi_vpd_supported_page_list : scsi_struct := ScsiStruct "scsi_vpd_supported_page_list" [
  ("device", c_u8); ("page_code", c_u8); ("reserved", c_u8); ("length", c_u8);
  ("list", CArray 251 c_u8)] [
  ("SVPD_SUPPORTED_PAGE_LIST", 0x00); ("SVPD_SUPPORTED_PAGES_HDR_LEN", 4);
  ("SVPD_SUPPORTED_PAGES_SIZE", 251)].

Definition scsi_vpd_supported_pages : scsi_struct := ScsiStruct "scsi_vpd_supported_pages" [
  ("device", c_u8); ("page_code", c_u8); ("reserved", c_u8); ("length", c_u8);
  ("page_list", CArray 0 c_u8)] [
  ("SVPD_SUPPORTED_PAGES", 0x00)].

Definition scsi_vpd_unit_serial_number : scsi_struct := ScsiStruct "scsi_vpd_unit_serial_number" [
  ("device", c_u8); ("page_code", c_u8); ("reserved", c_u8); ("length", c_u8);
  ("serial_num", CArray 251 c_u8)] [
  ("SVPD_UNIT_SERIAL_NUMBER", 0x80); ("SVPD_SERIAL_NUM_SIZE", 251)].

Definition scsi_vpd_id_t10 : scsi_struct := ScsiStruct "scsi_vpd_id_t10" [
  ("vendor", CArray 8 c_u8); ("vendor_spec_id", CArray 0 c_u8)] [].

Definition scsi_vpd_id_eui64 : scsi_struct := ScsiStruct "scsi_vpd_id_eui64" [
  ("ieee_company_id", CArray 3 c_u8); ("extension_id", CArray 5 c_u8)] [].

Definition scsi_vpd_id_naa_ieee_extended_id : scsi_struct := ScsiStruct "scsi_vpd_id_naa_ieee_extended_id" [
  ("naa", c_u8); ("vendor_specific_id_a", c_u8); ("ieee_company_id", CArray 3 c_u8);
  ("vendor_specific_id_b", CArray 4 c_u8)] [].

Definition scsi_vpd_id_naa_local_reg : scsi_struct := ScsiStruct "scsi_vpd_id_naa_local_reg" [
  ("naa", c_u8); ("local_value", CArray 7 c_u8)] [].

Definition scsi_vpd_id_naa_ieee_reg : scsi_struct := ScsiStruct "scsi_vpd_id_naa_ieee_reg" [
  ("naa", c_u8); ("reg_value", CArray 7 c_u8)] [].

Definition scsi_vpd_id_naa_ieee_reg_extended : scsi_struct := ScsiStruct "scsi_vpd_id_naa_ieee_reg_extended" [
  ("naa", c_u8); ("reg_value", CArray 15 c_u8)] [].

Definition scsi_vpd_id_rel_trgt_port_id : scsi_struct := ScsiStruct "scsi_vpd_id_rel_trgt_port_id" [
  ("obsolete", CArray 2 c_u8); ("rel_trgt_port_id", CArray 2 c_u8)] [].

Definition scsi_vpd_id_trgt_port_grp_id : scsi_struct := ScsiStruct "scsi_vpd_id_trgt_port_grp_id" [
  ("reserved", CArray 2 c_u8); ("trgt_port_grp", CArray 2 c_u8)] [].

Definition scsi_vpd_id_lun_grp_id : scsi_struct := ScsiStruct "scsi_vpd_id_lun_grp_id" [
  ("reserved", CArray 2 c_u8); ("log_unit_grp", CArray 2 c_u8)] [].

Definition scsi_vpd_id_md5_lun_id : scsi_struct := ScsiStruct "scsi_vpd_id_md5_lun_id" [
  ("lun_id", CArray 16 c_u8)] [].

Definition scsi_vpd_id_scsi_name : scsi_struct := ScsiStruct "scsi_vpd_id_scsi_name" [
  ("name_string", CArray 256 c_u8)] [].

Definition scsi_service_action_in : scsi_struct := ScsiStruct "scsi_service_action_in" [
  ("opcode", c_u8); ("service_action", c_u8); ("action_dependent", CArray 13 c_u8);
  ("control", c_u8)] [].

Definition scsi_read_capacity : scsi_struct := ScsiStruct "scsi_read_capacity" [
  ("opcode", c_u8); ("byte2", c_u8); ("addr", CArray 4 c_u8); ("unused", CArray 2 c_u8);
  ("pmi", c_u8); ("control", c_u8)] [
  ("SRC_RELADR", 0x01); ("SRC_PMI", 0x01)].

Definition scsi_read_capacity_16 : scsi_struct := ScsiStruct "scsi_read_capacity_16" [
  ("opcode", c_u8); ("service_action", c_u8); ("addr", CArray 8 c_u8);
  ("alloc_len", CArray 4 c_u8); ("reladr", c_u8); ("control", c_u8)] [
  ("SRC16_SERVICE_ACTION", 0x10); ("SRC16_PMI", 0x01); ("SRC16_RELADR", 0x02)].

Definition scsi_read_capacity_data : scsi_struct := ScsiStruct "scsi_read_capacity_data" [
  ("addr", CArray 4 c_u8); ("length", CArray 4 c_u8)] [].

Definition scsi_read_capacity_data_long : scsi_struct := ScsiStruct "scsi_read_capacity_data_long" [
  ("addr", CArray 8 c_u8); ("length", CArray 4 c_u8)] [].

Definition scsi_report_luns : scsi_struct := ScsiStruct "scsi_report_luns" [
  ("opcode", c_u8); ("reserved1", c_u8); ("select_report", c_u8); ("reserved2", CArray 3 c_u8);
  ("length", CArray 4 c_u8); ("reserved3", c_u8); ("control", c_u8)] [
  ("RPL_REPORT_DEFAULT", 0x00); ("RPL_REPORT_WELLKNOWN", 0x01); ("RPL_REPORT_ALL", 0x02)].

Definition scsi_report_luns_lundata : scsi_struct := ScsiStruct "scsi_report_luns_lundata" [
  ("lundata", CArray 8 c_u8)] [
  ("RPL_LUNDATA_PERIPH_BUS_MASK", 0x3f); ("RPL_LUNDATA_FLAT_LUN_MASK", 0x3f);
  ("RPL_LUNDATA_FLAT_LUN_BITS", 0x06); ("RPL_LUNDATA_LUN_TARG_MASK", 0x3f);
  ("RPL_LUNDATA_LUN_BUS_MASK", 0xe0); ("RPL_LUNDATA_LUN_LUN_MASK", 0x1f);
  ("RPL_LUNDATA_EXT_LEN_MASK", 0x30); ("RPL_LUNDATA_EXT_EAM_MASK", 0x0f);
  ("RPL_LUNDATA_EXT_EAM_WK", 0x01); ("RPL_LUNDATA_EXT_EAM_NOT_SPEC", 0x0f);
  ("RPL_LUNDATA_ATYP_MASK", 0xc0); ("RPL_LUNDATA_ATYP_PERIPH", 0x00);
  ("RPL_LUNDATA_ATYP_FLAT", 0x40); ("RPL_LUNDATA_ATYP_LUN", 0x80);
  ("RPL_LUNDATA_ATYP_EXTLUN", 0xc0)].

Definition scsi_report_luns_data : scsi_struct := ScsiStruct "scsi_report_luns_data" [
  ("length", CArray 4 c_u8); ("reserved", CArray 4 c_u8);
  ("luns", CArray 0 (scsi_type scsi_report_luns_lundata))] [].

Definition scsi_target_group : scsi_struct := ScsiStruct "scsi_target_group" [
  ("opcode", c_u8); ("service_action", c_u8); ("reserved1", CArray 4 c_u8);
  ("length", CArray 4 c_u8); ("reserved2", c_u8); ("control", c_u8)] [
  ("STG_PDF_LENGTH", 0x00); ("RPL_PDF_EXTENDED", 0x20)].

Definition scsi_sense_data : scsi_struct := ScsiStruct "scsi_sense_data" [
  ("error_code", c_u8); ("sense_buf", CArray 251 c_u8)] [
  ("SSD_FULL_SIZE", 252); ("SSD_MIN_SIZE", 18); ("SSD_EXTRA_MAX", 244)].

Definition scsi_sense_desc_header : scsi_struct := ScsiStruct "scsi_sense_desc_header" [
  ("desc_type", c_u8); ("length", c_u8)] [].

Definition scsi_sense_info : scsi_struct := ScsiStruct "scsi_sense_info" [
  ("desc_type", c_u8); ("length", c_u8); ("byte2", c_u8); ("reserved", c_u8);
  ("info", CArray 8 c_u8)] [
  ("SSD_DESC_INFO", 0x00); ("SSD_INFO_VALID", 0x80)].

Definition scsi_sense_command : scsi_struct := ScsiStruct "scsi_sense_command" [
  ("desc_type", c_u8); ("length", c_u8); ("reserved", CArray 2 c_u8);
  ("command_info", CArray 8 c_u8)] [
  ("SSD_DESC_COMMAND", 0x01)].

Definition scsi_sense_sks : scsi_struct := ScsiStruct "scsi_sense_sks" [
  ("desc_type", c_u8); ("length", c_u8); ("reserved1", CArray 2 c_u8);
  ("sense_key_spec", CArray 3 c_u8); ("reserved2", c_u8)] [
  ("SSD_DESC_SKS", 0x02); ("SSD_SKS_VALID", 0x80)].

Definition scsi_sense_sks_field : scsi_struct := ScsiStruct "scsi_sense_sks_field" [
  ("byte0", c_u8); ("field", CArray 2 c_u8)] [
  ("SSD_SKS_FIELD_VALID", 0x80); ("SSD_SKS_FIELD_CMD", 0x40); ("SSD_SKS_BPV", 0x08);
  ("SSD_SKS_BIT_VALUE", 0x07)].

Definition scsi_sense_sks_retry : scsi_struct := ScsiStruct "scsi_sense_sks_retry" [
  ("byte0", c_u8); ("actual_retry_count", CArray 2 c_u8)] [
  ("SSD_SKS_RETRY_VALID", 0x80)].

Definition scsi_sense_sks_progress : scsi_struct := ScsiStruct "scsi_sense_sks_progress" [
  ("byte0", c_u8); ("progress", CArray 2 c_u8)] [
  ("SSD_SKS_PROGRESS_VALID", 0x80); ("SSD_SKS_PROGRESS_DENOM", 0x10000)].

Definition scsi_sense_sks_segment : scsi_struct := ScsiStruct "scsi_sense_sks_segment" [
  ("byte0", c_u8); ("field", CArray 2 c_u8)] [
  ("SSD_SKS_SEGMENT_VALID", 0x80); ("SSD_SKS_SEGMENT_SD", 0x20); ("SSD_SKS_SEGMENT_BPV", 0x08);
  ("SSD_SKS_SEGMENT_BITPTR", 0x07)].

Definition scsi_sense_sks_overflow : scsi_struct := ScsiStruct "scsi_sense_sks_overflow" [
  ("byte0", c_u8); ("reserved", CArray 2 c_u8)] [
  ("SSD_SKS_OVERFLOW_VALID", 0x80); ("SSD_SKS_OVERFLOW_SET", 0x01)].

Definition scsi_sense_fru : scsi_struct := ScsiStruct "scsi_sense_fru" [
  ("desc_type", c_u8); ("length", c_u8); ("reserved", c_u8); ("fru", c_u8)] [
  ("SSD_DESC_FRU", 0x03)].

Definition scsi_sense_stream : scsi_struct := ScsiStruct "scsi_sense_stream" [
  ("desc_type", c_u8); ("length", c_u8); ("reserved", c_u8); ("byte3", c_u8)] [
  ("SSD_DESC_STREAM", 0x04); ("SSD_DESC_STREAM_FM", 0x80); ("SSD_DESC_STREAM_EOM", 0x40);
  ("SSD_DESC_STREAM_ILI", 0x20)].

Definition scsi_sense_block : scsi_struct := ScsiStruct "scsi_sense_block" [
  ("desc_type", c_u8); ("length", c_u8); ("reserved", c_u8); ("byte3", c_u8)] [
  ("SSD_DESC_BLOCK", 0x05); ("SSD_DESC_BLOCK_ILI", 0x20)].

Definition scsi_sense_osd_objid : scsi_struct := ScsiStruct "scsi_sense_osd_objid" [
  ("desc_type", c_u8); ("length", c_u8); ("reserved", CArray 6 c_u8);
  ("not_init_cmds", CArray 4 c_u8); ("completed_cmds", CArray 4 c_u8);
  ("partition_id", CArray 8 c_u8); ("object_id", CArray 8 c_u8)] [
  ("SSD_DESC_OSD_OBJID", 0x06)].

Definition scsi_sense_osd_integrity : scsi_struct := ScsiStruct "scsi_sense_osd_integrity" [
  ("desc_type", c_u8); ("length", c_u8); ("integ_check_val", CArray 32 c_u8)] [
  ("SSD_DESC_OSD_INTEGRITY", 0x07)].

Definition scsi_sense_osd_attr_id : scsi_struct := ScsiStruct "scsi_sense_osd_attr_id" [
  ("desc_type", c_u8); ("length", c_u8); ("reserved", CArray 2 c_u8);
  ("attr_desc", CArray 0 c_u8)] [
  ("SSD_DESC_OSD_ATTR_ID", 0x08)].

Definition scsi_sense_progress : scsi_struct := ScsiStruct "scsi_sense_progress" [
  ("desc_type", c_u8); ("length", c_u8); ("sense_key", c_u8); ("add_sense_code", c_u8);
  ("add_sense_code_qual", c_u8); ("reserved", c_u8); ("progress", CArray 2 c_u8)] [
  ("SSD_DESC_PROGRESS", 0x0a)].

Definition scsi_sense_forwarded : scsi_struct := ScsiStruct "scsi_sense_forwarded" [
  ("desc_type", c_u8); ("length", c_u8); ("byte2", c_u8)] [
  ("SSD_DESC_FORWARDED", 0x0c); ("SSD_FORWARDED_FSDT", 0x80); ("SSD_FORWARDED_SDS_MASK", 0x0f);
  ("SSD_FORWARDED_SDS_UNK", 0x00); ("SSD_FORWARDED_SDS_EXSRC", 0x01);
  ("SSD_FORWARDED_SDS_EXDST", 0x02)].

Definition scsi_sense_vendor : scsi_struct := ScsiStruct "scsi_sense_vendor" [
  ("desc_type", c_u8); ("length", c_u8); ("data", CArray 0 c_u8)] [
  ("SSD_DESC_VENDOR_MIN", 0x80); ("SSD_DESC_VENDOR_MAX", 0xff)].

Definition scsi_mode_header_6 : scsi_struct := ScsiStruct "scsi_mode_header_6" [
  ("data_length", c_u8); ("medium_type", c_u8); ("dev_spec", c_u8); ("blk_desc_len", c_u8)] [].

Definition scsi_mode_header_10 : scsi_struct := ScsiStruct "scsi_mode_header_10" [
  ("data_length", CArray 2 c_u8); ("medium_type", c_u8); ("dev_spec", c_u8);
  ("unused", CArray 2 c_u8); ("blk_desc_len", CArray 2 c_u8)] [].

Definition scsi_mode_page_header : scsi_struct := ScsiStruct "scsi_mode_page_header" [
  ("page_code", c_u8); ("page_length", c_u8)] [
  ("SMPH_PS", 0x80); ("SMPH_SPF", 0x40); ("SMPH_PC_MASK", 0x3f)].

Definition scsi_mode_page_header_sp : scsi_struct := ScsiStruct "scsi_mode_page_header_sp" [
  ("page_code", c_u8); ("subpage", c_u8); ("page_length", CArray 2 c_u8)] [].

Definition scsi_mode_blk_desc : scsi_struct := ScsiStruct "scsi_mode_blk_desc" [
  ("density", c_u8); ("nblocks", CArray 3 c_u8); ("reserved", c_u8); ("blklen", CArray 3 c_u8)] [].

Definition scsi_inquiry_data : scsi_struct := ScsiStruct "scsi_inquiry_data" [
  ("device", c_u8); ("dev_qual2", c_u8); ("version", c_u8); ("response_format", c_u8);
  ("additional_length", c_u8); ("spc3_flags", c_u8); ("spc2_flags", c_u8); ("flags", c_u8);
  ("vendor", CArray 8 c_char); ("product", CArray 16 c_char); ("revision", CArray 4 c_char);
  ("vendor_specific0", CArray 20 c_u8); ("spi3data", c_u8); ("reserved2", c_u8);
  ("version1", CArray 2 c_u8); ("version2", CArray 2 c_u8); ("version3", CArray 2 c_u8);
  ("version4", CArray 2 c_u8); ("version5", CArray 2 c_u8); ("version6", CArray 2 c_u8);
  ("version7", CArray 2 c_u8); ("version8", CArray 2 c_u8); ("reserved3", CArray 22 c_u8);
  ("vendor_specific1", CArray 160 c_u8)] [
  ("SID_QUAL_LU_CONNECTED", 0x00); ("SID_QUAL_LU_OFFLINE", 0x01); ("SID_QUAL_RSVD", 0x02);
  ("SID_QUAL_BAD_LU", 0x03); ("SID_QUAL2", 0x7F); ("SCSI_REV_0", 0); ("SCSI_REV_CCS", 1);
  ("SCSI_REV_2", 2); ("SCSI_REV_SPC", 3); ("SCSI_REV_SPC2", 4); ("SCSI_REV_SPC3", 5);
  ("SCSI_REV_SPC4", 6); ("SID_ECMA", 0x38); ("SID_ISO", 0xC0); ("SID_AENC", 0x80);
  ("SID_TrmIOP", 0x40); ("SID_NormACA", 0x20); ("SID_HiSup", 0x10); ("SPC3_SID_PROTECT", 0x01);
  ("SPC3_SID_3PC", 0x08); ("SPC3_SID_TPGS_MASK", 0x30); ("SPC3_SID_TPGS_IMPLICIT", 0x10);
  ("SPC3_SID_TPGS_EXPLICIT", 0x20); ("SPC3_SID_ACC", 0x40); ("SPC3_SID_SCCS", 0x80);
  ("SPC2_SID_ADDR16", 0x01); ("SPC2_SID_MChngr", 0x08); ("SPC2_SID_MultiP", 0x10);
  ("SPC2_SID_EncServ", 0x40); ("SPC2_SID_BQueue", 0x80); ("SID_SftRe", 0x01);
  ("SID_CmdQue", 0x02); ("SID_Linked", 0x08); ("SID_Sync", 0x10); ("SID_WBus16", 0x20);
  ("SID_WBus32", 0x40); ("SID_RelAdr", 0x80); ("SID_VENDOR_SIZE", 8); ("SID_PRODUCT_SIZE", 16);
  ("SID_REVISION_SIZE", 4); ("SID_VENDOR_SPECIFIC_0_SIZE", 20); ("SID_SPI_IUS", 0x01);
  ("SID_SPI_QAS", 0x02); ("SID_SPI_CLOCK_ST", 0x00); ("SID_SPI_CLOCK_DT", 0x04);
  ("SID_SPI_CLOCK_DT_ST", 0x0C); ("SID_SPI_MASK", 0x0F); ("SID_VENDOR_SPECIFIC_1_SIZE", 160)].

Definition scsi_vpd_device_id : scsi_struct := ScsiStruct "scsi_vpd_device_id" [
  ("device", c_u8); ("page_code", c_u8); ("length", CArray 2 c_u8); ("desc_list", CArray 0 c_u8)] [
  ("SVPD_DEVICE_ID", 0x83); ("SVPD_DEVICE_ID_MAX_SIZE", 252)].

Definition scsi_vpd_id_descriptor : scsi_struct := ScsiStruct "scsi_vpd_id_descriptor" [
  ("proto_codeset", c_u8); ("id_type", c_u8); ("reserved", c_u8); ("length", c_u8);
  ("identifier", CArray 0 c_u8)] [
  ("SCSI_PROTO_FC", 0x00); ("SCSI_PROTO_SPI", 0x01); ("SCSI_PROTO_SSA", 0x02);
  ("SCSI_PROTO_1394", 0x03); ("SCSI_PROTO_RDMA", 0x04); ("SCSI_PROTO_iSCSI", 0x05);
  ("SCSI_PROTO_SAS", 0x06); ("SVPD_ID_PROTO_SHIFT", 4); ("SVPD_ID_CODESET_BINARY", 0x01);
  ("SVPD_ID_CODESET_ASCII", 0x02); ("SVPD_ID_CODESET_MASK", 0x0f); ("SVPD_ID_PIV", 0x80);
  ("SVPD_ID_ASSOC_LUN", 0x00); ("SVPD_ID_ASSOC_PORT", 0x10); ("SVPD_ID_ASSOC_TARGET", 0x20);
  ("SVPD_ID_ASSOC_MASK", 0x30); ("SVPD_ID_TYPE_VENDOR", 0x00); ("SVPD_ID_TYPE_T10", 0x01);
  ("SVPD_ID_TYPE_EUI64", 0x02); ("SVPD_ID_TYPE_NAA", 0x03); ("SVPD_ID_TYPE_RELTARG", 0x04);
  ("SVPD_ID_TYPE_TPORTGRP", 0x05); ("SVPD_ID_TYPE_LUNGRP", 0x06);
  ("SVPD_ID_TYPE_MD5_LUN_ID", 0x07); ("SVPD_ID_TYPE_SCSI_NAME", 0x08);
  ("SVPD_ID_TYPE_MASK", 0x0f)].

Definition scsi_vpd_id_naa_basic : scsi_struct := ScsiStruct "scsi_vpd_id_naa_basic" [
  ("naa", c_u8); ("naa_data", CArray 0 c_u8)] [
  ("SVPD_ID_NAA_NAA_SHIFT", 4); ("SVPD_ID_NAA_IEEE_EXT", 0x02); ("SVPD_ID_NAA_LOCAL_REG", 0x03);
  ("SVPD_ID_NAA_IEEE_REG", 0x05); ("SVPD_ID_NAA_IEEE_REG_EXT", 0x06)].

Definition scsi_target_port_descriptor : scsi_struct := ScsiStruct "scsi_target_port_descriptor" [
  ("reserved", CArray 2 c_u8); ("relative_target_port_identifier", CArray 2 c_u8);
  ("desc_list", CArray 0 c_u8)] [].

Definition scsi_target_port_group_descriptor : scsi_struct := ScsiStruct "scsi_target_port_group_descriptor" [
  ("pref_state", c_u8); ("support", c_u8); ("target_port_group", CArray 2 c_u8);
  ("reserved", c_u8); ("status", c_u8); ("vendor_specific", c_u8); ("target_port_count", c_u8);
  ("descriptors", CArray 0 (scsi_type scsi_target_port_descriptor))] [
  ("TPG_PRIMARY", 0x80); ("TPG_ASYMMETRIC_ACCESS_STATE_MASK", 0xf);
  ("TPG_ASYMMETRIC_ACCESS_OPTIMIZED", 0x0); ("TPG_ASYMMETRIC_ACCESS_NONOPTIMIZED", 0x1);
  ("TPG_ASYMMETRIC_ACCESS_STANDBY", 0x2); ("TPG_ASYMMETRIC_ACCESS_UNAVAILABLE", 0x3);
  ("TPG_ASYMMETRIC_ACCESS_LBA_DEPENDENT", 0x4); ("TPG_ASYMMETRIC_ACCESS_OFFLINE", 0xE);
  ("TPG_ASYMMETRIC_ACCESS_TRANSITIONING", 0xF); ("TPG_AO_SUP", 0x01); ("TPG_AN_SUP", 0x02);
  ("TPG_S_SUP", 0x04); ("TPG_U_SUP", 0x08); ("TPG_LBD_SUP", 0x10); ("TPG_O_SUP", 0x40);
  ("TPG_T_SUP", 0x80); ("TPG_UNAVLBL", 0); ("TPG_SET_BY_STPG", 0x01); ("TPG_IMPLICIT", 0x02)].

Definition scsi_target_group_data : scsi_struct := ScsiStruct "scsi_target_group_data" [
  ("length", CArray 4 c_u8); ("groups", CArray 0 (scsi_type scsi_target_port_group_descriptor))] [].

Definition scsi_target_group_data_extended : scsi_struct := ScsiStruct "scsi_target_group_data_extended" [
  ("length", CArray 4 c_u8); ("format_type", c_u8); ("implicit_transition_time", c_u8);
  ("reserved", CArray 2 c_u8);
  ("groups", CArray 0 (scsi_type scsi_target_port_group_descriptor))] [].

Definition scsi_sense_data_fixed : scsi_struct := ScsiStruct "scsi_sense_data_fixed" [
  ("error_code", c_u8); ("segment", c_u8); ("flags", c_u8); ("info", CArray 4 c_u8);
  ("extra_len", c_u8); ("cmd_spec_info", CArray 4 c_u8); ("add_sense_code", c_u8);
  ("add_sense_code_qual", c_u8); ("fru", c_u8); ("sense_key_spec", CArray 3 c_u8);
  ("extra_bytes", CArray 14 c_u8)] [
  ("SSD_ERRCODE", 0x7F); ("SSD_CURRENT_ERROR", 0x70); ("SSD_DEFERRED_ERROR", 0x71);
  ("SSD_ERRCODE_VALID", 0x80); ("SSD_KEY", 0x0F); ("SSD_KEY_NO_SENSE", 0x00);
  ("SSD_KEY_RECOVERED_ERROR", 0x01); ("SSD_KEY_NOT_READY", 0x02);
  ("SSD_KEY_MEDIUM_ERROR", 0x03); ("SSD_KEY_HARDWARE_ERROR", 0x04);
  ("SSD_KEY_ILLEGAL_REQUEST", 0x05); ("SSD_KEY_UNIT_ATTENTION", 0x06);
  ("SSD_KEY_DATA_PROTECT", 0x07); ("SSD_KEY_BLANK_CHECK", 0x08);
  ("SSD_KEY_Vendor_Specific", 0x09); ("SSD_KEY_COPY_ABORTED", 0x0a);
  ("SSD_KEY_ABORTED_COMMAND", 0x0b); ("SSD_KEY_EQUAL", 0x0c); ("SSD_KEY_VOLUME_OVERFLOW", 0x0d);
  ("SSD_KEY_MISCOMPARE", 0x0e); ("SSD_KEY_COMPLETED", 0x0f); ("SSD_ILI", 0x20);
  ("SSD_EOM", 0x40); ("SSD_FILEMARK", 0x80); ("SSD_SCS_VALID", 0x80);
  ("SSD_FIELDPTR_CMD", 0x40); ("SSD_BITPTR_VALID", 0x08); ("SSD_BITPTR_VALUE", 0x07)].

Definition scsi_sense_data_desc : scsi_struct := ScsiStruct "scsi_sense_data_desc" [
  ("error_code", c_u8); ("sense_key", c_u8); ("add_sense_code", c_u8);
  ("add_sense_code_qual", c_u8); ("reserved", CArray 3 c_u8); ("extra_len", c_u8);
  ("sense_desc", CArray 0 c_u8)] [
  ("SSD_DESC_CURRENT_ERROR", 0x72); ("SSD_DESC_DEFERRED_ERROR", 0x73)].

Definition scsi_structs_0 : list scsi_struct := [
  scsi_generic; scsi_request_sense; scsi_test_unit_ready; scsi_receive_diag; scsi_send_diag;
  scsi_sense; scsi_inquiry; scsi_mode_sense_6; scsi_mode_sense_10; scsi_mode_select_6;
  scsi_mode_select_10; scsi_mode_hdr_6; scsi_mode_hdr_10; scsi_mode_block_descr;
  scsi_per_res_in; scsi_per_res_in_header; scsi_per_res_key; scsi_per_res_in_keys;
  scsi_per_res_cap; scsi_per_res_in_rsrv_data; scsi_per_res_in_rsrv; scsi_per_res_out;
  scsi_per_res_out_parms; scsi_log_sense; scsi_log_select; scsi_log_header;
  scsi_log_param_header; scsi_control_page; scsi_cache_page; scsi_caching_page;
  scsi_info_exceptions_page; scsi_proto_specific_page; scsi_reserve; scsi_reserve_10;
  scsi_release; scsi_release_10; scsi_prevent; scsi_sync_cache; scsi_sync_cache_16; scsi_format].
Definition scsi_structs_1 : list scsi_struct := [
  scsi_format_header_short; scsi_format_header_long; scsi_changedef; scsi_read_buffer;
  scsi_write_buffer; scsi_rw_6; scsi_rw_10; scsi_rw_12; scsi_rw_16; scsi_write_verify_10;
  scsi_write_verify_12; scsi_write_verify_16; scsi_start_stop_unit; ata_pass_12;
  scsi_maintenance_in; ata_pass_16; scsi_vpd_supported_page_list; scsi_vpd_supported_pages;
  scsi_vpd_unit_serial_number; scsi_vpd_id_t10; scsi_vpd_id_eui64;
  scsi_vpd_id_naa_ieee_extended_id; scsi_vpd_id_naa_local_reg; scsi_vpd_id_naa_ieee_reg;
  scsi_vpd_id_naa_ieee_reg_extended; scsi_vpd_id_rel_trgt_port_id; scsi_vpd_id_trgt_port_grp_id;
  scsi_vpd_id_lun_grp_id; scsi_vpd_id_md5_lun_id; scsi_vpd_id_scsi_name; scsi_service_action_in;
  scsi_read_capacity; scsi_read_capacity_16; scsi_read_capacity_data;
  scsi_read_capacity_data_long; scsi_report_luns; scsi_report_luns_lundata;
  scsi_report_luns_data; scsi_target_group; scsi_sense_data].
Definition scsi_structs_2 : list scsi_struct := [
  scsi_sense_desc_header; scsi_sense_info; scsi_sense_command; scsi_sense_sks;
  scsi_sense_sks_field; scsi_sense_sks_retry; scsi_sense_sks_progress; scsi_sense_sks_segment;
  scsi_sense_sks_overflow; scsi_sense_fru; scsi_sense_stream; scsi_sense_block;
  scsi_sense_osd_objid; scsi_sense_osd_integrity; scsi_sense_osd_attr_id; scsi_sense_progress;
  scsi_sense_forwarded; scsi_sense_vendor; scsi_mode_header_6; scsi_mode_header_10;
  scsi_mode_page_header; scsi_mode_page_header_sp; scsi_mode_blk_desc].
Definition scsi_structs_3 : list scsi_struct := [
  scsi_inquiry_data; scsi_vpd_device_id; scsi_vpd_id_descriptor; scsi_vpd_id_naa_basic;
  scsi_target_port_descriptor; scsi_target_port_group_descriptor; scsi_target_group_data;
  scsi_target_group_data_extended; scsi_sense_data_fixed; scsi_sense_data_desc].
Definition scsi_structs : list scsi_struct :=
  scsi_structs_0 ++ scsi_structs_1 ++ scsi_structs_2 ++ scsi_structs_3.

Definition opcodes : list (string * Z) := [
  ("TEST_UNIT_READY", 0x00); ("REQUEST_SENSE", 0x03); ("READ_6", 0x08); ("WRITE_6", 0x0A);
  ("INQUIRY", 0x12); ("MODE_SELECT_6", 0x15); ("MODE_SENSE_6", 0x1A); ("START_STOP_UNIT", 0x1B);
  ("START_STOP", 0x1B); ("RESERVE", 0x16); ("RELEASE", 0x17); ("RECEIVE_DIAGNOSTIC", 0x1C);
  ("SEND_DIAGNOSTIC", 0x1D); ("PREVENT_ALLOW", 0x1E); ("READ_CAPACITY", 0x25);
  ("READ_10", 0x28); ("WRITE_10", 0x2A); ("POSITION_TO_ELEMENT", 0x2B);
  ("WRITE_VERIFY_10", 0x2E); ("SYNCHRONIZE_CACHE", 0x35); ("READ_DEFECT_DATA_10", 0x37);
  ("WRITE_BUFFER", 0x3B); ("READ_BUFFER", 0x3C); ("CHANGE_DEFINITION", 0x40);
  ("LOG_SELECT", 0x4C); ("LOG_SENSE", 0x4D); ("MODE_SELECT_10", 0x55); ("RESERVE_10", 0x56);
  ("RELEASE_10", 0x57); ("MODE_SENSE_10", 0x5A); ("PERSISTENT_RES_IN", 0x5E);
  ("PERSISTENT_RES_OUT", 0x5F); ("ATA_PASS_16", 0x85); ("READ_16", 0x88); ("WRITE_16", 0x8A);
  ("WRITE_VERIFY_16", 0x8E); ("SYNCHRONIZE_CACHE_16", 0x91); ("SERVICE_ACTION_IN", 0x9E);
  ("REPORT_LUNS", 0xA0); ("ATA_PASS_12", 0xA1); ("MAINTENANCE_IN", 0xA3);
  ("MAINTENANCE_OUT", 0xA4); ("MOVE_MEDIUM", 0xA5); ("READ_12", 0xA8); ("WRITE_12", 0xAA);
  ("WRITE_VERIFY_12", 0xAE); ("READ_ELEMENT_STATUS", 0xB8)].

(** The operation codes a command block is used with. *)
Definition commands : list (scsi_struct * list string) := [
  (scsi_request_sense, ["REQUEST_SENSE"]); (scsi_test_unit_ready, ["TEST_UNIT_READY"]);
  (scsi_receive_diag, ["RECEIVE_DIAGNOSTIC"]); (scsi_send_diag, ["SEND_DIAGNOSTIC"]);
  (scsi_sense, ["REQUEST_SENSE"]); (scsi_inquiry, ["INQUIRY"]);
  (scsi_mode_sense_6, ["MODE_SENSE_6"]); (scsi_mode_sense_10, ["MODE_SENSE_10"]);
  (scsi_mode_select_6, ["MODE_SELECT_6"]); (scsi_mode_select_10, ["MODE_SELECT_10"]);
  (scsi_per_res_in, ["PERSISTENT_RES_IN"]); (scsi_per_res_out, ["PERSISTENT_RES_OUT"]);
  (scsi_log_sense, ["LOG_SENSE"]); (scsi_log_select, ["LOG_SELECT"]);
  (scsi_reserve, ["RESERVE"]); (scsi_reserve_10, ["RESERVE_10"]); (scsi_release, ["RELEASE"]);
  (scsi_release_10, ["RELEASE_10"]); (scsi_prevent, ["PREVENT_ALLOW"]);
  (scsi_sync_cache, ["SYNCHRONIZE_CACHE"]); (scsi_sync_cache_16, ["SYNCHRONIZE_CACHE_16"]);
  (scsi_changedef, ["CHANGE_DEFINITION"]); (scsi_read_buffer, ["READ_BUFFER"]);
  (scsi_write_buffer, ["WRITE_BUFFER"]); (scsi_rw_6, ["READ_6"; "WRITE_6"]);
  (scsi_rw_10, ["READ_10"; "WRITE_10"]); (scsi_rw_12, ["READ_12"; "WRITE_12"]);
  (scsi_rw_16, ["READ_16"; "WRITE_16"]); (scsi_write_verify_10, ["WRITE_VERIFY_10"]);
  (scsi_write_verify_12, ["WRITE_VERIFY_12"]); (scsi_write_verify_16, ["WRITE_VERIFY_16"]);
  (scsi_start_stop_unit, ["START_STOP_UNIT"; "START_STOP"]); (ata_pass_12, ["ATA_PASS_12"]);
  (scsi_maintenance_in, ["MAINTENANCE_IN"]); (ata_pass_16, ["ATA_PASS_16"]);
  (scsi_service_action_in, ["SERVICE_ACTION_IN"]); (scsi_read_capacity, ["READ_CAPACITY"]);
  (scsi_read_capacity_16, ["SERVICE_ACTION_IN"]); (scsi_report_luns, ["REPORT_LUNS"]);
  (scsi_target_group, ["MAINTENANCE_IN"; "MAINTENANCE_OUT"])].

#[local] Close Scope string_scope.

(** ** Numbers, most significant byte first *)

Definition scsi_ulto2b (val : Z) (bytes : nat) : M (list Z) unit :=
  _ ← poke bytes (Z.land (Z.shiftr val 8) 0xff);
  poke (bytes + 1) (Z.land val 0xff).

Definition scsi_ulto3b (val : Z) (bytes : nat) : M (list Z) unit :=
  _ ← poke bytes (Z.land (Z.shiftr val 16) 0xff);
  _ ← poke (bytes + 1) (Z.land (Z.shiftr val 8) 0xff);
  poke (bytes + 2) (Z.land val 0xff).

Definition scsi_ulto4b (val : Z) (bytes : nat) : M (list Z) unit :=
  _ ← poke bytes (Z.land (Z.shiftr val 24) 0xff);
  _ ← poke (bytes + 1) (Z.land (Z.shiftr val 16) 0xff);
  _ ← poke (bytes + 2) (Z.land (Z.shiftr val 8) 0xff);
  poke (bytes + 3) (Z.land val 0xff).

Definition scsi_u64to8b (val : Z) (bytes : nat) : M (list Z) unit :=
  _ ← poke bytes (Z.land (Z.shiftr val 56) 0xff);
  _ ← poke (bytes + 1) (Z.land (Z.shiftr val 48) 0xff);
  _ ← poke (bytes + 2) (Z.land (Z.shiftr val 40) 0xff);
  _ ← poke (bytes + 3) (Z.land (Z.shiftr val 32) 0xff);
  _ ← poke (bytes + 4) (Z.land (Z.shiftr val 24) 0xff);
  _ ← poke (bytes + 5) (Z.land (Z.shiftr val 16) 0xff);
  _ ← poke (bytes + 6) (Z.land (Z.shiftr val 8) 0xff);
  poke (bytes + 7) (Z.land val 0xff).

Definition scsi_2btoul (bytes : nat) : M (list Z) Z :=
  b0 ← peek bytes; b1 ← peek (bytes + 1);
  mret (u32 (Z.lor (Z.shiftl b0 8) b1)).

Definition scsi_3btoul (bytes : nat) : M (list Z) Z :=
  b0 ← peek bytes; b1 ← peek (bytes + 1); b2 ← peek (bytes + 2);
  mret (u32 (Z.lor (Z.lor (Z.shiftl b0 16) (Z.shiftl b1 8)) b2)).

Definition scsi_3btol (bytes : nat) : M (list Z) Z :=
  rc ← scsi_3btoul bytes;
  let rc := if decide (Z.land rc 0x00800000 ≠ 0) then Z.lor rc 0xff000000 else rc in
  mret (i32 rc).

(** The bytes are promoted to [int], so the first one is shifted as one. *)
Definition scsi_4btoul (bytes : nat) : M (list Z) Z :=
  b0 ← peek bytes; b1 ← peek (bytes + 1); b2 ← peek (bytes + 2); b3 ← peek (bytes + 3); top ← shl24 b0;
  mret (u32 (Z.lor (Z.lor (Z.lor top (Z.shiftl b1 16)) (Z.shiftl b2 8)) b3)).

Definition scsi_8btou64 (bytes : nat) : M (list Z) Z :=
  b0 ← peek bytes; b1 ← peek (bytes + 1); b2 ← peek (bytes + 2); b3 ← peek (bytes + 3);
  b4 ← peek (bytes + 4); b5 ← peek (bytes + 5); b6 ← peek (bytes + 6); b7 ← peek (bytes + 7);
  mret (Z.lor (Z.lor (Z.lor (Z.lor (Z.lor (Z.lor (Z.lor (Z.shiftl b0 56) (Z.shiftl b1 48)) (Z.shiftl b2 40))
    (Z.shiftl b3 32)) (Z.shiftl b4 24)) (Z.shiftl b5 16)) (Z.shiftl b6 8)) b7).

(** The position of the first mode page behind the header at [mode_header]. *)
Definition member_at (s : scsi_struct) (x : string) : nat := Z.to_nat (default 0 (offset_of (scsi_type s) x)).

Definition find_mode_page_6 (mode_header : nat) : M (list Z) nat :=
  n ← peek (mode_header + member_at scsi_mode_header_6 "blk_desc_len");
  mret (mode_header + Z.to_nat (size_of (scsi_type scsi_mode_header_6)) + Z.to_nat n)%nat.

Definition find_mode_page_10 (mode_header : nat) : M (list Z) nat :=
  n ← scsi_2btoul (mode_header + member_at scsi_mode_header_10 "blk_desc_len");
  mret (mode_header + Z.to_nat (size_of (scsi_type scsi_mode_header_10)) + Z.to_nat n)%nat.

(** ** Encoders and decoders *)

Ltac byte_writes :=
  intros ? old ? Hp Hl; repeat (destruct old as [|? old]; try done);
  repeat first [erewrite bind_ok by (first [apply poke_app_0; [done|simpl; lia]|apply poke_app; [done|simpl; lia]])
               |rewrite poke_app by (done || (simpl; lia))];
  rewrite !u8_land; unfold le_bytes, Z_to_little_endian; simpl; by rewrite ?Z.shiftr_shiftr by done.

Lemma writes_ulto2b val p : writes (scsi_ulto2b val p) p (reverse (le_bytes 2 val)).
Proof. exact (writes_be16enc p val). Qed.
Lemma writes_ulto3b val p : writes (scsi_ulto3b val p) p (reverse (le_bytes 3 val)).
Proof. unfold scsi_ulto3b. byte_writes. Qed.
Lemma writes_ulto4b val p : writes (scsi_ulto4b val p) p (reverse (le_bytes 4 val)).
Proof. exact (writes_be32enc p val). Qed.
Lemma writes_u64to8b val p : writes (scsi_u64to8b val p) p (reverse (le_bytes 8 val)).
Proof. unfold scsi_u64to8b. byte_writes. Qed.

Lemma le_word_3 a b c : le_word [c; b; a] = Z.lor (Z.lor (Z.shiftl a 16) (Z.shiftl b 8)) c.
Proof. rewrite le_word_cons, le_word_2, Z.shiftl_lor, Z.shiftl_shiftl by done. apply Z.lor_comm. Qed.
Lemma le_word_8 a b c d e f g h :
  le_word [h; g; f; e; d; c; b; a] =
  Z.lor (Z.lor (Z.lor (Z.lor (Z.lor (Z.lor (Z.lor (Z.shiftl a 56) (Z.shiftl b 48)) (Z.shiftl c 40))
    (Z.shiftl d 32)) (Z.shiftl e 24)) (Z.shiftl f 16)) (Z.shiftl g 8)) h.
Proof.
  change [h; g; f; e; d; c; b; a] with ([h; g; f; e] ++ [d; c; b; a])%list. rewrite le_word_app, !le_word_4.
  change (8 * Z.of_nat (length [h; g; f; e])) with 32.
  rewrite !(Z.shiftl_lor _ _ 32), !(Z.shiftl_shiftl _ _ 32) by done. rewrite Z.lor_comm, !Z.lor_assoc. done.
Qed.

Ltac byte_reads :=
  intros ? mid ? Hp Hl Hb; repeat (destruct mid as [|? mid]; try done);
  repeat first [erewrite bind_ok by (first [apply peek_app_0; done|apply peek_app; done])]; rewrite ret_ok; do 2 f_equal.
Lemma reads_2btoul p : reads (scsi_2btoul p) p 2 (λ bs, le_word (reverse bs)).
Proof.
  unfold scsi_2btoul. byte_reads. rewrite <-le_word_2. unfold u32. apply Forall_reverse in Hb.
  pose proof (le_word_range _ Hb) as Hr. apply Z.mod_small. cbn in Hr. cbn. lia.
Qed.
Lemma reads_3btoul p : reads (scsi_3btoul p) p 3 (λ bs, le_word (reverse bs)).
Proof.
  unfold scsi_3btoul. byte_reads. rewrite <-le_word_3. unfold u32. apply Forall_reverse in Hb.
  pose proof (le_word_range _ Hb) as Hr. apply Z.mod_small. cbn in Hr. cbn. lia.
Qed.
Lemma reads_4btoul p : reads_int (scsi_4btoul p) p (λ bs, le_word (reverse bs)).
Proof.
  unfold scsi_4btoul. intros pre mid post Hp Hl Hb.
  destruct mid as [|t [|c [|b [|a [|]]]]]; try done. change (reverse [t; c; b; a]) with [a; b; c; t].
  assert (bytes_ok [a; b; c] ∧ 0 ≤ t) as [Hlow Ht].
  { rewrite !Forall_cons in Hb. destruct Hb as ([? ?]&?&?&?&_). split; [|done]. by rewrite !Forall_cons, Forall_nil. }
  pose proof (le_word_top [a; b; c] t Hlow eq_refl Ht) as Htop. cbn [app] in Htop.
  repeat first [erewrite bind_ok by (first [apply peek_app_0; done|apply peek_app; done])].
  unfold shl24. destruct (decide (t < 0x80)) as [Hs|Hs].
  - rewrite decide_True by tauto. rewrite ret_bind, ret_ok. do 2 f_equal.
    rewrite <-(le_word_trunc 32 [a; b; c; t]); [|by apply (Forall_reverse _ [t; c; b; a])|done].
    unfold u32. f_equal. symmetry. apply le_word_4.
  - by rewrite decide_False by tauto.
Qed.
Lemma reads_8btou64 p : reads (scsi_8btou64 p) p 8 (λ bs, le_word (reverse bs)).
Proof. unfold scsi_8btou64. byte_reads. by rewrite <-le_word_8. Qed.

(** Two's complement of 24 bits. *)
Definition i24 (x : Z) : Z := if decide (x < 2 ^ 23) then x else x - 2 ^ 24.

Lemma land_sign x : 0 ≤ x < 2 ^ 24 → Z.land x 0x800000 = if decide (x < 2 ^ 23) then 0 else 0x800000.
Proof.
  intros Hx. change 0x800000 with (2 ^ 23). apply Z.bits_inj'. intros n Hn. rewrite Z.land_spec, Z.pow2_bits_eqb by done.
  destruct (Z.eqb_spec 23 n) as [<-|Hne].
  - rewrite andb_true_r. case_decide.
    + rewrite Z.bits_0. apply Z.testbit_false; [done|]. rewrite Z.div_small by lia. done.
    + rewrite Z.pow2_bits_true by done. apply Z.testbit_true; [done|].
      replace (x `div` 2 ^ 23) with 1; [done|]. apply (Z.div_unique x (2 ^ 23) 1 (x - 2 ^ 23)); lia.
  - rewrite andb_false_r. case_decide; [by rewrite Z.bits_0|]. by rewrite Z.pow2_bits_false by done.
Qed.

Lemma lor_sign x : 0 ≤ x < 2 ^ 24 → Z.lor x 0xff000000 = x + 0xff000000.
Proof.
  intros Hx. assert (Z.land x 0xff000000 = 0) as H0.
  { apply Z.bits_inj'. intros n Hn. rewrite Z.land_spec, Z.bits_0. change 0xff000000 with (Z.shiftl 255 24).
    rewrite Z.shiftl_spec by done. destruct (decide (n < 24)).
    - rewrite (Z.testbit_neg_r 255) by lia. apply andb_false_r.
    - assert (Z.testbit x n = false) as ->; [|done]. rewrite <-(Z.mod_small x (2 ^ 24)) by lia. apply Z.mod_pow2_bits_high. lia. }
  by rewrite <-Z.lxor_lor, <-Z.add_nocarry_lxor.
Qed.

Lemma reads_3btol p : reads (scsi_3btol p) p 3 (λ bs, i24 (le_word (reverse bs))).
Proof.
  intros pre mid post Hp Hl Hb. unfold scsi_3btol. erewrite bind_ok by (by apply reads_3btoul).
  assert (0 ≤ le_word (reverse mid) < 2 ^ 24) as Hx.
  { apply Forall_reverse in Hb. pose proof (le_word_range _ Hb) as Hr. rewrite length_reverse, Hl in Hr. exact Hr. }
  set (x := le_word (reverse mid)) in *. rewrite (land_sign x Hx), (lor_sign x Hx). unfold i24. destruct (decide (x < 2 ^ 23)) as [Hs|Hs]; simpl.
  - rewrite ret_ok, i32_id by (unfold is_i32; lia). done.
  - rewrite ret_ok, i32_neg by lia. do 2 f_equal. lia.
Qed.

(** ** The structures *)

(** The length of a command block, by the group of its operation code (bits 5 to
    7), as the SCSI standard has it. *)
Definition group_length (opcode : Z) : Z :=
  match Z.shiftr opcode 5 with 0 => 6 | 1 | 2 => 10 | 4 => 16 | 5 => 12 | _ => 0 end.

Definition opcode_of (x : string) : Z := match List.find (λ e, String.eqb (fst e) x) opcodes with Some (_, c) => c | None => 0xe0 end.

Definition command_ok (e : scsi_struct * list string) : bool :=
  let '(s, ops) := e in
  forallb (λ x, group_length (opcode_of x) =? size_of (scsi_type s)) ops &&
  bool_decide (offset_of (scsi_type s) "opcode" = Some 0) &&
  bool_decide (offset_of (scsi_type s) "control" = Some (size_of (scsi_type s) - 1)).
Lemma commands_ok : forallb command_ok commands = true.
Proof. by vm_compute. Qed.

(** No padding: each member begins where the one before it ends. *)
Fixpoint packed (at_ : Z) (ms : list (string * Z * cty)) : bool :=
  match ms with [] => true | (_, o, t) :: ms => (o =? at_) && (align_of t =? 1) && packed (at_ + size_of t) ms end.
Definition struct_ok (s : scsi_struct) : bool :=
  packed 0 (members (scsi_type s)) &&
  (size_of (scsi_type s) =? fold_right Z.add 0 (List.map (λ m, size_of (snd m)) (scsi_members s))).
Lemma structs_ok : forallb struct_ok scsi_structs = true.
Proof. by vm_compute. Qed.

(** The low [n] bytes of a number, most significant first. *)
Definition be_bytes (n v : Z) : list Z := reverse (le_bytes n v).

(** What reading [n] bytes of [v] gives: four bytes are read in [int]. *)
Definition decoded (n v : Z) (buffer : list Z) : outcome (Z * list Z) :=
  if decide (n = 4 ∧ 2 ^ 31 ≤ v `mod` 2 ^ 32) then Undef SignedOverflow
  else Ok (v `mod` 2 ^ (8 * n), buffer).

(** Writing puts the bytes of the number in the place of the old ones; reading
    them gives the number back, modulo the width. *)
Definition codec (enc : Z → nat → M (list Z) unit) (dec : nat → M (list Z) Z) (n : Z) : Prop :=
  ∀ pre old post v, Z.of_nat (length old) = n →
    enc v (length pre) (pre ++ old ++ post)%list = Ok (tt, (pre ++ be_bytes n v ++ post)%list) ∧
    dec (length pre) (pre ++ be_bytes n v ++ post)%list = decoded n v (pre ++ be_bytes n v ++ post)%list.

Lemma length_be_bytes n v : 0 ≤ n → length (be_bytes n v) = Z.to_nat n.
Proof. intros. unfold be_bytes. by rewrite length_reverse, length_le_bytes. Qed.

Lemma number_codec_intro enc dec n :
  0 ≤ n → n ≠ 4 → (∀ v p, writes (enc v p) p (be_bytes n v)) →
  (∀ p, reads (dec p) p (Z.to_nat n) (λ bs, le_word (reverse bs))) → codec enc dec n.
Proof.
  intros Hn H4 He Hd pre old post v Hl. split; [apply He; [done|rewrite length_be_bytes; lia]|].
  rewrite Hd; [|done|by apply length_be_bytes|by apply Forall_reverse, le_bytes_ok].
  unfold be_bytes, decoded. rewrite decide_False by tauto.
  rewrite reverse_involutive, le_word_bytes by done. by rewrite Z.mul_comm.
Qed.

Lemma int_codec_intro enc dec :
  (∀ v p, writes (enc v p) p (be_bytes 4 v)) →
  (∀ p, reads_int (dec p) p (λ bs, le_word (reverse bs))) → codec enc dec 4.
Proof.
  intros He Hd pre old post v Hl. split; [apply He; [done|rewrite length_be_bytes; lia]|].
  rewrite Hd; [|done|by apply length_be_bytes|by apply Forall_reverse, le_bytes_ok].
  unfold be_bytes, decoded. rewrite reverse_involutive, le_word_bytes by done.
  change (2 ^ (4 * 8)) with (2 ^ 32). change (2 ^ (8 * 4)) with (2 ^ 32).
  case_decide as D; case_decide as E; try done; exfalso; lia.
Qed.

Lemma packed_lookup at_ fs i x t :
  packed at_ (members_from at_ fs) = true → fs !! i = Some (x, t) →
  members_from at_ fs !! i = Some (x, at_ + fold_right Z.add 0 (List.map (λ m, size_of (snd m)) (take i fs)), t).
Proof.
  revert at_ i. induction fs as [|[y u] fs IH]; intros at_ [|i] Hp Hi; simplify_eq/=;
    rewrite !andb_true_iff in Hp; destruct Hp as [[Ho _] Hp]; apply Z.eqb_eq in Ho; rewrite Ho in *.
  - by rewrite Z.add_0_r.
  - rewrite (IH _ _ Hp Hi). do 3 f_equal. lia.
Qed.

(** Names of members are unique, and byte arrays end inside the structure. *)
Definition fields_inside (s : scsi_struct) : bool :=
  bool_decide (NoDup (List.map fst (scsi_members s))) &&
  forallb (λ '(x, t), match offset_of (scsi_type s) x with
                      | Some o => (0 <=? o) && (o + size_of t <=? size_of (scsi_type s)) | None => false end) (scsi_members s).
Lemma fields_inside_ok : forallb fields_inside scsi_structs = true.
Proof. by vm_compute. Qed.

(** The member [x] of [n] bytes, written and read with the functions of its width
    at its address: the bytes of the number replace those of the member in the
    image, and the rest stays. *)
Definition field_codec (s : scsi_struct) (x : string) (n : Z) (enc : Z → nat → M (list Z) unit) (dec : nat → M (list Z) Z) : Prop :=
  ∀ pre image post v, Z.of_nat (length image) = size_of (scsi_type s) →
    let k := member_at s x in
    let image' := (take k image ++ be_bytes n v ++ drop (k + Z.to_nat n) image)%list in
    enc v (length pre + k)%nat (pre ++ image ++ post)%list = Ok (tt, (pre ++ image' ++ post)%list) ∧
    dec (length pre + k)%nat (pre ++ image' ++ post)%list = decoded n v (pre ++ image' ++ post)%list ∧
    length image' = length image.

Lemma field_codec_intro s x n enc dec :
  s ∈ scsi_structs → (x, CArray n c_u8) ∈ scsi_members s → 0 ≤ n → codec enc dec n → field_codec s x n enc dec.
Proof.
  intros Hs Hx Hn Hc pre image post v Hl k image'.
  pose proof (table_forall _ _ _ fields_inside_ok Hs) as Hf. apply andb_true_iff in Hf as [_ Hf].
  pose proof (table_forall _ _ _ Hf Hx) as Ho. cbv beta iota in Ho.
  change (size_of (CArray n c_u8)) with (n * 1) in Ho.
  assert (k + Z.to_nat n ≤ length image)%nat as Hk.
  { unfold k, member_at. destruct (offset_of (scsi_type s) x) as [o|]; [|done]. cbn [default]. unfold id.
    apply andb_true_iff in Ho as [Ho1%Z.leb_le Ho2%Z.leb_le]. lia. }
  clearbody k. destruct (Hc (pre ++ take k image)%list (take (Z.to_nat n) (drop k image)) (drop (k + Z.to_nat n) image ++ post)%list v)
    as [He Hd]; [rewrite length_take, length_drop; lia|].
  assert (∀ l, ((pre ++ take k image) ++ l ++ drop (k + Z.to_nat n) image ++ post)%list =
    (pre ++ (take k image ++ l ++ drop (k + Z.to_nat n) image) ++ post)%list) as Ea by (intros l; by rewrite <-!app_assoc).
  rewrite !Ea, length_app, length_take, Nat.min_l in He by lia. rewrite !Ea, length_app, length_take, Nat.min_l in Hd by lia.
  assert (take k image ++ take (Z.to_nat n) (drop k image) ++ drop (k + Z.to_nat n) image = image)%list as Eim.
  { rewrite <-drop_drop, take_drop. apply take_drop. }
  rewrite Eim in He. split_and!; [exact He|exact Hd|].
  unfold image'. rewrite !length_app, length_take, length_drop, length_be_bytes by done. lia.
Qed.

(** ** Properties *)

(** The layout of the structures. In every structure the members follow each
    other without padding; every command block has the length of the group of each
    of its operation codes, 6, 10, 12 or 16 bytes, begins with the operation code
    and ends with the control byte; sense data has 252 bytes, as its comment
    says. *)
Theorem scsi_structures (s : scsi_struct) (i : nat) (x : string) (t : cty) (Hs : s ∈ scsi_structs)
    (Hi : scsi_members s !! i = Some (x, t)) :
  members (scsi_type s) !! i =
    Some (x, fold_right Z.add 0 (List.map (λ m, size_of (snd m)) (take i (scsi_members s))), t) ∧
  size_of (scsi_type s) = fold_right Z.add 0 (List.map (λ m, size_of (snd m)) (scsi_members s)) ∧
  (∀ ops op, (s, ops) ∈ commands → op ∈ ops →
     size_of (scsi_type s) = group_length (opcode_of op) ∧ offset_of (scsi_type s) "opcode" = Some 0 ∧
     offset_of (scsi_type s) "control" = Some (size_of (scsi_type s) - 1)) ∧
  size_of (scsi_type scsi_sense_data) = 252.
Proof.
  pose proof (table_forall _ _ _ structs_ok Hs) as Hok. apply andb_true_iff in Hok as [Hp Hsum]. apply Z.eqb_eq in Hsum.
  split_and!; [|done| |reflexivity].
  - exact (packed_lookup 0 (scsi_members s) i x t Hp Hi).
  - intros ops op Hc Hop. pose proof (table_forall _ _ _ commands_ok Hc) as H. unfold command_ok in H.
    rewrite !andb_true_iff, !bool_decide_eq_true in H. destruct H as [[H1 H2] H3].
    pose proof (table_forall _ _ _ H1 Hop) as Hg. apply Z.eqb_eq in Hg. done.
Qed.

Lemma scsi_structures_witness :
  members (scsi_type scsi_rw_10) !! 4%nat = Some ("length"%string, 7, CArray 2 c_u8) ∧
  size_of (scsi_type scsi_rw_10) = group_length 0x28.
Proof.
  destruct (scsi_structures scsi_rw_10 4 "length" (CArray 2 c_u8)) as (H1 & _ & H3 & _).
  - apply elem_of_app. right. apply elem_of_app. left. do 6 right. left.
  - reflexivity.
  - split; [exact H1|]. apply (H3 ["READ_10"; "WRITE_10"]%string "READ_10"%string); [do 25 right; left|left].
Defined.

(** C23: numbers in the structures. scsi_ulto2b and its kin write the low 16, 24, 32
    or 64 bits, exactly those bytes, most significant byte first, at any place of a
    buffer, and the decoder of the width reads them back; only scsi_4btoul shifts the
    first byte as an int, so that it is undefined for a number of 2^31 or more. So it
    is for every member of 2, 3, 4 or 8 bytes of the 113 structures that travel over
    the wire - all of the header but seven entry types of tables inside the kernel -
    where the bytes replace those of the member and no other byte changes.
    scsi_3btol reads the 24 bits as a signed number. find_mode_page_6 and
    find_mode_page_10 find the first page behind the header and the block
    descriptors whose length the header gives. *)
Theorem scsi_numbers (s : scsi_struct) (x : string) (n : Z) (v : Z) (pre old post : list Z)
    (Hs : s ∈ scsi_structs) (Hx : (x, CArray n c_u8) ∈ scsi_members s) (Hv : - 2 ^ 23 ≤ v < 2 ^ 23)
    (Hold : length old = 3%nat) :
  codec scsi_ulto2b scsi_2btoul 2 ∧ codec scsi_ulto3b scsi_3btoul 3 ∧
  codec scsi_ulto4b scsi_4btoul 4 ∧ codec scsi_u64to8b scsi_8btou64 8 ∧
  (n = 2 → field_codec s x n scsi_ulto2b scsi_2btoul) ∧ (n = 3 → field_codec s x n scsi_ulto3b scsi_3btoul) ∧
  (n = 4 → field_codec s x n scsi_ulto4b scsi_4btoul) ∧ (n = 8 → field_codec s x n scsi_u64to8b scsi_8btou64) ∧
  (let buffer := (pre ++ be_bytes 3 v ++ post)%list in
     scsi_ulto3b (u32 v) (length pre) (pre ++ old ++ post)%list = Ok (tt, buffer) ∧
     scsi_3btol (length pre) buffer = Ok (v, buffer)) ∧
  (∀ a b c d descriptors, is_u8 d → Z.of_nat (length descriptors) = d →
     let buffer := (pre ++ [a; b; c; d] ++ descriptors ++ post)%list in
     find_mode_page_6 (length pre) buffer = Ok (length (pre ++ [a; b; c; d] ++ descriptors), buffer)) ∧
  (∀ a b c d e f descriptors, Z.of_nat (length descriptors) < 2 ^ 16 →
     let buffer := (pre ++ ([a; b; c; d; e; f] ++ reverse (le_bytes 2 (Z.of_nat (length descriptors)))) ++ descriptors ++ post)%list in
     find_mode_page_10 (length pre) buffer = Ok ((length pre + 8 + length descriptors)%nat, buffer)).
Proof.
  assert (codec scsi_ulto2b scsi_2btoul 2) as H2 by (apply number_codec_intro; [done|done|apply writes_ulto2b|apply reads_2btoul]).
  assert (codec scsi_ulto3b scsi_3btoul 3) as H3 by (apply number_codec_intro; [done|done|apply writes_ulto3b|apply reads_3btoul]).
  assert (codec scsi_ulto4b scsi_4btoul 4) as H4 by (apply int_codec_intro; [apply writes_ulto4b|apply reads_4btoul]).
  assert (codec scsi_u64to8b scsi_8btou64 8) as H8 by (apply number_codec_intro; [done|done|apply writes_u64to8b|apply reads_8btou64]).
  split_and!; try done; try (intros ->; by apply field_codec_intro).
  - assert (be_bytes 3 (u32 v) = be_bytes 3 v) as Ev.
    { unfold be_bytes. f_equal. rewrite <-(le_bytes_mod 3 (u32 v)), <-(le_bytes_mod 3 v) by done. f_equal.
      unfold u32. change (2 ^ (3 * 8)) with (2 ^ 24).
      symmetry. apply Znumtheory.Zmod_div_mod; [lia|lia|by exists (2 ^ 8)]. }
    split; [rewrite <-Ev; by apply writes_ulto3b|]. rewrite <-Ev. unfold be_bytes.
    rewrite reads_3btol; [|done|reflexivity|by apply Forall_reverse, le_bytes_ok].
    rewrite reverse_involutive, le_word_bytes by done. do 2 f_equal. unfold i24, u32. change (2 ^ (3 * 8)) with (2 ^ 24).
    rewrite <-(Znumtheory.Zmod_div_mod (2 ^ 24) (2 ^ 32)) by (lia || (by exists (2 ^ 8))).
    destruct (decide (0 ≤ v)); [rewrite Z.mod_small, decide_True by lia; done|].
    rewrite <-(Z.mod_unique v (2 ^ 24) (-1) (v + 2 ^ 24)) by lia. rewrite decide_False by lia. lia.
  - intros a b c d ds Hd Hl buffer. unfold find_mode_page_6, buffer. change (member_at scsi_mode_header_6 "blk_desc_len") with 3%nat.
    change (Z.to_nat (size_of (scsi_type scsi_mode_header_6))) with 4%nat.
    erewrite bind_ok by (by apply peek_app). rewrite ret_ok. do 2 f_equal. rewrite !length_app. cbn [length]. lia.
  - intros a b c d e f ds Hl buffer. unfold find_mode_page_10, buffer. change (member_at scsi_mode_header_10 "blk_desc_len") with 6%nat.
    change (Z.to_nat (size_of (scsi_type scsi_mode_header_10))) with 8%nat.
    erewrite bind_ok; cycle 1.
    { rewrite <-app_assoc, (app_assoc pre). replace (length pre + 6)%nat with (length (pre ++ [a; b; c; d; e; f])) by (rewrite length_app; simpl; lia).
      apply reads_2btoul; [done|reflexivity|by apply Forall_reverse, le_bytes_ok]. }
    rewrite reverse_involutive, le_word_bytes_small by lia. rewrite ret_ok, <-!app_assoc. do 2 f_equal. simpl. lia.
Qed.

Lemma scsi_numbers_witness :
  field_codec scsi_rw_10 "addr" 4 scsi_ulto4b scsi_4btoul ∧
  (scsi_ulto4b 0x12345678 2 ≫= λ _, scsi_4btoul 2) (replicate 10 0) = Ok (0x12345678, [0; 0; 0x12; 0x34; 0x56; 0x78; 0; 0; 0; 0]).
Proof.
  split; [|vm_compute; reflexivity]. eapply (scsi_numbers scsi_rw_10 "addr" 4 (-5) [] [0; 0; 0] []).
  - apply elem_of_app. right. apply elem_of_app. left. do 6 right. left.
  - do 2 right. left.
  - lia.
  - reflexivity.
  - reflexivity.
Defined.
