(* ===== verification/Hash.v ===== *)
(** * Hashes and checksums: sys/hash.h, sys/fnv_hash.h, the CRC of sys/libkern.h

    Functions over the bytes of a buffer, which is the state; a pointer is a
    position in it, and reading outside it is undefined. The table of the CRC is
    elsewhere in the kernel: a parameter. *)

From S2P Require Import Prelude Endian.

(** ** sys/hash.h *)

Definition HASHINIT : Z := 5381.
Definition HASHSTEP (x c : Z) : Z := u32 (u32 (u32 (Z.shiftl x 5) + x) + c).

Fixpoint hash32_buf (p len : nat) (hash : Z) : M (list Z) Z :=
  match len with
  | 0%nat => mret hash
  | S len => c ← peek p; hash32_buf (p + 1) len (HASHSTEP hash c)
  end.

Fixpoint hash32_str (fuel p : nat) (hash : Z) : M (list Z) Z :=
  match fuel with
  | 0%nat => out_of_fuel
  | S fuel => c ← peek p; if decide (c ≠ 0) then hash32_str fuel (p + 1) (HASHSTEP hash c) else mret hash
  end.

(** [while ( *p && len--)]: the byte is read before the length is tested. *)
Fixpoint hash32_strn (p len : nat) (hash : Z) : M (list Z) Z :=
  c ← peek p;
  if decide (c ≠ 0) then
    match len with
    | 0%nat => mret hash
    | S len => hash32_strn (p + 1) len (HASHSTEP hash c)
    end
  else mret hash.

(** The second result is what is stored in [*ep]. *)
Fixpoint hash32_stre (fuel p : nat) (end_ : Z) (hash : Z) : M (list Z) (Z * nat) :=
  match fuel with
  | 0%nat => out_of_fuel
  | S fuel =>
      c ← peek p;
      if decide (c ≠ 0 ∧ c ≠ end_) then hash32_stre fuel (p + 1) end_ (HASHSTEP hash c) else mret (hash, p)
  end.

Fixpoint hash32_strne (p len : nat) (end_ : Z) (hash : Z) : M (list Z) (Z * nat) :=
  c ← peek p;
  if decide (c ≠ 0 ∧ c ≠ end_) then
    match len with
    | 0%nat => mret (hash, p)
    | S len => hash32_strne (p + 1) len end_ (HASHSTEP hash c)
    end
  else mret (hash, p).

(** ** sys/fnv_hash.h *)

Definition FNV_32_PRIME : Z := 0x01000193.
Definition FNV_64_PRIME : Z := 0x100000001b3.
Definition FNV1_32_INIT : Z := 33554467.
Definition FNV1_64_INIT : Z := 0xcbf29ce484222325.

Fixpoint fnv_32_buf (p len : nat) (hval : Z) : M (list Z) Z :=
  match len with
  | 0%nat => mret hval
  | S len => let hval := u32 (hval * FNV_32_PRIME) in c ← peek p; fnv_32_buf (p + 1) len (Z.lxor hval c)
  end.
Fixpoint fnv_32_str (fuel p : nat) (hval : Z) : M (list Z) Z :=
  match fuel with
  | 0%nat => out_of_fuel
  | S fuel =>
      c ← peek p;
      if decide (c ≠ 0) then fnv_32_str fuel (p + 1) (Z.lxor (u32 (hval * FNV_32_PRIME)) c) else mret hval
  end.
Fixpoint fnv_64_buf (p len : nat) (hval : Z) : M (list Z) Z :=
  match len with
  | 0%nat => mret hval
  | S len => let hval := u64 (hval * FNV_64_PRIME) in c ← peek p; fnv_64_buf (p + 1) len (Z.lxor hval c)
  end.
Fixpoint fnv_64_str (fuel p : nat) (hval : Z) : M (list Z) Z :=
  match fuel with
  | 0%nat => out_of_fuel
  | S fuel =>
      c ← peek p;
      if decide (c ≠ 0) then fnv_64_str fuel (p + 1) (Z.lxor (u64 (hval * FNV_64_PRIME)) c) else mret hval
  end.

(** ** The CRC of sys/libkern.h *)

Section crc.
Context (crc32_tab : list Z).

Fixpoint crc32_raw (p size : nat) (crc : Z) : M (list Z) Z :=
  match size with
  | 0%nat => mret crc
  | S size =>
      b ← peek p;
      match crc32_tab !! Z.to_nat (Z.land (Z.lxor crc b) 0xFF) with
      | Some t => crc32_raw (p + 1) size (Z.lxor t (Z.shiftr crc 8))
      | None => undef OutOfBounds
      end
  end.

Definition crc32 (p size : nat) : M (list Z) Z :=
  crc ← crc32_raw p size 0xffffffff; mret (Z.lxor crc 0xffffffff).
End crc.

(** ** What the loops compute *)

Section loops.
Context (d : list Z).

(** The bytes of the buffer from [p] on begin with [bs]. *)
Definition at_ (p : nat) (bs : list Z) : Prop := take (length bs) (drop p d) = bs.

Lemma at_cons p b bs : at_ p (b :: bs) → d !! p = Some b ∧ at_ (p + 1) bs.
Proof.
  unfold at_. simpl. intros H. destruct (drop p d) as [|x xs] eqn:E; [done|]. injection H as -> H.
  split; [by rewrite <-(Nat.add_0_r p), <-lookup_drop, E|]. by rewrite <-drop_drop, E.
Qed.
Lemma at_peek p b bs : at_ p (b :: bs) → peek p d = Ok (b, d).
Proof. intros H. apply at_cons in H as [H _]. unfold peek. by rewrite H. Qed.
End loops.

Lemma at_app pre bs post : at_ (pre ++ bs ++ post) (length pre) bs.
Proof. unfold at_. by rewrite drop_app_length, take_app_length. Qed.

Definition hash_of (step : Z → Z → Z) (h : Z) (bs : list Z) : Z := foldl step h bs.
Definition fnv_step (modulus prime h c : Z) : Z := Z.lxor ((h * prime) `mod` modulus) c.

Lemma hash32_buf_spec d bs : ∀ p h, at_ d p bs → hash32_buf p (length bs) h d = Ok (hash_of HASHSTEP h bs, d).
Proof.
  induction bs as [|b bs IH]; intros p h Hat; [done|]. cbn [hash32_buf length]. erewrite bind_ok by (by eapply at_peek).
  apply IH. by apply at_cons in Hat as [_ ?].
Qed.
Lemma fnv_32_buf_spec d bs : ∀ p h, at_ d p bs → fnv_32_buf p (length bs) h d = Ok (hash_of (fnv_step (2 ^ 32) FNV_32_PRIME) h bs, d).
Proof.
  induction bs as [|b bs IH]; intros p h Hat; [done|]. cbn [fnv_32_buf length]. erewrite bind_ok by (by eapply at_peek).
  apply IH. by apply at_cons in Hat as [_ ?].
Qed.
Lemma fnv_64_buf_spec d bs : ∀ p h, at_ d p bs → fnv_64_buf p (length bs) h d = Ok (hash_of (fnv_step (2 ^ 64) FNV_64_PRIME) h bs, d).
Proof.
  induction bs as [|b bs IH]; intros p h Hat; [done|]. cbn [fnv_64_buf length]. erewrite bind_ok by (by eapply at_peek).
  apply IH. by apply at_cons in Hat as [_ ?].
Qed.

(** A string [s] followed by its terminator. *)
Abbreviation text s := (Forall (λ c, c ≠ 0) s).

Ltac string_loop IH :=
  intros [|fuel] p h Hs Hat Hf; cbn [app length] in *; try lia; cbn [hash32_str fnv_32_str fnv_64_str];
  erewrite bind_ok by (by eapply at_peek);
  first [by rewrite decide_False by tauto
        |apply Forall_cons in Hs as [? ?]; rewrite decide_True by done; apply IH; [done|by apply at_cons in Hat as [_ ?]|lia]].

Lemma hash32_str_spec d s : ∀ fuel p h, text s → at_ d p (s ++ [0]) → (length s < fuel)%nat →
  hash32_str fuel p h d = Ok (hash_of HASHSTEP h s, d).
Proof. induction s as [|c s IH]; string_loop IH. Qed.
Lemma fnv_32_str_spec d s : ∀ fuel p h, text s → at_ d p (s ++ [0]) → (length s < fuel)%nat →
  fnv_32_str fuel p h d = Ok (hash_of (fnv_step (2 ^ 32) FNV_32_PRIME) h s, d).
Proof. induction s as [|c s IH]; string_loop IH. Qed.
Lemma fnv_64_str_spec d s : ∀ fuel p h, text s → at_ d p (s ++ [0]) → (length s < fuel)%nat →
  fnv_64_str fuel p h d = Ok (hash_of (fnv_step (2 ^ 64) FNV_64_PRIME) h s, d).
Proof. induction s as [|c s IH]; string_loop IH. Qed.

(** The loops that stop at a byte of their own: [c] is the byte behind [s]. *)
Lemma hash32_strne_spec d end_ s c : ∀ p len h,
  Forall (λ c, c ≠ 0 ∧ c ≠ end_) s → at_ d p (s ++ [c]) → (length s ≤ len)%nat →
  (c = 0 ∨ c = end_ ∨ len = length s) →
  hash32_strne p len end_ h d = Ok ((hash_of HASHSTEP h s, (p + length s)%nat), d).
Proof.
  induction s as [|b s IH]; intros p len h Hs Hat Hl Hc; cbn [app length] in *; destruct len as [|len]; cbn [hash32_strne]; try lia;
    erewrite bind_ok by (by eapply at_peek).
  - rewrite Nat.add_0_r. by case_decide.
  - rewrite decide_False by (intros [? ?]; destruct Hc as [| [|]]; done). by rewrite Nat.add_0_r.
  - apply Forall_cons in Hs as [Hb Hs]. rewrite decide_True by done. apply at_cons in Hat as [_ Hat].
    rewrite (IH (p + 1)%nat); [|done|done|lia|destruct Hc as [|[|]]; [tauto|tauto|right; right; lia]]. do 3 f_equal. lia.
Qed.

Lemma hash32_stre_spec d end_ s c : ∀ fuel p h,
  Forall (λ c, c ≠ 0 ∧ c ≠ end_) s → at_ d p (s ++ [c]) → (length s < fuel)%nat → (c = 0 ∨ c = end_) →
  hash32_stre fuel p end_ h d = Ok ((hash_of HASHSTEP h s, (p + length s)%nat), d).
Proof.
  induction s as [|b s IH]; intros [|fuel] p h Hs Hat Hf Hc; cbn [app length] in *; try lia; cbn [hash32_stre];
    erewrite bind_ok by (by eapply at_peek).
  - rewrite decide_False by (intros [? ?]; destruct Hc; done). by rewrite Nat.add_0_r.
  - apply Forall_cons in Hs as [Hb Hs]. rewrite decide_True by done. apply at_cons in Hat as [_ Hat].
    rewrite (IH fuel (p + 1)%nat); [|done|done|lia|done]. do 3 f_equal. lia.
Qed.

Lemma hash32_strn_spec d s c : ∀ p len h,
  text s → at_ d p (s ++ [c]) → (length s ≤ len)%nat → (c = 0 ∨ len = length s) →
  hash32_strn p len h d = Ok (hash_of HASHSTEP h s, d).
Proof.
  induction s as [|b s IH]; intros p len h Hs Hat Hl Hc; cbn [app length] in *; destruct len as [|len]; cbn [hash32_strn]; try lia;
    erewrite bind_ok by (by eapply at_peek).
  - by case_decide.
  - rewrite decide_False by (destruct Hc; [tauto|lia]). done.
  - apply Forall_cons in Hs as [Hb Hs]. rewrite decide_True by done. apply at_cons in Hat as [_ Hat].
    apply IH; [done|done|lia|]. destruct Hc; [tauto|right; lia].
Qed.

(** A buffer full of text without a terminator. *)
Lemma hash32_strn_overrun s : ∀ pre h, text s → hash32_strn (length pre) (length s) h (pre ++ s) = Undef OutOfBounds.
Proof.
  induction s as [|b s IH]; intros pre h Hs; cbn [length hash32_strn].
  - apply bind_undef. unfold peek. by rewrite app_nil_r, lookup_ge_None_2 by lia.
  - apply Forall_cons in Hs as [Hb Hs].
    erewrite bind_ok by (unfold peek; by rewrite lookup_app_r, Nat.sub_diag by lia). rewrite decide_True by done.
    replace (length pre + 1)%nat with (length (pre ++ [b])) by (rewrite length_app; simpl; lia).
    change (b :: s) with ([b] ++ s). rewrite app_assoc. by apply IH.
Qed.

(** [HASHSTEP] multiplies by 33 and adds. *)
Definition polynomial (h : Z) (bs : list Z) : Z := foldl (λ x c, 33 * x + c) h bs.
Lemma hashstep_mod x y c : x `mod` 2 ^ 32 = y `mod` 2 ^ 32 → HASHSTEP x c = (33 * y + c) `mod` 2 ^ 32.
Proof.
  intros E. unfold HASHSTEP, u32. rewrite Z.shiftl_mul_pow2 by done. change (2 ^ 5) with 32.
  rewrite Zplus_mod_idemp_l, <-Z.add_assoc, Zplus_mod_idemp_l. replace (x * 32 + (x + c)) with (33 * x + c) by lia.
  rewrite <-(Zplus_mod_idemp_l (33 * x)), <-(Zmult_mod_idemp_r x), E.
  by rewrite Zmult_mod_idemp_r, Zplus_mod_idemp_l.
Qed.
Lemma hash_polynomial bs : ∀ x y, x `mod` 2 ^ 32 = y `mod` 2 ^ 32 →
  hash_of HASHSTEP x bs `mod` 2 ^ 32 = polynomial y bs `mod` 2 ^ 32.
Proof.
  induction bs as [|b bs IH]; intros x y E; [done|]. apply IH. rewrite (hashstep_mod x y b E). by rewrite Z.mod_mod.
Qed.

(** ** The CRC, bit by bit *)

(** The reflected polynomial of CRC-32. *)
Definition CRC32_POLY : Z := 0xEDB88320.
Definition crc_bit (x : Z) : Z := Z.lxor (Z.shiftr x 1) (if Z.odd x then CRC32_POLY else 0).
Definition crc_byte (x : Z) : Z := Nat.iter 8 crc_bit x.
Definition crc_step (crc b : Z) : Z := crc_byte (Z.lxor crc b).

(** The table of the kernel: entry [i] is the CRC of the byte [i]. *)
Definition crc_table_ok (tab : list Z) : Prop := ∀ i, 0 ≤ i < 256 → tab !! Z.to_nat i = Some (crc_byte i).

Lemma crc_bit_lxor x y : crc_bit (Z.lxor x y) = Z.lxor (crc_bit x) (crc_bit y).
Proof.
  unfold crc_bit. rewrite Z.shiftr_lxor. rewrite <-!Z.bit0_odd, Z.lxor_spec.
  rewrite !Z.lxor_assoc. f_equal. rewrite (Z.lxor_comm _ (Z.lxor _ _)), Z.lxor_assoc. f_equal.
  destruct (Z.testbit x 0), (Z.testbit y 0); simpl; rewrite ?Z.lxor_0_l, ?Z.lxor_0_r, ?Z.lxor_nilpotent; done.
Qed.
Lemma crc_iter_lxor n x y : Nat.iter n crc_bit (Z.lxor x y) = Z.lxor (Nat.iter n crc_bit x) (Nat.iter n crc_bit y).
Proof. induction n as [|n IH]; [done|]. simpl. by rewrite IH, crc_bit_lxor. Qed.

(** Shifting zeros out takes nothing from the polynomial. *)
Lemma crc_iter_shift n y : Nat.iter n crc_bit (Z.shiftl y (Z.of_nat n)) = y.
Proof.
  revert y. induction n as [|n IH]; intros y; [apply Z.shiftl_0_r|]. rewrite Nat.iter_succ_r.
  assert (crc_bit (Z.shiftl y (Z.of_nat (S n))) = Z.shiftl y (Z.of_nat n)) as ->; [|apply IH].
  unfold crc_bit. rewrite <-Z.bit0_odd, Z.shiftl_spec_low by lia. rewrite Z.lxor_0_r, Z.shiftr_shiftl_l by lia. f_equal. lia.
Qed.

Lemma low_high x : x = Z.lxor (Z.land x 0xFF) (Z.shiftl (Z.shiftr x 8) 8).
Proof.
  apply Z.bits_inj'. intros n Hn. rewrite Z.lxor_spec, Z.land_spec. change 0xFF with (Z.ones 8).
  destruct (decide (n < 8)).
  - rewrite Z.ones_spec_low, Z.shiftl_spec_low by lia. by rewrite andb_true_r, xorb_false_r.
  - rewrite Z.ones_spec_high, Z.shiftl_spec, Z.shiftr_spec by lia. rewrite andb_false_r. simpl. f_equal. lia.
Qed.

(** One step of the table is eight steps of the polynomial. *)
Lemma crc_table_step x : crc_byte x = Z.lxor (crc_byte (Z.land x 0xFF)) (Z.shiftr x 8).
Proof. unfold crc_byte. rewrite (low_high x) at 1. rewrite crc_iter_lxor. f_equal. by rewrite (crc_iter_shift 8). Qed.

Lemma crc32_raw_spec tab d bs : crc_table_ok tab → bytes_ok bs → ∀ p crc, at_ d p bs →
  crc32_raw tab p (length bs) crc d = Ok (hash_of crc_step crc bs, d).
Proof.
  intros Htab Hbs. induction bs as [|b bs IH]; intros p crc Hat; [done|]. apply Forall_cons in Hbs as [Hb Hbs].
  cbn [crc32_raw length]. erewrite bind_ok by (by eapply at_peek).
  assert (0 ≤ Z.land (Z.lxor crc b) 0xFF < 256) as Hi.
  { change 0xFF with (Z.ones 8). rewrite Z.land_ones by done. by apply Z.mod_pos_bound. }
  rewrite (Htab _ Hi). rewrite (IH Hbs); [|by apply at_cons in Hat as [_ ?]].
  unfold hash_of. cbn [foldl]. unfold crc_step at 3. rewrite (crc_table_step (Z.lxor crc b)), Z.shiftr_lxor.
  assert (Z.shiftr b 8 = 0) as ->; [|by rewrite Z.lxor_0_r]. unfold is_u8 in Hb. rewrite Z.shiftr_div_pow2 by done. by apply Z.div_small.
Qed.

(** ** Properties *)

(** The hashes of sys/hash.h. Each function gives the hash of the bytes it is
    meant to cover and nothing else: hash32_buf of len bytes, hash32_str of the
    string, hash32_strn of at most len characters, hash32_stre and hash32_strne up
    to the first zero, stop character or the limit, with *ep there. The hash is the
    polynomial in 33 modulo 2^32; hashing on from an earlier hash is hashing the
    concatenation, as the header promises. hash32_strn reads the character behind
    the limit too: text of exactly len characters at the end of its object is read
    beyond the end. *)
Theorem hash32_functions (pre s post : list Z) (c h e : Z) (fuel len : nat)
    (Hs : text s) (Hf : (length s < fuel)%nat) :
  let d := pre ++ (s ++ [c]) ++ post in
  let p := length pre in
  let H := hash_of HASHSTEP h s in
  hash32_buf p (length s) h d = Ok (H, d) ∧
  (c = 0 → hash32_str fuel p h d = Ok (H, d)) ∧
  ((length s ≤ len)%nat → c = 0 ∨ len = length s → hash32_strn p len h d = Ok (H, d)) ∧
  (e ∉ s → c = 0 ∨ c = e → hash32_stre fuel p e h d = Ok ((H, (p + length s)%nat), d)) ∧
  (e ∉ s → (length s ≤ len)%nat → c = 0 ∨ c = e ∨ len = length s →
     hash32_strne p len e h d = Ok ((H, (p + length s)%nat), d)) ∧
  (∀ t, hash_of HASHSTEP h (s ++ t) = hash_of HASHSTEP H t) ∧
  H `mod` 2 ^ 32 = polynomial h s `mod` 2 ^ 32 ∧
  hash32_strn p (length s) h (pre ++ s) = Undef OutOfBounds.
Proof.
  intros d p H.
  assert (at_ d p (s ++ [c])) as Hat by apply at_app.
  assert (at_ d p s) as Hat' by (unfold d, p; rewrite <-app_assoc; apply at_app).
  assert (e ∉ s → Forall (λ x, x ≠ 0 ∧ x ≠ e) s) as Hne.
  { intros He. apply Forall_forall. intros x Hx. split; [by eapply Forall_forall in Hs|by intros ->]. }
  refine (conj _ (conj _ (conj _ (conj _ (conj _ (conj _ (conj _ _))))))).
  - by apply hash32_buf_spec.
  - intros ->. by apply hash32_str_spec.
  - intros. by apply (hash32_strn_spec d s c).
  - intros. apply (hash32_stre_spec d e s c); auto.
  - intros. apply (hash32_strne_spec d e s c); auto.
  - intros t. unfold H, hash_of. by rewrite foldl_app.
  - by apply hash_polynomial.
  - by apply hash32_strn_overrun.
Qed.

Lemma hash32_functions_witness :
  hash32_strne 1 9 47 HASHINIT [9; 97; 98; 47; 99] = Ok ((hash_of HASHSTEP HASHINIT [97; 98], 3%nat), [9; 97; 98; 47; 99]) ∧
  hash32_strn 0 2 HASHINIT [97; 98] = Undef OutOfBounds.
Proof.
  split.
  - destruct (hash32_functions [9] [97; 98] [99] 47 HASHINIT 47 3 9) as (_ & _ & _ & _ & H & _);
      [repeat constructor; done|simpl; lia|]. apply H; [|simpl; lia|by right; left].
    rewrite !not_elem_of_cons. split_and!; [done|done|apply not_elem_of_nil].
  - destruct (hash32_functions [] [97; 98] [] 0 HASHINIT 47 3 9) as (_ & _ & _ & _ & _ & _ & _ & H);
      [repeat constructor; done|simpl; lia|]. exact H.
Defined.

(** C28: crc32 computes the CRC, and the FNV functions the FNV-1 hash. With a table
    whose entries are the remainders of the bytes, crc32_raw gives what shifting the
    bits of the bytes through the reflected polynomial 0xEDB88320 one by one gives;
    continuing from an earlier value is processing the concatenation; the table is
    never read outside its 256 entries. fnv_32_buf, fnv_32_str, fnv_64_buf and
    fnv_64_str multiply by the prime modulo 2^32 or 2^64 and combine each byte,
    up to the length or the terminator. *)
Theorem crc32_and_fnv (tab pre bs s post : list Z) (crc h : Z) (fuel : nat)
    (Htab : crc_table_ok tab) (Hbs : bytes_ok bs) (Hs : text s) (Hf : (length s < fuel)%nat) :
  let d := pre ++ bs ++ post in
  let t := pre ++ (s ++ [0]) ++ post in
  let p := length pre in
  crc32_raw tab p (length bs) crc d = Ok (hash_of crc_step crc bs, d) ∧
  crc32 tab p (length bs) d = Ok (Z.lxor (hash_of crc_step 0xffffffff bs) 0xffffffff, d) ∧
  (∀ bs', hash_of crc_step crc (bs ++ bs') = hash_of crc_step (hash_of crc_step crc bs) bs') ∧
  fnv_32_buf p (length bs) h d = Ok (hash_of (fnv_step (2 ^ 32) FNV_32_PRIME) h bs, d) ∧
  fnv_64_buf p (length bs) h d = Ok (hash_of (fnv_step (2 ^ 64) FNV_64_PRIME) h bs, d) ∧
  fnv_32_str fuel p h t = Ok (hash_of (fnv_step (2 ^ 32) FNV_32_PRIME) h s, t) ∧
  fnv_64_str fuel p h t = Ok (hash_of (fnv_step (2 ^ 64) FNV_64_PRIME) h s, t).
Proof.
  intros d t p. assert (at_ d p bs) as Hd by apply at_app. assert (at_ t p (s ++ [0])) as Ht by apply at_app.
  split_and!.
  - by apply crc32_raw_spec.
  - unfold crc32. erewrite bind_ok by (by apply crc32_raw_spec). done.
  - intros bs'. unfold hash_of. by rewrite foldl_app.
  - by apply fnv_32_buf_spec.
  - by apply fnv_64_buf_spec.
  - by apply fnv_32_str_spec.
  - by apply fnv_64_str_spec.
Qed.

Definition sample_table : list Z := map (λ i, crc_byte (Z.of_nat i)) (seq 0 256).

(** The check value of CRC-32: the digits 1 to 9. *)
Lemma crc32_and_fnv_witness :
  let digits := [0x31; 0x32; 0x33; 0x34; 0x35; 0x36; 0x37; 0x38; 0x39] in
  crc32 sample_table 0 9 digits = Ok (Z.lxor (hash_of crc_step 0xffffffff digits) 0xffffffff, digits) ∧
  Z.lxor (hash_of crc_step 0xffffffff digits) 0xffffffff = 0xCBF43926.
Proof.
  intros digits. split; [|vm_compute; reflexivity].
  destruct (crc32_and_fnv sample_table [] digits [] [] 0 0 1) as (_ & H & _).
  - intros i Hi. unfold sample_table. rewrite list_lookup_fmap, lookup_seq_lt by lia. simpl. by rewrite Z2Nat.id by lia.
  - apply (bool_decide_unpack _). vm_compute. exact I.
  - constructor.
  - simpl. lia.
  - exact H.
Defined.
