(* ===== verification/InetNum.v ===== *)
(** * Numbers of the internet protocols: netinet/tcp_seq.h, machine/in_cksum.h

    Sequence numbers and timestamps of TCP are compared modulo 2^32; the checksum
    of an IP header is updated in place when the time to live is decremented. *)

From S2P Require Import Prelude Endian.

(** ** netinet/tcp_seq.h *)

Definition SEQ_LT (a b : Z) : bool := bool_decide (i32 (u32 (a - b)) < 0).
Definition SEQ_LEQ (a b : Z) : bool := bool_decide (i32 (u32 (a - b)) ≤ 0).
Definition SEQ_GT (a b : Z) : bool := bool_decide (i32 (u32 (a - b)) > 0).
Definition SEQ_GEQ (a b : Z) : bool := bool_decide (i32 (u32 (a - b)) >= 0).
Definition SEQ_MIN (a b : Z) : Z := if SEQ_LT a b then a else b.
Definition SEQ_MAX (a b : Z) : Z := if SEQ_GT a b then a else b.
Definition TSTMP_LT (a b : Z) : bool := bool_decide (i32 (u32 (a - b)) < 0).
Definition TSTMP_GT (a b : Z) : bool := bool_decide (i32 (u32 (a - b)) > 0).
Definition TSTMP_GEQ (a b : Z) : bool := bool_decide (i32 (u32 (a - b)) >= 0).

(** The members of [struct tcpcb] that the macros set. *)
Record tcpcb := Tcpcb {
  iss : Z; irs : Z; snd_una : Z; snd_nxt : Z; snd_max : Z; snd_up : Z; snd_recover : Z; rcv_nxt : Z; rcv_adv : Z }.

Definition tcp_rcvseqinit (tp : tcpcb) : tcpcb :=
  let v := u32 (irs tp + 1) in
  Tcpcb (iss tp) (irs tp) (snd_una tp) (snd_nxt tp) (snd_max tp) (snd_up tp) (snd_recover tp) v v.
Definition tcp_sendseqinit (tp : tcpcb) : tcpcb :=
  let v := iss tp in Tcpcb (iss tp) (irs tp) v v v v v (rcv_nxt tp) (rcv_adv tp).

(** Ticks after which a timestamp is stale; [hz] is the clock's rate. *)
Definition TCP_PAWS_IDLE (hz : Z) : Z := 24 * 24 * 60 * 60 * hz.

(** ** machine/in_cksum.h *)

(** [ip_sum] is in network byte order; the result is its new value. *)
Definition in_cksum_update (ip_sum : Z) : Z :=
  let tmpsum := htons ip_sum + 256 in
  htons (u16 (tmpsum + Z.shiftr tmpsum 16)).

(** ** Comparison in a window *)

Lemma seq_difference x y : - 2 ^ 31 ≤ x - y < 2 ^ 31 → i32 (u32 (u32 x - u32 y)) = x - y.
Proof.
  intros H. unfold u32. rewrite <-Zminus_mod. unfold i32.
  rewrite Zplus_mod_idemp_l, Z.mod_small by lia. lia.
Qed.

(** ** One's complement sums *)

(** Addition with end-around carry, as routers and hosts add up a header. *)
Definition oc_add (a b : Z) : Z := let s := a + b in if decide (s >= 2 ^ 16) then s - 65535 else s.
Definition oc_sum (ws : list Z) : Z := foldr oc_add 0 ws.
Definition is_u16 (z : Z) : Prop := 0 ≤ z < 2 ^ 16.

(** A header whose words add up to 0xffff is accepted. *)
Definition cksum_ok (ws : list Z) : Prop := oc_sum ws = 0xffff.

Lemma oc_sum_spec ws : Forall is_u16 ws →
  is_u16 (oc_sum ws) ∧ oc_sum ws `mod` 65535 = foldr Z.add 0 ws `mod` 65535 ∧ (oc_sum ws = 0 ↔ foldr Z.add 0 ws = 0) ∧ 0 ≤ foldr Z.add 0 ws.
Proof.
  induction 1 as [|w ws Hw _ (IH1 & IH2 & IH3 & IH4)]; [done|]. cbn [oc_sum foldr]. fold (oc_sum ws). unfold oc_add, is_u16 in *.
  assert (∃ k, (if decide (w + oc_sum ws >= 2 ^ 16) then w + oc_sum ws - 65535 else w + oc_sum ws) = w + oc_sum ws + k * 65535) as [k Hk]
    by (case_decide; [exists (-1)|exists 0]; lia).
  split; [case_decide; lia|]. split; [|split; [case_decide; lia|lia]].
  rewrite Hk, Z.mod_add by done. by rewrite <-Zplus_mod_idemp_r, IH2, Zplus_mod_idemp_r.
Qed.

Lemma cksum_ok_sum ws : Forall is_u16 ws → cksum_ok ws ↔ foldr Z.add 0 ws `mod` 65535 = 0 ∧ foldr Z.add 0 ws ≠ 0.
Proof.
  intros Hws. destruct (oc_sum_spec ws Hws) as (H1 & H2 & H3 & _). unfold cksum_ok, is_u16 in *. split.
  - intros E. rewrite E in *. split; [by rewrite <-H2|]. intros E'. apply H3 in E'. lia.
  - intros [E1 E2]. rewrite <-H2 in E1. apply Z.mod_divide in E1 as [k Hk]; [|done].
    assert (oc_sum ws ≠ 0) by (intros E; by apply E2, H3). lia.
Qed.

Lemma update_value c : is_u16 c →
  let t := c + 256 in u16 (t + Z.shiftr t 16) = if decide (t < 2 ^ 16) then t else t - 65535.
Proof.
  intros Hc t. unfold is_u16 in Hc. unfold u16. rewrite Z.shiftr_div_pow2 by done. case_decide as Ht.
  - rewrite (Z.div_small t) by lia. rewrite Z.add_0_r. apply Z.mod_small. lia.
  - replace (t `div` 2 ^ 16) with 1 by (apply (Z.div_unique t (2 ^ 16) 1 (t - 2 ^ 16)); lia).
    symmetry. apply (Z.mod_unique _ _ 1); lia.
Qed.

Lemma foldr_add_app ws vs : foldr Z.add 0 (ws ++ vs) = foldr Z.add 0 ws + foldr Z.add 0 vs.
Proof. induction ws as [|w ws IH]; [done|]. simpl. rewrite IH. lia. Qed.

Lemma htons_range x : is_u16 (htons x).
Proof. unfold is_u16, htons, bswap16, bswap16_const, u16. by apply Z.mod_pos_bound. Qed.
Lemma htons_htons x : is_u16 x → htons (htons x) = x.
Proof.
  intros Hx. pose proof (htons_range x) as Hr. unfold htons, bswap16 in *. rewrite (bswap16_const_spec (bswap16_const x)) by exact Hr.
  rewrite (bswap16_const_spec x) by exact Hx. by apply bswap_bswap.
Qed.

(** ** Properties *)

(** Sequence numbers. For positions x and y of the two streams less than 2^31
    apart, whatever multiple of 2^32 they have passed, the macros on their low 32
    bits compare the positions, and SEQ_MIN and SEQ_MAX select the smaller and the
    larger; the timestamp macros likewise, and for a clock of at most 1000 ticks a
    second an age up to TCP_PAWS_IDLE is inside the window. At a distance of exactly
    2^31 each number is below the other. The initialisation macros leave nothing
    outstanding: the send variables are the initial number, and the next byte
    expected is one behind the peer's. *)
Theorem tcp_sequence_numbers (x y hz age : Z) (tp : tcpcb) (Hxy : - 2 ^ 31 < x - y < 2 ^ 31)
    (Hhz : 0 < hz ≤ 1000) (Hage : 0 < age ≤ TCP_PAWS_IDLE hz) :
  let a := u32 x in let b := u32 y in
  SEQ_LT a b = bool_decide (x < y) ∧ SEQ_LEQ a b = bool_decide (x ≤ y) ∧
  SEQ_GT a b = bool_decide (x > y) ∧ SEQ_GEQ a b = bool_decide (x >= y) ∧
  SEQ_MIN a b = u32 (Z.min x y) ∧ SEQ_MAX a b = u32 (Z.max x y) ∧
  TSTMP_LT a b = bool_decide (x < y) ∧ TSTMP_GT a b = bool_decide (x > y) ∧ TSTMP_GEQ a b = bool_decide (x >= y) ∧
  TSTMP_LT (u32 (x - age)) a = true ∧
  (SEQ_LT a (u32 (x + 2 ^ 31)) = true ∧ SEQ_LT (u32 (x + 2 ^ 31)) a = true) ∧
  (let tp' := tcp_rcvseqinit (tcp_sendseqinit tp) in
   Forall (λ v, v = iss tp) [snd_una tp'; snd_nxt tp'; snd_max tp'; snd_up tp'; snd_recover tp'] ∧
   rcv_nxt tp' = u32 (irs tp + 1) ∧ rcv_adv tp' = rcv_nxt tp' ∧ SEQ_GT (rcv_nxt tp') (u32 (irs tp)) = true).
Proof.
  intros a b. pose proof (seq_difference x y ltac:(lia)) as Hd. fold a b in Hd.
  assert (SEQ_LT a b = bool_decide (x < y)) as Hlt by (unfold SEQ_LT; rewrite Hd; apply bool_decide_ext; lia).
  assert (SEQ_GT a b = bool_decide (x > y)) as Hgt by (unfold SEQ_GT; rewrite Hd; apply bool_decide_ext; lia).
  assert (SEQ_GEQ a b = bool_decide (x >= y)) as Hge by (unfold SEQ_GEQ; rewrite Hd; apply bool_decide_ext; lia).
  unfold TCP_PAWS_IDLE in Hage.
  split_and!; try done.
  - unfold SEQ_LEQ. rewrite Hd. apply bool_decide_ext. lia.
  - unfold SEQ_MIN. rewrite Hlt. clear; case_bool_decide; [by rewrite Z.min_l by lia|by rewrite Z.min_r by lia].
  - unfold SEQ_MAX. rewrite Hgt. clear; case_bool_decide; [by rewrite Z.max_l by lia|by rewrite Z.max_r by lia].
  - unfold TSTMP_LT, a. rewrite seq_difference by nia. apply bool_decide_eq_true. lia.
  - unfold SEQ_LT, a. rewrite seq_difference by lia. apply bool_decide_eq_true. lia.
  - unfold SEQ_LT, a, u32. rewrite <-Zminus_mod. replace (x + 2 ^ 31 - x) with (2 ^ 31) by lia. reflexivity.
  - intros tp'. split; [by repeat constructor|]. split; [done|]. split; [done|]. unfold tp'. cbn [rcv_nxt tcp_rcvseqinit tcp_sendseqinit irs].
    unfold SEQ_GT. rewrite seq_difference by lia. apply bool_decide_eq_true. lia.
Qed.

Lemma tcp_sequence_numbers_witness :
  SEQ_LT 0xfffffff0 0x10 = true ∧ SEQ_MAX 0xfffffff0 0x10 = 0x10.
Proof.
  destruct (tcp_sequence_numbers 0xfffffff0 0x100000010 1000 1 (Tcpcb 0 0 0 0 0 0 0 0 0)) as (H1 & _ & _ & _ & _ & H2 & _);
    [lia|lia|unfold TCP_PAWS_IDLE; lia|]. split; [exact H1|exact H2].
Defined.

(** C27: updating the checksum keeps it right. A header whose 16-bit words, the
    checksum among them and not all of those before it 0, add up to 0xffff with end-around carry still does so after
    the time to live, the high byte of the word before the checksum, is decremented
    and the checksum is replaced by in_cksum_update: the carry out of the addition
    of 256 is added back. The new value is again 16 bits wide. *)
Theorem checksum_update_sound (ip_sum ttl_word : Z) (ws vs : list Z)
    (Hsum : is_u16 ip_sum) (Httl : 256 ≤ ttl_word < 2 ^ 16) (Hws : Forall is_u16 ws) (Hvs : Forall is_u16 vs)
    (Hnz : foldr Z.add 0 ws ≠ 0)
    (Hok : cksum_ok (ws ++ ttl_word :: htons ip_sum :: vs)) :
  cksum_ok (ws ++ (ttl_word - 256) :: htons (in_cksum_update ip_sum) :: vs) ∧ is_u16 (in_cksum_update ip_sum).
Proof.
  split; [|apply htons_range]. pose proof (htons_range ip_sum) as Hc. set (c := htons ip_sum) in *.
  pose proof (update_value c Hc) as Hu. cbv zeta in Hu. unfold in_cksum_update. fold c. rewrite Hu. clear Hu.
  set (c' := if decide (c + 256 < 2 ^ 16) then c + 256 else c + 256 - 65535).
  assert (is_u16 c') as Hc' by (unfold c', is_u16 in *; case_decide; lia). rewrite htons_htons by done.
  assert (∃ k, c' = c + 256 + k * 65535) as [k Hk] by (unfold c'; case_decide; [exists 0|exists (-1)]; lia).
  assert (is_u16 ttl_word ∧ is_u16 (ttl_word - 256)) as [Hw Hw'] by (unfold is_u16; lia).
  assert (Forall is_u16 (ws ++ (ttl_word - 256) :: c' :: vs)) as Hall by (by rewrite Forall_app, !Forall_cons).
  assert (Forall is_u16 (ws ++ ttl_word :: c :: vs)) as Hall0 by (by rewrite Forall_app, !Forall_cons).
  apply cksum_ok_sum in Hok as [Hm _]; [|done]. apply cksum_ok_sum; [done|].
  destruct (oc_sum_spec ws Hws) as (_ & _ & _ & Hpos). destruct (oc_sum_spec vs Hvs) as (_ & _ & _ & Hpos').
  rewrite !foldr_add_app in *. cbn [foldr] in *. split; [|unfold is_u16 in *; lia].
  etransitivity; [|exact Hm]. rewrite Hk. replace (foldr Z.add 0 ws + (ttl_word - 256 + (c + 256 + k * 65535 + foldr Z.add 0 vs)))
    with (foldr Z.add 0 ws + (ttl_word + (c + foldr Z.add 0 vs)) + k * 65535) by lia. by apply Z.mod_add.
Qed.

(** A header of twenty bytes with time to live 64. *)
Lemma checksum_update_sound_witness :
  let ws := [0x4500; 0x0073; 0x0000; 0x4000] in let vs := [0xc0a8; 0x0001; 0xc0a8; 0x00c7] in
  cksum_ok (ws ++ 0x4011 :: 0xb861 :: vs) ∧
  cksum_ok (ws ++ 0x3f11 :: htons (in_cksum_update (htons 0xb861)) :: vs) ∧ htons (in_cksum_update (htons 0xb861)) = 0xb961.
Proof.
  intros ws vs. split; [reflexivity|]. split; [|reflexivity].
  apply (checksum_update_sound (htons 0xb861) 0x4011 ws vs);
    [apply htons_range|lia|by repeat constructor|by repeat constructor|simpl; lia|reflexivity].
Defined.
