(* ===== verification/Ufs.v ===== *)
(** * On-disk structures of the fast file system: ufs/ufs, ufs/ffs/fs.h

    The inode, directory, quota, extended attribute, superblock, cylinder group and
    journal structures; the directory macros of ufs/ufs/dir.h; the macros that walk
    a sequence of extended attributes, as computations over the bytes of a buffer,
    in which a pointer is a position. *)

From S2P Require Import Prelude CStruct Endian.
From Stdlib Require Import String.
#[local] Close Scope string_scope.
#[local] Abbreviation length := List.length.
#[local] Abbreviation concat := List.concat.

(** ** Types and constants *)

Definition ino_t : cty := c_u32.
Definition off_t : cty := c_long.
Definition ufs1_daddr_t : cty := c_int.
Definition ufs2_daddr_t : cty := c_long.
Definition ufs_lbn_t : cty := c_long.
Definition ufs_time_t : cty := c_long.

Definition NXADDR : Z := 2.
Definition NDADDR : Z := 12.
Definition NIADDR : Z := 3.
Definition MAXNAMLEN : Z := 255.
Definition SBLOCKSIZE : Z := 8192.
Definition MAXFRAG : Z := 8.
Definition MINBSIZE : Z := 4096.
Definition MAXMNTLEN : Z := 468.
Definition MAXVOLLEN : Z := 32.
Definition NOCSPTRS : Z := 128 / size_of c_ptr - 4.
Definition FSMAXSNAP : Z := 20.
Definition JREC_SIZE : Z := 32.

#[local] Open Scope string_scope.

(** The inodes, with the offset the comment of each member gives. *)
Definition ufs2_dinode : list (string * Z * cty) := [
  ("di_mode", 0, c_u16); ("di_nlink", 2, c_short); ("di_uid", 4, c_u32); ("di_gid", 8, c_u32);
  ("di_blksize", 12, c_u32); ("di_size", 16, c_u64); ("di_blocks", 24, c_u64); ("di_atime", 32, ufs_time_t);
  ("di_mtime", 40, ufs_time_t); ("di_ctime", 48, ufs_time_t); ("di_birthtime", 56, ufs_time_t);
  ("di_mtimensec", 64, c_int); ("di_atimensec", 68, c_int); ("di_ctimensec", 72, c_int);
  ("di_birthnsec", 76, c_int); ("di_gen", 80, c_int); ("di_kernflags", 84, c_u32); ("di_flags", 88, c_u32);
  ("di_extsize", 92, c_int); ("di_extb", 96, CArray NXADDR ufs2_daddr_t);
  ("di_db", 112, CArray NDADDR ufs2_daddr_t); ("di_ib", 208, CArray NIADDR ufs2_daddr_t);
  ("di_modrev", 232, c_u64); ("di_freelink", 240, ino_t); ("di_spare", 244, CArray 3 c_u32)].

Definition ufs1_dinode : list (string * Z * cty) := [
  ("di_mode", 0, c_u16); ("di_nlink", 2, c_short); ("di_freelink", 4, ino_t); ("di_size", 8, c_u64);
  ("di_atime", 16, c_int); ("di_atimensec", 20, c_int); ("di_mtime", 24, c_int); ("di_mtimensec", 28, c_int);
  ("di_ctime", 32, c_int); ("di_ctimensec", 36, c_int); ("di_db", 40, CArray NDADDR ufs1_daddr_t);
  ("di_ib", 88, CArray NIADDR ufs1_daddr_t); ("di_flags", 100, c_u32); ("di_blocks", 104, c_int);
  ("di_gen", 108, c_int); ("di_uid", 112, c_u32); ("di_gid", 116, c_u32); ("di_modrev", 120, c_u64)].

Definition direct : list (string * cty) := [
  ("d_ino", c_u32); ("d_reclen", c_u16); ("d_type", c_u8); ("d_namlen", c_u8);
  ("d_name", CArray (MAXNAMLEN + 1) c_char)].

Definition dirtemplate : list (string * cty) := [
  ("dot_ino", c_u32); ("dot_reclen", c_short); ("dot_type", c_u8); ("dot_namlen", c_u8);
  ("dot_name", CArray 4 c_char); ("dotdot_ino", c_u32); ("dotdot_reclen", c_short); ("dotdot_type", c_u8);
  ("dotdot_namlen", c_u8); ("dotdot_name", CArray 4 c_char)].

Definition odirtemplate : list (string * cty) := [
  ("dot_ino", c_u32); ("dot_reclen", c_short); ("dot_namlen", c_u16); ("dot_name", CArray 4 c_char);
  ("dotdot_ino", c_u32); ("dotdot_reclen", c_short); ("dotdot_namlen", c_u16); ("dotdot_name", CArray 4 c_char)].

Definition dqblk32 : list (string * cty) := [
  ("dqb_bhardlimit", c_u32); ("dqb_bsoftlimit", c_u32); ("dqb_curblocks", c_u32); ("dqb_ihardlimit", c_u32);
  ("dqb_isoftlimit", c_u32); ("dqb_curinodes", c_u32); ("dqb_btime", c_int); ("dqb_itime", c_int)].

Definition dqblk64 : list (string * cty) := [
  ("dqb_bhardlimit", c_u64); ("dqb_bsoftlimit", c_u64); ("dqb_curblocks", c_u64); ("dqb_ihardlimit", c_u64);
  ("dqb_isoftlimit", c_u64); ("dqb_curinodes", c_u64); ("dqb_btime", c_long); ("dqb_itime", c_long)].

Definition dqhdr64 : list (string * cty) := [
  ("dqh_magic", CArray 8 c_char); ("dqh_version", c_u32); ("dqh_hdrlen", c_u32); ("dqh_reclen", c_u32);
  ("dqh_unused", CArray 44 c_char)].

Definition ufs_extattr_fileheader : list (string * cty) := [
  ("uef_magic", c_u32); ("uef_version", c_u32); ("uef_size", c_u32)].

Definition ufs_extattr_header : list (string * cty) := [
  ("ueh_flags", c_u32); ("ueh_len", c_u32); ("ueh_i_gen", c_u32)].

Definition extattr : list (string * cty) := [
  ("ea_length", c_int); ("ea_namespace", c_char); ("ea_contentpadlen", c_char); ("ea_namelength", c_char);
  ("ea_name", CArray 1 c_char)].

Definition fsck_cmd : list (string * cty) := [
  ("version", c_int); ("handle", c_int); ("value", c_long); ("size", c_long); ("spare", c_long)].

Definition csum : list (string * cty) := [
  ("cs_ndir", c_int); ("cs_nbfree", c_int); ("cs_nifree", c_int); ("cs_nffree", c_int)].

Definition csum_total : list (string * cty) := [
  ("cs_ndir", c_long); ("cs_nbfree", c_long); ("cs_nifree", c_long); ("cs_nffree", c_long);
  ("cs_numclusters", c_long); ("cs_spare", CArray 3 c_long)].

Definition fs_members : list (string * cty) := [
  ("fs_firstfield", c_int); ("fs_unused_1", c_int); ("fs_sblkno", c_int); ("fs_cblkno", c_int);
  ("fs_iblkno", c_int); ("fs_dblkno", c_int); ("fs_old_cgoffset", c_int); ("fs_old_cgmask", c_int);
  ("fs_old_time", c_int); ("fs_old_size", c_int); ("fs_old_dsize", c_int); ("fs_ncg", c_u32);
  ("fs_bsize", c_int); ("fs_fsize", c_int); ("fs_frag", c_int); ("fs_minfree", c_int);
  ("fs_old_rotdelay", c_int); ("fs_old_rps", c_int); ("fs_bmask", c_int); ("fs_fmask", c_int);
  ("fs_bshift", c_int); ("fs_fshift", c_int); ("fs_maxcontig", c_int); ("fs_maxbpg", c_int);
  ("fs_fragshift", c_int); ("fs_fsbtodb", c_int); ("fs_sbsize", c_int); ("fs_spare1", CArray 2 c_int);
  ("fs_nindir", c_int); ("fs_inopb", c_u32); ("fs_old_nspf", c_int); ("fs_optim", c_int);
  ("fs_old_npsect", c_int); ("fs_old_interleave", c_int); ("fs_old_trackskew", c_int);
  ("fs_id", CArray 2 c_int); ("fs_old_csaddr", c_int); ("fs_cssize", c_int); ("fs_cgsize", c_int);
  ("fs_spare2", c_int); ("fs_old_nsect", c_int); ("fs_old_spc", c_int); ("fs_old_ncyl", c_int);
  ("fs_old_cpg", c_int); ("fs_ipg", c_u32); ("fs_fpg", c_int); ("fs_old_cstotal", CRecord csum);
  ("fs_fmod", c_char); ("fs_clean", c_char); ("fs_ronly", c_char); ("fs_old_flags", c_char);
  ("fs_fsmnt", CArray MAXMNTLEN c_u8); ("fs_volname", CArray MAXVOLLEN c_u8); ("fs_swuid", c_u64);
  ("fs_pad", c_int); ("fs_cgrotor", c_int); ("fs_ocsp", CArray NOCSPTRS c_ptr); ("fs_contigdirs", c_ptr);
  ("fs_csp", c_ptr); ("fs_maxcluster", c_ptr); ("fs_active", c_ptr); ("fs_old_cpc", c_int);
  ("fs_maxbsize", c_int); ("fs_unrefs", c_long); ("fs_sparecon64", CArray 16 c_long); ("fs_sblockloc", c_long);
  ("fs_cstotal", CRecord csum_total); ("fs_time", ufs_time_t); ("fs_size", c_long); ("fs_dsize", c_long);
  ("fs_csaddr", ufs2_daddr_t); ("fs_pendingblocks", c_long); ("fs_pendinginodes", c_u32);
  ("fs_snapinum", CArray FSMAXSNAP ino_t); ("fs_avgfilesize", c_u32); ("fs_avgfpdir", c_u32);
  ("fs_save_cgsize", c_int); ("fs_mtime", ufs_time_t); ("fs_sujfree", c_int);
  ("fs_sparecon32", CArray 23 c_int); ("fs_flags", c_int); ("fs_contigsumsize", c_int);
  ("fs_maxsymlinklen", c_int); ("fs_old_inodefmt", c_int); ("fs_maxfilesize", c_u64); ("fs_qbmask", c_long);
  ("fs_qfmask", c_long); ("fs_state", c_int); ("fs_old_postblformat", c_int); ("fs_old_nrpos", c_int);
  ("fs_spare5", CArray 2 c_int); ("fs_magic", c_int)].

Definition cg_members : list (string * cty) := [
  ("cg_firstfield", c_int); ("cg_magic", c_int); ("cg_old_time", c_int); ("cg_cgx", c_u32);
  ("cg_old_ncyl", c_short); ("cg_old_niblk", c_short); ("cg_ndblk", c_u32); ("cg_cs", CRecord csum);
  ("cg_rotor", c_u32); ("cg_frotor", c_u32); ("cg_irotor", c_u32); ("cg_frsum", CArray MAXFRAG c_u32);
  ("cg_old_btotoff", c_int); ("cg_old_boff", c_int); ("cg_iusedoff", c_u32); ("cg_freeoff", c_u32);
  ("cg_nextfreeoff", c_u32); ("cg_clustersumoff", c_u32); ("cg_clusteroff", c_u32); ("cg_nclusterblks", c_u32);
  ("cg_niblk", c_u32); ("cg_initediblk", c_u32); ("cg_unrefs", c_u32); ("cg_sparecon32", CArray 2 c_int);
  ("cg_time", ufs_time_t); ("cg_sparecon64", CArray 3 c_long); ("cg_space", CArray 1 c_u8)].

Definition jsegrec : list (string * cty) := [
  ("jsr_seq", c_u64); ("jsr_oldest", c_u64); ("jsr_cnt", c_u16); ("jsr_blocks", c_u16); ("jsr_crc", c_u32);
  ("jsr_time", ufs_time_t)].

Definition jrefrec : list (string * cty) := [
  ("jr_op", c_u32); ("jr_ino", ino_t); ("jr_parent", ino_t); ("jr_nlink", c_u16); ("jr_mode", c_u16);
  ("jr_diroff", off_t); ("jr_unused", c_u64)].

Definition jmvrec : list (string * cty) := [
  ("jm_op", c_u32); ("jm_ino", ino_t); ("jm_parent", ino_t); ("jm_unused", c_u16); ("jm_oldoff", off_t);
  ("jm_newoff", off_t)].

Definition jblkrec : list (string * cty) := [
  ("jb_op", c_u32); ("jb_ino", c_u32); ("jb_blkno", ufs2_daddr_t); ("jb_lbn", ufs_lbn_t); ("jb_frags", c_u16);
  ("jb_oldfrags", c_u16); ("jb_unused", c_u32)].

Definition jtrncrec : list (string * cty) := [
  ("jt_op", c_u32); ("jt_ino", c_u32); ("jt_size", off_t); ("jt_extsize", c_u32); ("jt_pad", CArray 3 c_u32)].

Definition jrec : list (string * cty) := [
  ("rec_jsegrec", CRecord jsegrec); ("rec_jrefrec", CRecord jrefrec); ("rec_jmvrec", CRecord jmvrec);
  ("rec_jblkrec", CRecord jblkrec); ("rec_jtrncrec", CRecord jtrncrec)].


#[local] Close Scope string_scope.

(** ** ufs/ufs/dir.h *)

Definition IFMT : Z := 0xF000.
Definition IFIFO : Z := 0x1000.
Definition IFCHR : Z := 0x2000.
Definition IFDIR : Z := 0x4000.
Definition IFBLK : Z := 0x6000.
Definition IFREG : Z := 0x8000.
Definition IFLNK : Z := 0xA000.
Definition IFSOCK : Z := 0xC000.
Definition IFWHT : Z := 0xE000.
Definition DT_UNKNOWN : Z := 0.
Definition DT_FIFO : Z := 1.
Definition DT_CHR : Z := 2.
Definition DT_DIR : Z := 4.
Definition DT_BLK : Z := 6.
Definition DT_REG : Z := 8.
Definition DT_LNK : Z := 10.
Definition DT_SOCK : Z := 12.
Definition DT_WHT : Z := 14.

Definition IFTODT (mode : Z) : Z := Z.shiftr (Z.land mode 0xF000) 12.
Definition DTTOIF (dirtype : Z) : Z := Z.shiftl dirtype 12.

Definition member_offset (ms : list (string * cty)) (x : string) : Z := default 0 (offset_of (CRecord ms) x).

(** In [uintptr_t]; [namlen] is an [unsigned char] or a small constant. *)
Definition DIRECTSIZ (namlen : Z) : Z :=
  Z.land (u64 (member_offset direct "d_name" + (namlen + 1) * size_of c_char + 3)) (Z.lnot 3).
Definition DIRSIZ (oldfmt : bool) (d_type d_namlen : Z) : Z :=
  if oldfmt then DIRECTSIZ d_type else DIRECTSIZ d_namlen.

(** ** Extended attributes, ufs/ufs/extattr.h *)

(** A member of a structure of the given name: its position behind [eap]. *)
Definition ea (eap : nat) (x : string) : nat := (eap + Z.to_nat (member_offset extattr x))%nat.

Definition ea_length (eap : nat) : M (list Z) Z := v ← le32dec (ea eap "ea_length"); mret (i32 v).
Definition int8 (p : nat) : M (list Z) Z := v ← peek p; mret (if decide (v < 128) then v else v - 256).

Definition EXTATTR_BASE_LENGTH (eap : nat) : M (list Z) Z :=
  n ← int8 (ea eap "ea_namelength");
  mret (Z.land (u64 (size_of (CRecord extattr) + n + 7)) (Z.lnot 7)).
Definition EXTATTR_NEXT (eap : nat) : M (list Z) nat :=
  l ← ea_length eap;
  if decide (0 ≤ Z.of_nat eap + l) then mret (Z.to_nat (Z.of_nat eap + l)) else undef OutOfBounds.
Definition EXTATTR_CONTENT (eap : nat) : M (list Z) nat :=
  b ← EXTATTR_BASE_LENGTH eap; mret (eap + Z.to_nat b)%nat.
(** An [int] minus a [size_t] is a [size_t]. *)
Definition EXTATTR_CONTENT_SIZE (eap : nat) : M (list Z) Z :=
  l ← ea_length eap; b ← EXTATTR_BASE_LENGTH eap; pad ← int8 (ea eap "ea_contentpadlen");
  mret (u64 (l - b - pad)).

(** The library's [strlen]. *)
Fixpoint strlen (fuel p : nat) : M (list Z) Z :=
  match fuel with
  | 0%nat => out_of_fuel
  | S fuel => c ← peek p; if decide (c ≠ 0) then n ← strlen fuel (p + 1); mret (n + 1) else mret 0
  end.

(** [contentsize] is an [int]; the assertion on the name is empty in this build. *)
Definition EXTATTR_SET_LENGTHS (fuel eap : nat) (contentsize : Z) : M (list Z) unit :=
  n ← strlen fuel (ea eap "ea_name");
  _ ← poke (ea eap "ea_namelength") n;
  _ ← poke (ea eap "ea_contentpadlen")
        (if decide (Z.rem contentsize 8 ≠ 0) then 8 - Z.rem contentsize 8 else 0);
  b ← EXTATTR_BASE_LENGTH eap;
  pad ← int8 (ea eap "ea_contentpadlen");
  le32enc (ea eap "ea_length") (u32 (u64 (b + contentsize + pad))).

(** ** Rounding with masks *)

Lemma land_lnot_ones x k : 0 ≤ k → Z.land x (Z.lnot (Z.ones k)) = x - x `mod` 2 ^ k.
Proof.
  intros Hk. change (Z.land x (Z.lnot (Z.ones k))) with (Z.land x (Z.lnot (Z.ones k))).
  rewrite <-Z.ldiff_land, Z.ldiff_ones_r, Z.shiftl_mul_pow2, Z.shiftr_div_pow2 by done.
  pose proof (Z.div_mod x (2 ^ k) ltac:(apply Z.pow_nonzero; lia)). lia.
Qed.

Lemma round_mask x k : 0 ≤ k → Z.land (x + (2 ^ k - 1)) (Z.lnot (Z.ones k)) = round_up x (2 ^ k).
Proof.
  intros Hk. rewrite land_lnot_ones by done. unfold round_up.
  pose proof (Z.div_mod (x + (2 ^ k - 1)) (2 ^ k) ltac:(apply Z.pow_nonzero; lia)). lia.
Qed.

Lemma directsiz_round n : 0 ≤ n < 2 ^ 32 → DIRECTSIZ n = round_up (8 + (n + 1)) 4.
Proof.
  intros Hn. unfold DIRECTSIZ. change (member_offset direct "d_name") with 8. change (size_of c_char) with 1.
  rewrite u64_id by (unfold is_u64; lia). change (Z.lnot 3) with (Z.lnot (Z.ones 2)).
  replace (8 + (n + 1) * 1 + 3) with (8 + (n + 1) + (2 ^ 2 - 1)) by lia. by rewrite round_mask.
Qed.

Lemma base_round n : 0 ≤ n < 2 ^ 32 → Z.land (u64 (size_of (CRecord extattr) + n + 7)) (Z.lnot 7) = round_up (8 + n) 8.
Proof.
  intros Hn. change (size_of (CRecord extattr)) with 8. rewrite u64_id by (unfold is_u64; lia).
  change (Z.lnot 7) with (Z.lnot (Z.ones 3)). change 7 with (2 ^ 3 - 1) at 1. by rewrite round_mask.
Qed.

(** ** The tables *)

Definition dinode_type (ms : list (string * Z * cty)) : cty := CRecord (List.map (λ '(x, _, t), (x, t)) ms).
Definition dinode_row_ok (ms : list (string * Z * cty)) (r : string * Z * cty) : bool :=
  let '(x, o, t) := r in
  bool_decide (offset_of (dinode_type ms) x = Some o) && (o + size_of t <=? size_of (dinode_type ms)).
Lemma dinode_rows_ok : forallb (λ ms, forallb (dinode_row_ok ms) ms) [ufs1_dinode; ufs2_dinode] = true.
Proof. by vm_compute. Qed.

(** Each member begins where the one before it ends, and nothing follows the last. *)
Fixpoint contiguous (at_ : Z) (ms : list (string * Z * cty)) (end_ : Z) : bool :=
  match ms with [] => at_ =? end_ | (_, o, t) :: ms => (o =? at_) && contiguous (o + size_of t) ms end_ end.
Definition without_padding (ms : list (string * cty)) : bool :=
  contiguous 0 (members (CRecord ms)) (size_of (CRecord ms)).

Definition on_disk : list (list (string * cty)) :=
  [List.map (λ '(x, _, t), (x, t)) ufs1_dinode; List.map (λ '(x, _, t), (x, t)) ufs2_dinode; direct; dirtemplate; odirtemplate;
   dqblk32; dqblk64; dqhdr64; ufs_extattr_fileheader; ufs_extattr_header; extattr; fsck_cmd; csum; csum_total; fs_members;
   jsegrec; jrefrec; jblkrec; jtrncrec].
Lemma on_disk_without_padding : forallb without_padding on_disk = true.
Proof. by vm_compute. Qed.

Definition file_types : list (Z * Z) :=
  [(IFIFO, DT_FIFO); (IFCHR, DT_CHR); (IFDIR, DT_DIR); (IFBLK, DT_BLK); (IFREG, DT_REG); (IFLNK, DT_LNK); (IFSOCK, DT_SOCK); (IFWHT, DT_WHT)].

Lemma iftodt_spec mode : IFTODT mode = (mode `div` 2 ^ 12) `mod` 16.
Proof.
  unfold IFTODT. change 0xF000 with (Z.shiftl (Z.ones 4) 12). rewrite Z.shiftr_land, Z.shiftr_shiftl_l by done.
  rewrite Z.shiftr_div_pow2 by done. change (12 - 12) with 0. by rewrite Z.shiftl_0_r, Z.land_ones.
Qed.
Lemma dttoif_iftodt mode : DTTOIF (IFTODT mode) = Z.land mode IFMT.
Proof.
  unfold DTTOIF, IFTODT, IFMT. apply Z.bits_inj'. intros n Hn. change 0xF000 with (Z.shiftl (Z.ones 4) 12).
  rewrite Z.shiftl_spec, Z.land_spec by done. destruct (decide (n < 12)).
  - rewrite Z.testbit_neg_r by lia. rewrite (Z.shiftl_spec_low _ _ n) by lia. by rewrite andb_false_r.
  - rewrite Z.shiftr_spec, Z.land_spec by lia. by replace (n - 12 + 12) with n by lia.
Qed.

(** ** Attributes in a buffer *)

(** A stored attribute; the bytes between the end of the name and the content, and
    those behind the content, are arbitrary. *)
Record xattr := Xattr { xa_space : Z; xa_name : list Z; xa_fill : list Z; xa_content : list Z; xa_tail : list Z }.

Record xattr_ok (x : xattr) : Prop := {
  xa_bytes : bytes_ok (xa_name x ++ xa_fill x ++ xa_content x ++ xa_tail x);
  xa_name_text : Forall (λ c, c ≠ 0) (xa_name x);
  xa_name_short : (length (xa_name x) < 128)%nat;
  xa_fill_length : Z.of_nat (8 + length (xa_name x) + length (xa_fill x)) = round_up (8 + Z.of_nat (length (xa_name x))) 8;
  xa_tail_length : Z.of_nat (length (xa_content x) + length (xa_tail x)) = round_up (Z.of_nat (length (xa_content x))) 8;
  xa_content_short : Z.of_nat (length (xa_content x)) < 2 ^ 31 - 256
}.

Definition xa_body (x : xattr) : list Z := xa_name x ++ [0] ++ xa_fill x ++ xa_content x ++ xa_tail x.
Definition xa_size (x : xattr) : Z := Z.of_nat (7 + length (xa_body x)).
Definition xa_image (x : xattr) : list Z :=
  le_bytes 4 (xa_size x) ++ [xa_space x; Z.of_nat (length (xa_tail x)); Z.of_nat (length (xa_name x))] ++ xa_body x.

Lemma xa_size_spec x : xattr_ok x →
  xa_size x = round_up (8 + Z.of_nat (length (xa_name x))) 8 + Z.of_nat (length (xa_content x)) + Z.of_nat (length (xa_tail x)) ∧
  0 < xa_size x < 2 ^ 31 ∧ (length (xa_tail x) < 8)%nat ∧ (8 | xa_size x).
Proof.
  intros [_ _ Hn Hf Ht Hc]. destruct (round_up_spec (8 + Z.of_nat (length (xa_name x))) 8 ltac:(done)) as [H1 D1].
  destruct (round_up_spec (Z.of_nat (length (xa_content x))) 8 ltac:(done)) as [H2 D2].
  assert (xa_size x = round_up (8 + Z.of_nat (length (xa_name x))) 8 + Z.of_nat (length (xa_content x)) + Z.of_nat (length (xa_tail x))) as ->
    by (unfold xa_size, xa_body; rewrite !length_app; cbn [length]; lia).
  split; [done|]. split; [lia|]. split; [lia|].
  replace (round_up (8 + Z.of_nat (length (xa_name x))) 8 + Z.of_nat (length (xa_content x)) + Z.of_nat (length (xa_tail x)))
    with (round_up (8 + Z.of_nat (length (xa_name x))) 8 + round_up (Z.of_nat (length (xa_content x))) 8) by lia.
  by apply Z.divide_add_r.
Qed.

Lemma length_xa_image x : Z.of_nat (length (xa_image x)) = xa_size x.
Proof. unfold xa_image, xa_size. rewrite !length_app, length_le_bytes by done. cbn [length]. lia. Qed.

(** What the member accesses give. *)
Lemma int8_at pre l p k b : length pre = p → l !! k = Some b → 0 ≤ b < 128 → int8 (p + k) (pre ++ l) = Ok (b, pre ++ l).
Proof. intros Hp Hl Hb. unfold int8. erewrite bind_ok by (by apply peek_app). rewrite decide_True by lia. done. Qed.

Lemma base_length_at pre l p n : length pre = p → l !! 6%nat = Some (Z.of_nat n) → (n < 128)%nat →
  EXTATTR_BASE_LENGTH p (pre ++ l) = Ok (round_up (8 + Z.of_nat n) 8, pre ++ l).
Proof.
  intros Hp Hl Hn. unfold EXTATTR_BASE_LENGTH. change (ea p "ea_namelength") with (p + 6)%nat.
  erewrite bind_ok by (apply int8_at; [done|exact Hl|lia]). rewrite base_round by lia. done.
Qed.

Lemma ea_length_at pre l p v : length pre = p → 0 ≤ v < 2 ^ 31 → ea_length p (pre ++ le_bytes 4 v ++ l) = Ok (v, pre ++ le_bytes 4 v ++ l).
Proof.
  intros Hp Hv. unfold ea_length. change (ea p "ea_length") with (p + 0)%nat. rewrite Nat.add_0_r.
  erewrite bind_ok by (apply reads_le32dec; [done|by rewrite length_le_bytes by done|by apply le_bytes_ok]).
  rewrite le_word_bytes_small by lia. by rewrite ret_ok, i32_id by (unfold is_i32; lia).
Qed.

Lemma strlen_at pre s post p fuel : length pre = p → Forall (λ c, c ≠ 0) s → (length s < fuel)%nat →
  strlen fuel p (pre ++ s ++ [0] ++ post) = Ok (Z.of_nat (length s), pre ++ s ++ [0] ++ post).
Proof.
  intros Hp Hs. revert pre p fuel Hp. induction Hs as [|c s Hc _ IH]; intros pre p [|fuel] Hp Hf; cbn [length] in Hf; try lia; cbn [strlen].
  - erewrite bind_ok by (apply peek_app_0; done). by rewrite decide_False by naive_solver.
  - erewrite bind_ok by (apply peek_app_0; done). rewrite decide_True by done.
    specialize (IH (pre ++ [c]) (p + 1)%nat fuel ltac:(rewrite length_app; simpl; lia) ltac:(lia)).
    rewrite <-app_assoc in IH. erewrite bind_ok by exact IH. rewrite ret_ok. do 2 f_equal. cbn [length]. lia.
Qed.

Lemma attribute_read pre x post : xattr_ok x →
  let d := pre ++ xa_image x ++ post in
  let eap := length pre in
  EXTATTR_NEXT eap d = Ok ((eap + length (xa_image x))%nat, d) ∧
  (∃ p, EXTATTR_CONTENT eap d = Ok (p, d) ∧ take (length (xa_content x)) (drop p d) = xa_content x) ∧
  EXTATTR_CONTENT_SIZE eap d = Ok (Z.of_nat (length (xa_content x)), d).
Proof.
  intros Hx d eap. destruct (xa_size_spec x Hx) as (Hs & Hr & Ht & _). pose proof (xa_name_short x Hx) as Hn.
  destruct (le_bytes 4 (xa_size x)) as [|b0 [|b1 [|b2 [|b3 [|]]]]] eqn:E;
    try (apply (f_equal length) in E; rewrite length_le_bytes in E by done; discriminate).
  assert (d = pre ++ b0 :: b1 :: b2 :: b3 :: xa_space x :: Z.of_nat (length (xa_tail x)) :: Z.of_nat (length (xa_name x)) :: xa_body x ++ post) as Ed.
  { unfold d, xa_image. rewrite E. reflexivity. }
  assert (ea_length eap d = Ok (xa_size x, d)) as Hl.
  { unfold d, xa_image. rewrite <-!app_assoc. apply ea_length_at; [done|lia]. }
  assert (EXTATTR_BASE_LENGTH eap d = Ok (round_up (8 + Z.of_nat (length (xa_name x))) 8, d)) as Hb
    by (rewrite Ed; by apply base_length_at).
  assert (int8 (ea eap "ea_contentpadlen") d = Ok (Z.of_nat (length (xa_tail x)), d)) as Hp
    by (rewrite Ed; change (ea eap "ea_contentpadlen") with (eap + 5)%nat; apply int8_at; [done|done|lia]).
  pose proof (length_xa_image x) as Hi. pose proof (xa_fill_length x Hx) as Hf. split_and!.
  - unfold EXTATTR_NEXT. erewrite bind_ok by exact Hl. rewrite decide_True by lia. rewrite ret_ok. do 2 f_equal. lia.
  - eexists. split; [unfold EXTATTR_CONTENT; by erewrite bind_ok by exact Hb|].
    rewrite <-Hf, Nat2Z.id. unfold d, eap. rewrite drop_app_ge, Nat.add_sub' by lia.
    assert (xa_image x ++ post = (le_bytes 4 (xa_size x) ++ [xa_space x; Z.of_nat (length (xa_tail x)); Z.of_nat (length (xa_name x))] ++ xa_name x ++ [0] ++ xa_fill x) ++ xa_content x ++ xa_tail x ++ post) as ->
      by (unfold xa_image, xa_body; by rewrite <-!app_assoc).
    rewrite drop_app_length' by (rewrite !length_app, length_le_bytes by done; cbn [length]; lia). by rewrite take_app_length.
  - unfold EXTATTR_CONTENT_SIZE. erewrite bind_ok by exact Hl. erewrite bind_ok by exact Hb. erewrite bind_ok by exact Hp.
    rewrite ret_ok. rewrite u64_id by (unfold is_u64; lia). do 2 f_equal. lia.
Qed.

Lemma u8_small z : 0 ≤ z < 256 → u8 z = z.
Proof. intros. by apply Z.mod_small. Qed.

Lemma tail_length_rem x : xattr_ok x →
  (if decide (Z.rem (Z.of_nat (length (xa_content x))) 8 ≠ 0) then 8 - Z.rem (Z.of_nat (length (xa_content x))) 8 else 0) =
  Z.of_nat (length (xa_tail x)).
Proof.
  intros Hx. pose proof (xa_tail_length x Hx) as Ht. rewrite Z.rem_mod_nonneg by lia. set (c := Z.of_nat (length (xa_content x))) in *.
  rewrite Nat2Z.inj_add in Ht. fold c in Ht. unfold round_up in Ht.
  pose proof (Z.div_mod c 8 ltac:(done)). pose proof (Z.mod_pos_bound c 8 ltac:(done)).
  pose proof (Z.div_mod (c + (8 - 1)) 8 ltac:(done)). pose proof (Z.mod_pos_bound (c + (8 - 1)) 8 ltac:(done)). case_decide; lia.
Qed.

Lemma attribute_written pre x h a b post fuel : xattr_ok x → length h = 4%nat → (length (xa_name x) < fuel)%nat →
  EXTATTR_SET_LENGTHS fuel (length pre) (Z.of_nat (length (xa_content x)))
    (pre ++ (h ++ [xa_space x; a; b] ++ xa_body x) ++ post) = Ok (tt, pre ++ xa_image x ++ post).
Proof.
  intros Hx Hh Hf. destruct (xa_size_spec x Hx) as (Hs & Hr & Ht & _). pose proof (xa_name_short x Hx) as Hn.
  destruct h as [|h0 [|h1 [|h2 [|h3 [|]]]]]; try discriminate. unfold EXTATTR_SET_LENGTHS.
  erewrite bind_ok; cycle 1.
  { unfold xa_body. rewrite <-!app_assoc. rewrite (app_assoc pre), (app_assoc _ [_; _; _]).
    apply strlen_at; [change (ea (length pre) "ea_name") with (length pre + 7)%nat; rewrite !length_app; cbn [length]; lia|by apply xa_name_text|done]. }
  rewrite <-!app_assoc. cbn [app]. change (ea (length pre) "ea_namelength") with (length pre + 6)%nat.
  erewrite bind_ok by (apply poke_app; [done|cbn [length]; lia]). cbn [insert list_insert]. rewrite u8_small by lia.
  change (ea (length pre) "ea_contentpadlen") with (length pre + 5)%nat. rewrite tail_length_rem by done.
  erewrite bind_ok by (apply poke_app; [done|cbn [length]; lia]). cbn [insert list_insert]. rewrite u8_small by lia.
  erewrite bind_ok by (by apply base_length_at). erewrite bind_ok by (apply int8_at; [done|done|lia]).
  change (ea (length pre) "ea_length") with (length pre + 0)%nat. rewrite Nat.add_0_r, <-Hs.
  rewrite u64_id by (unfold is_u64; lia). rewrite u32_id by (unfold is_u32; lia).
  match goal with |- context [pre ++ h0 :: h1 :: h2 :: h3 :: ?l] => change (h0 :: h1 :: h2 :: h3 :: l) with ([h0; h1; h2; h3] ++ l) end.
  rewrite writes_le32enc by (done || (by rewrite length_le_bytes)). do 2 f_equal. unfold xa_image, xa_body.
  by rewrite <-!app_assoc.
Qed.

(** A length of the name from 128 on is read back as a negative number. *)
Definition long_base (n : Z) : Z := Z.land (u64 (size_of (CRecord extattr) + (n - 256) + 7)) (Z.lnot 7).
Lemma long_bases : forallb (λ n, negb (long_base n =? round_up (8 + n) 8)) (seqZ 128 128) = true.
Proof. by vm_compute. Qed.
Lemma long_base_length pre l n : l !! 6%nat = Some n → 128 ≤ n < 256 →
  EXTATTR_BASE_LENGTH (length pre) (pre ++ l) = Ok (long_base n, pre ++ l) ∧ long_base n ≠ round_up (8 + n) 8.
Proof.
  intros Hl Hn. split.
  - unfold EXTATTR_BASE_LENGTH. change (ea (length pre) "ea_namelength") with (length pre + 6)%nat. unfold int8. rewrite bind_assoc.
    erewrite bind_ok by (by apply peek_app). rewrite ret_bind. rewrite decide_False by lia. done.
  - assert (n ∈ seqZ 128 128) as Hin by (apply elem_of_seqZ; lia). pose proof (table_forall _ _ _ long_bases Hin) as H.
    by apply negb_true_iff, Z.eqb_neq in H.
Qed.

(** ** A sequence of attributes *)

Definition xa_images (xs : list xattr) : list Z := concat (List.map xa_image xs).

(** [n] applications of [EXTATTR_NEXT]. *)
Fixpoint nth_attribute (n eap : nat) : M (list Z) nat :=
  match n with 0%nat => mret eap | S n => p ← EXTATTR_NEXT eap; nth_attribute n p end.

Lemma nth_attribute_at pre xs post i : Forall xattr_ok xs → (i ≤ length xs)%nat →
  nth_attribute i (length pre) (pre ++ xa_images xs ++ post) =
    Ok ((length pre + length (xa_images (take i xs)))%nat, pre ++ xa_images xs ++ post).
Proof.
  intros Hxs. revert pre i. induction Hxs as [|x xs Hx _ IH]; intros pre [|i] Hi; cbn [length] in Hi; try lia.
  1,2: cbn; by rewrite ret_ok, Nat.add_0_r.
  cbn [nth_attribute]. unfold xa_images. cbn [List.map concat]. fold (xa_images xs). rewrite <-app_assoc.
  destruct (attribute_read pre x (xa_images xs ++ post) Hx) as (Hnext & _). erewrite bind_ok by exact Hnext.
  specialize (IH (pre ++ xa_image x) i ltac:(lia)). rewrite length_app, <-app_assoc in IH. rewrite IH.
  do 2 f_equal. cbn [take List.map concat]. rewrite length_app. unfold xa_images. lia.
Qed.

Lemma xa_images_split xs i x : xs !! i = Some x → xa_images xs = xa_images (take i xs) ++ xa_image x ++ xa_images (drop (S i) xs).
Proof.
  intros Hi. rewrite <-(take_drop_middle xs i x Hi) at 1. unfold xa_images. rewrite List.map_app, concat_app. cbn [List.map concat]. done.
Qed.

Lemma contiguous_lookup at_ fs end_ i x t :
  contiguous at_ (members_from at_ fs) end_ = true → fs !! i = Some (x, t) →
  members_from at_ fs !! i = Some (x, at_ + fold_right Z.add 0 (List.map (λ m, size_of (snd m)) (take i fs)), t).
Proof.
  revert at_ i. induction fs as [|[y u] fs IH]; intros at_ [|i] Hp Hi; simplify_eq/=;
    apply andb_true_iff in Hp as [Ho Hp]; apply Z.eqb_eq in Ho; rewrite Ho in *.
  - by rewrite Z.add_0_r.
  - rewrite (IH _ _ Hp Hi). do 3 f_equal. lia.
Qed.

Lemma contiguous_end at_ fs end_ :
  contiguous at_ (members_from at_ fs) end_ = true → end_ = at_ + fold_right Z.add 0 (List.map (λ m, size_of (snd m)) fs).
Proof.
  revert at_. induction fs as [|[y u] fs IH]; intros at_ Hp; simplify_eq/=.
  - apply Z.eqb_eq in Hp. lia.
  - apply andb_true_iff in Hp as [Ho Hp]. apply Z.eqb_eq in Ho. rewrite Ho in *. rewrite (IH _ Hp). lia.
Qed.

(** ** Properties *)

(** C38: the on-disk structures. Every member of both inodes is at the offset its
    comment gives and ends inside the inode; the inodes have 128 and 256 bytes, the
    superblock 1376, with its magic number in the last four, and fits SBLOCKSIZE; a
    cylinder group's header fits MINBSIZE; the journal's records and their union
    have JREC_SIZE bytes and each record begins with the operation and the inode. No
    compiler padding is part of the format: in every structure but the cylinder
    group, which ends in an open array, and jmvrec, the members follow each other.
    Directory entries: DIRECTSIZ is the least multiple of 4 that holds the header,
    the name and its terminator, every name fits the entry, the templates hold
    entries of just that size, and file types convert to entry types and back. *)
Theorem ufs_structures (ms : list (string * Z * cty)) (x y : string) (o n mode : Z) (t u : cty) (s : list (string * cty)) (i : nat)
    (Hms : ms ∈ [ufs1_dinode; ufs2_dinode]) (Hx : (x, o, t) ∈ ms) (Hs : s ∈ on_disk) (Hi : s !! i = Some (y, u))
    (Hn : 0 ≤ n ≤ MAXNAMLEN) :
  (offset_of (dinode_type ms) x = Some o ∧ o + size_of t ≤ size_of (dinode_type ms)) ∧
  (members (CRecord s) !! i = Some (y, fold_right Z.add 0 (List.map (λ m, size_of (snd m)) (take i s)), u) ∧
   size_of (CRecord s) = fold_right Z.add 0 (List.map (λ m, size_of (snd m)) s)) ∧
  (size_of (dinode_type ufs1_dinode) = 128 ∧ size_of (dinode_type ufs2_dinode) = 256 ∧
   size_of (CRecord fs_members) = 1376 ∧ 1376 ≤ SBLOCKSIZE ∧ offset_of (CRecord fs_members) "fs_magic" = Some (1376 - 4) ∧
   size_of (CRecord cg_members) ≤ MINBSIZE ∧ size_of (CUnion jrec) = JREC_SIZE ∧
   Forall (λ r, size_of (CRecord r) = JREC_SIZE) [jsegrec; jrefrec; jmvrec; jblkrec; jtrncrec] ∧
   Forall (λ r, List.map (λ m, snd (fst m)) (take 2 (members (CRecord r))) = [0; 4]) [jrefrec; jmvrec; jblkrec; jtrncrec]) ∧
  ((4 | DIRECTSIZ n) ∧ member_offset direct "d_name" + n + 1 ≤ DIRECTSIZ n < member_offset direct "d_name" + n + 1 + 4 ∧
   DIRECTSIZ n ≤ size_of (CRecord direct) ∧ DIRSIZ false mode n = DIRECTSIZ n ∧
   (∀ r, r ∈ [dirtemplate; odirtemplate] → offset_of (CRecord r) "dotdot_ino" = Some (DIRECTSIZ 1) ∧ size_of (CRecord r) = DIRECTSIZ 1 + DIRECTSIZ 2)) ∧
  (DTTOIF (IFTODT mode) = Z.land mode IFMT ∧ (0 ≤ n < 16 → IFTODT (DTTOIF n) = n) ∧
   Forall (λ '(f, d), IFTODT f = d ∧ DTTOIF d = f) file_types).
Proof.
  split; [|split; [|split; [|split]]].
  - pose proof (table_forall _ _ _ dinode_rows_ok Hms) as H. pose proof (table_forall _ _ _ H Hx) as Hr.
    cbv beta iota delta [dinode_row_ok] in Hr. apply andb_true_iff in Hr as [H1 H2]. split; [by apply bool_decide_eq_true in H1|by apply Z.leb_le].
  - pose proof (table_forall _ _ _ on_disk_without_padding Hs) as H. unfold without_padding in H. cbn [members] in *. split.
    + exact (contiguous_lookup 0 s _ i y u H Hi).
    + exact (contiguous_end 0 s _ H).
  - repeat match goal with |- _ ∧ _ => split end;
      first [repeat (apply List.Forall_cons; [by vm_compute|]); by apply List.Forall_nil | by vm_compute].
  - unfold MAXNAMLEN in Hn. rewrite directsiz_round by lia. change (member_offset direct "d_name") with 8.
    destruct (round_up_spec (8 + (n + 1)) 4 ltac:(done)) as [[H1 H2] H3]. split_and!; [done|lia|lia| | |].
    + change (size_of (CRecord direct)) with 264. destruct H3 as [k Hk]. lia.
    + unfold DIRSIZ. by rewrite directsiz_round by lia.
    + intros r Hr. rewrite !elem_of_cons, elem_of_nil in Hr. destruct Hr as [-> |[-> |[]]]; split; reflexivity.
  - split; [apply dttoif_iftodt|]. split.
    + intros H16. rewrite iftodt_spec. unfold DTTOIF. rewrite Z.shiftl_mul_pow2, Z.div_mul by done. by apply Z.mod_small.
    + unfold file_types. repeat constructor.
Qed.

Lemma ufs_structures_witness :
  offset_of (dinode_type ufs2_dinode) "di_db" = Some 112 ∧
  members (CRecord fs_members) !! 2%nat = Some ("fs_sblkno"%string, 8, c_int) ∧ DIRECTSIZ 11 = 20.
Proof.
  destruct (ufs_structures ufs2_dinode "di_db" "fs_sblkno" 112 11 0x41ed (CArray NDADDR ufs2_daddr_t) c_int fs_members 2)
    as ((H1 & _) & (H2 & _) & _ & ((k & Hk) & H3 & _) & _).
  - right. left.
  - do 20 right. left.
  - do 14 right. left.
  - reflexivity.
  - by split.
  - split; [exact H1|]. split; [exact H2|]. change (member_offset direct "d_name") with 8 in H3. lia.
Defined.

(** C25: extended attributes. EXTATTR_SET_LENGTHS, on an attribute whose name is in
    place, stores the lengths with which the attribute can be read: in a sequence of
    attributes so completed, following EXTATTR_NEXT i times from the first one
    arrives at attribute i, every attribute begins 8-aligned relative to the first,
    EXTATTR_CONTENT points at its content and EXTATTR_CONTENT_SIZE is its length.
    Names have fewer than 128 bytes, what ea_namelength can hold; with a longer one,
    which EXTATTR_MAXNAMELEN allows, the base length is wrong. *)
Theorem extattr_sequences (pre post h : list Z) (a b : Z) (xs : list xattr) (i fuel : nat) (x : xattr)
    (Hxs : Forall xattr_ok xs) (Hi : xs !! i = Some x) (Hh : length h = 4%nat) (Hf : (length (xa_name x) < fuel)%nat) :
  let d := (pre ++ xa_images xs ++ post)%list in
  let before := (pre ++ xa_images (take i xs))%list in
  let behind := (xa_images (drop (S i) xs) ++ post)%list in
  let eap := length before in
  EXTATTR_SET_LENGTHS fuel eap (Z.of_nat (length (xa_content x)))
    (before ++ (h ++ [xa_space x; a; b] ++ xa_body x) ++ behind) = Ok (tt, d) ∧
  nth_attribute i (length pre) d = Ok (eap, d) ∧ (8 | Z.of_nat eap - Z.of_nat (length pre)) ∧
  (∃ p, EXTATTR_CONTENT eap d = Ok (p, d) ∧ take (length (xa_content x)) (drop p d) = xa_content x) ∧
  EXTATTR_CONTENT_SIZE eap d = Ok (Z.of_nat (length (xa_content x)), d) ∧
  (∀ l n, l !! 6%nat = Some n → 128 ≤ n < 256 →
     ∃ w, EXTATTR_BASE_LENGTH (length pre) (pre ++ l) = Ok (w, pre ++ l)%list ∧ w ≠ round_up (8 + n) 8).
Proof.
  intros d before behind eap. assert (xattr_ok x) as Hx by (by eapply Forall_lookup).
  assert (d = before ++ xa_image x ++ behind) as Ed
    by (unfold d, before, behind; rewrite (xa_images_split xs i x Hi); by rewrite <-!app_assoc).
  destruct (attribute_read before x behind Hx) as (_ & H1 & H2). rewrite <-Ed in H1, H2. split_and!; [|..|done|done|].
  - rewrite Ed. by apply attribute_written.
  - unfold eap, before. rewrite length_app. apply nth_attribute_at; [done|]. apply lookup_lt_Some in Hi. lia.
  - unfold eap, before. rewrite length_app. replace (Z.of_nat (length pre + length (xa_images (take i xs))) - Z.of_nat (length pre))
      with (Z.of_nat (length (xa_images (take i xs)))) by lia.
    assert (Forall xattr_ok (take i xs)) as Ht by (by apply Forall_take). clear -Ht.
    induction Ht as [|y ys Hy _ IH]; [exists 0; done|]. unfold xa_images. cbn [List.map concat]. rewrite length_app, Nat2Z.inj_add, length_xa_image.
    apply Z.divide_add_r; [by apply xa_size_spec|exact IH].
  - intros l n Hl Hn. eexists. by apply long_base_length.
Qed.

Definition sample_xattr (name content : list Z) (f t : nat) : xattr := Xattr 1 name (replicate f 0) content (replicate t 0).
Lemma extattr_sequences_witness :
  let x := sample_xattr [97; 99; 108] [1; 2; 3; 4; 5] 5 3 in
  let d := xa_images [sample_xattr [98] [7] 7 7; x] in
  nth_attribute 1 0 d = Ok (24%nat, d) ∧ EXTATTR_CONTENT_SIZE 24 d = Ok (5, d).
Proof.
  intros x d. destruct (extattr_sequences [] [] [0; 0; 0; 0] 0 0 [sample_xattr [98] [7] 7 7; x] 1 9 x) as (_ & H1 & _ & _ & H2 & _).
  - repeat constructor; try (vm_compute; by split); try lia; done.
  - reflexivity.
  - reflexivity.
  - simpl. lia.
  - rewrite app_nil_r in H1, H2. split; [exact H1|exact H2].
Defined.
