(* ===== verification/Ffs.v ===== *)
(** * Arithmetic of the fast file system: ufs/ffs/fs.h

    The macros that turn sizes, blocks, fragments, inodes and cylinder groups into
    each other, over the members of the superblock they read. Operations are done
    in the C type the operands have: a signed result that does not fit, a shift of
    a negative number and a division by 0 are undefined ([None]). Divisions
    truncate. *)

From S2P Require Import Prelude CStruct Ufs.

(** ** C integers *)

Inductive cint := I32 | U32 | I64 | U64.
Definition width (ty : cint) : Z := match ty with I32 | U32 => 32 | I64 | U64 => 64 end.

(** The result of an operation in the type. *)
Definition conv (ty : cint) (z : Z) : option Z :=
  match ty with
  | U32 => Some (u32 z) | U64 => Some (u64 z)
  | I32 => if decide (- 2 ^ 31 ≤ z < 2 ^ 31) then Some z else None
  | I64 => if decide (- 2 ^ 63 ≤ z < 2 ^ 63) then Some z else None
  end.
Definition shl (ty : cint) (x k : Z) : option Z :=
  if decide (0 ≤ x ∧ 0 ≤ k < width ty) then conv ty (Z.shiftl x k) else None.

(** ** The superblock's members that the macros read *)

Record fs := Fs {
  fs_sblkno : Z; fs_cblkno : Z; fs_iblkno : Z; fs_dblkno : Z; fs_old_cgoffset : Z; fs_old_cgmask : Z;
  fs_ncg : Z; fs_bsize : Z; fs_fsize : Z; fs_frag : Z; fs_bmask : Z; fs_fmask : Z; fs_bshift : Z; fs_fshift : Z;
  fs_fragshift : Z; fs_fsbtodb : Z; fs_nindir : Z; fs_inopb : Z; fs_old_cpg : Z; fs_ipg : Z; fs_fpg : Z;
  fs_cs_nbfree : Z; fs_cs_nffree : Z; fs_dsize : Z; fs_contigsumsize : Z; fs_qbmask : Z; fs_qfmask : Z; fs_magic : Z }.

Definition FS_UFS1_MAGIC : Z := 0x011954.
Definition FS_UFS2_MAGIC : Z := 0x19540119.
Definition NBBY : Z := 8.
Definition howmany (ty : cint) (x y : Z) : option Z := n ← conv ty (x + (y - 1)); Some (Z.quot n y).

Section macros.
Context (s : fs).

(** ** Sizes, blocks and fragments *)

Definition fsbtodb (b : Z) : option Z := shl I64 b (fs_fsbtodb s).
Definition dbtofsb (b : Z) : Z := Z.shiftr b (fs_fsbtodb s).
Definition blkoff (loc : Z) : Z := Z.land loc (fs_qbmask s).
Definition fragoff (loc : Z) : Z := Z.land loc (fs_qfmask s).
Definition lfragtosize (frag : Z) : option Z := shl I64 frag (fs_fshift s).
Definition lblktosize (blk : Z) : option Z := shl I64 blk (fs_bshift s).
Definition smalllblktosize (ty : cint) (blk : Z) : option Z := shl ty blk (fs_bshift s).
Definition lblkno (loc : Z) : Z := Z.shiftr loc (fs_bshift s).
Definition numfrags (loc : Z) : Z := Z.shiftr loc (fs_fshift s).
Definition blkroundup (ty : cint) (size : Z) : option Z := n ← conv ty (size + fs_qbmask s); Some (Z.land n (fs_bmask s)).
Definition fragroundup (ty : cint) (size : Z) : option Z := n ← conv ty (size + fs_qfmask s); Some (Z.land n (fs_fmask s)).
Definition fragstoblks (frags : Z) : Z := Z.shiftr frags (fs_fragshift s).
Definition blkstofrags (ty : cint) (blks : Z) : option Z := shl ty blks (fs_fragshift s).
Definition fragnum (fsb : Z) : Z := Z.land fsb (fs_frag s - 1).
Definition blknum (fsb : Z) : Z := Z.land fsb (Z.lnot (fs_frag s - 1)).

Definition freespace (percentreserved : Z) : option Z :=
  a ← blkstofrags I64 (fs_cs_nbfree s);
  b ← conv I64 (a + fs_cs_nffree s);
  c ← conv I64 (fs_dsize s * percentreserved);
  conv I64 (b - Z.quot c 100).

(** The inode's size is unsigned, [lbn] a [ufs_lbn_t]. *)
Definition blksize (i_size lbn : Z) : option Z :=
  if decide (lbn >= NDADDR) then Some (fs_bsize s) else
  l ← conv I64 (lbn + 1);
  t ← smalllblktosize I64 l;
  if decide (i_size >= u64 t) then Some (fs_bsize s) else fragroundup U64 (blkoff i_size).

(** A signed size. *)
Definition sblksize (size lbn : Z) : option Z :=
  if decide (lbn >= NDADDR) then Some (fs_bsize s) else
  l ← conv I64 (lbn + 1);
  t ← shl I64 l (fs_bshift s);
  if decide (size >= t) then Some (fs_bsize s) else fragroundup I64 (blkoff size).

(** ** Indirect blocks *)

Definition NINDIR : Z := fs_nindir s.

Definition lbn_level (lbn : Z) : Z :=
  if decide (lbn >= 0) then 0 else
  match Z.land lbn 3 with 0 => 0 | 2 => 2 | 3 => 1 | _ => -1 end.

(** [for (res = 1; level > 0; level--) res *= NINDIR(fs);] *)
Fixpoint lbn_offset_loop (level : nat) (res : Z) : option Z :=
  match level with 0%nat => Some res | S level => r ← conv I64 (res * NINDIR); lbn_offset_loop level r end.
Definition lbn_offset (level : Z) : option Z := lbn_offset_loop (Z.to_nat level) 1.

(** ** Cylinder groups and inodes *)

(** [c] is a [u_int]. *)
Definition cgbase (c : Z) : option Z := conv I64 (fs_fpg s * c).
Definition cgstart (c : Z) : option Z :=
  b ← cgbase c;
  if decide (fs_magic s = FS_UFS2_MAGIC) then Some b
  else conv I64 (b + u32 (u32 (fs_old_cgoffset s) * Z.land c (u32 (Z.lnot (fs_old_cgmask s))))).
Definition cgdmin (c : Z) : option Z := a ← cgstart c; conv I64 (a + fs_dblkno s).
Definition cgimin (c : Z) : option Z := a ← cgstart c; conv I64 (a + fs_iblkno s).
Definition cgsblock (c : Z) : option Z := a ← cgstart c; conv I64 (a + fs_sblkno s).
Definition cgtod (c : Z) : option Z := a ← cgstart c; conv I64 (a + fs_cblkno s).

Definition INOPB : Z := fs_inopb s.
Definition INOPF : Z := Z.shiftr (fs_inopb s) (fs_fragshift s).

Definition divide (a b : Z) : option Z := if decide (b = 0) then None else Some (Z.quot a b).
Definition modulo (a b : Z) : option Z := if decide (b = 0) then None else Some (Z.rem a b).

Definition ino_to_cg (x : Z) : option Z := divide (u32 x) (fs_ipg s).
Definition ino_to_fsba (x : Z) : option Z :=
  c ← ino_to_cg (u32 x);
  a ← cgimin c;
  r ← modulo (u32 x) (fs_ipg s);
  q ← divide r INOPB;
  f ← blkstofrags U32 q;
  conv I64 (a + f).
Definition ino_to_fsbo (x : Z) : option Z := modulo (u32 x) INOPB.

(** [d] is a [ufs2_daddr_t]. *)
Definition dtog (d : Z) : option Z := divide d (fs_fpg s).
Definition dtogd (d : Z) : option Z := modulo d (fs_fpg s).

(** [map] is an array of bytes, [loc] not negative. *)
Definition blkmap (map : list Z) (loc : Z) : option Z :=
  b ← map !! Z.to_nat (Z.quot loc NBBY);
  Some (Z.land (Z.shiftr b (Z.rem loc NBBY)) (Z.shiftr 0xff (NBBY - fs_frag s))).

(** In [size_t]. *)
Definition CGSIZE : option Z :=
  imap ← howmany U32 (fs_ipg s) NBBY;
  bmap ← howmany I32 (fs_fpg s) NBBY;
  cl ← (if decide (fs_contigsumsize s ≤ 0) then Some 0 else
          c ← howmany I32 (fragstoblks (fs_fpg s)) NBBY; Some (u64 (fs_contigsumsize s * 4 + c)));
  Some (u64 (size_of (CRecord cg_members) + 4 + fs_old_cpg s * 4 + fs_old_cpg s * 2 + imap + bmap + cl)).
End macros.

(** ** The map of active groups: an array of [u_int], or the null pointer *)

(** [1 << n] in [int]: undefined for the last group of a word, n = 31. *)
Definition ACTIVECGOFF (cg : Z) : option Z := shl I32 1 (cg `mod` (NBBY * 4)).

(** [if (fs_active) fs_active[n] = f(fs_active[n], ACTIVECGOFF(cg))]. *)
Definition update (cg : Z) (f : Z → Z → Z) (fs_active : option (list Z)) : option (option (list Z)) :=
  match fs_active with
  | None => Some None
  | Some a =>
      let k := Z.to_nat (cg `div` (NBBY * 4)) in
      w ← a !! k; off ← ACTIVECGOFF cg; Some (Some (<[k := f w off]> a))
  end.
Definition ACTIVESET (cg : Z) : option (list Z) → option (option (list Z)) :=
  update cg (λ w off, u32 (Z.lor w (u32 off))).
Definition ACTIVECLEAR (cg : Z) : option (list Z) → option (option (list Z)) :=
  update cg (λ w off, u32 (Z.land w (u32 (Z.lnot off)))).

(** ** A superblock whose computed members agree with the others *)

Record fs_ok (s : fs) : Prop := {
  ok_shifts : 9 ≤ fs_fshift s ∧ 0 ≤ fs_fragshift s ≤ 3 ∧ fs_bshift s = fs_fshift s + fs_fragshift s ∧ fs_bshift s ≤ 16;
  ok_sizes : fs_bsize s = 2 ^ fs_bshift s ∧ fs_fsize s = 2 ^ fs_fshift s ∧ fs_frag s = 2 ^ fs_fragshift s;
  ok_qmasks : fs_qbmask s = Z.ones (fs_bshift s) ∧ fs_qfmask s = Z.ones (fs_fshift s);
  ok_masks : fs_bmask s = Z.lnot (Z.ones (fs_bshift s)) ∧ fs_fmask s = Z.lnot (Z.ones (fs_fshift s));
  ok_fsbtodb : fs_fsbtodb s = fs_fshift s - 9;
  ok_nindir : 0 < fs_nindir s < 2 ^ 15 ∧ (4 | fs_nindir s)
}.

(** The groups of a file system of the second version: they hold their inodes, and
    the inode and block numbers fit their types. *)
Record groups_ok (s : fs) : Prop := {
  ok_magic : fs_magic s = FS_UFS2_MAGIC;
  ok_ncg : 0 < fs_ncg s;
  ok_inopb : 0 < fs_inopb s;
  ok_ipg : 0 < fs_ipg s ∧ (fs_inopb s | fs_ipg s) ∧ fs_ncg s * fs_ipg s < 2 ^ 32;
  ok_fpg : 0 < fs_fpg s < 2 ^ 31;
  ok_inodes : 0 ≤ fs_iblkno s ∧ fs_iblkno s + fs_ipg s / fs_inopb s * fs_frag s ≤ fs_dblkno s ∧ fs_dblkno s ≤ fs_fpg s
}.

Lemma conv_I64 z : - 2 ^ 63 ≤ z < 2 ^ 63 → conv I64 z = Some z.
Proof. intros. unfold conv. by rewrite decide_True. Qed.
Lemma conv_U64 z : 0 ≤ z < 2 ^ 64 → conv U64 z = Some z.
Proof. intros. unfold conv. by rewrite u64_id. Qed.

Lemma shl_spec ty x k : 0 ≤ x → 0 ≤ k < width ty → shl ty x k = conv ty (x * 2 ^ k).
Proof. intros. unfold shl. rewrite decide_True by done. by rewrite Z.shiftl_mul_pow2 by lia. Qed.
Lemma shl_I64 x k : 0 ≤ x → 0 ≤ k < 64 → shl I64 x k = if decide (x * 2 ^ k < 2 ^ 63) then Some (x * 2 ^ k) else None.
Proof.
  intros Hx Hk. rewrite shl_spec by done. unfold conv. pose proof (Z.pow_nonneg 2 k ltac:(done)).
  repeat case_decide; try done; nia.
Qed.

Section arithmetic.
Context (s : fs) (Hs : fs_ok s).

Lemma shifts : 9 ≤ fs_fshift s ∧ 0 ≤ fs_fragshift s ≤ 3 ∧ fs_bshift s = fs_fshift s + fs_fragshift s ∧ fs_bshift s ≤ 16.
Proof. apply Hs. Qed.
Lemma bsize_frags : fs_bsize s = fs_frag s * fs_fsize s.
Proof.
  destruct (ok_sizes s Hs) as (-> & -> & ->). destruct shifts as (? & ? & -> & ?). rewrite Z.add_comm. by apply Z.pow_add_r; lia.
Qed.
Lemma frag_bounds : 0 < fs_frag s ≤ 8.
Proof.
  destruct (ok_sizes s Hs) as (_ & _ & ->). destruct shifts as (_ & ? & _). split; [lia|]. change 8 with (2 ^ 3). apply Z.pow_le_mono_r; lia.
Qed.
Lemma bsize_bounds : 0 < fs_bsize s ≤ 2 ^ 16.
Proof.
  destruct (ok_sizes s Hs) as (-> & _ & _). destruct shifts as (? & ? & ? & ?). split; [lia|]. apply Z.pow_le_mono_r; lia.
Qed.
Lemma fsize_bounds : 0 < fs_fsize s ≤ 2 ^ 16.
Proof. pose proof bsize_frags. pose proof frag_bounds. pose proof bsize_bounds. nia. Qed.

Lemma blkoff_spec loc : blkoff s loc = loc `mod` fs_bsize s.
Proof. unfold blkoff. destruct (ok_qmasks s Hs) as [-> _]. destruct (ok_sizes s Hs) as (-> & _). destruct shifts as (? & ? & ? & ?). apply Z.land_ones. lia. Qed.
Lemma fragoff_spec loc : fragoff s loc = loc `mod` fs_fsize s.
Proof. unfold fragoff. destruct (ok_qmasks s Hs) as [_ ->]. destruct (ok_sizes s Hs) as (_ & -> & _). destruct shifts as (? & ? & ? & ?). apply Z.land_ones. lia. Qed.
Lemma lblkno_spec loc : lblkno s loc = loc `div` fs_bsize s.
Proof. unfold lblkno. destruct (ok_sizes s Hs) as (-> & _). destruct shifts as (? & ? & ? & ?). apply Z.shiftr_div_pow2. lia. Qed.
Lemma numfrags_spec loc : numfrags s loc = loc `div` fs_fsize s.
Proof. unfold numfrags. destruct (ok_sizes s Hs) as (_ & -> & _). destruct shifts as (? & ? & ? & ?). apply Z.shiftr_div_pow2. lia. Qed.
Lemma fragstoblks_spec f : fragstoblks s f = f `div` fs_frag s.
Proof. unfold fragstoblks. destruct (ok_sizes s Hs) as (_ & _ & ->). destruct shifts as (? & ? & ? & ?). apply Z.shiftr_div_pow2. lia. Qed.
Lemma frag_mask : fs_frag s - 1 = Z.ones (fs_fragshift s).
Proof. destruct (ok_sizes s Hs) as (_ & _ & ->). rewrite Z.ones_equiv. lia. Qed.
Lemma fragnum_spec f : fragnum s f = f `mod` fs_frag s.
Proof. unfold fragnum. rewrite frag_mask. destruct (ok_sizes s Hs) as (_ & _ & ->). destruct shifts as (? & ? & ? & ?). apply Z.land_ones. lia. Qed.
Lemma blknum_spec f : blknum s f = f - f `mod` fs_frag s.
Proof. unfold blknum. rewrite frag_mask. destruct (ok_sizes s Hs) as (_ & _ & ->). destruct shifts as (? & ? & ? & ?). apply land_lnot_ones. lia. Qed.

Definition is_file_size (size : Z) : Prop := 0 ≤ size < 2 ^ 63 - 2 ^ 16.

Lemma roundup_mask ty k size : 0 ≤ k ≤ 16 → is_file_size size → ty = I64 ∨ ty = U64 →
  (n ← conv ty (size + Z.ones k); Some (Z.land n (Z.lnot (Z.ones k)))) = Some (round_up size (2 ^ k)).
Proof.
  intros Hk Hz Hty. unfold is_file_size in Hz. pose proof (Z.pow_le_mono_r 2 k 16 ltac:(done) ltac:(lia)).
  pose proof (Z.pow_pos_nonneg 2 k ltac:(done) ltac:(lia)). rewrite Z.ones_equiv at 1.
  assert (conv ty (size + Z.pred (2 ^ k)) = Some (size + (2 ^ k - 1))) as ->
    by (destruct Hty as [-> | ->]; [rewrite conv_I64 by lia|rewrite conv_U64 by lia]; f_equal; lia).
  cbn. by rewrite round_mask by lia.
Qed.
Lemma blkroundup_spec ty size : is_file_size size → ty = I64 ∨ ty = U64 → blkroundup s ty size = Some (round_up size (fs_bsize s)).
Proof.
  intros. unfold blkroundup. destruct (ok_qmasks s Hs) as [-> _]. destruct (ok_masks s Hs) as [-> _]. destruct (ok_sizes s Hs) as (-> & _).
  destruct shifts as (? & ? & ? & ?). apply roundup_mask; [lia|done|done].
Qed.
Lemma fragroundup_spec ty size : is_file_size size → ty = I64 ∨ ty = U64 → fragroundup s ty size = Some (round_up size (fs_fsize s)).
Proof.
  intros. unfold fragroundup. destruct (ok_qmasks s Hs) as [_ ->]. destruct (ok_masks s Hs) as [_ ->]. destruct (ok_sizes s Hs) as (_ & -> & _).
  destruct shifts as (? & ? & ? & ?). apply roundup_mask; [lia|done|done].
Qed.

Lemma lblktosize_spec blk : 0 ≤ blk →
  lblktosize s blk = if decide (blk * fs_bsize s < 2 ^ 63) then Some (blk * fs_bsize s) else None.
Proof.
  intros. unfold lblktosize. destruct (ok_sizes s Hs) as (-> & _). destruct shifts as (? & ? & ? & ?). apply shl_I64; lia.
Qed.
Lemma lfragtosize_spec f : 0 ≤ f →
  lfragtosize s f = if decide (f * fs_fsize s < 2 ^ 63) then Some (f * fs_fsize s) else None.
Proof.
  intros. unfold lfragtosize. destruct (ok_sizes s Hs) as (_ & -> & _). destruct shifts as (? & ? & ? & ?). apply shl_I64; lia.
Qed.
Lemma blkstofrags_spec b : 0 ≤ b →
  blkstofrags s I64 b = if decide (b * fs_frag s < 2 ^ 63) then Some (b * fs_frag s) else None.
Proof.
  intros. unfold blkstofrags. destruct (ok_sizes s Hs) as (_ & _ & ->). destruct shifts as (? & ? & ? & ?). apply shl_I64; lia.
Qed.
Lemma fsize_sectors : fs_fsize s = 512 * 2 ^ fs_fsbtodb s.
Proof.
  destruct (ok_sizes s Hs) as (_ & -> & _). rewrite (ok_fsbtodb s Hs). destruct shifts as (? & ? & ? & ?).
  change 512 with (2 ^ 9). rewrite <-Z.pow_add_r by lia. f_equal. lia.
Qed.
Lemma fsbtodb_spec b : 0 ≤ b → b * fs_fsize s < 2 ^ 63 →
  ∃ d, fsbtodb s b = Some d ∧ d * 512 = b * fs_fsize s ∧ dbtofsb s d = b.
Proof.
  intros Hb Hlt. rewrite fsize_sectors in *. pose proof (ok_fsbtodb s Hs) as E. destruct shifts as (? & ? & ? & ?).
  pose proof (Z.pow_pos_nonneg 2 (fs_fsbtodb s) ltac:(done) ltac:(lia)) as Hp.
  exists (b * 2 ^ fs_fsbtodb s). split; [|split; [lia|]].
  - unfold fsbtodb. rewrite shl_I64 by lia. rewrite decide_True by nia. done.
  - unfold dbtofsb. rewrite Z.shiftr_div_pow2 by lia. apply Z.div_mul. lia.
Qed.

(** ** The blocks of a file *)

Lemma round_up_add q r b f : 0 < f → (f | b) → round_up (q * b + r) f = q * b + round_up r f.
Proof.
  intros Hf [k ->]. unfold round_up. replace (q * (k * f) + r + (f - 1)) with (r + (f - 1) + q * k * f) by lia.
  rewrite Z.div_add by lia. lia.
Qed.
Lemma round_up_mono_bound r f b : 0 < f → (f | b) → r ≤ b → round_up r f ≤ b.
Proof.
  intros Hf [k ->] Hr. destruct (round_up_spec r f Hf) as [H1 [j Hj]]. rewrite Hj in *.
  assert (j < k + 1) by (apply (Z.mul_lt_mono_pos_r f); lia). apply Z.mul_le_mono_nonneg_r; lia.
Qed.

(** The size of the last block of a file of [size] bytes, when it is a direct one. *)
Lemma sblksize_spec size lbn : is_file_size size → 0 ≤ lbn → lbn * fs_bsize s < size →
  sblksize s size lbn = Some (if decide (lbn >= NDADDR ∨ (lbn + 1) * fs_bsize s ≤ size) then fs_bsize s
                              else round_up (size - lbn * fs_bsize s) (fs_fsize s)).
Proof.
  intros Hz Hl Hlt. unfold sblksize, is_file_size in *. pose proof bsize_bounds as Hb. destruct (decide (lbn >= NDADDR)) as [Hd|Hd].
  - by rewrite decide_True by (by left).
  - unfold NDADDR in *. rewrite conv_I64 by lia. cbn [mbind option_bind].
    assert (shl I64 (lbn + 1) (fs_bshift s) = Some ((lbn + 1) * fs_bsize s)) as ->.
    { destruct (ok_sizes s Hs) as (E & _). destruct shifts as (? & ? & ? & ?). rewrite shl_I64, <-E by lia. by rewrite decide_True by nia. }
    cbn [mbind option_bind]. destruct (decide (size >= (lbn + 1) * fs_bsize s)).
    + by rewrite decide_True by (right; lia).
    + rewrite decide_False by lia. rewrite blkoff_spec, fragroundup_spec; [|unfold is_file_size; pose proof (Z.mod_pos_bound size (fs_bsize s) ltac:(lia)); lia|by left].
      do 2 f_equal. rewrite <-(Z.mod_unique size (fs_bsize s) lbn (size - lbn * fs_bsize s)); [done|left; lia|lia].
Qed.

Lemma blksize_sblksize size lbn : is_file_size size → 0 ≤ lbn → lbn * fs_bsize s < size → blksize s size lbn = sblksize s size lbn.
Proof.
  intros Hz Hl Hlt. unfold blksize, sblksize, smalllblktosize, is_file_size in *. pose proof bsize_bounds as Hb. destruct (decide (lbn >= NDADDR)) as [Hd|Hd]; [done|].
  unfold NDADDR in *. rewrite conv_I64 by lia. cbn [mbind option_bind].
  assert (shl I64 (lbn + 1) (fs_bshift s) = Some ((lbn + 1) * fs_bsize s)) as ->.
  { destruct (ok_sizes s Hs) as (E & _). destruct shifts as (? & ? & ? & ?). rewrite shl_I64, <-E by lia. by rewrite decide_True by nia. }
  cbn [mbind option_bind]. rewrite u64_id by (unfold is_u64; nia). case_decide; [done|].
  pose proof (Z.mod_pos_bound size (fs_bsize s) ltac:(lia)).
  rewrite blkoff_spec, !fragroundup_spec; [done|unfold is_file_size; lia|by left|unfold is_file_size; lia|by right].
Qed.

(** The bytes allocated to the first [n] blocks of a file. *)
Fixpoint space (size : Z) (n : nat) : option Z :=
  match n with 0%nat => Some 0 | S n => a ← space size n; b ← sblksize s size (Z.of_nat n); Some (a + b) end.
Definition file_blocks (size : Z) : Z := (size + (fs_bsize s - 1)) `div` fs_bsize s.

Lemma file_blocks_spec size : 0 ≤ size →
  0 ≤ file_blocks size ∧ size ≤ file_blocks size * fs_bsize s < size + fs_bsize s.
Proof.
  intros Hz. unfold file_blocks. pose proof bsize_bounds. pose proof (Z.div_mod (size + (fs_bsize s - 1)) (fs_bsize s) ltac:(lia)).
  pose proof (Z.mod_pos_bound (size + (fs_bsize s - 1)) (fs_bsize s) ltac:(lia)). split; [apply Z.div_pos; lia|lia].
Qed.

Lemma space_full size n : is_file_size size → Z.of_nat n * fs_bsize s ≤ size → space size n = Some (Z.of_nat n * fs_bsize s).
Proof.
  intros Hz. pose proof bsize_bounds as Hb. induction n as [|n IH]; intros Hn; [done|]. cbn [space]. rewrite IH by nia. cbn [mbind option_bind].
  rewrite sblksize_spec by (done || nia). rewrite decide_True by (right; nia). cbn [mbind option_bind]. f_equal. nia.
Qed.

Lemma fsize_divides : (fs_fsize s | fs_bsize s).
Proof. rewrite bsize_frags. apply Z.divide_factor_r. Qed.

Lemma space_of_file size : is_file_size size →
  space size (Z.to_nat (file_blocks size)) = Some (round_up size (if decide (size ≤ NDADDR * fs_bsize s) then fs_fsize s else fs_bsize s)).
Proof.
  intros Hz. pose proof bsize_bounds as Hb. pose proof fsize_bounds as Hf. assert (0 ≤ size) as H0 by (unfold is_file_size in Hz; lia).
  destruct (file_blocks_spec size H0) as [Hk1 Hk2]. set (k := file_blocks size) in *.
  destruct (decide (k * fs_bsize s = size)) as [E|E].
  - rewrite space_full, Z2Nat.id by (done || lia). f_equal. symmetry.
    rewrite E. case_decide; apply round_up_id; [lia| |lia|].
    + rewrite <-E. apply Z.divide_mul_r. apply fsize_divides.
    + rewrite <-E. apply Z.divide_factor_r.
  - assert (1 ≤ k) as H1 by nia. replace (Z.to_nat k) with (S (Z.to_nat (k - 1))) by lia. cbn [space].
    rewrite space_full by (done || (rewrite Z2Nat.id by lia; nia)). cbn [mbind option_bind]. rewrite Z2Nat.id by lia.
    rewrite sblksize_spec by (done || nia). cbn [mbind option_bind]. f_equal.
    replace size with ((k - 1) * fs_bsize s + (size - (k - 1) * fs_bsize s)) at 4 by lia. unfold NDADDR. case_decide as Hd.
    + rewrite decide_False by nia. rewrite round_up_add by (done || lia). f_equal. symmetry.
      destruct (round_up_spec (size - (k - 1) * fs_bsize s) (fs_bsize s) ltac:(lia)) as [Hr [j Hj]]. rewrite Hj in *.
      assert (j < 2) by (apply (Z.mul_lt_mono_pos_r (fs_bsize s)); lia).
      assert (0 < j) by (apply (Z.mul_lt_mono_pos_r (fs_bsize s)); lia). replace j with 1 by lia. lia.
    + rewrite decide_True by nia. rewrite round_up_add by (lia || apply fsize_divides). done.
Qed.
End arithmetic.

(** ** Cylinder groups *)

Section groups.
Context (s : fs) (Hs : fs_ok s) (Hg : groups_ok s).

Lemma ncg_bound : fs_ncg s < 2 ^ 32.
Proof. destruct (ok_ipg s Hg) as (H1 & _ & H2). pose proof (ok_ncg s Hg). nia. Qed.

Lemma cgstart_spec c : 0 ≤ c < fs_ncg s → cgstart s c = Some (fs_fpg s * c) ∧ 0 ≤ fs_fpg s * c < 2 ^ 63 - 2 ^ 31.
Proof.
  intros Hc. pose proof ncg_bound. pose proof (ok_fpg s Hg). assert (0 ≤ fs_fpg s * c ≤ (2 ^ 31 - 1) * (2 ^ 32 - 1)) as Hb
    by (split; [lia|apply Z.mul_le_mono_nonneg; lia]).
  split; [|lia]. unfold cgstart, cgbase. rewrite conv_I64 by lia. cbn [mbind option_bind]. by rewrite decide_True by apply Hg.
Qed.

Lemma in_group c k : 0 ≤ c < fs_ncg s → 0 ≤ k ≤ fs_fpg s → (a ← cgstart s c; conv I64 (a + k)) = Some (fs_fpg s * c + k).
Proof.
  intros Hc Hk. destruct (cgstart_spec c Hc) as [-> Hr]. cbn [mbind option_bind]. pose proof (ok_fpg s Hg). apply conv_I64. lia.
Qed.

(** Where inode [x] is: its group, its block's index in the group's inode area, its
    index in the block. *)
Definition ino_group (x : Z) : Z := x `div` fs_ipg s.
Definition ino_block (x : Z) : Z := x `mod` fs_ipg s `div` fs_inopb s.
Definition ino_slot (x : Z) : Z := x `mod` fs_inopb s.

Lemma ino_parts x : 0 ≤ x < fs_ncg s * fs_ipg s →
  0 ≤ ino_group x < fs_ncg s ∧ 0 ≤ ino_block x < fs_ipg s `div` fs_inopb s ∧ 0 ≤ ino_slot x < fs_inopb s ∧
  x = ino_group x * fs_ipg s + ino_block x * fs_inopb s + ino_slot x.
Proof.
  intros Hx. destruct (ok_ipg s Hg) as (Hi & [n Hn] & _). pose proof (ok_inopb s Hg) as Hb. unfold ino_group, ino_block, ino_slot.
  pose proof (Z.mod_pos_bound x (fs_ipg s) ltac:(lia)) as Hm. split_and!; try (apply Z.mod_pos_bound; lia).
  - apply Z.div_pos; lia.
  - apply Z.div_lt_upper_bound; lia.
  - apply Z.div_pos; lia.
  - rewrite Hn at 2. rewrite Z.div_mul by lia. apply Z.div_lt_upper_bound; lia.
  - pose proof (Z.div_mod x (fs_ipg s) ltac:(lia)). pose proof (Z.div_mod (x `mod` fs_ipg s) (fs_inopb s) ltac:(lia)) as E.
    assert ((x `mod` fs_ipg s) `mod` fs_inopb s = x `mod` fs_inopb s) as Em.
    { symmetry. apply Znumtheory.Zmod_div_mod; [lia|lia|]. by exists n. }
    rewrite Em in E. lia.
Qed.

Lemma ino_to_fsba_spec x : 0 ≤ x < fs_ncg s * fs_ipg s →
  ino_to_cg s x = Some (ino_group x) ∧ ino_to_fsbo s x = Some (ino_slot x) ∧
  ino_to_fsba s x = Some (fs_fpg s * ino_group x + fs_iblkno s + ino_block x * fs_frag s) ∧
  0 ≤ ino_block x * fs_frag s ≤ fs_ipg s `div` fs_inopb s * fs_frag s - fs_frag s.
Proof.
  intros Hx. destruct (ino_parts x Hx) as (H1 & H2 & H3 & _). destruct (ok_ipg s Hg) as (Hi & _ & Hmax). pose proof (ok_inopb s Hg) as Hb.
  pose proof (frag_bounds s Hs) as Hf. destruct (ok_inodes s Hg) as (Hi1 & Hi2 & Hi3). pose proof (ok_fpg s Hg) as Hp.
  pose proof (Z.mod_pos_bound x (fs_ipg s) ltac:(lia)) as Hm.
  assert (0 ≤ ino_block x * fs_frag s ≤ fs_ipg s `div` fs_inopb s * fs_frag s - fs_frag s) as Hbf by nia.
  assert (ino_to_cg s x = Some (ino_group x)) as Hcg.
  { unfold ino_to_cg, divide. rewrite u32_id by (unfold is_u32; lia). rewrite decide_False by lia. by rewrite Z.quot_div_nonneg by lia. }
  split; [done|]. split; [|split; [|done]].
  - unfold ino_to_fsbo, modulo, INOPB. rewrite u32_id by (unfold is_u32; lia). rewrite decide_False by lia. by rewrite Z.rem_mod_nonneg by lia.
  - unfold ino_to_fsba. rewrite u32_id by (unfold is_u32; lia). rewrite Hcg. cbn [mbind option_bind]. unfold cgimin. rewrite in_group by lia.
    cbn [mbind option_bind]. unfold modulo, divide, INOPB. rewrite !decide_False by lia. cbn [mbind option_bind].
    rewrite Z.rem_mod_nonneg, Z.quot_div_nonneg by lia. fold (ino_block x). rewrite decide_False by lia. cbn [mbind option_bind]. unfold blkstofrags.
    destruct (shifts s Hs) as (? & ? & ? & ?). rewrite shl_spec by (cbn; lia). destruct (ok_sizes s Hs) as (_ & _ & <-). cbn [conv mbind option_bind].
    rewrite u32_id by (unfold is_u32; lia). destruct (cgstart_spec (ino_group x) H1) as [_ Hr]. apply conv_I64. lia.
Qed.

Lemma dtog_spec c k : 0 ≤ c → 0 ≤ k < fs_fpg s → dtog s (fs_fpg s * c + k) = Some c ∧ dtogd s (fs_fpg s * c + k) = Some k.
Proof.
  intros Hc Hk. unfold dtog, dtogd, divide, modulo. rewrite !decide_False by lia. rewrite Z.quot_div_nonneg, Z.rem_mod_nonneg by nia.
  split; f_equal; symmetry; [by apply (Z.div_unique _ _ c k); [left|]|by apply (Z.mod_unique _ _ c k); [left|]].
Qed.
End groups.

(** ** Maps *)

(** Bit [i] of a map of bytes. *)
Definition map_bit (map : list Z) (i : Z) : bool := match map !! Z.to_nat (i `div` 8) with Some b => Z.testbit b (i `mod` 8) | None => false end.

Lemma frag_cases s : fs_ok s → fs_frag s ∈ [1; 2; 4; 8].
Proof.
  intros Hs. destruct (ok_sizes s Hs) as (_ & _ & ->). destruct (shifts s Hs) as (_ & Hf & _).
  assert (fs_fragshift s = 0 ∨ fs_fragshift s = 1 ∨ fs_fragshift s = 2 ∨ fs_fragshift s = 3) as [-> |[-> |[-> | ->]]] by lia;
    rewrite !elem_of_cons; naive_solver.
Qed.

Lemma blkmap_spec s map b i : fs_ok s → 0 ≤ b → 0 ≤ i < fs_frag s → b * fs_frag s < 8 * Z.of_nat (length map) →
  ∃ m, blkmap s map (b * fs_frag s) = Some m ∧ Z.testbit m i = map_bit map (b * fs_frag s + i) ∧ (∀ j, fs_frag s ≤ j → Z.testbit m j = false).
Proof.
  intros Hs Hb Hi Hlt. pose proof (frag_cases s Hs) as Hf. set (f := fs_frag s) in *.
  assert (∃ d, 8 = d * f ∧ 0 < d) as (d & Hd & Hd0).
  { rewrite !elem_of_cons, elem_of_nil in Hf. destruct Hf as [-> |[-> |[-> |[-> |[]]]]]; [exists 8|exists 4|exists 2|exists 1]; lia. }
  assert (Z.shiftr 0xff (NBBY - f) = Z.ones f) as Hm
    by (rewrite !elem_of_cons, elem_of_nil in Hf; destruct Hf as [-> |[-> |[-> |[-> |[]]]]]; reflexivity).
  assert (b * f = (b `div` d) * 8 + (b `mod` d) * f) as E by (rewrite Hd; pose proof (Z.div_mod b d ltac:(lia)); nia).
  pose proof (Z.mod_pos_bound b d ltac:(lia)) as Hr. assert (0 ≤ b `mod` d * f ≤ 8 - f) as Hrf by nia.
  assert (0 ≤ b `div` d) as Hq by (apply Z.div_pos; lia).
  assert ((b * f) `div` 8 = b `div` d) as Ediv by (symmetry; apply (Z.div_unique _ _ _ (b `mod` d * f)); [left|]; lia).
  assert ((b * f) `mod` 8 = b `mod` d * f) as Emod by (symmetry; apply (Z.mod_unique _ _ (b `div` d)); [left|]; lia).
  assert ((b * f + i) `div` 8 = b `div` d) as Ediv' by (symmetry; apply (Z.div_unique _ _ _ (b `mod` d * f + i)); [left|]; lia).
  assert ((b * f + i) `mod` 8 = b `mod` d * f + i) as Emod' by (symmetry; apply (Z.mod_unique _ _ (b `div` d)); [left|]; lia).
  destruct (lookup_lt_is_Some_2 map (Z.to_nat (b `div` d))) as [w Hw]; [lia|].
  unfold blkmap, NBBY. fold f. rewrite Z.quot_div_nonneg, Z.rem_mod_nonneg by lia. rewrite Ediv, Emod, Hw. cbn [mbind option_bind].
  eexists. split; [reflexivity|]. fold NBBY. rewrite Hm. split.
  - unfold map_bit. rewrite Ediv', Emod', Hw. rewrite Z.land_spec, Z.shiftr_spec, Z.ones_spec_low by lia.
    rewrite andb_true_r. f_equal. lia.
  - intros j Hj. rewrite Z.land_spec, Z.ones_spec_high by lia. apply andb_false_r.
Qed.

(** Group [c] is in the map of active groups. *)
Definition active (a : list Z) (c : Z) : bool := match a !! Z.to_nat (c `div` 32) with Some w => Z.testbit w (c `mod` 32) | None => false end.

Lemma ACTIVECGOFF_spec cg :
  ACTIVECGOFF cg = (if decide (cg `mod` 32 = 31) then None else Some (2 ^ (cg `mod` 32))).
Proof.
  unfold ACTIVECGOFF, shl, NBBY, conv, width. change (8 * 4) with 32.
  pose proof (Z.mod_pos_bound cg 32 ltac:(lia)) as Hm. rewrite decide_True by lia.
  rewrite Z.shiftl_mul_pow2, Z.mul_1_l by lia. case_decide as D; case_decide as E; try done.
  - rewrite E in D. lia.
  - exfalso. apply D. split; [pose proof (Z.pow_pos_nonneg 2 (cg `mod` 32)); lia|].
    apply Z.pow_lt_mono_r; lia.
Qed.

Lemma testbit_u32 z n : 0 ≤ n < 32 → Z.testbit (u32 z) n = Z.testbit z n.
Proof. intros ?. unfold u32. by rewrite Z.mod_pow2_bits_low by lia. Qed.

(** A map with group [cg], whose bit is not the last of its word. *)
Lemma update_spec cg f g a :
  0 ≤ cg < 32 * Z.of_nat (length a) → cg `mod` 32 ≠ 31 → Forall is_u32 a →
  (∀ w n, 0 ≤ n < 32 → Z.testbit (f w (2 ^ (cg `mod` 32))) n = g (n =? cg `mod` 32) (Z.testbit w n)) →
  (∀ w off, is_u32 (f w off)) → (∀ v, g false v = v) →
  ∃ a', update cg f (Some a) = Some (Some a') ∧ length a' = length a ∧ Forall is_u32 a' ∧
    ∀ c, 0 ≤ c → active a' c = (if decide (c = cg) then g true (active a c) else active a c).
Proof.
  intros [Hcg Hlt] Hlast Ha Hf Hu Hg. unfold update, NBBY. change (8 * 4) with 32.
  assert (Z.to_nat (cg `div` 32) < length a)%nat as Hk.
  { pose proof (Z.div_lt_upper_bound cg 32 (Z.of_nat (length a)) ltac:(lia) ltac:(lia)). pose proof (Z.div_pos cg 32 Hcg ltac:(lia)). lia. }
  destruct (lookup_lt_is_Some_2 a _ Hk) as [w Hw]. rewrite Hw, ACTIVECGOFF_spec, decide_False by done.
  eexists. split; [done|]. split; [apply length_insert|]. split; [by apply Forall_insert|].
  intros c Hc. unfold active.
  pose proof (Z.mod_pos_bound c 32 ltac:(lia)) as Hm. pose proof (Z.div_pos c 32 Hc ltac:(lia)). pose proof (Z.div_pos cg 32 Hcg ltac:(lia)).
  destruct (decide (c `div` 32 = cg `div` 32)) as [E|E].
  - rewrite E, list_lookup_insert_eq by done. rewrite Hw, Hf by done. case_decide as D.
    + subst. by rewrite Z.eqb_refl.
    + assert (c `mod` 32 =? cg `mod` 32 = false) as ->; [|apply Hg].
      apply Z.eqb_neq. intros Em. apply D. rewrite (Z.div_mod c 32), (Z.div_mod cg 32), E, Em by lia. done.
  - rewrite list_lookup_insert_ne by lia. rewrite decide_False by naive_solver. done.
Qed.

(** The last group of a word: undefined with a map. *)
Lemma update_last cg f a : cg `mod` 32 = 31 → update cg f (Some a) = None.
Proof.
  intros E. unfold update. rewrite ACTIVECGOFF_spec, decide_True by done.
  by destruct (a !! _).
Qed.

Lemma testbit_pow2 k n : 0 ≤ k → Z.testbit (2 ^ k) n = (n =? k).
Proof. intros. rewrite Z.pow2_bits_eqb by done. apply Z.eqb_sym. Qed.

Lemma activeset_bit cg w n :
  0 ≤ n < 32 → Z.testbit (u32 (Z.lor w (u32 (2 ^ (cg `mod` 32))))) n = (n =? cg `mod` 32) || Z.testbit w n.
Proof.
  intros Hn. pose proof (Z.mod_pos_bound cg 32 ltac:(lia)).
  rewrite testbit_u32, Z.lor_spec, testbit_u32, testbit_pow2 by lia. apply orb_comm.
Qed.
Lemma activeclear_bit cg w n :
  0 ≤ n < 32 →
  Z.testbit (u32 (Z.land w (u32 (Z.lnot (2 ^ (cg `mod` 32)))))) n = negb (n =? cg `mod` 32) && Z.testbit w n.
Proof.
  intros Hn. pose proof (Z.mod_pos_bound cg 32 ltac:(lia)).
  rewrite testbit_u32, Z.land_spec, testbit_u32, Z.lnot_spec, testbit_pow2 by lia. apply andb_comm.
Qed.

(** ** Indirect blocks *)

Lemma land_3 z : Z.land z 3 = z `mod` 4.
Proof. change 3 with (Z.ones 2). by rewrite Z.land_ones. Qed.

Lemma lbn_level_spec low k : 0 < low → (4 | low) → 0 ≤ k ≤ 3 → lbn_level (- low - k) = if decide (k = 3) then -1 else k.
Proof.
  intros Hl [j Hj] Hk. unfold lbn_level. rewrite decide_False by lia. rewrite land_3.
  assert (k = 0 ∨ k = 1 ∨ k = 2 ∨ k = 3) as [-> |[-> |[-> | ->]]] by lia.
  - replace ((- low - 0) `mod` 4) with 0 by (apply (Z.mod_unique _ _ (- j)); lia). done.
  - replace ((- low - 1) `mod` 4) with 3 by (apply (Z.mod_unique _ _ (- j - 1)); lia). done.
  - replace ((- low - 2) `mod` 4) with 2 by (apply (Z.mod_unique _ _ (- j - 1)); lia). done.
  - replace ((- low - 3) `mod` 4) with 1 by (apply (Z.mod_unique _ _ (- j - 1)); lia). done.
Qed.

Lemma lbn_offset_loop_spec s n r : 0 < fs_nindir s → 0 ≤ r → r * fs_nindir s ^ Z.of_nat n < 2 ^ 63 →
  lbn_offset_loop s n r = Some (r * fs_nindir s ^ Z.of_nat n).
Proof.
  intros Hn. revert r. induction n as [|n IH]; intros r Hr Hlt; cbn [lbn_offset_loop]; [f_equal; lia|].
  rewrite Nat2Z.inj_succ, Z.pow_succ_r in Hlt |- * by lia. unfold NINDIR.
  pose proof (Z.pow_pos_nonneg (fs_nindir s) (Z.of_nat n) Hn ltac:(lia)) as Hp. rewrite conv_I64 by nia. cbn [mbind option_bind].
  rewrite IH by nia. f_equal. lia.
Qed.

Lemma lbn_offset_spec s level : fs_ok s → 0 ≤ level ≤ NIADDR → lbn_offset s level = Some (fs_nindir s ^ level).
Proof.
  intros Hs Hl. destruct (ok_nindir s Hs) as [Hn _]. unfold NIADDR in Hl. unfold lbn_offset.
  assert (fs_nindir s ^ level ≤ (2 ^ 15) ^ 3) as Hb.
  { transitivity (fs_nindir s ^ 3); [apply Z.pow_le_mono_r; lia|apply Z.pow_le_mono_l; lia]. }
  rewrite lbn_offset_loop_spec by (rewrite ?Z2Nat.id by lia; lia). rewrite Z2Nat.id by lia. f_equal. lia.
Qed.

(** ** Free space and the size of a cylinder group's block *)

Lemma freespace_spec s p : fs_ok s → 0 ≤ fs_cs_nbfree s → 0 ≤ fs_cs_nffree s → 0 ≤ p ≤ 100 →
  fs_cs_nbfree s * fs_frag s + fs_cs_nffree s ≤ fs_dsize s < 2 ^ 56 →
  freespace s p = Some (fs_cs_nbfree s * fs_frag s + fs_cs_nffree s - (fs_dsize s * p) `div` 100).
Proof.
  intros Hs H1 H2 Hp Hd. pose proof (frag_bounds s Hs) as Hf. unfold freespace. rewrite blkstofrags_spec by done.
  assert (0 ≤ fs_cs_nbfree s * fs_frag s) by nia. assert (0 ≤ fs_dsize s * p ≤ 2 ^ 56 * 100) by nia.
  rewrite decide_True by lia. cbn [mbind option_bind]. rewrite conv_I64 by lia. cbn [mbind option_bind].
  rewrite conv_I64 by lia. cbn [mbind option_bind]. rewrite Z.quot_div_nonneg by lia.
  pose proof (Z.div_pos (fs_dsize s * p) 100 ltac:(lia) ltac:(lia)).
  pose proof (Z.div_le_upper_bound (fs_dsize s * p) 100 (2 ^ 56) ltac:(lia) ltac:(lia)). apply conv_I64. lia.
Qed.

Lemma howmany_spec ty x : ty = U32 ∨ ty = I32 → 0 ≤ x < 2 ^ 31 - 7 → howmany ty x NBBY = Some ((x + 7) `div` 8).
Proof.
  intros Hty Hx. unfold howmany, NBBY.
  assert (conv ty (x + (8 - 1)) = Some (x + 7)) as ->.
  { destruct Hty as [-> | ->]; cbn; [rewrite u32_id by (unfold is_u32; lia)|rewrite decide_True by lia]; f_equal; lia. }
  cbn [mbind option_bind]. by rewrite Z.quot_div_nonneg by lia.
Qed.

(** The header, the two old maps, and a bit for each inode, fragment and, when
    clusters are summed up, block. *)
Lemma cgsize_spec s : fs_ok s → 0 ≤ fs_ipg s < 2 ^ 31 - 7 → 0 ≤ fs_fpg s < 2 ^ 31 - 7 → 0 ≤ fs_old_cpg s < 2 ^ 31 → fs_contigsumsize s < 2 ^ 31 →
  CGSIZE s = Some (180 + fs_old_cpg s * 6 + (fs_ipg s + 7) `div` 8 + (fs_fpg s + 7) `div` 8 +
    (if decide (fs_contigsumsize s ≤ 0) then 0 else fs_contigsumsize s * 4 + (fs_fpg s `div` fs_frag s + 7) `div` 8)).
Proof.
  intros Hs Hi Hp Hc Hn. pose proof (frag_bounds s Hs) as Hf. unfold CGSIZE.
  pose proof (Z.div_pos (fs_fpg s) (fs_frag s) ltac:(lia) ltac:(lia)) as H0.
  pose proof (Z.div_le_upper_bound (fs_fpg s) (fs_frag s) (fs_fpg s) ltac:(lia) ltac:(nia)) as H1.
  rewrite (fragstoblks_spec s Hs), (howmany_spec U32) by (by left || lia). cbn [mbind option_bind].
  rewrite (howmany_spec I32 (fs_fpg s)) by (by right || lia). cbn [mbind option_bind].
  assert (∀ x, 0 ≤ x < 2 ^ 31 - 7 → 0 ≤ (x + 7) `div` 8 < 2 ^ 31) as Hq
    by (intros x Hx; split; [apply Z.div_pos; lia|apply Z.div_lt_upper_bound; lia]).
  pose proof (Hq _ Hi). pose proof (Hq _ Hp). pose proof (Hq (fs_fpg s `div` fs_frag s) ltac:(lia)).
  change (size_of (CRecord cg_members)) with 176. case_decide; cbn [mbind option_bind].
  - rewrite u64_id by (unfold is_u64; lia). f_equal. lia.
  - rewrite howmany_spec by (by right || lia). cbn [mbind option_bind]. rewrite (u64_id (fs_contigsumsize s * 4 + _)), u64_id by (unfold is_u64; lia). f_equal. lia.
Qed.

(** ** Properties *)

(** C24: shifts and masks compute what their comments say, with C's division. In a
    superblock whose computed members agree with its block and fragment size: for a
    position or number that is not negative, blkoff, fragoff, lblkno, numfrags,
    fragstoblks, fragnum and blknum are the remainders and truncated quotients their
    comments name, and rounding down; blkroundup and fragroundup are the least multiples above a size, signed or
    unsigned; lblktosize, lfragtosize and blkstofrags are products, and undefined
    exactly when the product does not fit; a position splits into block and offset and
    is put together again; fsbtodb counts sectors of 512 bytes and dbtofsb undoes it.
    Indirect blocks: with the numbering the comment gives, lbn_level finds the level
    of a single, double and triple indirect block from every place of the file, -1
    for the number in between, and lbn_offset is the power of NINDIR. *)
Theorem block_arithmetic (s : fs) (loc size blk off b j k : Z) (ty : cint) (Hs : fs_ok s) (Hloc : 0 ≤ loc)
    (Hsize : is_file_size size) (Hty : ty = I64 ∨ ty = U64) (Hblk : 0 ≤ blk) (Hoff : 0 ≤ off < fs_bsize s) (Hb : 0 ≤ b) (Hdb : b * fs_fsize s < 2 ^ 63)
    (Hj : 0 ≤ j) (Hk : 0 ≤ k ≤ 3) :
  let product x y := if decide (x * y < 2 ^ 63) then Some (x * y) else None in
  (blkoff s loc = Z.rem loc (fs_bsize s) ∧ fragoff s loc = Z.rem loc (fs_fsize s) ∧
   lblkno s loc = Z.quot loc (fs_bsize s) ∧ numfrags s loc = Z.quot loc (fs_fsize s) ∧
   fragstoblks s loc = Z.quot loc (fs_frag s) ∧ fragnum s loc = Z.rem loc (fs_frag s) ∧
   blknum s loc = Z.quot loc (fs_frag s) * fs_frag s) ∧
  (blkroundup s ty size = Some (round_up size (fs_bsize s)) ∧ fragroundup s ty size = Some (round_up size (fs_fsize s))) ∧
  (lblktosize s blk = product blk (fs_bsize s) ∧ lfragtosize s blk = product blk (fs_fsize s) ∧
   blkstofrags s I64 blk = product blk (fs_frag s) ∧ fs_bsize s = fs_frag s * fs_fsize s) ∧
  (lblkno s (blk * fs_bsize s + off) = blk ∧ blkoff s (blk * fs_bsize s + off) = off) ∧
  (∃ d, fsbtodb s b = Some d ∧ d * 512 = b * fs_fsize s ∧ dbtofsb s d = b) ∧
  (let low := NDADDR + j * NINDIR s in
   lbn_level (- low - k) = (if decide (k = 3) then -1 else k) ∧ lbn_level low = 0 ∧ lbn_offset s k = Some (NINDIR s ^ k)).
Proof.
  intros product. pose proof (bsize_bounds s Hs). pose proof (fsize_bounds s Hs). pose proof (frag_bounds s Hs).
  rewrite !Z.rem_mod_nonneg, !Z.quot_div_nonneg by lia. split_and!;
    first [by apply blkoff_spec | by apply fragoff_spec | by apply lblkno_spec | by apply numfrags_spec | by apply fragstoblks_spec
          | by apply fragnum_spec | by apply blkroundup_spec | by apply fragroundup_spec
          | by apply lblktosize_spec | by apply lfragtosize_spec | by apply blkstofrags_spec | by apply bsize_frags | by apply fsbtodb_spec | idtac].
  - rewrite blknum_spec by done. rewrite (Z.div_mod loc (fs_frag s)) at 1 by lia. lia.
  - rewrite lblkno_spec by done. symmetry. apply (Z.div_unique _ _ blk off); lia.
  - rewrite blkoff_spec by done. symmetry. apply (Z.mod_unique _ _ blk off); lia.
  - intros low. destruct (ok_nindir s Hs) as [Hn [m Hm]]. assert (0 < low) by (unfold low, NDADDR, NINDIR; nia). split_and!.
    + apply lbn_level_spec; [done| |done]. exists (3 + j * m). unfold low, NDADDR, NINDIR. rewrite Hm. lia.
    + unfold lbn_level. by rewrite decide_True by lia.
    + by apply lbn_offset_spec.
Qed.

(** A file system with blocks of 16384 and fragments of 2048 bytes. *)
Definition sample_fs : fs :=
  Fs 40 48 56 3064 0 (-1) 9 16384 2048 8 (-16384) (-2048) 14 11 3 2 2048 64 0 24064 100000 5 7 900000 0 16383 2047 FS_UFS2_MAGIC.
Lemma sample_fs_ok : fs_ok sample_fs.
Proof. split; try (vm_compute; (done || by split)). split; [by split|]. by exists 512. Qed.
Lemma sample_groups_ok : groups_ok sample_fs.
Proof. split; try (vm_compute; (done || by split)). split; [done|]. split; [by exists 376|done]. Qed.

Lemma block_arithmetic_witness :
  blkroundup sample_fs I64 20000 = Some 32768 ∧ lbn_level (- (12 + 2048) - 1) = 1 ∧ blkoff sample_fs 20000 = 3616.
Proof.
  destruct (block_arithmetic sample_fs 20000 20000 1 5 3 1 1 I64 sample_fs_ok) as ((H1 & _) & (H2 & _) & _ & _ & _ & (H3 & _));
    [done|split; vm_compute; done|by left|done|by split|done|done|done|by split|]. split; [exact H2|]. split; [exact H3|exact H1].
Defined.

(** C15: the blocks of a file cover it. For a file of any size, each block that holds
    a byte has a size that blksize and sblksize agree on, a positive multiple of the
    fragment size and at most a block; all blocks but the last are whole. The sizes
    add up to the size of the file rounded up to fragments while all blocks are
    direct ones, and to blocks beyond that: a fragment, or a block, is the most that
    is wasted. *)
Theorem file_blocks_cover (s : fs) (size lbn : Z) (Hs : fs_ok s) (Hsize : is_file_size size) (Hl : 0 ≤ lbn < file_blocks s size) :
  (∃ z, sblksize s size lbn = Some z ∧ blksize s size lbn = Some z ∧ 0 < z ≤ fs_bsize s ∧ (fs_fsize s | z) ∧
     size - lbn * fs_bsize s ≤ z + (file_blocks s size - 1 - lbn) * fs_bsize s ∧
     (lbn + 1 < file_blocks s size → z = fs_bsize s)) ∧
  (∃ total, space s size (Z.to_nat (file_blocks s size)) = Some total ∧
     total = round_up size (if decide (size ≤ NDADDR * fs_bsize s) then fs_fsize s else fs_bsize s) ∧
     size ≤ total < size + (if decide (size ≤ NDADDR * fs_bsize s) then fs_fsize s else fs_bsize s)).
Proof.
  assert (0 ≤ size) as H0 by (unfold is_file_size in Hsize; lia). destruct (file_blocks_spec s Hs size H0) as [Hk1 Hk2].
  pose proof (bsize_bounds s Hs) as Hb. pose proof (fsize_bounds s Hs) as Hf. pose proof (fsize_divides s Hs) as Hd. split.
  - assert (lbn * fs_bsize s < size) as Hlt by nia. rewrite blksize_sblksize, sblksize_spec by (done || lia). eexists. split; [reflexivity|]. split; [reflexivity|].
    destruct (round_up_spec (size - lbn * fs_bsize s) (fs_fsize s) ltac:(lia)) as [Hr1 Hr2]. case_decide as D.
    + split_and!; [lia|lia|done|nia|done].
    + assert (¬ (lbn + 1) * fs_bsize s ≤ size) as Hn by naive_solver. assert (file_blocks s size = lbn + 1) as -> by nia.
      split_and!; [lia|by apply round_up_mono_bound; [lia|done|lia]|done|lia|lia].
  - eexists. split; [by apply space_of_file|]. split; [done|]. case_decide; (eapply round_up_spec; lia).
Qed.

Lemma file_blocks_cover_witness :
  sblksize sample_fs 20000 1 = Some 4096 ∧ space sample_fs 20000 2 = Some 20480.
Proof.
  destruct (file_blocks_cover sample_fs 20000 1 sample_fs_ok) as ((z & H1 & _) & total & H2 & H3 & _);
    [split; vm_compute; done|split; vm_compute; done|]. split.
  - rewrite H1. vm_compute in H1. by simplify_eq.
  - change 2%nat with (Z.to_nat (file_blocks sample_fs 20000)). rewrite H2, H3. reflexivity.
Defined.

(** C16: where inodes are. In a file system of the second version, every inode has a
    group, and its block lies in that group's inode area, between cgimin and cgdmin;
    block and slot determine the inode; dtog and dtogd take the address of any
    fragment of a group apart, so that the group of the inode's block is the inode's
    group. *)
Theorem inode_addresses (s : fs) (x x' k : Z) (Hs : fs_ok s) (Hg : groups_ok s)
    (Hx : 0 ≤ x < fs_ncg s * fs_ipg s) (Hx' : 0 ≤ x' < fs_ncg s * fs_ipg s) (Hk : 0 ≤ k < fs_fpg s) :
  ∃ c a o lo hi base,
    ino_to_cg s x = Some c ∧ ino_to_fsba s x = Some a ∧ ino_to_fsbo s x = Some o ∧
    cgbase s c = Some base ∧ cgimin s c = Some lo ∧ cgdmin s c = Some hi ∧
    0 ≤ c < fs_ncg s ∧ 0 ≤ o < INOPB s ∧ lo ≤ a ∧ a + fs_frag s ≤ hi ∧ (fs_frag s | a - lo) ∧
    dtog s a = Some c ∧ dtog s (base + k) = Some c ∧ dtogd s (base + k) = Some k ∧
    (ino_to_fsba s x' = Some a → ino_to_fsbo s x' = Some o → x' = x).
Proof.
  destruct (ino_parts s Hg x Hx) as (H1 & H2 & H3 & E). destruct (ino_to_fsba_spec s Hs Hg x Hx) as (Hc & Ho & Ha & Hr).
  destruct (ino_parts s Hg x' Hx') as (H1' & H2' & H3' & E'). destruct (ino_to_fsba_spec s Hs Hg x' Hx') as (_ & Ho' & Ha' & Hr').
  destruct (ok_inodes s Hg) as (Hi1 & Hi2 & Hi3). pose proof (frag_bounds s Hs) as Hf. pose proof (ok_fpg s Hg) as Hp.
  destruct (cgstart_spec s Hg (ino_group s x) H1) as [Hst _].
  exists (ino_group s x), (fs_fpg s * ino_group s x + fs_iblkno s + ino_block s x * fs_frag s), (ino_slot s x),
    (fs_fpg s * ino_group s x + fs_iblkno s), (fs_fpg s * ino_group s x + fs_dblkno s), (fs_fpg s * ino_group s x).
  split_and!; try done; try (unfold INOPB; lia).
  - unfold cgstart in Hst. destruct (cgbase s (ino_group s x)); [|done]. cbn [mbind option_bind] in Hst. by rewrite decide_True in Hst by apply Hg.
  - unfold cgimin. apply in_group; [done|done|lia].
  - unfold cgdmin. apply in_group; [done|done|lia].
  - exists (ino_block s x). lia.
  - rewrite <-Z.add_assoc. apply dtog_spec; lia.
  - apply dtog_spec; lia.
  - apply dtog_spec; lia.
  - rewrite Ha', Ho'. intros Ea Eo. injection Ea as Ea. injection Eo as Eo.
    destruct (dtog_spec s (ino_group s x) (fs_iblkno s + ino_block s x * fs_frag s)) as [D1 D2]; [lia|lia|].
    destruct (dtog_spec s (ino_group s x') (fs_iblkno s + ino_block s x' * fs_frag s)) as [D1' D2']; [lia|lia|].
    rewrite !Z.add_assoc in D1, D2, D1', D2'. rewrite Ea in D1', D2'. simplify_eq. assert (ino_block s x = ino_block s x') by nia. congruence.
Qed.

Lemma inode_addresses_witness :
  ino_to_fsba sample_fs 24200 = Some 100072 ∧ dtog sample_fs 100072 = Some 1.
Proof.
  destruct (inode_addresses sample_fs 24200 5 10 sample_fs_ok sample_groups_ok)
    as (c & a & o & lo & hi & base & H1 & H2 & _ & _ & _ & _ & _ & _ & _ & _ & _ & H3 & _); [by split|by split|by split|].
  vm_compute in H1, H2. simplify_eq. split; [reflexivity|exact H3].
Defined.

(** C26: allocation maps. blkmap gives exactly the bits of the fragments of a block,
    whatever the number of fragments in a block, and never crosses a byte. ACTIVESET
    and ACTIVECLEAR add a group to the map of active groups, or remove it, keep the
    words of the map words of 32 bits and leave every other group as it is, for 31
    of the 32 groups of each word; for the last group of a word, 31 modulo 32, they
    shift 1 into the sign bit of an int, which is undefined. Without a map they do
    nothing. *)
Theorem allocation_maps (s : fs) (map a : list Z) (b i cg : Z) (Hs : fs_ok s) (Hb : 0 ≤ b) (Hi : 0 ≤ i < fs_frag s)
    (Hmap : b * fs_frag s < 8 * Z.of_nat (length map)) (Hcg : 0 ≤ cg < 32 * Z.of_nat (length a))
    (Ha : Forall is_u32 a) :
  (∃ m, blkmap s map (b * fs_frag s) = Some m ∧ Z.testbit m i = map_bit map (b * fs_frag s + i) ∧
     (∀ j, fs_frag s ≤ j → Z.testbit m j = false)) ∧
  (if decide (cg `mod` 32 = 31) then ACTIVESET cg (Some a) = None ∧ ACTIVECLEAR cg (Some a) = None
   else
     (∃ a', ACTIVESET cg (Some a) = Some (Some a') ∧ length a' = length a ∧ Forall is_u32 a' ∧
        ∀ c, 0 ≤ c → active a' c = bool_decide (c = cg) || active a c) ∧
     (∃ a', ACTIVECLEAR cg (Some a) = Some (Some a') ∧ length a' = length a ∧ Forall is_u32 a' ∧
        ∀ c, 0 ≤ c → active a' c = negb (bool_decide (c = cg)) && active a c)) ∧
  ACTIVESET cg None = Some None ∧ ACTIVECLEAR cg None = Some None.
Proof.
  split; [by apply blkmap_spec|]. split; [|done]. assert (∀ z, is_u32 (u32 z)) as Hu.
  { intros z. apply Z.mod_pos_bound. lia. }
  case_decide as Hlast; [by split; apply update_last|]. split.
  - destruct (update_spec cg (λ w off, u32 (Z.lor w (u32 off))) orb a) as (a' & H1 & H2 & H3 & H4);
      [done..|intros w n; apply activeset_bit|done|done|].
    exists a'. split_and!; [done..|]. intros c Hc. rewrite H4 by done. by case_decide; case_bool_decide.
  - destruct (update_spec cg (λ w off, u32 (Z.land w (u32 (Z.lnot off)))) (λ e v, negb e && v) a) as (a' & H1 & H2 & H3 & H4);
      [done..|intros w n; apply activeclear_bit|done|done|].
    exists a'. split_and!; [done..|]. intros c Hc. rewrite H4 by done. by case_decide; case_bool_decide.
Qed.

Lemma allocation_maps_witness :
  blkmap sample_fs [0xff; 0x5a] 8 = Some 0x5a ∧ ACTIVESET 33 (Some [5; 0]) = Some (Some [5; 2]) ∧
  active [5; 2] 33 = true ∧ ACTIVESET 31 (Some [5; 0]) = None.
Proof.
  assert (Forall is_u32 [5; 0]) as Ha by (by repeat constructor).
  destruct (allocation_maps sample_fs [0xff; 0x5a] [5; 0] 1 3 33 sample_fs_ok)
    as ((m & H1 & _) & ((a' & H2 & _ & _ & H3) & _) & _); [done|by split|done|by split|exact Ha|].
  destruct (allocation_maps sample_fs [0xff; 0x5a] [5; 0] 1 3 31 sample_fs_ok)
    as (_ & (H4 & _) & _); [done|by split|done|by split|exact Ha|].
  vm_compute in H1, H2. simplify_eq. split; [reflexivity|]. split; [reflexivity|]. split; [by apply (H3 33)|exact H4].
Defined.
