(* ===== verification/BitString.v ===== *)
(** * Bit strings: sys/bitstring.h

    A bit string is an array of bytes; bit [i] is bit [i & 7] of byte [i >> 3]. The
    macros read and write single bytes; an access outside the array is undefined. *)

From S2P Require Import Prelude Endian.

Definition _bit_byte (bit : Z) : Z := Z.shiftr bit 3.
Definition _bit_mask (bit : Z) : Z := Z.shiftl 1 (Z.land bit 0x7).
Definition bitstr_size (nbits : Z) : Z := Z.shiftr (nbits + 7) 3.

(** [name[i]] with an index of type [int]. *)
Definition byte_at (i : Z) : M (list Z) Z := if decide (0 ≤ i) then peek (Z.to_nat i) else undef OutOfBounds.
Definition set_byte (i v : Z) : M (list Z) unit := if decide (0 ≤ i) then poke (Z.to_nat i) v else undef OutOfBounds.

Definition bit_test (bit : Z) : M (list Z) Z :=
  b ← byte_at (_bit_byte bit); mret (Z.land b (_bit_mask bit)).
Definition bit_set (bit : Z) : M (list Z) unit :=
  b ← byte_at (_bit_byte bit); set_byte (_bit_byte bit) (Z.lor b (_bit_mask bit)).
Definition bit_clear (bit : Z) : M (list Z) unit :=
  b ← byte_at (_bit_byte bit); set_byte (_bit_byte bit) (Z.land b (Z.lnot (_bit_mask bit))).

(** [while (++_startbyte < _stopbyte) _name[_startbyte] = v] *)
Fixpoint fill (fuel : nat) (startbyte stopbyte v : Z) : M (list Z) unit :=
  match fuel with
  | 0%nat => out_of_fuel
  | S fuel =>
      let startbyte := startbyte + 1 in
      if decide (startbyte < stopbyte) then _ ← set_byte startbyte v; fill fuel startbyte stopbyte v else mret tt
  end.

Definition bit_nclear (start stop : Z) : M (list Z) unit :=
  let startbyte := _bit_byte start in
  let stopbyte := _bit_byte stop in
  if decide (startbyte = stopbyte) then
    b ← byte_at startbyte;
    set_byte startbyte (Z.land b (Z.lor (Z.shiftr 0xff (8 - Z.land start 0x7)) (Z.shiftl 0xff (Z.land stop 0x7 + 1))))
  else
    b ← byte_at startbyte;
    _ ← set_byte startbyte (Z.land b (Z.shiftr 0xff (8 - Z.land start 0x7)));
    _ ← fill (Z.to_nat (stopbyte - startbyte + 1)) startbyte stopbyte 0;
    b ← byte_at stopbyte;
    set_byte stopbyte (Z.land b (Z.shiftl 0xff (Z.land stop 0x7 + 1))).

Definition bit_nset (start stop : Z) : M (list Z) unit :=
  let startbyte := _bit_byte start in
  let stopbyte := _bit_byte stop in
  if decide (startbyte = stopbyte) then
    b ← byte_at startbyte;
    set_byte startbyte (Z.lor b (Z.land (Z.shiftl 0xff (Z.land start 0x7)) (Z.shiftr 0xff (7 - Z.land stop 0x7))))
  else
    b ← byte_at startbyte;
    _ ← set_byte startbyte (Z.lor b (Z.shiftl 0xff (Z.land start 0x7)));
    _ ← fill (Z.to_nat (stopbyte - startbyte + 1)) startbyte stopbyte 0xff;
    b ← byte_at stopbyte;
    set_byte stopbyte (Z.lor b (Z.shiftr 0xff (7 - Z.land stop 0x7))).

(** The loops of [bit_ffs] ([set]) and of [bit_ffc]: in a byte, and over the
    bytes; [-1] stays when none is found. *)
Fixpoint scan_byte (fuel : nat) (set : bool) (lb value : Z) : M (list Z) Z :=
  match fuel with
  | 0%nat => out_of_fuel
  | S fuel =>
      if Bool.eqb set (bool_decide (Z.land lb 0x1 = 0))
      then scan_byte fuel set (Z.shiftr lb 1) (value + 1) else mret value
  end.
Fixpoint scan (fuel : nat) (set : bool) (byte stopbyte : Z) : M (list Z) Z :=
  match fuel with
  | 0%nat => out_of_fuel
  | S fuel =>
      if decide (byte ≤ stopbyte) then
        b ← byte_at byte;
        if decide (b ≠ if set then 0 else 0xff) then
          b ← byte_at byte; scan_byte 9 set b (Z.shiftl byte 3)
        else scan fuel set (byte + 1) stopbyte
      else mret (-1)
  end.
Definition bit_ff (set : bool) (nbits : Z) : M (list Z) Z :=
  let stopbyte := _bit_byte (nbits - 1) in
  value ← (if decide (nbits > 0) then scan (Z.to_nat (stopbyte + 2)) set 0 stopbyte else mret (-1));
  mret (if decide (value >= nbits) then -1 else value).
Definition bit_ffc : Z → M (list Z) Z := bit_ff false.
Definition bit_ffs : Z → M (list Z) Z := bit_ff true.

(** ** The bits of an array *)

Definition bits (d : list Z) (i : Z) : bool := Z.testbit (d !!! Z.to_nat (i `div` 8)) (i `mod` 8).
Definition in_bits (d : list Z) (i : Z) : Prop := 0 ≤ i < 8 * Z.of_nat (length d).

Lemma bit_byte_div i : _bit_byte i = i `div` 8.
Proof. unfold _bit_byte. by rewrite Z.shiftr_div_pow2. Qed.
Lemma land_7 i : Z.land i 7 = i `mod` 8.
Proof. change 7 with (Z.ones 3). by rewrite Z.land_ones. Qed.

Lemma byte_index d i : in_bits d i → 0 ≤ i `div` 8 ∧ (Z.to_nat (i `div` 8) < length d)%nat ∧ 0 ≤ i `mod` 8 < 8.
Proof.
  unfold in_bits. intros Hi. pose proof (Z.mod_pos_bound i 8). pose proof (Z.div_mod i 8).
  assert (0 ≤ i `div` 8 < Z.of_nat (length d)) by lia. lia.
Qed.

Lemma byte_at_ok d k : 0 ≤ k → (Z.to_nat k < length d)%nat → byte_at k d = Ok (d !!! Z.to_nat k, d).
Proof.
  intros Hk Hlt. unfold byte_at. rewrite decide_True by done. unfold peek.
  by rewrite (list_lookup_lookup_total_lt d (Z.to_nat k)).
Qed.
Lemma set_byte_ok d k v : 0 ≤ k → (Z.to_nat k < length d)%nat → set_byte k v d = Ok (tt, <[Z.to_nat k := u8 v]> d).
Proof. intros Hk Hlt. unfold set_byte, poke. by rewrite !decide_True. Qed.

Lemma bits_set_byte d k v j :
  0 ≤ k → (Z.to_nat k < length d)%nat → 0 ≤ j →
  bits (<[Z.to_nat k := u8 v]> d) j = if decide (j `div` 8 = k) then Z.testbit v (j `mod` 8) else bits d j.
Proof.
  intros Hk Hlt Hj. unfold bits. pose proof (Z.mod_pos_bound j 8 ltac:(lia)). case_decide as Hd.
  - rewrite Hd, list_lookup_total_insert_eq by done. unfold u8. by rewrite Z.mod_pow2_bits_low by lia.
  - rewrite list_lookup_total_insert_ne; [done|]. pose proof (Z.div_pos j 8). lia.
Qed.

(** The tests of the masks, for the eight positions in a byte. *)
Definition byte_positions : list Z := [0; 1; 2; 3; 4; 5; 6; 7].
Lemma byte_position i : 0 ≤ i < 8 → i ∈ byte_positions.
Proof. intros Hi. unfold byte_positions. rewrite !elem_of_cons. lia. Qed.

Definition masks_right : bool :=
  forallb (λ s, forallb (λ i,
    Bool.eqb (Z.testbit (Z.shiftl 1 s) i) (bool_decide (i = s)) &&
    Bool.eqb (Z.testbit (Z.shiftl 0xff s) i) (bool_decide (s ≤ i)) &&
    Bool.eqb (Z.testbit (Z.shiftr 0xff (7 - s)) i) (bool_decide (i ≤ s)) &&
    Bool.eqb (Z.testbit (Z.shiftr 0xff (8 - s)) i) (bool_decide (i < s)) &&
    Bool.eqb (Z.testbit (Z.shiftl 0xff (s + 1)) i) (bool_decide (s < i)) &&
    Z.testbit 0xff i) byte_positions) byte_positions.

Lemma masks s i :
  0 ≤ s < 8 → 0 ≤ i < 8 →
  Z.testbit (Z.shiftl 1 s) i = bool_decide (i = s) ∧
  Z.testbit (Z.shiftl 0xff s) i = bool_decide (s ≤ i) ∧
  Z.testbit (Z.shiftr 0xff (7 - s)) i = bool_decide (i ≤ s) ∧
  Z.testbit (Z.shiftr 0xff (8 - s)) i = bool_decide (i < s) ∧
  Z.testbit (Z.shiftl 0xff (s + 1)) i = bool_decide (s < i) ∧
  Z.testbit 0xff i = true.
Proof.
  intros Hs%byte_position%list_elem_of_In Hi%byte_position%list_elem_of_In.
  assert (masks_right = true) as H by (vm_compute; reflexivity). unfold masks_right in H.
  rewrite forallb_forall in H. specialize (H s Hs). rewrite forallb_forall in H. specialize (H i Hi).
  rewrite !andb_true_iff, !Bool.eqb_true_iff in H. naive_solver.
Qed.

Lemma mask_clear s i : 0 ≤ s < 8 → 0 ≤ i < 8 → Z.testbit (Z.lnot (Z.shiftl 1 s)) i = negb (bool_decide (i = s)).
Proof. intros Hs Hi. rewrite Z.lnot_spec by lia. by destruct (masks s i Hs Hi) as (-> & _). Qed.

(** ** Single bits *)

(** The program succeeds and leaves an array with these bits. *)
Definition leaves (f : M (list Z) unit) (d : list Z) (after : Z → bool) : Prop :=
  ∃ d', f d = Ok (tt, d') ∧ length d' = length d ∧ bytes_ok d' ∧ ∀ j, in_bits d j → bits d' j = after j.

Lemma bytes_ok_set d k v : bytes_ok d → bytes_ok (<[k := u8 v]> d).
Proof. intros H. apply Forall_insert; [done|]. unfold is_u8, u8. apply Z.mod_pos_bound. lia. Qed.

(** A byte that is read, changed and written. *)
Lemma update_byte d k (g : Z → Z) :
  0 ≤ k → (Z.to_nat k < length d)%nat → bytes_ok d →
  leaves (b ← byte_at k; set_byte k (g b)) d
    (λ j, if decide (j `div` 8 = k) then Z.testbit (g (d !!! Z.to_nat k)) (j `mod` 8) else bits d j).
Proof.
  intros Hk Hlt Hd. eexists. erewrite bind_ok by (by apply byte_at_ok). split; [by apply set_byte_ok|].
  split_and!; [by rewrite length_insert|by apply bytes_ok_set|]. intros j Hj. apply bits_set_byte; [done..|apply Hj].
Qed.

Lemma leaves_ext f d p q : (∀ j, in_bits d j → p j = q j) → leaves f d p → leaves f d q.
Proof. intros H (d' & E & Hl & Hok & Hb). exists d'. split_and!; [done..|]. intros j Hj. by rewrite Hb, H. Qed.

Lemma div_mod_eq i j : i `div` 8 = j `div` 8 → (i `mod` 8 = j `mod` 8 ↔ i = j).
Proof. intros E. pose proof (Z.div_mod i 8). pose proof (Z.div_mod j 8). split; [lia|by intros ->]. Qed.

Lemma bits_byte d k j : j `div` 8 = k → Z.testbit (d !!! Z.to_nat k) (j `mod` 8) = bits d j.
Proof. by intros <-. Qed.

Lemma bit_set_spec d i : bytes_ok d → in_bits d i → leaves (bit_set i) d (λ j, bool_decide (j = i) || bits d j).
Proof.
  intros Hd Hi. destruct (byte_index d i Hi) as (H1 & H2 & H3). unfold bit_set. rewrite bit_byte_div.
  eapply leaves_ext; [|apply (update_byte d _ (λ b, Z.lor b (_bit_mask i)) H1 H2 Hd)]. intros j Hj. cbv beta.
  pose proof (Z.mod_pos_bound j 8 ltac:(lia)) as Hm. case_decide as Hd'.
  - rewrite Z.lor_spec, (bits_byte d _ j Hd'). unfold _bit_mask. rewrite land_7.
    destruct (masks (i `mod` 8) (j `mod` 8) H3 Hm) as (-> & _). rewrite orb_comm. f_equal. apply bool_decide_ext, div_mod_eq, Hd'.
  - rewrite bool_decide_eq_false_2; [done|]. by intros ->.
Qed.

Lemma bit_clear_spec d i : bytes_ok d → in_bits d i → leaves (bit_clear i) d (λ j, negb (bool_decide (j = i)) && bits d j).
Proof.
  intros Hd Hi. destruct (byte_index d i Hi) as (H1 & H2 & H3). unfold bit_clear. rewrite bit_byte_div.
  eapply leaves_ext; [|apply (update_byte d _ (λ b, Z.land b (Z.lnot (_bit_mask i))) H1 H2 Hd)]. intros j Hj. cbv beta.
  pose proof (Z.mod_pos_bound j 8 ltac:(lia)) as Hm. case_decide as Hd'.
  - rewrite Z.land_spec, (bits_byte d _ j Hd'). unfold _bit_mask. rewrite land_7, mask_clear by done.
    rewrite andb_comm. do 2 f_equal. apply bool_decide_ext, div_mod_eq, Hd'.
  - rewrite bool_decide_eq_false_2; [done|]. by intros ->.
Qed.

Lemma bit_test_spec d i : in_bits d i → ∃ v, bit_test i d = Ok (v, d) ∧ bool_decide (v ≠ 0) = bits d i.
Proof.
  intros Hi. destruct (byte_index d i Hi) as (H1 & H2 & H3). unfold bit_test. rewrite bit_byte_div.
  erewrite bind_ok by (by apply byte_at_ok). eexists. split; [done|]. unfold _bit_mask. rewrite land_7.
  set (b := d !!! Z.to_nat (i `div` 8)). change (bits d i) with (Z.testbit b (i `mod` 8)).
  destruct (Z.testbit b (i `mod` 8)) eqn:E.
  - apply bool_decide_eq_true_2. intros Hz. apply (f_equal (λ z, Z.testbit z (i `mod` 8))) in Hz.
    rewrite Z.land_spec, E, Z.bits_0 in Hz. destruct (masks (i `mod` 8) (i `mod` 8) H3 H3) as (Hm & _).
    rewrite Hm, bool_decide_eq_true_2 in Hz by done. done.
  - apply bool_decide_eq_false_2. intros Hz. apply Hz. apply Z.bits_inj'. intros n Hn. rewrite Z.land_spec, Z.bits_0.
    rewrite Z.shiftl_spec by done. destruct (decide (n = i `mod` 8)) as [->|Hne]; [by rewrite E|].
    destruct (decide (n < i `mod` 8)); [by rewrite (Z.testbit_neg_r 1), andb_false_r by lia|].
    change 1 with (2 ^ 0) at 1. rewrite Z.pow2_bits_false by lia. apply andb_false_r.
Qed.

(** ** Ranges *)

Lemma leaves_update d k (g : Z → Z) rest q :
  0 ≤ k → (Z.to_nat k < length d)%nat → bytes_ok d →
  (∀ d', length d' = length d → bytes_ok d' →
    (∀ j, in_bits d j → bits d' j =
      if decide (j `div` 8 = k) then Z.testbit (g (d !!! Z.to_nat k)) (j `mod` 8) else bits d j) → leaves rest d' q) →
  leaves (b ← byte_at k; _ ← set_byte k (g b); rest) d q.
Proof.
  intros Hk Hlt Hd Hrest. destruct (update_byte d k g Hk Hlt Hd) as (d' & E & Hl & Hok & Hb).
  destruct (Hrest d' Hl Hok Hb) as (d2 & E2 & Hl2 & Hok2 & Hb2). exists d2. split_and!; [|lia|done|].
  - rewrite <-bind_assoc. by erewrite bind_ok by exact E.
  - intros j Hj. apply Hb2. unfold in_bits in *. by rewrite Hl.
Qed.

Lemma leaves_seq f g d p q :
  leaves f d p →
  (∀ d', length d' = length d → bytes_ok d' → (∀ j, in_bits d j → bits d' j = p j) → leaves g d' q) →
  leaves (_ ← f; g) d q.
Proof.
  intros (d' & E & Hl & Hok & Hb) Hg. destruct (Hg d' Hl Hok Hb) as (d2 & E2 & Hl2 & Hok2 & Hb2).
  exists d2. split_and!; [by erewrite bind_ok by exact E|lia|done|].
  intros j Hj. apply Hb2. unfold in_bits in *. by rewrite Hl.
Qed.

Lemma fill_spec fuel d i stop v :
  -1 ≤ i → stop ≤ Z.of_nat (length d) → bytes_ok d → (Z.to_nat (stop - i) < fuel)%nat →
  leaves (fill fuel i stop v) d
    (λ j, if decide (i < j `div` 8 < stop) then Z.testbit v (j `mod` 8) else bits d j).
Proof.
  revert d i. induction fuel as [|fuel IH]; intros d i Hi Hstop Hd Hf; [lia|]. cbn [fill].
  destruct (decide (i + 1 < stop)) as [Hlt|Hge].
  - eapply leaves_seq.
    + exists (<[Z.to_nat (i + 1) := u8 v]> d). split_and!; [apply set_byte_ok; lia|by rewrite length_insert|by apply bytes_ok_set|].
      intros j Hj. apply bits_set_byte; [lia|lia|apply Hj].
    + intros d' Hl Hok Hb. eapply leaves_ext; [|apply IH; [lia|by rewrite Hl|done|lia]]. intros j Hj. cbv beta.
      rewrite Hb by (unfold in_bits in *; by rewrite <-Hl).
      repeat case_decide; try done; lia.
  - exists d. split_and!; [done..|]. intros j Hj. by rewrite decide_False by lia.
Qed.

(** The two ends of a range and what is between them. *)
Lemma range_spec d start stop (gs ge : Z → Z) v fuel (ps pe : Z → bool → bool) pm :
  bytes_ok d → in_bits d start → in_bits d stop → start `div` 8 < stop `div` 8 →
  (Z.to_nat (stop `div` 8 - start `div` 8) < fuel)%nat →
  (∀ b i, 0 ≤ i < 8 → Z.testbit (gs b) i = ps i (Z.testbit b i)) →
  (∀ b i, 0 ≤ i < 8 → Z.testbit (ge b) i = pe i (Z.testbit b i)) →
  (∀ i, 0 ≤ i < 8 → Z.testbit v i = pm) →
  leaves (b ← byte_at (start `div` 8); _ ← set_byte (start `div` 8) (gs b);
          _ ← fill fuel (start `div` 8) (stop `div` 8) v;
          b ← byte_at (stop `div` 8); set_byte (stop `div` 8) (ge b)) d
    (λ j, if decide (j `div` 8 = start `div` 8) then ps (j `mod` 8) (bits d j)
          else if decide (j `div` 8 = stop `div` 8) then pe (j `mod` 8) (bits d j)
          else if decide (start `div` 8 < j `div` 8 < stop `div` 8) then pm else bits d j).
Proof.
  intros Hd Hstart Hstop Hlt Hfuel Hgs Hge Hv.
  destruct (byte_index d start Hstart) as (H1 & H2 & _). destruct (byte_index d stop Hstop) as (H3 & H4 & _).
  apply leaves_update; [done..|]. intros d1 Hl1 Hok1 Hb1.
  eapply leaves_seq; [apply fill_spec; [lia|lia|done|done]|]. intros d2 Hl2 Hok2 Hb2. cbv beta in Hb2.
  eapply leaves_ext; [|apply update_byte; [done|lia|done]]. intros j Hj. cbv beta.
  pose proof (Z.mod_pos_bound j 8 ltac:(lia)) as Hm.
  assert (in_bits d1 j) as Hj1 by (unfold in_bits in *; lia). assert (in_bits d j) as Hj0 by (unfold in_bits in *; lia).
  assert (∀ k, j `div` 8 = k → Z.testbit (d2 !!! Z.to_nat k) (j `mod` 8) = bits d2 j) as Hk2 by (by intros k <-).
  rewrite Hge by done. destruct (decide (j `div` 8 = stop `div` 8)) as [Ee|Ee].
  - rewrite (decide_False (P := j `div` 8 = start `div` 8)) by lia. rewrite (Hk2 _ Ee), Hb2 by done.
    rewrite decide_False by lia. by rewrite Hb1, decide_False by (done || lia).
  - rewrite Hb2 by done. destruct (decide (j `div` 8 = start `div` 8)) as [Es|Es].
    + rewrite decide_False by lia. rewrite Hb1, decide_True by done. by rewrite Hgs, (bits_byte d _ j Es).
    + destruct (decide (start `div` 8 < j `div` 8 < stop `div` 8)); [by apply Hv|].
      by rewrite Hb1, decide_False by done.
Qed.

Definition within (start stop j : Z) : bool := bool_decide (start ≤ j ≤ stop).

Lemma bit_nset_spec d start stop :
  bytes_ok d → in_bits d start → in_bits d stop → start ≤ stop →
  leaves (bit_nset start stop) d (λ j, within start stop j || bits d j).
Proof.
  intros Hd Hstart Hstop Hle. unfold bit_nset. rewrite !bit_byte_div, !land_7.
  destruct (byte_index d start Hstart) as (H1 & H2 & H3). destruct (byte_index d stop Hstop) as (H4 & H5 & H6).
  pose proof (Z.div_mod start 8 ltac:(lia)) as Es. pose proof (Z.div_mod stop 8 ltac:(lia)) as Ee. unfold within.
  destruct (decide (start `div` 8 = stop `div` 8)) as [Eb|Eb].
  - eapply leaves_ext; [|apply update_byte; done]. intros j Hj. cbv beta.
    pose proof (Z.mod_pos_bound j 8 ltac:(lia)) as Hm. pose proof (Z.div_mod j 8 ltac:(lia)) as Ej. case_decide as Hd'.
    + rewrite Z.lor_spec, Z.land_spec, (bits_byte d _ j Hd').
      destruct (masks (start `mod` 8) (j `mod` 8) H3 Hm) as (_ & -> & _).
      destruct (masks (stop `mod` 8) (j `mod` 8) H6 Hm) as (_ & _ & -> & _).
      rewrite orb_comm, <-bool_decide_and. f_equal. apply bool_decide_ext. lia.
    + rewrite bool_decide_eq_false_2; [done|]. intros [? ?]. apply Hd'. lia.
  - assert (start `div` 8 < stop `div` 8) as Hlt by lia.
    eapply leaves_ext; [|eapply (range_spec d start stop (λ b, Z.lor b _) (λ b, Z.lor b _) 255 _
      (λ i x, bool_decide (start `mod` 8 ≤ i) || x) (λ i x, bool_decide (i ≤ stop `mod` 8) || x) true
      Hd Hstart Hstop Hlt)].
    + intros j Hj. cbv beta. pose proof (Z.mod_pos_bound j 8 ltac:(lia)) as Hm. pose proof (Z.div_mod j 8 ltac:(lia)) as Ej.
      destruct (decide (j `div` 8 = start `div` 8)); [|destruct (decide (j `div` 8 = stop `div` 8));
        [|destruct (decide (start `div` 8 < j `div` 8 < stop `div` 8))]].
      * f_equal. apply bool_decide_ext. lia.
      * f_equal. apply bool_decide_ext. lia.
      * rewrite bool_decide_eq_true_2; [done|]. lia.
      * rewrite bool_decide_eq_false_2; [done|]. lia.
    + lia.
    + intros b i Hi. cbv beta. rewrite Z.lor_spec, orb_comm. by destruct (masks (start `mod` 8) i H3 Hi) as (_ & -> & _).
    + intros b i Hi. cbv beta. rewrite Z.lor_spec, orb_comm. by destruct (masks (stop `mod` 8) i H6 Hi) as (_ & _ & -> & _).
    + intros i Hi. by destruct (masks 0 i ltac:(lia) Hi) as (_ & _ & _ & _ & _ & ->).
Qed.

Lemma bit_nclear_spec d start stop :
  bytes_ok d → in_bits d start → in_bits d stop → start ≤ stop →
  leaves (bit_nclear start stop) d (λ j, negb (within start stop j) && bits d j).
Proof.
  intros Hd Hstart Hstop Hle. unfold bit_nclear. rewrite !bit_byte_div, !land_7.
  destruct (byte_index d start Hstart) as (H1 & H2 & H3). destruct (byte_index d stop Hstop) as (H4 & H5 & H6).
  pose proof (Z.div_mod start 8 ltac:(lia)) as Es. pose proof (Z.div_mod stop 8 ltac:(lia)) as Ee. unfold within.
  destruct (decide (start `div` 8 = stop `div` 8)) as [Eb|Eb].
  - eapply leaves_ext; [|apply (update_byte d _ (λ b, Z.land b _)); done]. intros j Hj. cbv beta.
    pose proof (Z.mod_pos_bound j 8 ltac:(lia)) as Hm. pose proof (Z.div_mod j 8 ltac:(lia)) as Ej. case_decide as Hd'.
    + rewrite Z.land_spec, Z.lor_spec, (bits_byte d _ j Hd').
      destruct (masks (start `mod` 8) (j `mod` 8) H3 Hm) as (_ & _ & _ & -> & _).
      destruct (masks (stop `mod` 8) (j `mod` 8) H6 Hm) as (_ & _ & _ & _ & -> & _).
      rewrite andb_comm, <-bool_decide_or, <-bool_decide_not. f_equal. apply bool_decide_ext. lia.
    + rewrite bool_decide_eq_false_2; [done|]. intros [? ?]. apply Hd'. lia.
  - assert (start `div` 8 < stop `div` 8) as Hlt by lia.
    eapply leaves_ext; [|eapply (range_spec d start stop (λ b, Z.land b _) (λ b, Z.land b _) 0 _
      (λ i x, bool_decide (i < start `mod` 8) && x) (λ i x, bool_decide (stop `mod` 8 < i) && x) false
      Hd Hstart Hstop Hlt)].
    + intros j Hj. cbv beta. pose proof (Z.mod_pos_bound j 8 ltac:(lia)) as Hm. pose proof (Z.div_mod j 8 ltac:(lia)) as Ej.
      rewrite <-bool_decide_not. destruct (decide (j `div` 8 = start `div` 8)); [|destruct (decide (j `div` 8 = stop `div` 8));
        [|destruct (decide (start `div` 8 < j `div` 8 < stop `div` 8))]].
      * f_equal. apply bool_decide_ext. lia.
      * f_equal. apply bool_decide_ext. lia.
      * rewrite bool_decide_eq_false_2; [done|]. lia.
      * rewrite bool_decide_eq_true_2; [done|]. lia.
    + lia.
    + intros b i Hi. cbv beta. rewrite Z.land_spec, andb_comm. by destruct (masks (start `mod` 8) i H3 Hi) as (_ & _ & _ & -> & _).
    + intros b i Hi. cbv beta. rewrite Z.land_spec, andb_comm. by destruct (masks (stop `mod` 8) i H6 Hi) as (_ & _ & _ & _ & -> & _).
    + intros i Hi. apply Z.bits_0.
Qed.

(** ** Searching *)

Lemma land_1 b : Z.land b 1 = if Z.testbit b 0 then 1 else 0.
Proof. rewrite Z.bit0_odd. change 1 with (Z.ones 1) at 1. rewrite Z.land_ones by lia. rewrite Zmod_odd. done. Qed.

Lemma scan_byte_spec fuel set b n value d :
  (∃ i, 0 ≤ i < Z.of_nat fuel ∧ Z.testbit b i = set) → n = value →
  ∃ i, scan_byte fuel set b value d = Ok (value + i, d) ∧ 0 ≤ i < Z.of_nat fuel ∧ Z.testbit b i = set ∧
    ∀ k, 0 ≤ k < i → Z.testbit b k = negb set.
Proof.
  intros Hex _. revert b value Hex. induction fuel as [|fuel IH]; intros b value (i & Hi & Hb); [lia|]. cbn [scan_byte].
  rewrite land_1. destruct (Bool.bool_dec (Z.testbit b 0) set) as [E|E].
  - rewrite E. exists 0. split_and!; [|lia|lia|done|lia]. rewrite Z.add_0_r. by destruct set.
  - destruct (decide (i = 0)) as [->|Hi0]; [done|].
    destruct (IH (Z.shiftr b 1) (value + 1)) as (m & Em & Hm & Hbm & Hk).
    { exists (i - 1). rewrite Z.shiftr_spec by lia. replace (i - 1 + 1) with i by lia. split; [lia|done]. }
    exists (m + 1). rewrite Z.shiftr_spec in Hbm by lia. split_and!; [|lia|lia|done|].
    + replace (value + (m + 1)) with (value + 1 + m) by lia. rewrite <-Em. by destruct (Z.testbit b 0), set.
    + intros k Hk0. destruct (decide (k = 0)) as [->|]; [by destruct (Z.testbit b 0), set|].
      rewrite <-(Hk (k - 1)) by lia. rewrite Z.shiftr_spec by lia. f_equal. lia.
Qed.

(** A byte with no bit of the kind looked for is skipped. *)
Lemma byte_skip set b :
  is_u8 b → b = (if set : bool then 0 else 0xff) ↔ ∀ i, 0 ≤ i < 8 → Z.testbit b i = negb set.
Proof.
  intros Hb. split.
  - intros -> i Hi. destruct set; simpl; [apply Z.bits_0|]. by destruct (masks 0 i ltac:(lia) Hi) as (_ & _ & _ & _ & _ & ->).
  - intros H. apply Z.bits_inj'. intros n Hn. unfold is_u8 in Hb.
    destruct (decide (n < 8)) as [Hlt|Hge].
    + rewrite H by lia. destruct set; simpl; [by rewrite Z.bits_0|].
      by destruct (masks 0 n ltac:(lia) ltac:(lia)) as (_ & _ & _ & _ & _ & ->).
    + assert (∀ c, 0 ≤ c < 2 ^ 8 → Z.testbit c n = false) as Hz.
      { intros c Hc. rewrite <-(Z.mod_small c (2 ^ 8)) by lia. apply Z.mod_pow2_bits_high. lia. }
      rewrite !Hz; [done| |done]. destruct set; lia.
Qed.

Lemma bits_at d k i : 0 ≤ i < 8 → bits d (8 * k + i) = Z.testbit (d !!! Z.to_nat k) i.
Proof.
  intros Hi. unfold bits. rewrite Z.add_comm, Z.mul_comm, Z_div_plus_full, Z.div_small, Z.mod_add, Z.mod_small by lia. done.
Qed.
Lemma bits_split j : j = 8 * (j `div` 8) + j `mod` 8 ∧ 0 ≤ j `mod` 8 < 8.
Proof. split; [apply Z.div_mod; lia|apply Z.mod_pos_bound; lia]. Qed.

(** The first position from [lo] to [hi] with a bit of the kind looked for, or -1. *)
Definition first_bit (d : list Z) (set : bool) (lo hi r : Z) : Prop :=
  r = -1 ∧ (∀ j, lo ≤ j < hi → bits d j = negb set) ∨
  lo ≤ r < hi ∧ bits d r = set ∧ (∀ j, lo ≤ j < r → bits d j = negb set).

Lemma scan_spec fuel set k stop d :
  0 ≤ k → stop < Z.of_nat (length d) → bytes_ok d → (Z.to_nat (stop - k + 1) < fuel)%nat →
  ∃ r, scan fuel set k stop d = Ok (r, d) ∧ first_bit d set (8 * k) (8 * (stop + 1)) r.
Proof.
  revert k. induction fuel as [|fuel IH]; intros k Hk Hstop Hd Hf; [lia|]. cbn [scan].
  destruct (decide (k ≤ stop)) as [Hle|Hgt]; cycle 1.
  { exists (-1). split; [done|]. left. split; [done|lia]. }
  assert (Z.to_nat k < length d)%nat as Hlt by lia.
  erewrite bind_ok by (by apply byte_at_ok). set (b := d !!! Z.to_nat k).
  assert (is_u8 b) as Hb by (apply (Forall_lookup_1 _ _ (Z.to_nat k) _ Hd), list_lookup_lookup_total_lt, Hlt).
  pose proof (byte_skip set b Hb) as Hskip. destruct (decide _) as [Hne|Heq].
  - erewrite bind_ok by (by apply byte_at_ok).
    destruct (scan_byte_spec 9 set b (8 * k) (8 * k) d) as (i & Ei & Hi & Hbi & Hbefore); [|done|].
    { destruct (decide (Exists (λ i, Z.testbit b i = set) byte_positions)) as [Hex|Hno]; [apply Exists_exists in Hex as (i & Hi & E)|].
      - exists i. split; [|done]. unfold byte_positions in Hi. set_unfold in Hi. lia.
      - destruct Hne. apply Hskip. intros i Hi. apply byte_position in Hi.
        destruct (Bool.bool_dec (Z.testbit b i) set) as [E|E]; [|by destruct (Z.testbit b i), set].
        destruct Hno. apply Exists_exists. eauto. }
    assert (i < 8) as Hi8.
    { destruct (decide (i < 8)) as [|Hge]; [done|]. destruct Hne. apply Hskip. intros m Hm. apply Hbefore. lia. }
    exists (8 * k + i). rewrite Z.shiftl_mul_pow2 by lia. change (2 ^ 3) with 8. rewrite (Z.mul_comm k 8). split; [exact Ei|].
    right. split_and!; [lia|lia|by rewrite bits_at by lia|]. intros j Hj.
    replace j with (8 * k + (j - 8 * k)) by lia. rewrite bits_at by lia. apply Hbefore. lia.
  - apply dec_stable in Heq. destruct (IH (k + 1)) as (r & Er & Hr); [lia|done|done|lia|]. exists r. split; [done|].
    assert (∀ j, 8 * k ≤ j < 8 * (k + 1) → bits d j = negb set) as Hhere.
    { intros j Hj. replace j with (8 * k + (j - 8 * k)) by lia. rewrite bits_at by lia. apply Hskip; [done|lia]. }
    assert (∀ j, 8 * k ≤ j → j < 8 * (k + 1) ∨ 8 * (k + 1) ≤ j) as Hcase by lia.
    destruct Hr as [[-> Hr]|(Hr1 & Hr2 & Hr3)]; [left|right; split_and!; [lia|lia|done|]]; [split; [done|]|];
      intros j Hj; destruct (Hcase j ltac:(lia)); auto with lia.
Qed.

Lemma bit_ff_spec set nbits d :
  nbits ≤ 8 * Z.of_nat (length d) → bytes_ok d → ∃ r, bit_ff set nbits d = Ok (r, d) ∧ first_bit d set 0 nbits r.
Proof.
  intros Hn Hd. unfold bit_ff. rewrite bit_byte_div. destruct (bits_split (nbits - 1)) as [Es Hm].
  set (stop := (nbits - 1) `div` 8) in *. destruct (decide (nbits > 0)) as [Hpos|Hneg].
  - destruct (scan_spec (Z.to_nat (stop + 2)) set 0 stop d) as (r & Er & Hr); [lia|lia|done|lia|].
    erewrite bind_ok by exact Er. exists (if decide (r >= nbits) then -1 else r). split; [done|].
    destruct Hr as [[-> Hr]|(Hr1 & Hr2 & Hr3)]; case_decide; try lia.
    + left. split; [done|]. intros j Hj. apply Hr. lia.
    + left. split; [done|]. intros j Hj. apply Hr3. lia.
    + right. split_and!; [lia|lia|done|]. intros j Hj. apply Hr3. lia.
  - exists (-1). split; [rewrite ret_bind; by case_decide|]. left. split; [done|lia].
Qed.

(** ** Properties *)

(** C20: a bit string is a set of numbers. In an array of bytes, for positions
    inside it: bit_test tells whether the bit is set, bit_set and bit_clear change
    that bit alone, and bit_nset and bit_nclear change exactly the bits from start
    to stop, in one byte or over many; no access is outside the array. An array of
    bitstr_size(n) bytes has room for n bits, and one byte less has not. *)
Theorem bit_string_contract (d : list Z) (i start stop n : Z)
    (Hd : bytes_ok d) (Hi : in_bits d i) (Hstart : in_bits d start) (Hstop : in_bits d stop) (Hle : start ≤ stop) :
  (∃ v, bit_test i d = Ok (v, d) ∧ bool_decide (v ≠ 0) = bits d i) ∧
  leaves (bit_set i) d (λ j, bool_decide (j = i) || bits d j) ∧
  leaves (bit_clear i) d (λ j, negb (bool_decide (j = i)) && bits d j) ∧
  leaves (bit_nset start stop) d (λ j, within start stop j || bits d j) ∧
  leaves (bit_nclear start stop) d (λ j, negb (within start stop j) && bits d j) ∧
  8 * (bitstr_size n - 1) < n ≤ 8 * bitstr_size n.
Proof.
  refine (conj _ (conj _ (conj _ (conj _ (conj _ _))))).
  - by apply bit_test_spec.
  - by apply bit_set_spec.
  - by apply bit_clear_spec.
  - by apply bit_nset_spec.
  - by apply bit_nclear_spec.
  - unfold bitstr_size. rewrite Z.shiftr_div_pow2 by lia. change (2 ^ 3) with 8. destruct (bits_split (n + 7)) as [E H]. lia.
Qed.

Lemma bit_string_contract_witness :
  leaves (bit_nset 3 17) [0; 0; 0] (λ j, within 3 17 j || bits [0; 0; 0] j) ∧
  bit_nset 3 17 [0; 0; 0] = Ok (tt, [0xf8; 0xff; 0x03]).
Proof.
  split; [|vm_compute; reflexivity].
  destruct (bit_string_contract [0; 0; 0] 5 3 17 24) as (_ & _ & _ & H & _); [|unfold in_bits; simpl; lia..|exact H].
  repeat constructor; vm_compute; intros; discriminate.
Defined.

(** Bit_ffs and bit_ffc find the first bit that is set, or clear, among the
    first nbits, and give -1 exactly when there is none, whatever the bits behind
    nbits in the last byte are; they end, and read inside the array only. *)
Theorem bit_string_search (d : list Z) (nbits : Z) (Hn : nbits ≤ 8 * Z.of_nat (length d)) (Hd : bytes_ok d) :
  (∃ r, bit_ffs nbits d = Ok (r, d) ∧ first_bit d true 0 nbits r) ∧
  (∃ r, bit_ffc nbits d = Ok (r, d) ∧ first_bit d false 0 nbits r).
Proof. split; by apply bit_ff_spec. Qed.

Lemma bit_string_search_witness :
  (∃ r, bit_ffs 15 [0; 0x80] = Ok (r, [0; 0x80]) ∧ first_bit [0; 0x80] true 0 15 r) ∧
  bit_ffs 15 [0; 0x80] = Ok (-1, [0; 0x80]).
Proof.
  split; [|vm_compute; reflexivity]. apply (bit_string_search [0; 0x80] 15); [simpl; lia|].
  repeat constructor; vm_compute; intros; discriminate.
Defined.
