(* ===== verification/Time.v ===== *)
(** * Time arithmetic: sys/time.h and sys/timespec.h

    Times are seconds and a fraction: 2^-64 s in [bintime], nanoseconds in
    [timespec], microseconds in [timeval]. [time_t] and [long] have 64 bits;
    overflow of a signed addition or product is undefined ([None]), of an unsigned
    one wraps. *)

From S2P Require Import Prelude.

(** ** Signed arithmetic *)

Definition is_i64 (z : Z) : Prop := - 2 ^ 63 ≤ z < 2 ^ 63.
#[global] Instance is_i64_dec z : Decision (is_i64 z).
Proof. unfold is_i64. apply _. Defined.

Definition signed (z : Z) : option Z := if decide (is_i64 z) then Some z else None.

(** ** [struct bintime] *)

Record bintime := Bintime { bt_sec : Z; frac : Z }.

Definition bintime_addx (bt : bintime) (x : Z) : option bintime :=
  let u := frac bt in
  let f := u64 (frac bt + x) in
  sec ← (if decide (u > f) then signed (bt_sec bt + 1) else Some (bt_sec bt));
  Some (Bintime sec f).

Definition bintime_add (bt bt2 : bintime) : option bintime :=
  let u := frac bt in
  let f := u64 (frac bt + frac bt2) in
  sec ← (if decide (u > f) then signed (bt_sec bt + 1) else Some (bt_sec bt));
  sec ← signed (sec + bt_sec bt2);
  Some (Bintime sec f).

Definition bintime_sub (bt bt2 : bintime) : option bintime :=
  let u := frac bt in
  let f := u64 (frac bt - frac bt2) in
  sec ← (if decide (u < f) then signed (bt_sec bt - 1) else Some (bt_sec bt));
  sec ← signed (sec - bt_sec bt2);
  Some (Bintime sec f).

(** [bt->sec += (p2 >> 32)] is an unsigned addition, converted back. *)
Definition bintime_mul (bt : bintime) (x : Z) : option bintime :=
  let p1 := u64 (Z.land (frac bt) 0xffffffff * x) in
  let p2 := u64 (u64 (Z.shiftr (frac bt) 32 * x) + Z.shiftr p1 32) in
  sec ← signed (bt_sec bt * x);
  Some (Bintime (i64 (sec + Z.shiftr p2 32)) (Z.lor (u64 (Z.shiftl p2 32)) (Z.land p1 0xffffffff))).

Definition bintime_clear (bt : bintime) : bintime := Bintime 0 0.
Definition bintime_isset (bt : bintime) : bool := bool_decide (bt_sec bt ≠ 0) || bool_decide (frac bt ≠ 0).

(** The operator that is the argument [cmp] of the comparison macros. *)
Inductive cmp_op := LT | LE | GT | GE | EQ | NE.
Definition apply_cmp (op : cmp_op) (a b : Z) : bool :=
  match op with
  | LT => a <? b | LE => a <=? b | GT => a >? b | GE => a >=? b | EQ => a =? b | NE => negb (a =? b)
  end.

Definition bintime_cmp (a b : bintime) (cmp : cmp_op) : bool :=
  if bt_sec a =? bt_sec b then apply_cmp cmp (frac a) (frac b) else apply_cmp cmp (bt_sec a) (bt_sec b).

(** ** Conversions *)

Record timespec := Timespec { tv_sec : Z; tv_nsec : Z }.
Record timeval := Timeval { tvu_sec : Z; tv_usec : Z }.

Definition bintime2timespec (bt : bintime) : timespec :=
  Timespec (bt_sec bt) (Z.shiftr (u64 (1000000000 * u32 (Z.shiftr (frac bt) 32))) 32).
Definition timespec2bintime (ts : timespec) : bintime :=
  Bintime (tv_sec ts) (u64 (u64 (tv_nsec ts) * 18446744073)).
Definition bintime2timeval (bt : bintime) : timeval :=
  Timeval (bt_sec bt) (Z.shiftr (u64 (1000000 * u32 (Z.shiftr (frac bt) 32))) 32).
Definition timeval2bintime (tv : timeval) : bintime :=
  Bintime (tvu_sec tv) (u64 (u64 (tv_usec tv) * 18446744073709)).

(** [TIMEVAL_TO_TIMESPEC] and [TIMESPEC_TO_TIMEVAL]; division truncates. *)
Definition TIMEVAL_TO_TIMESPEC (tv : timeval) : option timespec :=
  n ← signed (tv_usec tv * 1000); Some (Timespec (tvu_sec tv) n).
Definition TIMESPEC_TO_TIMEVAL (ts : timespec) : timeval := Timeval (tv_sec ts) (tv_nsec ts `quot` 1000).

(** ** [struct timespec] *)

Definition timespecclear (t : timespec) : timespec := Timespec 0 0.
Definition timespecisset (t : timespec) : bool := bool_decide (tv_sec t ≠ 0) || bool_decide (tv_nsec t ≠ 0).
Definition timespeccmp (a b : timespec) (cmp : cmp_op) : bool :=
  if tv_sec a =? tv_sec b then apply_cmp cmp (tv_nsec a) (tv_nsec b) else apply_cmp cmp (tv_sec a) (tv_sec b).
Definition timespecadd (v u : timespec) : option timespec :=
  s ← signed (tv_sec v + tv_sec u);
  n ← signed (tv_nsec v + tv_nsec u);
  if decide (n >= 1000000000) then s ← signed (s + 1); n ← signed (n - 1000000000); Some (Timespec s n)
  else Some (Timespec s n).
Definition timespecsub (v u : timespec) : option timespec :=
  s ← signed (tv_sec v - tv_sec u);
  n ← signed (tv_nsec v - tv_nsec u);
  if decide (n < 0) then s ← signed (s - 1); n ← signed (n + 1000000000); Some (Timespec s n)
  else Some (Timespec s n).

(** ** [struct timeval] *)

(** [timevalclear] and [timerclear], and so on: the kernel's and the user's names. *)
Definition timevalclear (t : timeval) : timeval := Timeval 0 0.
Definition timevalisset (t : timeval) : bool := bool_decide (tvu_sec t ≠ 0) || bool_decide (tv_usec t ≠ 0).
Definition timevalcmp (a b : timeval) (cmp : cmp_op) : bool :=
  if tvu_sec a =? tvu_sec b then apply_cmp cmp (tv_usec a) (tv_usec b) else apply_cmp cmp (tvu_sec a) (tvu_sec b).
Definition timerclear : timeval → timeval := timevalclear.
Definition timerisset : timeval → bool := timevalisset.
Definition timercmp : timeval → timeval → cmp_op → bool := timevalcmp.
Definition timeradd (t u : timeval) : option timeval :=
  s ← signed (tvu_sec t + tvu_sec u);
  n ← signed (tv_usec t + tv_usec u);
  if decide (n >= 1000000) then s ← signed (s + 1); n ← signed (n - 1000000); Some (Timeval s n)
  else Some (Timeval s n).
Definition timersub (t u : timeval) : option timeval :=
  s ← signed (tvu_sec t - tvu_sec u);
  n ← signed (tv_usec t - tv_usec u);
  if decide (n < 0) then s ← signed (s - 1); n ← signed (n + 1000000); Some (Timeval s n)
  else Some (Timeval s n).

(** ** Values *)

(** A time with [base] units to the second is normalised when its fraction is one;
    its value is in units. *)
Definition normal (base s u : Z) : Prop := is_i64 s ∧ 0 ≤ u < base.
Definition value (base s u : Z) : Z := s * base + u.

Definition bt_normal (bt : bintime) : Prop := normal (2 ^ 64) (bt_sec bt) (frac bt).
Definition bt_value (bt : bintime) : Z := value (2 ^ 64) (bt_sec bt) (frac bt).
Definition ts_normal (t : timespec) : Prop := normal 1000000000 (tv_sec t) (tv_nsec t).
Definition ts_value (t : timespec) : Z := value 1000000000 (tv_sec t) (tv_nsec t).
Definition tv_normal (t : timeval) : Prop := normal 1000000 (tvu_sec t) (tv_usec t).
Definition tv_value (t : timeval) : Z := value 1000000 (tvu_sec t) (tv_usec t).

#[global] Instance normal_dec base s u : Decision (normal base s u).
Proof. unfold normal. apply _. Defined.
#[global] Instance bt_normal_dec bt : Decision (bt_normal bt) := normal_dec _ _ _.
#[global] Instance ts_normal_dec t : Decision (ts_normal t) := normal_dec _ _ _.
#[global] Instance tv_normal_dec t : Decision (tv_normal t) := normal_dec _ _ _.

Lemma signed_Some z y : signed z = Some y ↔ y = z ∧ is_i64 z.
Proof. unfold signed. case_decide; naive_solver. Qed.

Lemma signed_bind {A} z (k : Z → option A) r : (s ← signed z; k s) = Some r ↔ is_i64 z ∧ k z = Some r.
Proof. unfold signed. case_decide; simpl; naive_solver. Qed.

(** A value has one normal form. *)
Lemma exact_iff base s u s' u' v :
  0 ≤ u < base → value base s u = v →
  (is_i64 s ∧ s = s' ∧ u = u') ↔ normal base s' u' ∧ value base s' u' = v.
Proof.
  unfold value, normal. intros Hu <-. split; [intros (Hs & <- & <-); done|]. intros [[Hs Hu'] E].
  assert (s' = s) as -> by nia. assert (u' = u) as -> by lia. done.
Qed.

Lemma bt_eq s f s' f' : Some (Bintime s f) = Some (Bintime s' f') ↔ s = s' ∧ f = f'.
Proof. naive_solver. Qed.
Lemma ts_eq s f s' f' : Some (Timespec s f) = Some (Timespec s' f') ↔ s = s' ∧ f = f'.
Proof. naive_solver. Qed.
Lemma tv_eq s f s' f' : Some (Timeval s f) = Some (Timeval s' f') ↔ s = s' ∧ f = f'.
Proof. naive_solver. Qed.

(** The sum of two fractions, with the carry that the comparison finds. *)
Lemma u64_add a b :
  is_u64 a → is_u64 b → u64 (a + b) = a + b ∧ a + b < 2 ^ 64 ∨ u64 (a + b) = a + b - 2 ^ 64 ∧ 2 ^ 64 ≤ a + b.
Proof.
  unfold is_u64, u64. intros. destruct (decide (a + b < 2 ^ 64)); [left|right]; (split; [|lia]).
  - apply Z.mod_small. lia.
  - rewrite <-(Z.mod_add _ (-1)) by lia. apply Z.mod_small. lia.
Qed.
Lemma u64_sub a b :
  is_u64 a → is_u64 b → u64 (a - b) = a - b ∧ 0 ≤ a - b ∨ u64 (a - b) = a - b + 2 ^ 64 ∧ a - b < 0.
Proof.
  unfold is_u64, u64. intros. destruct (decide (0 ≤ a - b)); [left|right]; (split; [|lia]).
  - apply Z.mod_small. lia.
  - rewrite <-(Z.mod_add _ 1) by lia. apply Z.mod_small. lia.
Qed.

Ltac open_times := unfold bt_normal, bt_value, ts_normal, ts_value, tv_normal, tv_value, is_u64 in *; simpl in *.

Lemma bintime_addx_spec bt x r :
  bt_normal bt → is_u64 x → bintime_addx bt x = Some r ↔ bt_normal r ∧ bt_value r = bt_value bt + x.
Proof.
  destruct bt as [s f], r as [s' f']. intros [Hs Hf] Hx. unfold bintime_addx. open_times. destruct (u64_add f x Hf Hx) as [[-> H]|[-> H]].
  - rewrite decide_False by lia. simpl. rewrite bt_eq, <-(exact_iff (2 ^ 64) s (f + x)) by (unfold value; lia). naive_solver.
  - rewrite decide_True by lia. rewrite signed_bind, bt_eq. apply exact_iff; unfold value; lia.
Qed.

Lemma bintime_add_spec bt bt2 r :
  bt_normal bt → bt_normal bt2 →
  bintime_add bt bt2 = Some r ↔
  is_i64 (bt_sec bt + (frac bt + frac bt2) `div` 2 ^ 64) ∧ bt_normal r ∧ bt_value r = bt_value bt + bt_value bt2.
Proof.
  destruct bt as [s f], bt2 as [s2 f2], r as [s' f']. intros [Hs Hf] [Hs2 Hf2]. unfold bintime_add. open_times. destruct (u64_add f f2 Hf Hf2) as [[-> H]|[-> H]].
  - rewrite decide_False by lia. simpl. rewrite Z.div_small by lia. rewrite signed_bind, bt_eq.
    rewrite (exact_iff (2 ^ 64) _ _ _ _ (value (2 ^ 64) s f + value (2 ^ 64) s2 f2)) by (unfold value; lia).
    rewrite Z.add_0_r. naive_solver.
  - rewrite decide_True by lia. rewrite !signed_bind, bt_eq.
    replace ((f + f2) `div` 2 ^ 64) with 1 by (apply (Z.div_unique _ _ _ (f + f2 - 2 ^ 64)); lia).
    by rewrite (exact_iff (2 ^ 64) _ _ _ _ (value (2 ^ 64) s f + value (2 ^ 64) s2 f2)) by (unfold value; lia).
Qed.

Lemma bintime_sub_spec bt bt2 r :
  bt_normal bt → bt_normal bt2 →
  bintime_sub bt bt2 = Some r ↔
  is_i64 (bt_sec bt + (frac bt - frac bt2) `div` 2 ^ 64) ∧ bt_normal r ∧ bt_value r = bt_value bt - bt_value bt2.
Proof.
  destruct bt as [s f], bt2 as [s2 f2], r as [s' f']. intros [Hs Hf] [Hs2 Hf2]. unfold bintime_sub. open_times. destruct (u64_sub f f2 Hf Hf2) as [[-> H]|[-> H]].
  - rewrite decide_False by lia. simpl. rewrite Z.div_small by lia. rewrite signed_bind, bt_eq.
    rewrite (exact_iff (2 ^ 64) _ _ _ _ (value (2 ^ 64) s f - value (2 ^ 64) s2 f2)) by (unfold value; lia).
    rewrite Z.add_0_r. naive_solver.
  - rewrite decide_True by lia. rewrite !signed_bind, bt_eq.
    replace ((f - f2) `div` 2 ^ 64) with (-1) by (apply (Z.div_unique _ _ _ (f - f2 + 2 ^ 64)); lia).
    by rewrite (exact_iff (2 ^ 64) _ _ _ _ (value (2 ^ 64) s f - value (2 ^ 64) s2 f2)) by (unfold value; lia).
Qed.

(** The two partial products make up the product of the fraction. *)
Lemma mul_parts f x :
  is_u64 f → is_u32 x →
  let p1 := Z.land f 0xffffffff * x in
  let p2 := Z.shiftr f 32 * x + Z.shiftr p1 32 in
  is_u64 p1 ∧ is_u64 (Z.shiftr f 32 * x) ∧ is_u64 p2 ∧
  f * x = Z.shiftr p2 32 * 2 ^ 64 + Z.lor (u64 (Z.shiftl p2 32)) (Z.land p1 0xffffffff) ∧
  0 ≤ Z.lor (u64 (Z.shiftl p2 32)) (Z.land p1 0xffffffff) < 2 ^ 64.
Proof.
  intros Hf Hx p1 p2. unfold is_u64, is_u32 in *.
  assert (∀ z, Z.land z 0xffffffff = z `mod` 2 ^ 32) as Hland by (intros z; by rewrite <-Z.land_ones by lia).
  assert (p1 = f `mod` 2 ^ 32 * x) as Hp1 by (subst p1; by rewrite Hland).
  rewrite Hland. subst p2. rewrite !Z.shiftr_div_pow2, Z.shiftl_mul_pow2 by lia.
  pose proof (Z.div_mod f (2 ^ 32) ltac:(lia)) as Ef. pose proof (Z.mod_pos_bound f (2 ^ 32) ltac:(lia)) as Hm.
  pose proof (Z.div_mod p1 (2 ^ 32) ltac:(lia)) as Ep. pose proof (Z.mod_pos_bound p1 (2 ^ 32) ltac:(lia)) as Hpm.
  set (lo := f `mod` 2 ^ 32) in *. set (hi := f `div` 2 ^ 32) in *.
  assert (0 ≤ hi < 2 ^ 32) by lia.
  assert (0 ≤ p1 ≤ (2 ^ 32 - 1) * (2 ^ 32 - 1)) by nia.
  set (q1 := p1 `div` 2 ^ 32) in *. set (r1 := p1 `mod` 2 ^ 32) in *.
  assert (0 ≤ q1 ≤ 2 ^ 32 - 2) by lia.
  assert (0 ≤ hi * x ≤ (2 ^ 32 - 1) * (2 ^ 32 - 1)) by nia.
  set (p2 := hi * x + q1).
  assert (0 ≤ p2 < 2 ^ 64) by lia.
  pose proof (Z.div_mod p2 (2 ^ 32) ltac:(lia)) as Ep2. pose proof (Z.mod_pos_bound p2 (2 ^ 32) ltac:(lia)) as Hpm2.
  set (q2 := p2 `div` 2 ^ 32) in *. set (r2 := p2 `mod` 2 ^ 32) in *.
  assert (u64 (p2 * 2 ^ 32) = r2 * 2 ^ 32) as ->.
  { unfold u64. change (2 ^ 64) with (2 ^ 32 * 2 ^ 32). rewrite Z.mul_mod_distr_r by lia. done. }
  assert (Z.lor (r2 * 2 ^ 32) r1 = r2 * 2 ^ 32 + r1) as ->.
  { rewrite <-Z.lxor_lor, <-Z.add_nocarry_lxor; [done|..];
      (apply Z.bits_inj'; intros i Hi; rewrite Z.land_spec, Z.bits_0;
       destruct (decide (i < 32)); [rewrite Z.mul_pow2_bits_low by lia; by rewrite ?andb_false_r|];
       rewrite <-(Z.mod_small r1 (2 ^ 32)), (Z.mod_pow2_bits_high r1 32) by lia; by rewrite ?andb_false_r). }
  split_and!; nia.
Qed.

(** Signed numbers of 128 bits: what two words hold. *)
Definition i128 (z : Z) : Z := (z + 2 ^ 127) `mod` 2 ^ 128 - 2 ^ 127.

Lemma value_i64 s f : 0 ≤ f < 2 ^ 64 → value (2 ^ 64) (i64 s) f = i128 (value (2 ^ 64) s f).
Proof.
  intros Hf. unfold value, i64, i128.
  assert ((s * 2 ^ 64 + f + 2 ^ 127) `mod` 2 ^ 128 = (s + 2 ^ 63) `mod` 2 ^ 64 * 2 ^ 64 + f) as ->; [|lia].
  symmetry. apply (Z.mod_unique _ _ ((s + 2 ^ 63) `div` 2 ^ 64)).
  - left. pose proof (Z.mod_pos_bound (s + 2 ^ 63) (2 ^ 64)). nia.
  - pose proof (Z.div_mod (s + 2 ^ 63) (2 ^ 64)). nia.
Qed.

Lemma i64_range z : is_i64 (i64 z).
Proof. unfold is_i64, i64. pose proof (Z.mod_pos_bound (z + 2 ^ 63) (2 ^ 64)). lia. Qed.

Lemma bintime_mul_spec bt x r :
  bt_normal bt → is_u32 x →
  bintime_mul bt x = Some r ↔ is_i64 (bt_sec bt * x) ∧ bt_normal r ∧ bt_value r = i128 (bt_value bt * x).
Proof.
  destruct bt as [s f], r as [s' f']. intros [Hs Hf] Hx. unfold bintime_mul. open_times.
  destruct (mul_parts f x Hf Hx) as (H1 & H2 & H3 & Ev & Hr). rewrite signed_bind, bt_eq.
  rewrite (u64_id _ H1), (u64_id _ H2), (u64_id _ H3).
  set (p2 := Z.shiftr f 32 * x + _) in *. set (g := Z.lor _ _) in *.
  pose proof (exact_iff (2 ^ 64) (i64 (s * x + Z.shiftr p2 32)) g s' f' (i128 (value (2 ^ 64) s f * x)) Hr) as He.
  rewrite <-He; [pose proof (i64_range (s * x + Z.shiftr p2 32)); naive_solver|].
  rewrite value_i64 by done. f_equal. unfold value. nia.
Qed.

(** ** Comparison *)

Lemma apply_cmp_lex base s u s' u' op :
  0 ≤ u < base → 0 ≤ u' < base →
  (if s =? s' then apply_cmp op u u' else apply_cmp op s s') = apply_cmp op (value base s u) (value base s' u').
Proof.
  unfold value. intros Hu Hu'. destruct (Z.eqb_spec s s') as [->|Hne].
  - destruct op; simpl; rewrite ?Z.gtb_ltb, ?Z.geb_leb; apply eq_true_iff_eq; rewrite ?negb_true_iff, ?Z.ltb_lt, ?Z.leb_le, ?Z.eqb_eq, ?Z.eqb_neq; lia.
  - assert (s < s' ∨ s' < s) as Hlt by lia.
    destruct op; simpl; rewrite ?Z.gtb_ltb, ?Z.geb_leb; apply eq_true_iff_eq; rewrite ?negb_true_iff, ?Z.ltb_lt, ?Z.leb_le, ?Z.eqb_eq, ?Z.eqb_neq; nia.
Qed.

Lemma isset_value base s u : 0 < base → 0 ≤ u < base →
  (bool_decide (s ≠ 0) || bool_decide (u ≠ 0)) = bool_decide (value base s u ≠ 0).
Proof.
  intros Hb Hu. unfold value. destruct (decide (s = 0)) as [->|Hs].
  - rewrite bool_decide_eq_false_2 by lia. simpl. apply bool_decide_ext. lia.
  - rewrite (bool_decide_eq_true_2 (s ≠ 0)) by done. symmetry. apply bool_decide_eq_true_2. nia.
Qed.

(** ** Conversions *)

(** The fraction in units of a [base]-th of a second, from its upper word. *)
Definition units (base f : Z) : Z := (base * (f `div` 2 ^ 32)) `div` 2 ^ 32.

Lemma units_word base f :
  0 ≤ base ≤ 2 ^ 32 → is_u64 f → Z.shiftr (u64 (base * u32 (Z.shiftr f 32))) 32 = units base f.
Proof.
  intros Hb Hf. unfold is_u64 in *. rewrite !Z.shiftr_div_pow2 by lia. unfold units.
  assert (0 ≤ f `div` 2 ^ 32 < 2 ^ 32) by (split; [apply Z.div_pos|apply Z.div_lt_upper_bound]; lia).
  rewrite u32_id by done. rewrite u64_id; [done|]. unfold is_u64. nia.
Qed.

Lemma units_range base f :
  0 < base ≤ 2 ^ 32 → is_u64 f →
  0 ≤ units base f < base ∧ units base f * 2 ^ 64 ≤ f * base < (units base f + 2) * 2 ^ 64.
Proof.
  unfold is_u64, units. intros Hb Hf.
  pose proof (Z.div_mod f (2 ^ 32) ltac:(lia)) as E1. pose proof (Z.mod_pos_bound f (2 ^ 32) ltac:(lia)) as M1.
  set (hi := f `div` 2 ^ 32) in *. assert (0 ≤ hi < 2 ^ 32) by lia.
  pose proof (Z.div_mod (base * hi) (2 ^ 32) ltac:(lia)) as E2. pose proof (Z.mod_pos_bound (base * hi) (2 ^ 32) ltac:(lia)) as M2.
  set (u := (base * hi) `div` 2 ^ 32) in *.
  assert (0 ≤ base * hi ≤ base * (2 ^ 32 - 1)) by nia.
  assert (0 ≤ u < base) by nia. split; [done|].
  assert (base * hi * 2 ^ 32 ≤ f * base < (base * hi + base) * 2 ^ 32) by nia. nia.
Qed.

Lemma units_mono base f g : 0 ≤ base → f ≤ g → units base f ≤ units base g.
Proof. intros Hb Hfg. unfold units. apply Z.div_le_mono; [lia|]. apply Z.mul_le_mono_nonneg_l; [done|]. by apply Z.div_le_mono. Qed.

(** There and back: a unit is lost, whatever the fraction. *)
Lemma units_nsec n : 0 ≤ n < 1000000000 → units 1000000000 (n * 18446744073) = if decide (n = 0) then 0 else n - 1.
Proof. unfold units. intros Hn. case_decide; [by subst|]. Z.to_euclidean_division_equations. lia. Qed.
Lemma units_usec n : 0 ≤ n < 1000000 → units 1000000 (n * 18446744073709) = if decide (n = 0) then 0 else n - 1.
Proof. unfold units. intros Hn. case_decide; [by subst|]. Z.to_euclidean_division_equations. lia. Qed.

Lemma nsec_word n : 0 ≤ n < 1000000000 → u64 (u64 n * 18446744073) = n * 18446744073.
Proof. intros Hn. rewrite (u64_id n), u64_id; unfold is_u64; lia. Qed.
Lemma usec_word n : 0 ≤ n < 1000000 → u64 (u64 n * 18446744073709) = n * 18446744073709.
Proof. intros Hn. rewrite (u64_id n), u64_id; unfold is_u64; lia. Qed.

Lemma timespec2bintime_below ts :
  ts_normal ts → bt_normal (timespec2bintime ts) ∧ bt_value (timespec2bintime ts) * 1000000000 ≤ ts_value ts * 2 ^ 64.
Proof.
  intros [Hs Hn]. unfold bt_normal, bt_value, ts_value, normal, value, timespec2bintime. simpl.
  rewrite (nsec_word _ Hn). split_and!; [done|lia|lia|lia].
Qed.
Lemma timeval2bintime_below tv :
  tv_normal tv → bt_normal (timeval2bintime tv) ∧ bt_value (timeval2bintime tv) * 1000000 ≤ tv_value tv * 2 ^ 64.
Proof.
  intros [Hs Hn]. unfold bt_normal, bt_value, tv_value, normal, value, timeval2bintime. simpl.
  rewrite (usec_word _ Hn). split_and!; [done|lia|lia|lia].
Qed.

Lemma conversions_mono a b :
  bt_value a ≤ bt_value b → bt_normal a → bt_normal b →
  ts_value (bintime2timespec a) ≤ ts_value (bintime2timespec b) ∧
  tv_value (bintime2timeval a) ≤ tv_value (bintime2timeval b).
Proof.
  intros Hab [_ Ha] [_ Hb]. unfold bt_value, ts_value, tv_value, value, bintime2timespec, bintime2timeval in *. simpl.
  rewrite !units_word by (done || lia).
  pose proof (units_range 1000000000 (frac a) ltac:(lia) Ha) as [? _].
  pose proof (units_range 1000000000 (frac b) ltac:(lia) Hb) as [? _].
  pose proof (units_range 1000000 (frac a) ltac:(lia) Ha) as [? _].
  pose proof (units_range 1000000 (frac b) ltac:(lia) Hb) as [? _].
  destruct (decide (bt_sec a = bt_sec b)) as [E|Hne].
  - pose proof (units_mono 1000000000 (frac a) (frac b) ltac:(lia) ltac:(lia)).
    pose proof (units_mono 1000000 (frac a) (frac b) ltac:(lia) ltac:(lia)). lia.
  - assert (bt_sec a < bt_sec b) by lia. lia.
Qed.

(** ** [timespecadd] and its relatives *)

Section carry.
Context (base : Z) (Hbase : 0 < base < 2 ^ 61).

(** Both pairs of macros, on the members. *)
Definition carry_add (s u s2 u2 : Z) : option (Z * Z) :=
  s ← signed (s + s2); n ← signed (u + u2);
  if decide (n >= base) then s ← signed (s + 1); n ← signed (n - base); Some (s, n) else Some (s, n).
Definition borrow_sub (s u s2 u2 : Z) : option (Z * Z) :=
  s ← signed (s - s2); n ← signed (u - u2);
  if decide (n < 0) then s ← signed (s - 1); n ← signed (n + base); Some (s, n) else Some (s, n).

Lemma pair_iff {s u s' u' : Z} : Some (s, u) = Some (s', u') ↔ s = s' ∧ u = u'.
Proof. naive_solver. Qed.

Lemma carry_add_spec s u s2 u2 s' u' :
  normal base s u → normal base s2 u2 →
  carry_add s u s2 u2 = Some (s', u') ↔
  is_i64 (s + s2) ∧ normal base s' u' ∧ value base s' u' = value base s u + value base s2 u2.
Proof.
  intros [Hs Hu] [Hs2 Hu2]. unfold carry_add. rewrite !signed_bind.
  assert (is_i64 (u + u2)) by (unfold is_i64; lia). destruct (decide (u + u2 >= base)).
  - rewrite !signed_bind, pair_iff. rewrite <-(exact_iff base (s + s2 + 1) (u + u2 - base)) by (unfold value; lia).
    assert (is_i64 (u + u2 - base)) by (unfold is_i64 in *; lia). naive_solver.
  - rewrite pair_iff. rewrite <-(exact_iff base (s + s2) (u + u2)) by (unfold value; lia). naive_solver.
Qed.

Lemma borrow_sub_spec s u s2 u2 s' u' :
  normal base s u → normal base s2 u2 →
  borrow_sub s u s2 u2 = Some (s', u') ↔
  is_i64 (s - s2) ∧ normal base s' u' ∧ value base s' u' = value base s u - value base s2 u2.
Proof.
  intros [Hs Hu] [Hs2 Hu2]. unfold borrow_sub. rewrite !signed_bind.
  assert (is_i64 (u - u2)) by (unfold is_i64; lia). destruct (decide (u - u2 < 0)).
  - rewrite !signed_bind, pair_iff. rewrite <-(exact_iff base (s - s2 - 1) (u - u2 + base)) by (unfold value; lia).
    assert (is_i64 (u - u2 + base)) by (unfold is_i64 in *; lia). naive_solver.
  - rewrite pair_iff. rewrite <-(exact_iff base (s - s2) (u - u2)) by (unfold value; lia). naive_solver.
Qed.
End carry.

Definition to_ts (p : Z * Z) : timespec := Timespec p.1 p.2.
Definition to_tv (p : Z * Z) : timeval := Timeval p.1 p.2.

Ltac carry_case := repeat (match goal with |- context [signed ?z] => destruct (signed z); simpl; [|done] end); repeat case_decide; simpl; try done;
  repeat (match goal with |- context [signed ?z] => destruct (signed z); simpl; [|done] end); done.

Lemma timespecadd_carry v u : timespecadd v u = to_ts <$> carry_add 1000000000 (tv_sec v) (tv_nsec v) (tv_sec u) (tv_nsec u).
Proof. unfold timespecadd, carry_add. carry_case. Qed.
Lemma timespecsub_borrow v u : timespecsub v u = to_ts <$> borrow_sub 1000000000 (tv_sec v) (tv_nsec v) (tv_sec u) (tv_nsec u).
Proof. unfold timespecsub, borrow_sub. carry_case. Qed.
Lemma timeradd_carry v u : timeradd v u = to_tv <$> carry_add 1000000 (tvu_sec v) (tv_usec v) (tvu_sec u) (tv_usec u).
Proof. unfold timeradd, carry_add. carry_case. Qed.
Lemma timersub_borrow v u : timersub v u = to_tv <$> borrow_sub 1000000 (tvu_sec v) (tv_usec v) (tvu_sec u) (tv_usec u).
Proof. unfold timersub, borrow_sub. carry_case. Qed.

Lemma to_ts_iff x r : to_ts <$> x = Some r ↔ x = Some (tv_sec r, tv_nsec r).
Proof. destruct r. destruct x as [[]|]; unfold to_ts; naive_solver. Qed.
Lemma to_tv_iff x r : to_tv <$> x = Some r ↔ x = Some (tvu_sec r, tv_usec r).
Proof. destruct r. destruct x as [[]|]; unfold to_tv; naive_solver. Qed.

(** ** Properties *)

(** C21: arithmetic on bintime is exact. On normalised times (seconds of 64 bits
    signed, fraction below 2^64) adding a fraction, adding, subtracting and
    multiplying by an unsigned int give precisely the normalised time with the
    exact value in units of 2^-64 s, and are undefined precisely when a sum of
    seconds leaves the 64 bits on the way: the comparison of the old fraction with
    the new one finds every carry. The last addition of a product wraps, so it is
    exact modulo 2^128. Comparisons and the test for zero are those of the
    values. *)
Theorem bintime_arithmetic (a b r : bintime) (x f : Z) (op : cmp_op)
    (Ha : bt_normal a) (Hb : bt_normal b) (Hf : is_u64 f) (Hx : is_u32 x) :
  (bintime_addx a f = Some r ↔ bt_normal r ∧ bt_value r = bt_value a + f) ∧
  (bintime_add a b = Some r ↔
    is_i64 (bt_sec a + (frac a + frac b) `div` 2 ^ 64) ∧ bt_normal r ∧ bt_value r = bt_value a + bt_value b) ∧
  (bintime_sub a b = Some r ↔
    is_i64 (bt_sec a + (frac a - frac b) `div` 2 ^ 64) ∧ bt_normal r ∧ bt_value r = bt_value a - bt_value b) ∧
  (bintime_mul a x = Some r ↔
    is_i64 (bt_sec a * x) ∧ bt_normal r ∧ bt_value r = i128 (bt_value a * x)) ∧
  bintime_cmp a b op = apply_cmp op (bt_value a) (bt_value b) ∧
  bintime_isset a = bool_decide (bt_value a ≠ 0) ∧ bt_value (bintime_clear a) = 0.
Proof.
  split_and!; [by apply bintime_addx_spec|by apply bintime_add_spec|by apply bintime_sub_spec|by apply bintime_mul_spec|..|done].
  - apply apply_cmp_lex; [apply Ha|apply Hb].
  - apply isset_value; [lia|apply Ha].
Qed.

Lemma bintime_arithmetic_witness :
  bintime_sub (Bintime 5 1) (Bintime 2 3) = Some (Bintime 2 (2 ^ 64 - 2)) ∧
  bintime_cmp (Bintime 5 1) (Bintime 2 3) GT = true.
Proof.
  destruct (bintime_arithmetic (Bintime 5 1) (Bintime 2 3) (Bintime 2 (2 ^ 64 - 2)) 7 9 GT)
    as (_ & _ & Hsub & _ & Hcmp & _); try (apply (bool_decide_unpack _); vm_compute; exact I);
    try (unfold is_u64, is_u32; lia).
  split; [apply Hsub; apply (bool_decide_unpack _); vm_compute; exact I|]. rewrite Hcmp. reflexivity.
Defined.

(** Converting between the time formats rounds down. A bintime becomes a
    normalised timespec or timeval with the same seconds, whose fraction is not
    above the exact one and less than two units below it; later times do not
    become earlier ones. A normalised timespec or timeval becomes a normalised
    bintime that is not later. There and back the fraction is exactly one unit
    smaller, except that zero stays zero. A timeval becomes the timespec of the
    same time, and back to the same timeval. *)
Theorem time_conversions (a b : bintime) (ts : timespec) (tv : timeval)
    (Ha : bt_normal a) (Hb : bt_normal b) (Hts : ts_normal ts) (Htv : tv_normal tv) :
  (ts_normal (bintime2timespec a) ∧
   ts_value (bintime2timespec a) * 2 ^ 64 ≤ bt_value a * 1000000000 < (ts_value (bintime2timespec a) + 2) * 2 ^ 64) ∧
  (tv_normal (bintime2timeval a) ∧
   tv_value (bintime2timeval a) * 2 ^ 64 ≤ bt_value a * 1000000 < (tv_value (bintime2timeval a) + 2) * 2 ^ 64) ∧
  (bt_value a ≤ bt_value b →
    ts_value (bintime2timespec a) ≤ ts_value (bintime2timespec b) ∧
    tv_value (bintime2timeval a) ≤ tv_value (bintime2timeval b)) ∧
  (bt_normal (timespec2bintime ts) ∧ bt_value (timespec2bintime ts) * 1000000000 ≤ ts_value ts * 2 ^ 64) ∧
  (bt_normal (timeval2bintime tv) ∧ bt_value (timeval2bintime tv) * 1000000 ≤ tv_value tv * 2 ^ 64) ∧
  bintime2timespec (timespec2bintime ts) =
    Timespec (tv_sec ts) (if decide (tv_nsec ts = 0) then 0 else tv_nsec ts - 1) ∧
  bintime2timeval (timeval2bintime tv) =
    Timeval (tvu_sec tv) (if decide (tv_usec tv = 0) then 0 else tv_usec tv - 1) ∧
  ∃ ts', TIMEVAL_TO_TIMESPEC tv = Some ts' ∧ ts_normal ts' ∧ ts_value ts' = tv_value tv * 1000 ∧
    TIMESPEC_TO_TIMEVAL ts' = tv.
Proof.
  destruct Ha as [Has Haf], Hb as [Hbs Hbf], Hts as [Htss Htsf], Htv as [Htvs Htvf].
  pose proof (units_range 1000000000 (frac a) ltac:(lia) Haf) as [Hn1 Hn2].
  pose proof (units_range 1000000 (frac a) ltac:(lia) Haf) as [Hu1 Hu2].
  assert (bintime2timespec a = Timespec (bt_sec a) (units 1000000000 (frac a))) as Ets
    by (unfold bintime2timespec; by rewrite units_word by (done || lia)).
  assert (bintime2timeval a = Timeval (bt_sec a) (units 1000000 (frac a))) as Etv
    by (unfold bintime2timeval; by rewrite units_word by (done || lia)).
  refine (conj _ (conj _ (conj _ (conj _ (conj _ (conj _ (conj _ _))))))).
  - rewrite Ets. unfold ts_normal, ts_value, bt_value, normal, value. simpl. split; [done|lia].
  - rewrite Etv. unfold tv_normal, tv_value, bt_value, normal, value. simpl. split; [done|lia].
  - intros Hab. apply (conversions_mono a b); [done|split; done..].
  - by apply timespec2bintime_below.
  - by apply timeval2bintime_below.
  - unfold bintime2timespec, timespec2bintime. simpl. rewrite (nsec_word (tv_nsec ts)) by done.
    rewrite units_word by (unfold is_u64; lia). by rewrite units_nsec.
  - unfold bintime2timeval, timeval2bintime. simpl. rewrite (usec_word (tv_usec tv)) by done.
    rewrite units_word by (unfold is_u64; lia). by rewrite units_usec.
  - exists (Timespec (tvu_sec tv) (tv_usec tv * 1000)). unfold TIMEVAL_TO_TIMESPEC.
    unfold signed. rewrite decide_True by (unfold is_i64; lia).
    destruct tv as [s u]. unfold ts_normal, normal, ts_value, tv_value, value, TIMESPEC_TO_TIMEVAL in *. simpl in *.
    split_and!; [done|done|lia|lia|lia|]. by rewrite Z.quot_mul by lia.
Qed.

Lemma time_conversions_witness :
  bintime2timespec (timespec2bintime (Timespec 7 500000000)) = Timespec 7 499999999 ∧
  bintime2timeval (timeval2bintime (Timeval 7 500000)) = Timeval 7 499999.
Proof.
  destruct (time_conversions (Bintime 0 0) (Bintime 0 0) (Timespec 7 500000000) (Timeval 7 500000))
    as (_ & _ & _ & _ & _ & H1 & H2 & _); try (apply (bool_decide_unpack _); vm_compute; exact I).
  split; [exact H1|exact H2].
Defined.

(** The macros on timespec and timeval are exact. On normalised times
    timespecadd, timespecsub, timeradd and timersub give precisely the normalised
    time with the exact sum or difference, and are undefined precisely when the
    seconds overflow on the way; the comparison macros compare the values, for
    each of the six operators, the tests for zero test the values, and the clear
    macros give the time zero. *)
Theorem timespec_timeval_arithmetic (a b r : timespec) (c d q : timeval) (op : cmp_op)
    (Ha : ts_normal a) (Hb : ts_normal b) (Hc : tv_normal c) (Hd : tv_normal d) :
  (timespecadd a b = Some r ↔
    is_i64 (tv_sec a + tv_sec b) ∧ ts_normal r ∧ ts_value r = ts_value a + ts_value b) ∧
  (timespecsub a b = Some r ↔
    is_i64 (tv_sec a - tv_sec b) ∧ ts_normal r ∧ ts_value r = ts_value a - ts_value b) ∧
  (timeradd c d = Some q ↔
    is_i64 (tvu_sec c + tvu_sec d) ∧ tv_normal q ∧ tv_value q = tv_value c + tv_value d) ∧
  (timersub c d = Some q ↔
    is_i64 (tvu_sec c - tvu_sec d) ∧ tv_normal q ∧ tv_value q = tv_value c - tv_value d) ∧
  timespeccmp a b op = apply_cmp op (ts_value a) (ts_value b) ∧
  timevalcmp c d op = apply_cmp op (tv_value c) (tv_value d) ∧
  timercmp c d op = apply_cmp op (tv_value c) (tv_value d) ∧
  timespecisset a = bool_decide (ts_value a ≠ 0) ∧ timerisset c = bool_decide (tv_value c ≠ 0) ∧
  ts_value (timespecclear a) = 0 ∧ tv_value (timerclear c) = 0.
Proof.
  split_and!; try done.
  - rewrite timespecadd_carry, to_ts_iff. by apply carry_add_spec.
  - rewrite timespecsub_borrow, to_ts_iff. by apply borrow_sub_spec.
  - rewrite timeradd_carry, to_tv_iff. by apply carry_add_spec.
  - rewrite timersub_borrow, to_tv_iff. by apply borrow_sub_spec.
  - apply apply_cmp_lex; [apply Ha|apply Hb].
  - apply apply_cmp_lex; [apply Hc|apply Hd].
  - apply apply_cmp_lex; [apply Hc|apply Hd].
  - apply isset_value; [lia|apply Ha].
  - apply isset_value; [lia|apply Hc].
Qed.

Lemma timespec_timeval_arithmetic_witness :
  timespecadd (Timespec 1 600000000) (Timespec 2 500000000) = Some (Timespec 4 100000000) ∧
  timersub (Timeval 2 1) (Timeval 1 2) = Some (Timeval 0 999999).
Proof.
  destruct (timespec_timeval_arithmetic (Timespec 1 600000000) (Timespec 2 500000000) (Timespec 4 100000000)
    (Timeval 2 1) (Timeval 1 2) (Timeval 0 999999) LT) as (H1 & _ & _ & H2 & _);
    try (apply (bool_decide_unpack _); vm_compute; exact I).
  split; [apply H1|apply H2]; apply (bool_decide_unpack _); vm_compute; exact I.
Defined.
