(* ===== verification/SignalSet.v ===== *)
(** * Signal sets: sys/_sigset.h, sys/signalvar.h

    A [sigset_t] is an array of four 32-bit words; the macros compute the word
    and the bit of a signal and combine sets word by word. They implement sets of
    the signal numbers 1 to 128. *)

From S2P Require Import Prelude Endian.

Definition _SIG_WORDS : nat := 4.
Definition _SIG_MAXSIG : Z := 128.

Definition _SIG_IDX (sig : Z) : Z := sig - 1.
Definition _SIG_WORD (sig : Z) : Z := Z.shiftr (_SIG_IDX sig) 5.
(** An [int]: the bit of the signals 32, 64, 96 and 128 is the sign bit. C leaves
    that shift undefined; here it is the wrapped result that compilers give for
    a constant, as the kernel relies on for its own signal 32. *)
Definition _SIG_BIT (sig : Z) : Z := i32 (Z.shiftl 1 (Z.land (_SIG_IDX sig) 31)).
Definition _SIG_VALID (sig : Z) : bool := (sig <=? _SIG_MAXSIG) && (0 <? sig).

Definition SIGKILL : Z := 9.
Definition SIGSTOP : Z := 17.
Definition SIGTSTP : Z := 18.
Definition SIGCONT : Z := 19.
Definition SIGTTIN : Z := 21.
Definition SIGTTOU : Z := 22.

(** [__bits]; [None] is an access outside the array. *)
Abbreviation sigset := (list Z).

Definition get_word (set : sigset) (i : Z) : option Z :=
  if decide (0 ≤ i) then set !! Z.to_nat i else None.

Definition set_word (set : sigset) (i w : Z) : sigset := <[Z.to_nat i := w]> set.

Definition SIGADDSET (set : sigset) (signo : Z) : option sigset :=
  w ← get_word set (_SIG_WORD signo);
  Some (set_word set (_SIG_WORD signo) (u32 (Z.lor w (u32 (_SIG_BIT signo))))).

Definition SIGDELSET (set : sigset) (signo : Z) : option sigset :=
  w ← get_word set (_SIG_WORD signo);
  Some (set_word set (_SIG_WORD signo) (u32 (Z.land w (u32 (Z.lnot (_SIG_BIT signo)))))).

Definition SIGISMEMBER (set : sigset) (signo : Z) : option Z :=
  w ← get_word set (_SIG_WORD signo); Some (Z.land w (u32 (_SIG_BIT signo))).

Definition SIGEMPTYSET : sigset := replicate _SIG_WORDS 0.
Definition SIGFILLSET : sigset := replicate _SIG_WORDS (u32 (Z.lnot 0)).

Definition SIGSETOR (set1 set2 : sigset) : sigset := zip_with Z.lor set1 set2.
Definition SIGSETAND (set1 set2 : sigset) : sigset := zip_with Z.land set1 set2.
Definition SIGSETNAND (set1 set2 : sigset) : sigset :=
  zip_with (λ a b, Z.land a (u32 (Z.lnot b))) set1 set2.

(** The loops with an early [return (0)]. *)
Fixpoint sigisempty_loop (set : sigset) : Z :=
  match set with
  | [] => 1
  | w :: set => if decide (w ≠ 0) then 0 else sigisempty_loop set
  end.
Definition __sigisempty (set : sigset) : Z := sigisempty_loop (take _SIG_WORDS set).

Fixpoint sigseteq_loop (set1 set2 : sigset) : Z :=
  match set1, set2 with
  | a :: set1, b :: set2 => if decide (a ≠ b) then 0 else sigseteq_loop set1 set2
  | _, _ => 1
  end.
Definition __sigseteq (set1 set2 : sigset) : Z :=
  sigseteq_loop (take _SIG_WORDS set1) (take _SIG_WORDS set2).

Fixpoint sigsetmasked_loop (set mask : sigset) : Z :=
  match set, mask with
  | a :: set, b :: mask =>
      if decide (Z.land a (u32 (Z.lnot b)) ≠ 0) then 0 else sigsetmasked_loop set mask
  | _, _ => 1
  end.
Definition sigsetmasked (set mask : sigset) : Z :=
  sigsetmasked_loop (take _SIG_WORDS set) (take _SIG_WORDS mask).

Definition SIGISEMPTY (set : sigset) : bool := negb (__sigisempty set =? 0).
Definition SIGNOTEMPTY (set : sigset) : bool := __sigisempty set =? 0.
Definition SIGSETEQ (set1 set2 : sigset) : bool := negb (__sigseteq set1 set2 =? 0).
Definition SIGSETNEQ (set1 set2 : sigset) : bool := __sigseteq set1 set2 =? 0.

Definition SIG_CANTMASK (set : sigset) : option sigset :=
  set ← SIGDELSET set SIGKILL; SIGDELSET set SIGSTOP.
Definition SIG_STOPSIGMASK (set : sigset) : option sigset :=
  set ← SIGDELSET set SIGSTOP; set ← SIGDELSET set SIGTSTP;
  set ← SIGDELSET set SIGTTIN; SIGDELSET set SIGTTOU.
Definition SIG_CONTSIGMASK (set : sigset) : option sigset := SIGDELSET set SIGCONT.

(** An unmasked signal is pending for the thread or for its process. *)
Definition SIGPENDING (td_siglist td_sigmask p_siglist : sigset) : bool :=
  (negb (SIGISEMPTY td_siglist) && (sigsetmasked td_siglist td_sigmask =? 0))
  || (negb (SIGISEMPTY p_siglist) && (sigsetmasked p_siglist td_sigmask =? 0)).

(** ** The set a [sigset_t] stands for *)

Definition wf (set : sigset) : Prop := length set = _SIG_WORDS ∧ Forall is_u32 set.

Definition has (set : sigset) (sig : Z) : bool :=
  Z.testbit (set !!! Z.to_nat (_SIG_WORD sig)) ((sig - 1) `mod` 32).

(** ** Lemmas *)

#[local] Ltac Zify.zify_post_hook ::= Z.to_euclidean_division_equations.

Lemma sig_word sig : _SIG_WORD sig = (sig - 1) `div` 32.
Proof. unfold _SIG_WORD, _SIG_IDX. by rewrite Z.shiftr_div_pow2. Qed.

Lemma sig_bit sig : u32 (_SIG_BIT sig) = 2 ^ ((sig - 1) `mod` 32).
Proof.
  unfold _SIG_BIT, _SIG_IDX. rewrite u32_i32, Z.shiftl_1_l. change 31 with (Z.ones 5).
  rewrite Z.land_ones by lia. apply u32_id. unfold is_u32. change (2 ^ 5) with 32.
  pose proof (Z.mod_pos_bound (sig - 1) 32 ltac:(lia)). split; [lia|]. apply Z.pow_lt_mono_r; lia.
Qed.

Lemma u32_lnot z : u32 (Z.lnot z) = Z.lnot (u32 z) `mod` 2 ^ 32.
Proof.
  unfold u32. apply Z.bits_inj'. intros k Hk. rewrite !bit_mod, !Z.lnot_spec, bit_mod by lia.
  case_bool_decide; [|done]. by rewrite andb_true_l.
Qed.

Lemma sig_not_bit sig n :
  0 ≤ n < 32 → Z.testbit (u32 (Z.lnot (_SIG_BIT sig))) n = negb (bool_decide (n = (sig - 1) `mod` 32)).
Proof.
  intros Hn. pose proof (Z.mod_pos_bound (sig - 1) 32). rewrite u32_lnot, sig_bit, bit_mod, Z.lnot_spec, Z.pow2_bits_eqb by lia.
  rewrite bool_decide_eq_true_2 by lia. simpl. f_equal. case_bool_decide; lia.
Qed.

(** The word and the bit identify the signal. *)
Lemma sig_split s t :
  (s - 1) `div` 32 = (t - 1) `div` 32 → (s - 1) `mod` 32 = (t - 1) `mod` 32 → s = t.
Proof. intros Hd Hm. pose proof (Z.div_mod (s - 1) 32). pose proof (Z.div_mod (t - 1) 32). lia. Qed.

Lemma valid_spec sig : _SIG_VALID sig = true ↔ 1 ≤ sig ≤ 128.
Proof. unfold _SIG_VALID, _SIG_MAXSIG. lia. Qed.

Lemma valid_word sig : _SIG_VALID sig = true → 0 ≤ _SIG_WORD sig < 4.
Proof. rewrite valid_spec, sig_word. intros. lia. Qed.

Lemma get_word_valid set sig :
  wf set → _SIG_VALID sig = true →
  ∃ w, set !! Z.to_nat (_SIG_WORD sig) = Some w ∧ get_word set (_SIG_WORD sig) = Some w ∧ is_u32 w.
Proof.
  intros [Hl Hw] Hv. pose proof (valid_word sig Hv) as Hi.
  destruct (set !! Z.to_nat (_SIG_WORD sig)) as [w|] eqn:E.
  - exists w. split_and!; [done|by unfold get_word; rewrite decide_True by lia|].
    by eapply Forall_lookup_1.
  - apply lookup_ge_None in E. unfold _SIG_WORDS in *. lia.
Qed.

Lemma u32_bit_high w n : is_u32 w → 32 ≤ n → Z.testbit w n = false.
Proof. intros Hw Hn. eapply (bit_above _ 32); [exact Hw|lia]. Qed.

(** Changing the word of one signal. *)
Lemma has_set_word set sig w w' t (f : bool → bool) :
  wf set → _SIG_VALID sig = true → _SIG_VALID t = true →
  set !! Z.to_nat (_SIG_WORD sig) = Some w →
  (∀ n, 0 ≤ n < 32 → Z.testbit w' n =
     if bool_decide (n = (sig - 1) `mod` 32) then f (Z.testbit w n) else Z.testbit w n) →
  has (set_word set (_SIG_WORD sig) w') t = if bool_decide (t = sig) then f (has set t) else has set t.
Proof.
  intros Hwf Hs Ht Hw Hbits. unfold has, set_word.
  pose proof (valid_word sig Hs). pose proof (valid_word t Ht).
  destruct (decide (_SIG_WORD t = _SIG_WORD sig)) as [E|E].
  - rewrite E, list_lookup_total_insert_eq by (by eapply lookup_lt_Some).
    rewrite (list_lookup_total_correct _ _ _ Hw), Hbits by (apply Z.mod_pos_bound; lia).
    rewrite !sig_word in E. repeat case_bool_decide; try done.
    + exfalso. eauto using sig_split.
    + subst. done.
  - rewrite list_lookup_total_insert_ne by lia. rewrite bool_decide_eq_false_2; [done|]. by intros ->.
Qed.

Lemma wf_set_word set i w : wf set → is_u32 w → wf (set_word set i w).
Proof.
  intros [Hl Hw] Hu. split; [by unfold set_word; rewrite length_insert|]. by apply Forall_insert.
Qed.

Lemma has_ext set1 set2 :
  wf set1 → wf set2 → (∀ s, _SIG_VALID s = true → has set1 s = has set2 s) → set1 = set2.
Proof.
  intros [Hl1 Hw1] [Hl2 Hw2] Hs. apply list_eq_same_length with (n := 4%nat); [done..|].
  intros i a b Hi Ha Hb. pose proof (proj1 (Forall_lookup _ _) Hw1 _ _ Ha) as Hua.
  pose proof (proj1 (Forall_lookup _ _) Hw2 _ _ Hb) as Hub.
  apply Z.bits_inj'. intros k Hk. destruct (decide (k < 32)) as [Hk'|Hk'].
  - specialize (Hs (32 * Z.of_nat i + k + 1) ltac:(apply valid_spec; lia)). unfold has in Hs.
    rewrite sig_word in Hs.
    replace ((32 * Z.of_nat i + k + 1 - 1) `div` 32) with (Z.of_nat i) in Hs by lia.
    replace ((32 * Z.of_nat i + k + 1 - 1) `mod` 32) with k in Hs by lia.
    rewrite Nat2Z.id in Hs.
    by rewrite (list_lookup_total_correct _ _ _ Ha), (list_lookup_total_correct _ _ _ Hb) in Hs.
  - by rewrite !u32_bit_high by (done || lia).
Qed.

Lemma sigaddset_spec set sig :
  wf set → _SIG_VALID sig = true →
  ∃ set', SIGADDSET set sig = Some set' ∧ wf set' ∧
    ∀ t, _SIG_VALID t = true → has set' t = bool_decide (t = sig) || has set t.
Proof.
  intros Hwf Hv. destruct (get_word_valid set sig Hwf Hv) as (w & Hl & Hg & Hw).
  unfold SIGADDSET. rewrite Hg. eexists. split; [done|].
  split; [apply wf_set_word; [done|apply u32_range]|]. intros t Ht.
  rewrite (has_set_word set sig w _ t (λ _, true)); try done.
  intros n Hn. unfold u32 at 1. rewrite bit_mod, Z.lor_spec, sig_bit, Z.pow2_bits_eqb by lia.
  rewrite bool_decide_eq_true_2 by lia. rewrite andb_true_l. rewrite orb_comm. case_bool_decide as E.
  - by rewrite (proj2 (Z.eqb_eq _ _)) by lia.
  - by rewrite (proj2 (Z.eqb_neq _ _)) by lia.
Qed.

Lemma sigdelset_spec set sig :
  wf set → _SIG_VALID sig = true →
  ∃ set', SIGDELSET set sig = Some set' ∧ wf set' ∧
    ∀ t, _SIG_VALID t = true → has set' t = negb (bool_decide (t = sig)) && has set t.
Proof.
  intros Hwf Hv. destruct (get_word_valid set sig Hwf Hv) as (w & Hl & Hg & Hw).
  unfold SIGDELSET. rewrite Hg. eexists. split; [done|].
  split; [apply wf_set_word; [done|apply u32_range]|]. intros t Ht.
  rewrite (has_set_word set sig w _ t (λ _, false)); try done; [by case_bool_decide|].
  intros n Hn. unfold u32 at 1. rewrite bit_mod, Z.land_spec, sig_not_bit by lia.
  rewrite bool_decide_eq_true_2 by lia. rewrite andb_true_l, andb_comm. by case_bool_decide.
Qed.

Lemma sigismember_spec set sig :
  wf set → _SIG_VALID sig = true →
  ∃ r, SIGISMEMBER set sig = Some r ∧ (r ≠ 0 ↔ has set sig = true).
Proof.
  intros Hwf Hv. destruct (get_word_valid set sig Hwf Hv) as (w & Hl & Hg & Hw).
  unfold SIGISMEMBER. rewrite Hg. eexists. split; [done|].
  unfold has. rewrite (list_lookup_total_correct _ _ _ Hl), sig_bit.
  set (k := (sig - 1) `mod` 32). assert (0 ≤ k) by (subst k; lia). split.
  - intros Hne. destruct (Z.testbit w k) eqn:E; [done|]. exfalso. apply Hne, Z.bits_inj'. intros n Hn.
    rewrite Z.bits_0, Z.land_spec, Z.pow2_bits_eqb by done.
    destruct (Z.eqb_spec k n) as [<-|]; [by rewrite E|apply andb_false_r].
  - intros E Hz. assert (Z.testbit (Z.land w (2 ^ k)) k = true) as Hb
      by (by rewrite Z.land_spec, Z.pow2_bits_true, E by done).
    by rewrite Hz, Z.bits_0 in Hb.
Qed.

(** A word-by-word combination of two sets. *)
Lemma zip_with_spec (f : Z → Z → Z) (g : bool → bool → bool) set1 set2 :
  wf set1 → wf set2 → (∀ a b, is_u32 a → is_u32 b → is_u32 (f a b)) →
  (∀ a b n, 0 ≤ n < 32 → Z.testbit (f a b) n = g (Z.testbit a n) (Z.testbit b n)) →
  wf (zip_with f set1 set2) ∧
  ∀ s, _SIG_VALID s = true → has (zip_with f set1 set2) s = g (has set1 s) (has set2 s).
Proof.
  intros Hwf1 Hwf2 Hf Hg. pose proof Hwf1 as [Hl1 Hw1]. pose proof Hwf2 as [Hl2 Hw2]. split.
  - split; [rewrite length_zip_with, Hl1, Hl2; done|]. apply Forall_lookup_2. intros i w Hi.
    apply lookup_zip_with_Some in Hi as (a & b & -> & Ha & Hb).
    apply Hf; [by eapply (Forall_lookup_1 _ set1)|by eapply (Forall_lookup_1 _ set2)].
  - intros s Hs. destruct (get_word_valid set1 s Hwf1 Hs) as (a & Ha & _ & _).
    destruct (get_word_valid set2 s Hwf2 Hs) as (b & Hb & _ & _). unfold has.
    rewrite (list_lookup_total_correct _ _ (f a b)) by (rewrite lookup_zip_with, Ha; simpl; by rewrite Hb).
    rewrite (list_lookup_total_correct _ _ _ Ha), (list_lookup_total_correct _ _ _ Hb).
    apply Hg, Z.mod_pos_bound. lia.
Qed.

Lemma u32_bits a : (∀ n, 32 ≤ n → Z.testbit a n = false) → 0 ≤ a → is_u32 a.
Proof.
  intros Hb Ha. replace a with (a `mod` 2 ^ 32); [apply Z.mod_pos_bound; lia|].
  apply Z.bits_inj'. intros n Hn. rewrite bit_mod by lia. case_bool_decide; [done|]. by rewrite Hb by lia.
Qed.

Lemma u32_lor a b : is_u32 a → is_u32 b → is_u32 (Z.lor a b).
Proof.
  intros Ha Hb. apply u32_bits; [|apply Z.lor_nonneg; unfold is_u32 in *; lia].
  intros n Hn. by rewrite Z.lor_spec, !u32_bit_high.
Qed.

Lemma u32_land a b : is_u32 a → 0 ≤ b → is_u32 (Z.land a b).
Proof.
  intros Ha Hb. apply u32_bits; [|apply Z.land_nonneg; by right].
  intros n Hn. by rewrite Z.land_spec, u32_bit_high.
Qed.

Lemma sigsetor_spec set1 set2 :
  wf set1 → wf set2 → wf (SIGSETOR set1 set2) ∧
  ∀ s, _SIG_VALID s = true → has (SIGSETOR set1 set2) s = has set1 s || has set2 s.
Proof. intros ??. apply zip_with_spec; [done..|by apply u32_lor|]. intros. apply Z.lor_spec. Qed.

Lemma sigsetand_spec set1 set2 :
  wf set1 → wf set2 → wf (SIGSETAND set1 set2) ∧
  ∀ s, _SIG_VALID s = true → has (SIGSETAND set1 set2) s = has set1 s && has set2 s.
Proof.
  intros ??. apply zip_with_spec; [done..| |intros; apply Z.land_spec].
  intros a b Ha Hb. apply u32_land; [done|apply Hb].
Qed.

Lemma sigsetnand_spec set1 set2 :
  wf set1 → wf set2 → wf (SIGSETNAND set1 set2) ∧
  ∀ s, _SIG_VALID s = true → has (SIGSETNAND set1 set2) s = has set1 s && negb (has set2 s).
Proof.
  intros ??. apply (zip_with_spec _ (λ a b, a && negb b)); [done..| |].
  - intros a b Ha Hb. apply u32_land; [done|]. apply u32_range.
  - intros a b n Hn. unfold u32. rewrite Z.land_spec, bit_mod, Z.lnot_spec by lia.
    by rewrite bool_decide_eq_true_2 by lia.
Qed.

Lemma wf_empty : wf SIGEMPTYSET.
Proof. split; [done|]. by repeat constructor. Qed.

Lemma valid_case (P : Z → bool) s :
  forallb P (seqZ 1 128) = true → _SIG_VALID s = true → P s = true.
Proof. intros HP Hs%valid_spec. eapply table_forall; [exact HP|]. apply elem_of_seqZ. lia. Qed.

Lemma has_empty s : _SIG_VALID s = true → has SIGEMPTYSET s = false.
Proof. intros Hs. apply negb_true_iff. by apply (valid_case (λ s, negb (has SIGEMPTYSET s))); [vm_compute|]. Qed.

Lemma has_fill s : _SIG_VALID s = true → has SIGFILLSET s = true.
Proof. by apply valid_case; vm_compute. Qed.

Lemma wf_take set : wf set → take _SIG_WORDS set = set.
Proof. intros [Hl _]. by apply take_ge; rewrite Hl. Qed.

Lemma sigisempty_loop_spec n set :
  length set = n → sigisempty_loop set = if decide (set = replicate n 0) then 1 else 0.
Proof.
  revert n. induction set as [|w set IH]; intros n <-; [done|]. simpl.
  rewrite (IH _ eq_refl). destruct (decide (w = 0)) as [->|Hw].
  - rewrite (decide_False (P := 0 ≠ 0)) by naive_solver. repeat case_decide; try done; congruence.
  - rewrite decide_True by done. rewrite decide_False by congruence. done.
Qed.

Lemma sigisempty_spec set :
  wf set → SIGISEMPTY set = true ↔ ∀ s, _SIG_VALID s = true → has set s = false.
Proof.
  intros Hwf. unfold SIGISEMPTY, __sigisempty. rewrite wf_take by done.
  rewrite (sigisempty_loop_spec 4) by apply Hwf. case_decide as E; simpl.
  - rewrite E. split; [|done]. intros _ s. by apply has_empty.
  - split; [done|]. intros Hs. exfalso. apply E. apply (has_ext set SIGEMPTYSET); [done|apply wf_empty|].
    intros s Hv. by rewrite has_empty, Hs.
Qed.

Lemma sigseteq_spec set1 set2 :
  wf set1 → wf set2 → SIGSETEQ set1 set2 = true ↔ ∀ s, _SIG_VALID s = true → has set1 s = has set2 s.
Proof.
  intros Hwf1 Hwf2. unfold SIGSETEQ, __sigseteq. rewrite !wf_take by done.
  assert (∀ l1 l2, length l1 = length l2 → sigseteq_loop l1 l2 = if decide (l1 = l2) then 1 else 0) as Hloop.
  { intros l1. induction l1 as [|a l1 IH]; intros [|b l2] Hl; try done. simpl.
    injection Hl as Hl. rewrite (IH _ Hl). destruct (decide (a = b)) as [->|Hab].
    - rewrite (decide_False (P := b ≠ b)) by naive_solver. repeat case_decide; try done; congruence.
    - rewrite decide_True by done. rewrite decide_False by congruence. done. }
  rewrite Hloop by (transitivity 4%nat; [apply Hwf1|symmetry; apply Hwf2]).
  case_decide as E; simpl; [by subst|]. split; [done|]. intros Hs. exfalso. by apply E, has_ext.
Qed.

(** The pending signals are all masked: as the comment says, the value of
    [SIGISEMPTY] on the result of [SIGSETNAND]. *)
Lemma sigsetmasked_nand set mask :
  wf set → wf mask → sigsetmasked set mask = __sigisempty (SIGSETNAND set mask).
Proof.
  intros Hwf1 Hwf2. unfold sigsetmasked, __sigisempty.
  rewrite !wf_take by (done || by apply sigsetnand_spec).
  unfold SIGSETNAND. clear. revert mask. induction set as [|a set IH]; intros [|b mask]; try done.
  simpl. by rewrite IH.
Qed.

Lemma sigsetmasked_spec set mask :
  wf set → wf mask →
  (sigsetmasked set mask =? 0) = false ↔
  ∀ s, _SIG_VALID s = true → has set s = true → has mask s = true.
Proof.
  intros Hwf1 Hwf2. rewrite sigsetmasked_nand by done.
  destruct (sigsetnand_spec set mask Hwf1 Hwf2) as [Hwf Hhas].
  pose proof (sigisempty_spec _ Hwf) as He. unfold SIGISEMPTY in He. rewrite negb_true_iff in He.
  rewrite He. split; intros H s Hv.
  - intros Hs. specialize (H s Hv). rewrite Hhas, Hs in H by done. by destruct (has mask s).
  - rewrite Hhas by done. specialize (H s Hv). destruct (has set s), (has mask s); naive_solver.
Qed.

(** Removing several signals one after the other. *)
Fixpoint remove_all (sigs : list Z) (set : sigset) : option sigset :=
  match sigs with
  | [] => Some set
  | [s] => SIGDELSET set s
  | s :: sigs => set ← SIGDELSET set s; remove_all sigs set
  end.

Lemma remove_all_cons s sigs set : remove_all (s :: sigs) set = SIGDELSET set s ≫= remove_all sigs.
Proof. destruct sigs; [|done]. simpl. by destruct (SIGDELSET set s). Qed.

Lemma remove_all_spec sigs set :
  wf set → Forall (λ s, _SIG_VALID s = true) sigs →
  ∃ set', remove_all sigs set = Some set' ∧ wf set' ∧
    ∀ t, _SIG_VALID t = true → has set' t = bool_decide (t ∉ sigs) && has set t.
Proof.
  intros Hwf Hs. revert set Hwf. induction Hs as [|s sigs Hv _ IH]; intros set Hwf.
  - exists set. split_and!; [done..|]. intros t _. by rewrite bool_decide_eq_true_2 by apply not_elem_of_nil.
  - destruct (sigdelset_spec set s Hwf Hv) as (set1 & E & Hwf1 & H1).
    destruct (IH set1 Hwf1) as (set2 & E2 & Hwf2 & H2). exists set2. rewrite remove_all_cons, E. simpl.
    split_and!; [done..|]. intros t Ht. rewrite H2, H1 by done.
    destruct (decide (t = s)) as [->|Hne].
    + rewrite (bool_decide_eq_true_2 (s = s)) by done. simpl.
      rewrite (bool_decide_eq_false_2 (s ∉ s :: sigs)) by (intros Hn; apply Hn; left).
      by rewrite andb_false_r.
    + rewrite (bool_decide_eq_false_2 (t = s)) by done. simpl. f_equal. apply bool_decide_ext. set_solver.
Qed.

Lemma sigpending_spec td_siglist td_sigmask p_siglist :
  wf td_siglist → wf td_sigmask → wf p_siglist →
  SIGPENDING td_siglist td_sigmask p_siglist = true ↔
  ∃ s, _SIG_VALID s = true ∧ (has td_siglist s || has p_siglist s) = true ∧ has td_sigmask s = false.
Proof.
  intros Ht Hm Hp.
  assert (∀ l, wf l → negb (SIGISEMPTY l) && (sigsetmasked l td_sigmask =? 0) = true ↔
    ∃ s, _SIG_VALID s = true ∧ has l s = true ∧ has td_sigmask s = false) as Hone.
  { intros l Hl. rewrite andb_true_iff, negb_true_iff. split.
    - intros [_ Hmask]. destruct (decide (Exists (λ s, has l s = true ∧ has td_sigmask s = false) (seqZ 1 128)))
        as [(s & Hs & ? & ?)%Exists_exists|Hno].
      { exists s. split_and!; [|done..]. apply valid_spec. apply elem_of_seqZ in Hs. lia. }
      exfalso. enough ((sigsetmasked l td_sigmask =? 0) = false) by congruence.
      apply sigsetmasked_spec; [done..|]. intros s Hv%valid_spec Hs.
      destruct (has td_sigmask s) eqn:E; [done|]. exfalso. apply Hno, Exists_exists. exists s.
      split_and!; [apply elem_of_seqZ; lia|done..].
    - intros (s & Hv & Hs & Hms). split.
      + apply not_true_is_false. intros He. by rewrite (proj1 (sigisempty_spec l Hl) He) in Hs.
      + apply not_false_is_true. intros Hf.
        by rewrite (proj1 (sigsetmasked_spec l td_sigmask Hl Hm) Hf s Hv Hs) in Hms. }
  unfold SIGPENDING. rewrite orb_true_iff, (Hone td_siglist Ht), (Hone p_siglist Hp).
  split.
  - intros [(s & ? & Hs & ?)|(s & ? & Hs & ?)]; exists s; by rewrite Hs, ?orb_true_r.
  - intros (s & ? & [?|?]%orb_true_iff & ?); [left|right]; by exists s.
Qed.

(** ** The contract *)

(** C33: [sigset_t] is a set of the signals 1 to 128. Exactly for the valid
    signals the macros stay inside the array. Adding and deleting a signal,
    testing it, uniting, intersecting and subtracting sets, the empty set, the
    full set, the tests for emptiness and equality are those of sets of signals
    and keep four 32-bit words; [sigsetmasked] tells inclusion in the mask, as its
    uses need, which is the opposite of the value its comment gives;
    [SIG_CANTMASK] removes just SIGKILL and SIGSTOP, [SIG_STOPSIGMASK] the four
    stop signals, [SIG_CONTSIGMASK] SIGCONT; [SIGPENDING] holds when the thread
    or its process has a pending signal that the mask lacks. For the signals 32,
    64, 96 and 128, whose bit is shifted into the sign of an int, this is with the
    wrapped result of the shift, which C leaves undefined. *)
Theorem signal_set_contract (set1 set2 p_siglist : sigset)
    (Hwf1 : wf set1) (Hwf2 : wf set2) (Hwfp : wf p_siglist) :
  (∀ s, is_Some (SIGISMEMBER set1 s) ↔ _SIG_VALID s = true) ∧
  (∀ s, _SIG_VALID s = true → ∃ r, SIGISMEMBER set1 s = Some r ∧ (r ≠ 0 ↔ has set1 s = true)) ∧
  (∀ s, _SIG_VALID s = true → ∃ set', SIGADDSET set1 s = Some set' ∧ wf set' ∧
     ∀ t, _SIG_VALID t = true → has set' t = bool_decide (t = s) || has set1 t) ∧
  (∀ s, _SIG_VALID s = true → ∃ set', SIGDELSET set1 s = Some set' ∧ wf set' ∧
     ∀ t, _SIG_VALID t = true → has set' t = negb (bool_decide (t = s)) && has set1 t) ∧
  (wf (SIGSETOR set1 set2) ∧ wf (SIGSETAND set1 set2) ∧ wf (SIGSETNAND set1 set2)) ∧
  (∀ s, _SIG_VALID s = true →
     has SIGEMPTYSET s = false ∧ has SIGFILLSET s = true ∧
     has (SIGSETOR set1 set2) s = has set1 s || has set2 s ∧
     has (SIGSETAND set1 set2) s = has set1 s && has set2 s ∧
     has (SIGSETNAND set1 set2) s = has set1 s && negb (has set2 s)) ∧
  (SIGISEMPTY set1 = true ↔ ∀ s, _SIG_VALID s = true → has set1 s = false) ∧
  (SIGSETEQ set1 set2 = true ↔ ∀ s, _SIG_VALID s = true → has set1 s = has set2 s) ∧
  (sigsetmasked set1 set2 ≠ 0 ↔ ∀ s, _SIG_VALID s = true → has set1 s = true → has set2 s = true) ∧
  (∃ a b c, SIG_CANTMASK set1 = Some a ∧ SIG_STOPSIGMASK set1 = Some b ∧ SIG_CONTSIGMASK set1 = Some c ∧
     ∀ s, _SIG_VALID s = true →
       has a s = bool_decide (s ∉ [9; 17]) && has set1 s ∧
       has b s = bool_decide (s ∉ [17; 18; 21; 22]) && has set1 s ∧
       has c s = bool_decide (s ∉ [19]) && has set1 s) ∧
  (SIGPENDING set1 set2 p_siglist = true ↔
     ∃ s, _SIG_VALID s = true ∧ (has set1 s || has p_siglist s) = true ∧ has set2 s = false).
Proof.
  split_and!.
  - intros s. split; [|intros Hv; destruct (sigismember_spec set1 s Hwf1 Hv) as (r & -> & _); by eexists].
    intros [r E]. unfold SIGISMEMBER, get_word in E. case_decide as Hi; [|done].
    destruct (set1 !! Z.to_nat (_SIG_WORD s)) as [w|] eqn:El; [|done].
    apply lookup_lt_Some in El. destruct Hwf1 as [Hl _]. rewrite Hl in El. unfold _SIG_WORDS in El.
    apply valid_spec. rewrite sig_word in *. lia.
  - intros s. by apply sigismember_spec.
  - intros s. by apply sigaddset_spec.
  - intros s. by apply sigdelset_spec.
  - by apply sigsetor_spec.
  - by apply sigsetand_spec.
  - by apply sigsetnand_spec.
  - intros s Hv. split_and!; [by apply has_empty|by apply has_fill|by apply sigsetor_spec
      |by apply sigsetand_spec|by apply sigsetnand_spec].
  - by apply sigisempty_spec.
  - by apply sigseteq_spec.
  - rewrite <-sigsetmasked_spec, Z.eqb_neq by done. done.
  - destruct (remove_all_spec [SIGKILL; SIGSTOP] set1 Hwf1) as (a & Ea & _ & Ha); [by repeat constructor|].
    destruct (remove_all_spec [SIGSTOP; SIGTSTP; SIGTTIN; SIGTTOU] set1 Hwf1) as (b & Eb & _ & Hb);
      [by repeat constructor|].
    destruct (remove_all_spec [SIGCONT] set1 Hwf1) as (c & Ec & _ & Hc); [by repeat constructor|].
    exists a, b, c. split_and!; [exact Ea|exact Eb|exact Ec|]. intros s Hv. by rewrite Ha, Hb, Hc.
  - by apply sigpending_spec.
Qed.

(** SIGINT and SIGKILL are pending, SIGINT is masked. *)
Lemma signal_set_contract_witness :
  let pending := [258; 0; 0; 0] in let mask := [2; 0; 0; 0] in
  SIGPENDING pending mask SIGEMPTYSET = true ∧ sigsetmasked pending mask = 0 ∧
  SIG_CANTMASK pending = Some [2; 0; 0; 0] ∧
  (∃ s, _SIG_VALID s = true ∧ (has pending s || has SIGEMPTYSET s) = true ∧ has mask s = false).
Proof.
  intros pending mask. split_and!; [reflexivity..|].
  assert (wf pending ∧ wf mask) as [Hp Hm] by (split; (split; [reflexivity|by repeat constructor])).
  apply (signal_set_contract pending mask SIGEMPTYSET Hp Hm wf_empty). reflexivity.
Defined.
