(* ===== verification/GeomMd.v ===== *)
(** * On-disk metadata of GEOM classes: what their codecs share

    A metadata sector is a sequence of little-endian fields, for some classes
    followed by an MD5 sum of them. [field] and [image] describe such a sequence
    abstractly; the lemmas run an encoder or a decoder, statement by statement,
    over a buffer that starts with an image. *)

From S2P Require Import Prelude Endian.

(** ** Fields *)

Inductive field : Type :=
  | U8 (z : Z) | U16 (z : Z) | U32 (z : Z) | S32 (z : Z) | U64 (z : Z)
  | Bytes (n : nat) (bs : list Z).

Definition field_size (f : field) : nat :=
  match f with
  | U8 _ => 1 | U16 _ => 2 | U32 _ | S32 _ => 4 | U64 _ => 8 | Bytes n _ => n
  end%nat.

Definition field_image (f : field) : list Z :=
  match f with
  | U8 z => [z]
  | U16 z => le_bytes 2 z
  | U32 z | S32 z => le_bytes 4 z
  | U64 z => le_bytes 8 z
  | Bytes _ bs => bs
  end.

(** The value fits its field. *)
Definition field_ok (f : field) : Prop :=
  match f with
  | U8 z => is_u8 z
  | U16 z => 0 ≤ z < 2 ^ 16
  | U32 z => is_u32 z
  | S32 z => is_i32 z
  | U64 z => is_u64 z
  | Bytes n bs => length bs = n ∧ bytes_ok bs
  end.

#[global] Instance field_ok_dec f : Decision (field_ok f).
Proof. destruct f; unfold field_ok, is_u8, is_u32, is_i32, is_u64; apply _. Defined.

Definition image (fs : list field) : list Z := concat (field_image <$> fs).
Definition image_size (fs : list field) : nat := sum_list_with field_size fs.

(** MD5: [MD5Init], [MD5Update] over a buffer, [MD5Final]. *)
Class Md5 : Type := {
  MD5 : list Z → list Z;
  MD5_length : ∀ d, length (MD5 d) = 16%nat;
  MD5_bytes : ∀ d, bytes_ok (MD5 d)
}.

Definition md5_of {MD : Md5} (n : nat) : M (list Z) (list Z) := λ d,
  if decide (n ≤ length d)%nat then Ok (MD5 (take n d), d) else Undef OutOfBounds.

(** ** Images *)

Lemma length_field_image f : field_ok f → length (field_image f) = field_size f.
Proof. destruct f; simpl; intros Hf; rewrite ?length_le_bytes by done; by try destruct Hf. Qed.

Lemma length_image fs : Forall field_ok fs → length (image fs) = image_size fs.
Proof.
  induction 1 as [|f fs Hf _ IH]; [done|]. unfold image, image_size in *.
  rewrite fmap_cons. simpl. by rewrite length_app, length_field_image, IH.
Qed.

Lemma image_app fs gs : image (fs ++ gs) = image fs ++ image gs.
Proof. unfold image. by rewrite fmap_app, concat_app. Qed.

Lemma image_size_app fs gs : image_size (fs ++ gs) = (image_size fs + image_size gs)%nat.
Proof. apply sum_list_with_app. Qed.

Lemma image_single f : image [f] = field_image f.
Proof. unfold image. simpl. by rewrite app_nil_r. Qed.

Lemma image_bytes fs : Forall field_ok fs → bytes_ok (image fs).
Proof.
  unfold image. intros Hfs. apply Forall_concat, Forall_fmap. eapply Forall_impl; [done|].
  intros [z|z|z|z|z|n bs] Hf; simpl in *; try (by apply le_bytes_ok). - by constructor. - by destruct Hf.
Qed.

(** ** Writing the next field *)

Lemma put_field (m : M (list Z) unit) off f fs data :
  writes m off (field_image f) → field_ok f → Forall field_ok fs → off = image_size fs →
  (off + field_size f ≤ length data)%nat →
  m (image fs ++ drop (image_size fs) data) =
  Ok (tt, image (fs ++ [f]) ++ drop (image_size (fs ++ [f])) data).
Proof.
  intros Hm Hf Hfs -> Hlen. rewrite image_app, image_single, image_size_app, <- app_assoc.
  rewrite <- (take_drop (field_size f) (drop (image_size fs) data)), drop_drop.
  assert (image_size [f] = field_size f) as -> by (unfold image_size; simpl; lia).
  apply Hm; [by apply length_image|].
  rewrite length_take, length_drop, length_field_image by done. lia.
Qed.

Lemma put_step {B} (m : M (list Z) unit) (k : unit → M (list Z) B) off f fs data :
  writes m off (field_image f) → field_ok f → Forall field_ok fs → off = image_size fs →
  (off + field_size f ≤ length data)%nat →
  (m ≫= k) (image fs ++ drop (image_size fs) data) =
  k tt (image (fs ++ [f]) ++ drop (image_size (fs ++ [f])) data).
Proof. intros. erewrite bind_ok; [done|]. by eapply put_field. Qed.

(** ** Reading a field *)

Definition reads_field {A} (m : M (list Z) A) (off : nat) (f : field) (v : A) : Prop :=
  ∀ pre post, length pre = off →
    m (pre ++ field_image f ++ post) = Ok (v, pre ++ field_image f ++ post).

Lemma read_step {A B} (m : M (list Z) A) (k : A → M (list Z) B) off i f v fs rest :
  fs !! i = Some f → off = image_size (take i fs) → reads_field m off f v → Forall field_ok fs →
  (m ≫= k) (image fs ++ rest) = k v (image fs ++ rest).
Proof.
  intros Hi -> Hm Hfs. erewrite bind_ok; [done|].
  rewrite <- (take_drop_middle fs i f Hi). change (f :: drop (S i) fs) with ([f] ++ drop (S i) fs).
  rewrite !image_app, image_single, <- !app_assoc. apply Hm.
  apply length_image. by apply Forall_take.
Qed.

Lemma md5_of_step {MD : Md5} {B} (k : list Z → M (list Z) B) n fs rest :
  Forall field_ok fs → n = image_size fs →
  (md5_of n ≫= k) (image fs ++ rest) = k (MD5 (image fs)) (image fs ++ rest).
Proof.
  intros Hfs ->. erewrite bind_ok; [done|]. unfold md5_of. pose proof (length_image fs Hfs).
  rewrite decide_True by (rewrite length_app; lia). by rewrite take_app_length'.
Qed.

Lemma trailer_step {B} (k : list Z → M (list Z) B) off n h fs rest :
  Forall field_ok fs → off = image_size fs → length h = n →
  (bcopy_out off n ≫= k) (image fs ++ h ++ rest) = k h (image fs ++ h ++ rest).
Proof.
  intros Hfs -> Hh. erewrite bind_ok; [done|]. unfold bcopy_out. pose proof (length_image fs Hfs) as Hl.
  rewrite decide_True by (rewrite !length_app; lia).
  rewrite drop_app_length' by done. by rewrite take_app_length'.
Qed.

(** ** The statements codecs are made of *)

Section statements.
Implicit Types (p : nat) (z : Z).

Lemma writes_u8 p z : is_u8 z → writes (poke p z) p (field_image (U8 z)).
Proof. intros Hz. simpl. rewrite <- (Z.mod_small z (2 ^ 8)) at 2 by done. apply writes_poke. Qed.

Lemma writes_bytes p n bs :
  length bs = n → writes (bcopy_in bs p n) p (field_image (Bytes n bs)).
Proof.
  intros Hn pre old post Hp Hl. unfold bcopy_in. simpl in *.
  rewrite decide_True by (rewrite ?length_app; lia). rewrite take_ge by lia.
  rewrite <- Hp. by rewrite list_inserts_split.
Qed.

Lemma writes_s32 p z : writes (le32enc p (u32 z)) p (field_image (S32 z)).
Proof. simpl. rewrite <- (le_bytes_u32 z). apply writes_le32enc. Qed.

Lemma writes_u16 p z : writes (le16enc p z) p (field_image (U16 z)).
Proof. apply writes_le16enc. Qed.
Lemma writes_u32 p z : writes (le32enc p z) p (field_image (U32 z)).
Proof. apply writes_le32enc. Qed.
Lemma writes_u64 p z : writes (le64enc p z) p (field_image (U64 z)).
Proof. apply writes_le64enc. Qed.

Lemma reads_field_intro {A} (m : M (list Z) A) off f g (v : A) :
  reads m off (field_size f) g → field_ok f → g (field_image f) = v → reads_field m off f v.
Proof.
  intros Hm Hf Hv pre post Hpre. rewrite Hm; [by rewrite Hv|done|by apply length_field_image|].
  rewrite <- image_single. apply image_bytes. by constructor.
Qed.

Lemma reads_u8 p z : is_u8 z → reads_field (peek p) p (U8 z) z.
Proof. intros. eapply reads_field_intro; [apply reads_peek|done|apply le_word_1]. Qed.

Lemma reads_u16 p z : 0 ≤ z < 2 ^ 16 → reads_field (le16dec p) p (U16 z) z.
Proof. intros. eapply reads_field_intro; [apply reads_le16dec|done|by apply le_word_bytes_small]. Qed.

Lemma reads_u32 p z : is_u32 z → reads_field (le32dec p) p (U32 z) z.
Proof. intros. eapply reads_field_intro; [apply reads_le32dec|done|by apply le_word_bytes_small]. Qed.

Lemma reads_u64 p z : is_u64 z → reads_field (le64dec p) p (U64 z) z.
Proof. intros. eapply reads_field_intro; [apply reads_le64dec|done|by apply le_word_bytes_small]. Qed.

Lemma reads_s32 p z : is_i32 z → reads_field (le32dec p) p (S32 z) (u32 z).
Proof.
  intros. eapply reads_field_intro; [apply reads_le32dec|done|]. apply le_word_bytes. done.
Qed.

Lemma reads_bytes_field p n bs : length bs = n → reads_field (bcopy_out p n) p (Bytes n bs) bs.
Proof.
  intros Hn pre post <-. unfold bcopy_out. simpl. rewrite decide_True by (rewrite !length_app; lia).
  rewrite drop_app_length. by rewrite take_app_length'.
Qed.
End statements.

(** ** Running a whole codec

    The fields of a layout are split off the hypothesis that they are all in
    range; every statement then consumes or produces the next field. *)

Ltac field_ok_tac :=
  first [assumption | split; [apply MD5_length|apply MD5_bytes]].

Ltac fields_ok_tac := repeat (apply Forall_cons; split; [field_ok_tac|]); apply Forall_nil; exact I.

Ltac writes_tac :=
  first [apply writes_s32 | apply writes_u16 | apply writes_u32 | apply writes_u64
        |apply writes_u8; assumption
        |apply writes_bytes; first [apply MD5_length
           |match goal with H : length ?b = _ ∧ _ |- length ?b = _ => exact (proj1 H) end]].

Ltac reads_tac :=
  first [apply reads_s32; assumption | apply reads_u16; assumption | apply reads_u32; assumption
        |apply reads_u64; assumption | apply reads_u8; assumption
        |apply reads_bytes_field;
         match goal with H : length ?b = _ ∧ _ |- length ?b = _ => exact (proj1 H) end].

Ltac put_tac :=
  erewrite put_step; [|writes_tac|field_ok_tac|fields_ok_tac|reflexivity|cbn [field_size]; lia];
  cbn [app].

(** Read the field number [i] of the layout, or a later one. *)
Ltac read_tac i :=
  erewrite (read_step _ _ _ i); [|reflexivity|reflexivity|reads_tac|fields_ok_tac].

Ltac read_from i :=
  tryif read_tac i then read_from (S i)
  else (let n := eval compute in i in tryif constr_eq n 24%nat then idtac else read_from (S i)).

(** ** The contract of a class that seals its metadata *)

Definition EINVAL : Z := 22.

(** The codec of a class: what it reads, writes and keeps per on-disk version.
    [f_written] is the layout the encoder produces, whatever the version;
    [f_upgrade md0 md] is what decoding into [md0] makes of the fields the version
    of [md] does not store. *)
Record format (T : Type) : Type := Format {
  f_encode : T → M (list Z) T;
  f_decode : T → M (list Z) (Z * T);
  f_version : T → Z;
  f_layout : Z → option (T → list field);
  f_written : T → list field;
  f_seal : list Z → T → T;
  f_upgrade : T → T → T
}.
Arguments Format {_}. Arguments f_encode {_}. Arguments f_decode {_}. Arguments f_version {_}.
Arguments f_layout {_}. Arguments f_written {_}. Arguments f_seal {_}. Arguments f_upgrade {_}.

Definition md5_sum {MD : Md5} (fs : list field) : list Z := MD5 (image fs).

Class LawfulFormat {MD : Md5} {T : Type} (F : format T) : Prop := {
  (** The encoder writes the fields in order and then their sum, and nothing else. *)
  law_encode md data :
    Forall field_ok (f_written F md) → (image_size (f_written F md) + 16 ≤ length data)%nat →
    f_encode F md data =
      Ok (f_seal F (md5_sum (f_written F md)) md,
          image (f_written F md) ++ md5_sum (f_written F md) ++
          drop (image_size (f_written F md) + 16) data);
  (** The decoder reads the fields of the version it finds, and accepts exactly
      when the sum that follows is theirs. *)
  law_decode md0 md fields h rest :
    f_layout F (f_version F md) = Some fields → Forall field_ok (fields md) → length h = 16%nat →
    ∃ md', f_decode F md0 (image (fields md) ++ h ++ rest) =
      Ok ((if decide (h = md5_sum (fields md)) then 0 else EINVAL, md'),
          image (fields md) ++ h ++ rest) ∧
      (h = md5_sum (fields md) → md' = f_seal F h (f_upgrade F md0 md));
  (** A version without a layout is refused. *)
  law_unknown md0 magic v rest :
    length magic = 16%nat → bytes_ok magic → is_u32 v → f_layout F v = None →
    ∃ md', f_decode F md0 (magic ++ le_bytes 4 v ++ rest) =
      Ok ((EINVAL, md'), magic ++ le_bytes 4 v ++ rest)
}.

(** The tails the encoders and the decoders share. *)
Lemma seal_end {MD : Md5} {T} (f : list Z → T) n fs data :
  Forall field_ok fs → n = image_size fs → (n + 16 ≤ length data)%nat →
  (hash ← md5_of n; _ ← bcopy_in hash n 16; mret (f hash))
    (image fs ++ drop (image_size fs) data) =
  Ok (f (md5_sum fs), image fs ++ md5_sum fs ++ drop (image_size fs + 16) data).
Proof.
  intros Hok Hn Hlen. rewrite md5_of_step by done.
  erewrite (put_step _ _ n (Bytes 16 (md5_sum fs)));
    [|apply writes_bytes, MD5_length|split; [apply MD5_length|apply MD5_bytes]|done|done|done].
  rewrite ret_ok, image_app, image_single, image_size_app, <- app_assoc. done.
Qed.

Lemma check_end {MD : Md5} {T} (bad good : list Z → T) n fs h rest :
  Forall field_ok fs → n = image_size fs → length h = 16%nat →
  (hash ← md5_of n; stored ← bcopy_out n 16;
   if decide (hash ≠ stored) then mret (EINVAL, bad hash) else mret (0, good hash))
    (image fs ++ h ++ rest) =
  Ok ((if decide (h = md5_sum fs) then 0 else EINVAL,
       if decide (h = md5_sum fs) then good h else bad (md5_sum fs)), image fs ++ h ++ rest).
Proof.
  intros Hok Hn Hh. rewrite md5_of_step, trailer_step by done. unfold md5_sum.
  destruct (decide (h = _)) as [->|Hne]; [by rewrite decide_False by naive_solver|].
  by rewrite decide_True by congruence.
Qed.

(** What was written is read back, when its version is one whose layout the
    encoder produces. *)
Lemma format_roundtrip {MD : Md5} {T} (F : format T) `{!LawfulFormat F} md md0 data :
  f_layout F (f_version F md) = Some (f_written F) → f_upgrade F md0 md = md →
  Forall field_ok (f_written F md) → (image_size (f_written F md) + 16 ≤ length data)%nat →
  ∃ d', (_ ← f_encode F md; f_decode F md0) data =
    Ok ((0, f_seal F (md5_sum (f_written F md)) md), d') ∧ length d' = length data.
Proof.
  intros Hlay Hup Hok Hlen. erewrite bind_ok by (by apply law_encode).
  destruct (law_decode md0 md (f_written F) (md5_sum (f_written F md))
    (drop (image_size (f_written F md) + 16) data) Hlay Hok (MD5_length _)) as (md' & E & Hmd').
  rewrite E, decide_True, Hmd', Hup by done. eexists. split; [done|].
  rewrite !length_app, length_image, length_drop by done. unfold md5_sum. rewrite MD5_length. lia.
Qed.

(** Anything but the sum of the fields is detected. *)
Lemma format_corrupted {MD : Md5} {T} (F : format T) `{!LawfulFormat F} md md0 fields h rest :
  f_layout F (f_version F md) = Some fields → Forall field_ok (fields md) → length h = 16%nat →
  h ≠ md5_sum (fields md) →
  ∃ md', f_decode F md0 (image (fields md) ++ h ++ rest) =
    Ok ((EINVAL, md'), image (fields md) ++ h ++ rest).
Proof.
  intros Hlay Hok Hh Hne. destruct (law_decode md0 md fields h rest Hlay Hok Hh) as (md' & E & _).
  exists md'. by rewrite E, decide_False.
Qed.

Lemma head_step {B} (k : list Z → Z → M (list Z) B) magic v fs rest :
  Forall field_ok (Bytes 16 magic :: U32 v :: fs) →
  (m ← bcopy_out 0 16; v ← le32dec 16; k m v) (image (Bytes 16 magic :: U32 v :: fs) ++ rest) =
  k magic v (image (Bytes 16 magic :: U32 v :: fs) ++ rest).
Proof.
  intros Hok. pose proof Hok as Hok'. apply Forall_cons in Hok' as [Hm Hok'].
  apply Forall_cons in Hok' as [Hv _].
  rewrite (read_step _ _ _ 0 (Bytes 16 magic) magic) by (done || apply reads_bytes_field, Hm).
  by rewrite (read_step _ _ _ 1 (U32 v) v) by (done || by apply reads_u32).
Qed.

Lemma image_head magic v rest :
  magic ++ le_bytes 4 v ++ rest = image [Bytes 16 magic; U32 v] ++ rest.
Proof. change [Bytes 16 magic; U32 v] with ([Bytes 16 magic] ++ [U32 v]). by rewrite image_app, !image_single, <- app_assoc. Qed.

Lemma head_ok magic v :
  length magic = 16%nat → bytes_ok magic → is_u32 v → Forall field_ok [Bytes 16 magic; U32 v].
Proof. intros. apply Forall_cons; split; [done|]. apply Forall_cons; split; [done|]. by apply Forall_nil. Qed.

(** Run a whole encoder; the hypotheses are the ranges of the fields and the room. *)
Ltac encode_tac data :=
  let E := fresh in
  assert (data = image [] ++ drop (image_size []) data) as E by done;
  rewrite E at 1; clear E; repeat put_tac;
  first [apply seal_end; [fields_ok_tac|reflexivity|lia] | idtac].

(** Run the decoder of one version, and pick that version by its number. *)
Ltac decode_tac :=
  eexists; split;
  [read_from 2%nat; rewrite ?trailer_step by (first [fields_ok_tac|reflexivity|assumption]);
   apply check_end; [fields_ok_tac|reflexivity|assumption]
  |let E := fresh in intros E; rewrite decide_True by exact E; try reflexivity].

Ltac pick_version v :=
  repeat match goal with
  | |- context [decide ?P] =>
      lazymatch P with context [v] => idtac end;
      let Hn := fresh in
      first [destruct (decide P) as [_|Hn]; [|exfalso; apply Hn; lia]
            |destruct (decide P) as [Hn|_]; [exfalso; lia|]]
  end.

Ltac unknown_tac v :=
  rewrite !image_head, head_step by (by apply head_ok); pick_version v; by eexists.

(** A sum that stands in for MD5 in concrete runs. *)
Definition fold_sum (d : list Z) : list Z :=
  replicate 15 0 ++ [u8 (foldl (λ a b, 31 * a + b) 7 d)].

Definition fold_md5 : Md5.
Proof.
  refine {| MD5 := fold_sum |}; [done|].
  intros d. apply Forall_app. split; [by apply Forall_replicate|]. constructor; [|constructor].
  apply Z.mod_pos_bound. lia.
Defined.
