(* ===== verification/GeomMirror.v ===== *)
(** * GEOM mirror metadata: geom/mirror/g_mirror.h

    The codec of the metadata sector of a mirror's disk, for all the versions
    that are on disks, and the names of the balance algorithms. *)

From S2P Require Import Prelude Endian GeomMd.

Module Mirror.

Record g_mirror_metadata : Type := MirrorMd {
  md_magic : list Z; (** [char[16]]: magic value *)
  md_version : Z; (** [uint32_t]: version number *)
  md_name : list Z; (** [char[16]]: mirror name *)
  md_mid : Z; (** [uint32_t]: mirror unique ID *)
  md_did : Z; (** [uint32_t]: disk unique ID *)
  md_all : Z; (** [uint8_t]: number of disks in mirror *)
  md_genid : Z; (** [uint32_t]: generation ID *)
  md_syncid : Z; (** [uint32_t]: synchronization ID *)
  md_priority : Z; (** [uint8_t]: disk priority *)
  md_slice : Z; (** [uint32_t]: slice size *)
  md_balance : Z; (** [uint8_t]: balance type *)
  md_mediasize : Z; (** [uint64_t] *)
  md_sectorsize : Z; (** [uint32_t]: sector size *)
  md_sync_offset : Z; (** [uint64_t]: synchronized offset *)
  md_mflags : Z; (** [uint64_t]: additional mirror flags *)
  md_dflags : Z; (** [uint64_t]: additional disk flags *)
  md_provider : list Z; (** [char[16]]: hardcoded provider *)
  md_provsize : Z; (** [uint64_t]: provider's size *)
  md_hash : list Z (** [u_char[16]]: MD5 hash *)
}.

Definition set_md_head (magic : list Z) (version : Z) (md : g_mirror_metadata) : g_mirror_metadata :=
  MirrorMd magic version (md_name md) (md_mid md) (md_did md) (md_all md) (md_genid md)
    (md_syncid md) (md_priority md) (md_slice md) (md_balance md) (md_mediasize md)
    (md_sectorsize md) (md_sync_offset md) (md_mflags md) (md_dflags md) (md_provider md)
    (md_provsize md) (md_hash md).

Definition set_md_hash (hash : list Z) (md : g_mirror_metadata) : g_mirror_metadata :=
  MirrorMd (md_magic md) (md_version md) (md_name md) (md_mid md) (md_did md) (md_all md)
    (md_genid md) (md_syncid md) (md_priority md) (md_slice md) (md_balance md)
    (md_mediasize md) (md_sectorsize md) (md_sync_offset md) (md_mflags md)
    (md_dflags md) (md_provider md) (md_provsize md) hash.

Definition set_md_new (genid provsize : Z) (md : g_mirror_metadata) : g_mirror_metadata :=
  MirrorMd (md_magic md) (md_version md) (md_name md) (md_mid md) (md_did md) (md_all md)
    genid (md_syncid md) (md_priority md) (md_slice md) (md_balance md) (md_mediasize md)
    (md_sectorsize md) (md_sync_offset md) (md_mflags md) (md_dflags md) (md_provider md)
    provsize (md_hash md).

Section codec.
Context {MD : Md5}.

Definition mirror_metadata_encode (md : g_mirror_metadata) : M (list Z) g_mirror_metadata :=
  _ ← bcopy_in (md_magic md) 0 16;
  _ ← le32enc 16 (md_version md);
  _ ← bcopy_in (md_name md) 20 16;
  _ ← le32enc 36 (md_mid md);
  _ ← le32enc 40 (md_did md);
  _ ← poke 44 (md_all md);
  _ ← le32enc 45 (md_genid md);
  _ ← le32enc 49 (md_syncid md);
  _ ← poke 53 (md_priority md);
  _ ← le32enc 54 (md_slice md);
  _ ← poke 58 (md_balance md);
  _ ← le64enc 59 (md_mediasize md);
  _ ← le32enc 67 (md_sectorsize md);
  _ ← le64enc 71 (md_sync_offset md);
  _ ← le64enc 79 (md_mflags md);
  _ ← le64enc 87 (md_dflags md);
  _ ← bcopy_in (md_provider md) 95 16;
  _ ← le64enc 111 (md_provsize md);
  hash ← md5_of 119;
  _ ← bcopy_in hash 119 16;
  mret (set_md_hash hash md).

Definition mirror_metadata_decode_v0v1 (md : g_mirror_metadata) : M (list Z) (Z * g_mirror_metadata) :=
  name ← bcopy_out 20 16;
  mid ← le32dec 36;
  did ← le32dec 40;
  all ← peek 44;
  syncid ← le32dec 45;
  priority ← peek 49;
  slice ← le32dec 50;
  balance ← peek 54;
  mediasize ← le64dec 55;
  sectorsize ← le32dec 63;
  sync_offset ← le64dec 67;
  mflags ← le64dec 75;
  dflags ← le64dec 83;
  provider ← bcopy_out 91 16;
  _ ← bcopy_out 107 16;
  hash ← md5_of 107;
  stored ← bcopy_out 107 16;
  if decide (hash ≠ stored) then
    mret (EINVAL, MirrorMd (md_magic md) (md_version md) name mid did all (md_genid md) syncid priority
      slice balance mediasize sectorsize sync_offset mflags dflags provider
      (md_provsize md) hash)
  else
    mret (0, MirrorMd (md_magic md) (md_version md) name mid did all 0 syncid priority slice balance
      mediasize sectorsize sync_offset mflags dflags provider 0 hash).

Definition mirror_metadata_decode_v2 (md : g_mirror_metadata) : M (list Z) (Z * g_mirror_metadata) :=
  name ← bcopy_out 20 16;
  mid ← le32dec 36;
  did ← le32dec 40;
  all ← peek 44;
  genid ← le32dec 45;
  syncid ← le32dec 49;
  priority ← peek 53;
  slice ← le32dec 54;
  balance ← peek 58;
  mediasize ← le64dec 59;
  sectorsize ← le32dec 67;
  sync_offset ← le64dec 71;
  mflags ← le64dec 79;
  dflags ← le64dec 87;
  provider ← bcopy_out 95 16;
  _ ← bcopy_out 111 16;
  hash ← md5_of 111;
  stored ← bcopy_out 111 16;
  if decide (hash ≠ stored) then
    mret (EINVAL, MirrorMd (md_magic md) (md_version md) name mid did all genid syncid priority slice
      balance mediasize sectorsize sync_offset mflags dflags provider (md_provsize md)
      hash)
  else
    mret (0, MirrorMd (md_magic md) (md_version md) name mid did all genid syncid priority slice
      balance mediasize sectorsize sync_offset mflags dflags provider 0 hash).

Definition mirror_metadata_decode_v3v4 (md : g_mirror_metadata) : M (list Z) (Z * g_mirror_metadata) :=
  name ← bcopy_out 20 16;
  mid ← le32dec 36;
  did ← le32dec 40;
  all ← peek 44;
  genid ← le32dec 45;
  syncid ← le32dec 49;
  priority ← peek 53;
  slice ← le32dec 54;
  balance ← peek 58;
  mediasize ← le64dec 59;
  sectorsize ← le32dec 67;
  sync_offset ← le64dec 71;
  mflags ← le64dec 79;
  dflags ← le64dec 87;
  provider ← bcopy_out 95 16;
  provsize ← le64dec 111;
  _ ← bcopy_out 119 16;
  hash ← md5_of 119;
  stored ← bcopy_out 119 16;
  if decide (hash ≠ stored) then
    mret (EINVAL, MirrorMd (md_magic md) (md_version md) name mid did all genid syncid priority slice
      balance mediasize sectorsize sync_offset mflags dflags provider provsize hash)
  else
    mret (0, MirrorMd (md_magic md) (md_version md) name mid did all genid syncid priority slice
      balance mediasize sectorsize sync_offset mflags dflags provider provsize hash).

Definition mirror_metadata_decode (md : g_mirror_metadata) : M (list Z) (Z * g_mirror_metadata) :=
  magic ← bcopy_out 0 16;
  version ← le32dec 16;
  let md := set_md_head magic version md in
  if decide (version = 0 ∨ version = 1) then mirror_metadata_decode_v0v1 md
  else if decide (version = 2) then mirror_metadata_decode_v2 md
  else if decide (version = 3 ∨ version = 4) then mirror_metadata_decode_v3v4 md
  else mret (EINVAL, md).

(** ** The layouts by version *)

Definition written (md : g_mirror_metadata) : list field := [
  Bytes 16 (md_magic md); U32 (md_version md); Bytes 16 (md_name md); U32 (md_mid md);
  U32 (md_did md); U8 (md_all md); U32 (md_genid md); U32 (md_syncid md); U8 (md_priority md);
  U32 (md_slice md); U8 (md_balance md); U64 (md_mediasize md); U32 (md_sectorsize md);
  U64 (md_sync_offset md); U64 (md_mflags md); U64 (md_dflags md); Bytes 16 (md_provider md);
  U64 (md_provsize md)].

Definition layout_v2 (md : g_mirror_metadata) : list field := [
  Bytes 16 (md_magic md); U32 (md_version md); Bytes 16 (md_name md); U32 (md_mid md);
  U32 (md_did md); U8 (md_all md); U32 (md_genid md); U32 (md_syncid md); U8 (md_priority md);
  U32 (md_slice md); U8 (md_balance md); U64 (md_mediasize md); U32 (md_sectorsize md);
  U64 (md_sync_offset md); U64 (md_mflags md); U64 (md_dflags md); Bytes 16 (md_provider md)].

Definition layout_v0 (md : g_mirror_metadata) : list field := [
  Bytes 16 (md_magic md); U32 (md_version md); Bytes 16 (md_name md); U32 (md_mid md);
  U32 (md_did md); U8 (md_all md); U32 (md_syncid md); U8 (md_priority md); U32 (md_slice md);
  U8 (md_balance md); U64 (md_mediasize md); U32 (md_sectorsize md); U64 (md_sync_offset md);
  U64 (md_mflags md); U64 (md_dflags md); Bytes 16 (md_provider md)].

Definition layout (version : Z) : option (g_mirror_metadata → list field) :=
  if decide (version = 0 ∨ version = 1) then Some layout_v0
  else if decide (version = 2) then Some layout_v2
  else if decide (version = 3 ∨ version = 4) then Some written
  else None.

Definition upgrade (md0 md : g_mirror_metadata) : g_mirror_metadata :=
  if decide (md_version md = 0 ∨ md_version md = 1) then set_md_new 0 0 md
  else if decide (md_version md = 2) then set_md_new (md_genid md) 0 md
  else md.

Definition mirror_format : format g_mirror_metadata :=
  Format mirror_metadata_encode mirror_metadata_decode md_version layout written set_md_hash upgrade.

Lemma mirror_encode_writes md data :
  Forall field_ok (written md) → (image_size (written md) + 16 ≤ length data)%nat →
  mirror_metadata_encode md data =
    Ok (set_md_hash (md5_sum (written md)) md,
        image (written md) ++ md5_sum (written md) ++ drop (image_size (written md) + 16) data).
Proof.
  intros Hok Hlen. unfold written in Hok. decompose_Forall_hyps.
  cbn [image_size sum_list_with written field_size] in Hlen.
  unfold mirror_metadata_encode. encode_tac data.
Qed.

Lemma decode_v0v1_checks md0 md h rest :
  Forall field_ok (layout_v0 md) → length h = 16%nat →
  ∃ md', mirror_metadata_decode_v0v1 (set_md_head (md_magic md) (md_version md) md0)
      (image (layout_v0 md) ++ h ++ rest) =
    Ok ((if decide (h = md5_sum (layout_v0 md)) then 0 else EINVAL, md'), image (layout_v0 md) ++ h ++ rest) ∧
    (h = md5_sum (layout_v0 md) → md' = set_md_hash h (set_md_new 0 0 md)).
Proof.
  intros Hok Hh. unfold layout_v0 in *. decompose_Forall_hyps.
  unfold mirror_metadata_decode_v0v1. decode_tac.
Qed.

Lemma decode_v2_checks md0 md h rest :
  Forall field_ok (layout_v2 md) → length h = 16%nat →
  ∃ md', mirror_metadata_decode_v2 (set_md_head (md_magic md) (md_version md) md0)
      (image (layout_v2 md) ++ h ++ rest) =
    Ok ((if decide (h = md5_sum (layout_v2 md)) then 0 else EINVAL, md'), image (layout_v2 md) ++ h ++ rest) ∧
    (h = md5_sum (layout_v2 md) → md' = set_md_hash h (set_md_new (md_genid md) 0 md)).
Proof.
  intros Hok Hh. unfold layout_v2 in *. decompose_Forall_hyps.
  unfold mirror_metadata_decode_v2. decode_tac.
Qed.

Lemma decode_v3v4_checks md0 md h rest :
  Forall field_ok (written md) → length h = 16%nat →
  ∃ md', mirror_metadata_decode_v3v4 (set_md_head (md_magic md) (md_version md) md0)
      (image (written md) ++ h ++ rest) =
    Ok ((if decide (h = md5_sum (written md)) then 0 else EINVAL, md'), image (written md) ++ h ++ rest) ∧
    (h = md5_sum (written md) → md' = set_md_hash h md).
Proof.
  intros Hok Hh. unfold written in *. decompose_Forall_hyps.
  unfold mirror_metadata_decode_v3v4. decode_tac.
Qed.

Lemma mirror_decode_checks md0 md fields h rest :
  layout (md_version md) = Some fields → Forall field_ok (fields md) → length h = 16%nat →
  ∃ md', mirror_metadata_decode md0 (image (fields md) ++ h ++ rest) =
    Ok ((if decide (h = md5_sum (fields md)) then 0 else EINVAL, md'),
        image (fields md) ++ h ++ rest) ∧
    (h = md5_sum (fields md) → md' = set_md_hash h (upgrade md0 md)).
Proof.
  unfold layout, upgrade, mirror_metadata_decode. intros Hlay Hok Hh.
  destruct (decide (md_version md = 0 ∨ md_version md = 1)) as [Hv|Hv]; [injection Hlay as <-|
  destruct (decide (md_version md = 2)) as [Hv2|Hv2]; [injection Hlay as <-|
  destruct (decide (md_version md = 3 ∨ md_version md = 4)) as [Hv3|Hv3]; [injection Hlay as <-|done]]].
  - unfold layout_v0 at 1. rewrite head_step by done. pick_version (md_version md). by apply decode_v0v1_checks.
  - unfold layout_v2 at 1. rewrite head_step by done. pick_version (md_version md). by apply decode_v2_checks.
  - unfold written at 1. rewrite head_step by done. pick_version (md_version md). by apply decode_v3v4_checks.
Qed.

Lemma mirror_decode_unknown md0 magic v rest :
  length magic = 16%nat → bytes_ok magic → is_u32 v → layout v = None →
  ∃ md', mirror_metadata_decode md0 (magic ++ le_bytes 4 v ++ rest) =
    Ok ((EINVAL, md'), magic ++ le_bytes 4 v ++ rest).
Proof.
  unfold layout, mirror_metadata_decode. intros Hm Hb Hv Hlay.
  destruct (decide (v = 0 ∨ v = 1)); [done|]. destruct (decide (v = 2)); [done|].
  destruct (decide (v = 3 ∨ v = 4)); [done|]. unknown_tac v.
Qed.

#[global] Instance mirror_lawful : LawfulFormat mirror_format.
Proof. split; [apply mirror_encode_writes|apply mirror_decode_checks|apply mirror_decode_unknown]. Qed.

(** The metadata of a mirror. The encoder writes the fields of version 4 in
    order and seals them with their sum; the decoder reads every version it knows
    back, filling in the fields older ones lack, exactly when the sum stored is
    that of the bytes read, and reports [EINVAL] otherwise and for every other
    version. What is encoded with version 3 or 4 is decoded to itself. *)
Theorem mirror_metadata_contract :
  LawfulFormat mirror_format ∧
  (∀ md md0 data, md_version md = 3 ∨ md_version md = 4 →
    Forall field_ok (written md) → (135 ≤ length data)%nat →
    ∃ d', (_ ← mirror_metadata_encode md; mirror_metadata_decode md0) data =
      Ok ((0, set_md_hash (md5_sum (written md)) md), d') ∧ length d' = length data).
Proof.
  split; [apply _|]. intros md md0 data Hv Hok Hlen.
  apply (format_roundtrip mirror_format); [..|done|done].
  - cbn. unfold layout. by pick_version (md_version md).
  - cbn. unfold upgrade. by pick_version (md_version md).
Qed.
End codec.

(** A metadata block and its image. *)
Definition sample : g_mirror_metadata :=
  MirrorMd (replicate 16 0x47) 4 (replicate 16 0x6d) 0xdeadbeef 7 2 3 5 1 4096 4 (2 ^ 40) 512 77 1 2
    (replicate 16 0) (2 ^ 40 + 512) [].

Example mirror_sample_roundtrip :
  (_ ← mirror_metadata_encode (MD := fold_md5) sample; mirror_metadata_decode (MD := fold_md5) sample)
    (replicate 140 0xff) =
  Ok ((0, set_md_hash (md5_sum (MD := fold_md5) (written sample)) sample),
      image (written sample) ++ md5_sum (MD := fold_md5) (written sample) ++ replicate 5 0xff).
Proof. vm_compute. reflexivity. Qed.

(** ** The balance algorithms *)

#[local] Open Scope string_scope.
#[local] Open Scope Z_scope.

Definition G_MIRROR_BALANCE_MIN : Z := 0.
Definition G_MIRROR_BALANCE_MAX : Z := 4.

Definition algorithms : list String.string :=
  ["none"; "round-robin"; "load"; "split"; "prefer"; "unknown"].

Definition balance_name (balance : Z) : String.string :=
  let balance := if decide (balance > G_MIRROR_BALANCE_MAX) then G_MIRROR_BALANCE_MAX + 1 else balance in
  default "" (algorithms !! Z.to_nat balance).

Fixpoint balance_id_loop (fuel : nat) (name : String.string) (n : Z) : Z :=
  match fuel with
  | 0%nat => -1
  | S fuel =>
      if decide (n ≤ G_MIRROR_BALANCE_MAX) then
        if String.eqb name (default "" (algorithms !! Z.to_nat n)) then n
        else balance_id_loop fuel name (n + 1)
      else -1
  end.

(** The loop leaves after [G_MIRROR_BALANCE_MAX]. *)
Definition balance_id (name : String.string) : Z :=
  balance_id_loop (Z.to_nat (G_MIRROR_BALANCE_MAX + 2)) name G_MIRROR_BALANCE_MIN.

Lemma balance_id_name b : 0 ≤ b → balance_id (balance_name b) = if decide (b ≤ 4) then b else -1.
Proof.
  intros Hb. destruct (decide (b ≤ 4)).
  - assert (b = 0 ∨ b = 1 ∨ b = 2 ∨ b = 3 ∨ b = 4) as Hcase by lia. by destruct_or! Hcase; subst.
  - unfold balance_name, G_MIRROR_BALANCE_MAX. by rewrite decide_True by lia.
Qed.
End Mirror.
