(* ===== verification/GeomRaid3.v ===== *)
(** * GEOM RAID3 metadata: geom/raid3/g_raid3.h

    The codec of the metadata sector of a component, for all the versions that are
    on disks. *)

From S2P Require Import Prelude Endian GeomMd.

Module Raid3.

Record g_raid3_metadata : Type := Raid3Md {
  md_magic : list Z; (** [char[16]]: magic value *)
  md_version : Z; (** [uint32_t]: version number *)
  md_name : list Z; (** [char[16]]: device name *)
  md_id : Z; (** [uint32_t]: device unique ID *)
  md_no : Z; (** [uint16_t]: component number *)
  md_all : Z; (** [uint16_t]: number of disks in device *)
  md_genid : Z; (** [uint32_t]: generation ID *)
  md_syncid : Z; (** [uint32_t]: synchronization ID *)
  md_mediasize : Z; (** [uint64_t]: size of whole device *)
  md_sectorsize : Z; (** [uint32_t]: sector size *)
  md_sync_offset : Z; (** [uint64_t]: synchronized offset *)
  md_mflags : Z; (** [uint64_t]: additional device flags *)
  md_dflags : Z; (** [uint64_t]: additional disk flags *)
  md_provider : list Z; (** [char[16]]: hardcoded provider *)
  md_provsize : Z; (** [uint64_t]: provider's size *)
  md_hash : list Z (** [u_char[16]]: MD5 hash *)
}.

Definition set_md_head (magic : list Z) (version : Z) (md : g_raid3_metadata) : g_raid3_metadata :=
  Raid3Md magic version (md_name md) (md_id md) (md_no md) (md_all md) (md_genid md)
    (md_syncid md) (md_mediasize md) (md_sectorsize md) (md_sync_offset md)
    (md_mflags md) (md_dflags md) (md_provider md) (md_provsize md) (md_hash md).

Definition set_md_hash (hash : list Z) (md : g_raid3_metadata) : g_raid3_metadata :=
  Raid3Md (md_magic md) (md_version md) (md_name md) (md_id md) (md_no md) (md_all md)
    (md_genid md) (md_syncid md) (md_mediasize md) (md_sectorsize md) (md_sync_offset md)
    (md_mflags md) (md_dflags md) (md_provider md) (md_provsize md) hash.

Definition set_md_new (genid provsize : Z) (md : g_raid3_metadata) : g_raid3_metadata :=
  Raid3Md (md_magic md) (md_version md) (md_name md) (md_id md) (md_no md) (md_all md)
    genid (md_syncid md) (md_mediasize md) (md_sectorsize md) (md_sync_offset md)
    (md_mflags md) (md_dflags md) (md_provider md) provsize (md_hash md).

Section codec.
Context {MD : Md5}.

Definition raid3_metadata_encode (md : g_raid3_metadata) : M (list Z) g_raid3_metadata :=
  _ ← bcopy_in (md_magic md) 0 16;
  _ ← le32enc 16 (md_version md);
  _ ← bcopy_in (md_name md) 20 16;
  _ ← le32enc 36 (md_id md);
  _ ← le16enc 40 (md_no md);
  _ ← le16enc 42 (md_all md);
  _ ← le32enc 44 (md_genid md);
  _ ← le32enc 48 (md_syncid md);
  _ ← le64enc 52 (md_mediasize md);
  _ ← le32enc 60 (md_sectorsize md);
  _ ← le64enc 64 (md_sync_offset md);
  _ ← le64enc 72 (md_mflags md);
  _ ← le64enc 80 (md_dflags md);
  _ ← bcopy_in (md_provider md) 88 16;
  _ ← le64enc 104 (md_provsize md);
  hash ← md5_of 112;
  _ ← bcopy_in hash 112 16;
  mret (set_md_hash hash md).

Definition raid3_metadata_decode_v0v1v2 (md : g_raid3_metadata) : M (list Z) (Z * g_raid3_metadata) :=
  name ← bcopy_out 20 16;
  id ← le32dec 36;
  no ← le16dec 40;
  all ← le16dec 42;
  syncid ← le32dec 44;
  mediasize ← le64dec 48;
  sectorsize ← le32dec 56;
  sync_offset ← le64dec 60;
  mflags ← le64dec 68;
  dflags ← le64dec 76;
  provider ← bcopy_out 84 16;
  _ ← bcopy_out 100 16;
  hash ← md5_of 100;
  stored ← bcopy_out 100 16;
  if decide (hash ≠ stored) then
    mret (EINVAL, Raid3Md (md_magic md) (md_version md) name id no all (md_genid md) syncid mediasize
      sectorsize sync_offset mflags dflags provider (md_provsize md) hash)
  else
    mret (0, Raid3Md (md_magic md) (md_version md) name id no all 0 syncid mediasize sectorsize
      sync_offset mflags dflags provider 0 hash).

Definition raid3_metadata_decode_v3 (md : g_raid3_metadata) : M (list Z) (Z * g_raid3_metadata) :=
  name ← bcopy_out 20 16;
  id ← le32dec 36;
  no ← le16dec 40;
  all ← le16dec 42;
  genid ← le32dec 44;
  syncid ← le32dec 48;
  mediasize ← le64dec 52;
  sectorsize ← le32dec 60;
  sync_offset ← le64dec 64;
  mflags ← le64dec 72;
  dflags ← le64dec 80;
  provider ← bcopy_out 88 16;
  _ ← bcopy_out 104 16;
  hash ← md5_of 104;
  stored ← bcopy_out 104 16;
  if decide (hash ≠ stored) then
    mret (EINVAL, Raid3Md (md_magic md) (md_version md) name id no all genid syncid mediasize sectorsize
      sync_offset mflags dflags provider (md_provsize md) hash)
  else
    mret (0, Raid3Md (md_magic md) (md_version md) name id no all genid syncid mediasize sectorsize
      sync_offset mflags dflags provider 0 hash).

Definition raid3_metadata_decode_v4v5 (md : g_raid3_metadata) : M (list Z) (Z * g_raid3_metadata) :=
  name ← bcopy_out 20 16;
  id ← le32dec 36;
  no ← le16dec 40;
  all ← le16dec 42;
  genid ← le32dec 44;
  syncid ← le32dec 48;
  mediasize ← le64dec 52;
  sectorsize ← le32dec 60;
  sync_offset ← le64dec 64;
  mflags ← le64dec 72;
  dflags ← le64dec 80;
  provider ← bcopy_out 88 16;
  provsize ← le64dec 104;
  _ ← bcopy_out 112 16;
  hash ← md5_of 112;
  stored ← bcopy_out 112 16;
  if decide (hash ≠ stored) then
    mret (EINVAL, Raid3Md (md_magic md) (md_version md) name id no all genid syncid mediasize sectorsize
      sync_offset mflags dflags provider provsize hash)
  else
    mret (0, Raid3Md (md_magic md) (md_version md) name id no all genid syncid mediasize sectorsize
      sync_offset mflags dflags provider provsize hash).

Definition raid3_metadata_decode (md : g_raid3_metadata) : M (list Z) (Z * g_raid3_metadata) :=
  magic ← bcopy_out 0 16;
  version ← le32dec 16;
  let md := set_md_head magic version md in
  if decide (version = 0 ∨ version = 1 ∨ version = 2) then raid3_metadata_decode_v0v1v2 md
  else if decide (version = 3) then raid3_metadata_decode_v3 md
  else if decide (version = 4 ∨ version = 5) then raid3_metadata_decode_v4v5 md
  else mret (EINVAL, md).

(** ** The layouts by version *)

Definition written (md : g_raid3_metadata) : list field := [
  Bytes 16 (md_magic md); U32 (md_version md); Bytes 16 (md_name md); U32 (md_id md);
  U16 (md_no md); U16 (md_all md); U32 (md_genid md); U32 (md_syncid md); U64 (md_mediasize md);
  U32 (md_sectorsize md); U64 (md_sync_offset md); U64 (md_mflags md); U64 (md_dflags md);
  Bytes 16 (md_provider md); U64 (md_provsize md)].

Definition layout_v3 (md : g_raid3_metadata) : list field := [
  Bytes 16 (md_magic md); U32 (md_version md); Bytes 16 (md_name md); U32 (md_id md);
  U16 (md_no md); U16 (md_all md); U32 (md_genid md); U32 (md_syncid md); U64 (md_mediasize md);
  U32 (md_sectorsize md); U64 (md_sync_offset md); U64 (md_mflags md); U64 (md_dflags md);
  Bytes 16 (md_provider md)].

Definition layout_v0 (md : g_raid3_metadata) : list field := [
  Bytes 16 (md_magic md); U32 (md_version md); Bytes 16 (md_name md); U32 (md_id md);
  U16 (md_no md); U16 (md_all md); U32 (md_syncid md); U64 (md_mediasize md);
  U32 (md_sectorsize md); U64 (md_sync_offset md); U64 (md_mflags md); U64 (md_dflags md);
  Bytes 16 (md_provider md)].

Definition layout (version : Z) : option (g_raid3_metadata → list field) :=
  if decide (version = 0 ∨ version = 1 ∨ version = 2) then Some layout_v0
  else if decide (version = 3) then Some layout_v3
  else if decide (version = 4 ∨ version = 5) then Some written
  else None.

Definition upgrade (md0 md : g_raid3_metadata) : g_raid3_metadata :=
  if decide (md_version md = 0 ∨ md_version md = 1 ∨ md_version md = 2) then set_md_new 0 0 md
  else if decide (md_version md = 3) then set_md_new (md_genid md) 0 md
  else md.

Definition raid3_format : format g_raid3_metadata :=
  Format raid3_metadata_encode raid3_metadata_decode md_version layout written set_md_hash upgrade.

Lemma raid3_encode_writes md data :
  Forall field_ok (written md) → (image_size (written md) + 16 ≤ length data)%nat →
  raid3_metadata_encode md data =
    Ok (set_md_hash (md5_sum (written md)) md,
        image (written md) ++ md5_sum (written md) ++ drop (image_size (written md) + 16) data).
Proof.
  intros Hok Hlen. unfold written in Hok. decompose_Forall_hyps.
  cbn [image_size sum_list_with written field_size] in Hlen.
  unfold raid3_metadata_encode. encode_tac data.
Qed.

Lemma decode_v0v1v2_checks md0 md h rest :
  Forall field_ok (layout_v0 md) → length h = 16%nat →
  ∃ md', raid3_metadata_decode_v0v1v2 (set_md_head (md_magic md) (md_version md) md0) (image (layout_v0 md) ++ h ++ rest) =
    Ok ((if decide (h = md5_sum (layout_v0 md)) then 0 else EINVAL, md'), image (layout_v0 md) ++ h ++ rest) ∧
    (h = md5_sum (layout_v0 md) → md' = set_md_hash h (set_md_new 0 0 md)).
Proof.
  intros Hok Hh. unfold layout_v0 in *. decompose_Forall_hyps. unfold raid3_metadata_decode_v0v1v2. decode_tac.
Qed.

Lemma decode_v3_checks md0 md h rest :
  Forall field_ok (layout_v3 md) → length h = 16%nat →
  ∃ md', raid3_metadata_decode_v3 (set_md_head (md_magic md) (md_version md) md0) (image (layout_v3 md) ++ h ++ rest) =
    Ok ((if decide (h = md5_sum (layout_v3 md)) then 0 else EINVAL, md'), image (layout_v3 md) ++ h ++ rest) ∧
    (h = md5_sum (layout_v3 md) → md' = set_md_hash h (set_md_new (md_genid md) 0 md)).
Proof.
  intros Hok Hh. unfold layout_v3 in *. decompose_Forall_hyps. unfold raid3_metadata_decode_v3. decode_tac.
Qed.

Lemma decode_v4v5_checks md0 md h rest :
  Forall field_ok (written md) → length h = 16%nat →
  ∃ md', raid3_metadata_decode_v4v5 (set_md_head (md_magic md) (md_version md) md0) (image (written md) ++ h ++ rest) =
    Ok ((if decide (h = md5_sum (written md)) then 0 else EINVAL, md'), image (written md) ++ h ++ rest) ∧
    (h = md5_sum (written md) → md' = set_md_hash h (md)).
Proof.
  intros Hok Hh. unfold written in *. decompose_Forall_hyps. unfold raid3_metadata_decode_v4v5. decode_tac.
Qed.

Lemma raid3_decode_checks md0 md fields h rest :
  layout (md_version md) = Some fields → Forall field_ok (fields md) → length h = 16%nat →
  ∃ md', raid3_metadata_decode md0 (image (fields md) ++ h ++ rest) =
    Ok ((if decide (h = md5_sum (fields md)) then 0 else EINVAL, md'),
        image (fields md) ++ h ++ rest) ∧
    (h = md5_sum (fields md) → md' = set_md_hash h (upgrade md0 md)).
Proof.
  unfold layout, upgrade, raid3_metadata_decode. intros Hlay Hok Hh.
  destruct (decide (md_version md = 0 ∨ md_version md = 1 ∨ md_version md = 2)) as [Hv|Hv];
    [injection Hlay as <-|
  destruct (decide (md_version md = 3)) as [Hv2|Hv2]; [injection Hlay as <-|
  destruct (decide (md_version md = 4 ∨ md_version md = 5)) as [Hv3|Hv3]; [injection Hlay as <-|done]]].
  - unfold layout_v0 at 1. rewrite head_step by done. pick_version (md_version md). by apply decode_v0v1v2_checks.
  - unfold layout_v3 at 1. rewrite head_step by done. pick_version (md_version md). by apply decode_v3_checks.
  - unfold written at 1. rewrite head_step by done. pick_version (md_version md). by apply decode_v4v5_checks.
Qed.

Lemma raid3_decode_unknown md0 magic v rest :
  length magic = 16%nat → bytes_ok magic → is_u32 v → layout v = None →
  ∃ md', raid3_metadata_decode md0 (magic ++ le_bytes 4 v ++ rest) =
    Ok ((EINVAL, md'), magic ++ le_bytes 4 v ++ rest).
Proof.
  unfold layout, raid3_metadata_decode. intros Hm Hb Hv Hlay.
  destruct (decide (v = 0 ∨ v = 1 ∨ v = 2)); [done|]. destruct (decide (v = 3)); [done|]. destruct (decide (v = 4 ∨ v = 5)); [done|]. unknown_tac v.
Qed.

#[global] Instance raid3_lawful : LawfulFormat raid3_format.
Proof. split; [apply raid3_encode_writes|apply raid3_decode_checks|apply raid3_decode_unknown]. Qed.

(** The metadata of a RAID3 component. As for a mirror: the encoder writes
    the fields of the current layout, sealed; the decoder reads versions 0 to 5
    back, with zeros for what older ones lack, exactly when the sum matches, and
    reports [EINVAL] otherwise. Versions 4 and 5 are decoded to what was
    encoded. *)
Theorem raid3_metadata_contract :
  LawfulFormat raid3_format ∧
  (∀ md md0 data, md_version md = 4 ∨ md_version md = 5 →
    Forall field_ok (written md) → (128 ≤ length data)%nat →
    ∃ d', (_ ← raid3_metadata_encode md; raid3_metadata_decode md0) data =
      Ok ((0, set_md_hash (md5_sum (written md)) md), d') ∧ length d' = length data).
Proof.
  split; [apply _|]. intros md md0 data Hv Hok Hlen.
  apply (format_roundtrip raid3_format); [..|done|done].
  - cbn. unfold layout. by pick_version (md_version md).
  - cbn. unfold upgrade. by pick_version (md_version md).
Qed.
End codec.

Definition sample : g_raid3_metadata :=
  Raid3Md (replicate 16 0x47) 5 (replicate 16 0x72) 0xdeadbeef 1 3 3 5 (2 ^ 40) 512 77 1 2
    (replicate 16 0) (2 ^ 40 + 512) [].

Example raid3_sample_roundtrip :
  (_ ← raid3_metadata_encode (MD := fold_md5) sample; raid3_metadata_decode (MD := fold_md5) sample)
    (replicate 130 0xff) =
  Ok ((0, set_md_hash (md5_sum (MD := fold_md5) (written sample)) sample),
      image (written sample) ++ md5_sum (MD := fold_md5) (written sample) ++ replicate 2 0xff).
Proof. vm_compute. reflexivity. Qed.
End Raid3.
