(* ===== verification/GeomJournal.v ===== *)
(** * GEOM journal metadata: geom/journal/g_journal.h

    The codec of the metadata sector of a journal's provider. *)

From S2P Require Import Prelude Endian GeomMd.

Module Journal.

Record g_journal_metadata : Type := JournalMd {
  md_magic : list Z; (** [char[16]]: magic value *)
  md_version : Z; (** [uint32_t]: version number *)
  md_id : Z; (** [uint32_t]: journal unique ID *)
  md_type : Z; (** [uint8_t]: provider type *)
  md_jstart : Z; (** [uint64_t]: journal space start offset *)
  md_jend : Z; (** [uint64_t]: journal space end offset *)
  md_joffset : Z; (** [uint64_t]: last known consistent journal offset *)
  md_jid : Z; (** [uint32_t]: last known consistent journal ID *)
  md_flags : Z; (** [uint64_t]: journal flags *)
  md_provider : list Z; (** [char[16]]: hardcoded provider *)
  md_provsize : Z; (** [uint64_t]: provider's size *)
  md_hash : list Z (** [u_char[16]]: MD5 hash *)
}.

Definition set_md_head (magic : list Z) (version : Z) (md : g_journal_metadata) : g_journal_metadata :=
  JournalMd magic version (md_id md) (md_type md) (md_jstart md) (md_jend md)
    (md_joffset md) (md_jid md) (md_flags md) (md_provider md) (md_provsize md)
    (md_hash md).

Definition set_md_hash (hash : list Z) (md : g_journal_metadata) : g_journal_metadata :=
  JournalMd (md_magic md) (md_version md) (md_id md) (md_type md) (md_jstart md)
    (md_jend md) (md_joffset md) (md_jid md) (md_flags md) (md_provider md)
    (md_provsize md) hash.

Section codec.
Context {MD : Md5}.

Definition journal_metadata_encode (md : g_journal_metadata) : M (list Z) g_journal_metadata :=
  _ ← bcopy_in (md_magic md) 0 16;
  _ ← le32enc 16 (md_version md);
  _ ← le32enc 20 (md_id md);
  _ ← poke 24 (md_type md);
  _ ← le64enc 25 (md_jstart md);
  _ ← le64enc 33 (md_jend md);
  _ ← le64enc 41 (md_joffset md);
  _ ← le32enc 49 (md_jid md);
  _ ← le64enc 53 (md_flags md);
  _ ← bcopy_in (md_provider md) 61 16;
  _ ← le64enc 77 (md_provsize md);
  hash ← md5_of 85;
  _ ← bcopy_in hash 85 16;
  mret (set_md_hash hash md).

Definition journal_metadata_decode_v0 (md : g_journal_metadata) : M (list Z) (Z * g_journal_metadata) :=
  id ← le32dec 20;
  type ← peek 24;
  jstart ← le64dec 25;
  jend ← le64dec 33;
  joffset ← le64dec 41;
  jid ← le32dec 49;
  flags ← le64dec 53;
  provider ← bcopy_out 61 16;
  provsize ← le64dec 77;
  hash ← md5_of 85;
  stored ← bcopy_out 85 16;
  if decide (hash ≠ stored) then
    mret (EINVAL, JournalMd (md_magic md) (md_version md) id type jstart jend joffset jid flags provider
      provsize hash)
  else
    mret (0, JournalMd (md_magic md) (md_version md) id type jstart jend joffset jid flags provider
      provsize hash).

Definition journal_metadata_decode (md : g_journal_metadata) : M (list Z) (Z * g_journal_metadata) :=
  magic ← bcopy_out 0 16;
  version ← le32dec 16;
  let md := set_md_head magic version md in
  if decide (version = 0) then journal_metadata_decode_v0 md
  else mret (EINVAL, md).

(** ** The layout *)

Definition written (md : g_journal_metadata) : list field := [
  Bytes 16 (md_magic md); U32 (md_version md); U32 (md_id md); U8 (md_type md);
  U64 (md_jstart md); U64 (md_jend md); U64 (md_joffset md); U32 (md_jid md); U64 (md_flags md);
  Bytes 16 (md_provider md); U64 (md_provsize md)].

Definition layout (version : Z) : option (g_journal_metadata → list field) :=
  if decide (version = 0) then Some written else None.

Definition upgrade (md0 md : g_journal_metadata) : g_journal_metadata := md.

Definition journal_format : format g_journal_metadata :=
  Format journal_metadata_encode journal_metadata_decode md_version layout written set_md_hash upgrade.

Lemma journal_encode_writes md data :
  Forall field_ok (written md) → (image_size (written md) + 16 ≤ length data)%nat →
  journal_metadata_encode md data =
    Ok (set_md_hash (md5_sum (written md)) md,
        image (written md) ++ md5_sum (written md) ++ drop (image_size (written md) + 16) data).
Proof.
  intros Hok Hlen. unfold written in Hok. decompose_Forall_hyps.
  cbn [image_size sum_list_with written field_size] in Hlen.
  unfold journal_metadata_encode. encode_tac data.
Qed.

Lemma decode_v0_checks md0 md h rest :
  Forall field_ok (written md) → length h = 16%nat →
  ∃ md', journal_metadata_decode_v0 (set_md_head (md_magic md) (md_version md) md0) (image (written md) ++ h ++ rest) =
    Ok ((if decide (h = md5_sum (written md)) then 0 else EINVAL, md'), image (written md) ++ h ++ rest) ∧
    (h = md5_sum (written md) → md' = set_md_hash h (md)).
Proof.
  intros Hok Hh. unfold written in *. decompose_Forall_hyps. unfold journal_metadata_decode_v0. decode_tac.
Qed.

Lemma journal_decode_checks md0 md fields h rest :
  layout (md_version md) = Some fields → Forall field_ok (fields md) → length h = 16%nat →
  ∃ md', journal_metadata_decode md0 (image (fields md) ++ h ++ rest) =
    Ok ((if decide (h = md5_sum (fields md)) then 0 else EINVAL, md'),
        image (fields md) ++ h ++ rest) ∧
    (h = md5_sum (fields md) → md' = set_md_hash h (upgrade md0 md)).
Proof.
  unfold layout, upgrade, journal_metadata_decode. intros Hlay Hok Hh.
  destruct (decide (md_version md = 0)) as [Hv|Hv]; [injection Hlay as <-|done].
  unfold written at 1. rewrite head_step by done. pick_version (md_version md). by apply decode_v0_checks.
Qed.

Lemma journal_decode_unknown md0 magic v rest :
  length magic = 16%nat → bytes_ok magic → is_u32 v → layout v = None →
  ∃ md', journal_metadata_decode md0 (magic ++ le_bytes 4 v ++ rest) =
    Ok ((EINVAL, md'), magic ++ le_bytes 4 v ++ rest).
Proof.
  unfold layout, journal_metadata_decode. intros Hm Hb Hv Hlay.
  destruct (decide (v = 0)); [done|]. unknown_tac v.
Qed.

#[global] Instance journal_lawful : LawfulFormat journal_format.
Proof. split; [apply journal_encode_writes|apply journal_decode_checks|apply journal_decode_unknown]. Qed.

(** The metadata of a journal. The encoder writes the fields in order and
    seals them; the decoder accepts version 0, exactly when the sum matches, and
    gives back what was encoded. *)
Theorem journal_metadata_contract :
  LawfulFormat journal_format ∧
  (∀ md md0 data, md_version md = 0 →
    Forall field_ok (written md) → (101 ≤ length data)%nat →
    ∃ d', (_ ← journal_metadata_encode md; journal_metadata_decode md0) data =
      Ok ((0, set_md_hash (md5_sum (written md)) md), d') ∧ length d' = length data).
Proof.
  split; [apply _|]. intros md md0 data Hv Hok Hlen.
  apply (format_roundtrip journal_format); [|done|done|done].
  cbn. unfold layout. by pick_version (md_version md).
Qed.
End codec.

Definition sample : g_journal_metadata :=
  JournalMd (replicate 16 0x47) 0 0xdeadbeef 3 512 (2 ^ 30) 1024 9 1 (replicate 16 0) (2 ^ 40 + 512) [].

Example journal_sample_roundtrip :
  (_ ← journal_metadata_encode (MD := fold_md5) sample; journal_metadata_decode (MD := fold_md5) sample)
    (replicate 102 0xff) =
  Ok ((0, set_md_hash (md5_sum (MD := fold_md5) (written sample)) sample),
      image (written sample) ++ md5_sum (MD := fold_md5) (written sample) ++ [0xff]).
Proof. vm_compute. reflexivity. Qed.
End Journal.
