(* ===== verification/GeomEli.v ===== *)
(** * GEOM ELI metadata: geom/eli/g_eli.h

    The codec of the metadata sector of an encrypted provider, and the tables of
    its encryption and authentication algorithms: their names and key lengths, on
    the numbers of crypto/cryptodev.h. *)

From S2P Require Import Prelude Endian GeomMd.

Module Eli.

Definition G_ELI_MAXMKEYS : nat := 2.
Definition G_ELI_MAXKEYLEN : nat := 64.
Definition SHA512_MDLEN : nat := 64.
Definition G_ELI_SALTLEN : nat := 64.
Definition G_ELI_DATAIVKEYLEN : nat := G_ELI_MAXKEYLEN + G_ELI_MAXKEYLEN.
Definition G_ELI_MKEYLEN : nat := G_ELI_DATAIVKEYLEN + SHA512_MDLEN.
Definition sizeof_mkeys : nat := Eval vm_compute in (G_ELI_MAXMKEYS * G_ELI_MKEYLEN)%nat.

Record g_eli_metadata : Type := EliMd {
  md_magic : list Z; (** [char[16]] *)
  md_version : Z; (** [uint32_t] *)
  md_flags : Z; (** [uint32_t] *)
  md_ealgo : Z; (** [uint16_t]: encryption algorithm *)
  md_keylen : Z; (** [uint16_t] *)
  md_aalgo : Z; (** [uint16_t]: authentication algorithm *)
  md_provsize : Z; (** [uint64_t] *)
  md_sectorsize : Z; (** [uint32_t] *)
  md_keys : Z; (** [uint8_t]: available keys *)
  md_iterations : Z; (** [int32_t]: of PKCS#5v2 *)
  md_salt : list Z; (** [uint8_t[G_ELI_SALTLEN]] *)
  md_mkeys : list Z; (** [uint8_t[G_ELI_MAXMKEYS * G_ELI_MKEYLEN]] *)
  md_hash : list Z (** [u_char[16]] *)
}.

Definition set_md_head (magic : list Z) (version : Z) (md : g_eli_metadata) : g_eli_metadata :=
  EliMd magic version (md_flags md) (md_ealgo md) (md_keylen md) (md_aalgo md) (md_provsize md)
    (md_sectorsize md) (md_keys md) (md_iterations md) (md_salt md) (md_mkeys md) (md_hash md).

Definition set_md_hash (hash : list Z) (md : g_eli_metadata) : g_eli_metadata :=
  EliMd (md_magic md) (md_version md) (md_flags md) (md_ealgo md) (md_keylen md) (md_aalgo md)
    (md_provsize md) (md_sectorsize md) (md_keys md) (md_iterations md) (md_salt md) (md_mkeys md) hash.

Definition set_md_aalgo (aalgo : Z) (md : g_eli_metadata) : g_eli_metadata :=
  EliMd (md_magic md) (md_version md) (md_flags md) (md_ealgo md) (md_keylen md) aalgo
    (md_provsize md) (md_sectorsize md) (md_keys md) (md_iterations md) (md_salt md) (md_mkeys md)
    (md_hash md).

Section codec.
Context {MD : Md5}.

Definition eli_metadata_encode (md : g_eli_metadata) : M (list Z) g_eli_metadata :=
  let p := 0%nat in
  _ ← bcopy_in (md_magic md) p 16; let p := (p + 16)%nat in
  _ ← le32enc p (md_version md); let p := (p + 4)%nat in
  _ ← le32enc p (md_flags md); let p := (p + 4)%nat in
  _ ← le16enc p (md_ealgo md); let p := (p + 2)%nat in
  _ ← le16enc p (md_keylen md); let p := (p + 2)%nat in
  _ ← le16enc p (md_aalgo md); let p := (p + 2)%nat in
  _ ← le64enc p (md_provsize md); let p := (p + 8)%nat in
  _ ← le32enc p (md_sectorsize md); let p := (p + 4)%nat in
  _ ← poke p (md_keys md); let p := (p + 1)%nat in
  _ ← le32enc p (u32 (md_iterations md)); let p := (p + 4)%nat in
  _ ← bcopy_in (md_salt md) p G_ELI_SALTLEN; let p := (p + G_ELI_SALTLEN)%nat in
  _ ← bcopy_in (md_mkeys md) p sizeof_mkeys; let p := (p + sizeof_mkeys)%nat in
  hash ← md5_of p;
  _ ← bcopy_in hash p 16;
  mret (set_md_hash hash md).

Definition eli_metadata_decode_v0 (md : g_eli_metadata) : M (list Z) (Z * g_eli_metadata) :=
  let p := (16 + 4)%nat in
  flags ← le32dec p; let p := (p + 4)%nat in
  ealgo ← le16dec p; let p := (p + 2)%nat in
  keylen ← le16dec p; let p := (p + 2)%nat in
  provsize ← le64dec p; let p := (p + 8)%nat in
  sectorsize ← le32dec p; let p := (p + 4)%nat in
  keys ← peek p; let p := (p + 1)%nat in
  iterations ← le32dec p; let p := (p + 4)%nat in
  salt ← bcopy_out p G_ELI_SALTLEN; let p := (p + G_ELI_SALTLEN)%nat in
  mkeys ← bcopy_out p sizeof_mkeys; let p := (p + sizeof_mkeys)%nat in
  hash ← md5_of p;
  stored ← bcopy_out p 16;
  let md := EliMd (md_magic md) (md_version md) flags ealgo keylen (md_aalgo md) provsize sectorsize
              keys (i32 iterations) salt mkeys hash in
  if decide (hash ≠ stored) then mret (EINVAL, md) else mret (0, md).

Definition eli_metadata_decode_v1v2v3v4v5v6 (md : g_eli_metadata) : M (list Z) (Z * g_eli_metadata) :=
  let p := (16 + 4)%nat in
  flags ← le32dec p; let p := (p + 4)%nat in
  ealgo ← le16dec p; let p := (p + 2)%nat in
  keylen ← le16dec p; let p := (p + 2)%nat in
  aalgo ← le16dec p; let p := (p + 2)%nat in
  provsize ← le64dec p; let p := (p + 8)%nat in
  sectorsize ← le32dec p; let p := (p + 4)%nat in
  keys ← peek p; let p := (p + 1)%nat in
  iterations ← le32dec p; let p := (p + 4)%nat in
  salt ← bcopy_out p G_ELI_SALTLEN; let p := (p + G_ELI_SALTLEN)%nat in
  mkeys ← bcopy_out p sizeof_mkeys; let p := (p + sizeof_mkeys)%nat in
  hash ← md5_of p;
  stored ← bcopy_out p 16;
  let md := EliMd (md_magic md) (md_version md) flags ealgo keylen aalgo provsize sectorsize
              keys (i32 iterations) salt mkeys hash in
  if decide (hash ≠ stored) then mret (EINVAL, md) else mret (0, md).

Definition eli_metadata_decode (md : g_eli_metadata) : M (list Z) (Z * g_eli_metadata) :=
  magic ← bcopy_out 0 16;
  version ← le32dec 16;
  let md := set_md_head magic version md in
  if decide (version = 0) then eli_metadata_decode_v0 md
  else if decide (version = 1 ∨ version = 2 ∨ version = 3 ∨ version = 4 ∨ version = 5 ∨ version = 6)
  then eli_metadata_decode_v1v2v3v4v5v6 md
  else mret (EINVAL, md).

(** ** The layouts by version *)

Definition tail_fields (md : g_eli_metadata) : list field := [
  U64 (md_provsize md); U32 (md_sectorsize md); U8 (md_keys md); S32 (md_iterations md);
  Bytes 64 (md_salt md); Bytes 384 (md_mkeys md)].

Definition written (md : g_eli_metadata) : list field :=
  [Bytes 16 (md_magic md); U32 (md_version md); U32 (md_flags md); U16 (md_ealgo md);
   U16 (md_keylen md); U16 (md_aalgo md)] ++ tail_fields md.

(** Version 0 has no authentication. *)
Definition layout_v0 (md : g_eli_metadata) : list field :=
  [Bytes 16 (md_magic md); U32 (md_version md); U32 (md_flags md); U16 (md_ealgo md);
   U16 (md_keylen md)] ++ tail_fields md.

Definition layout (version : Z) : option (g_eli_metadata → list field) :=
  if decide (version = 0) then Some layout_v0
  else if decide (version = 1 ∨ version = 2 ∨ version = 3 ∨ version = 4 ∨ version = 5 ∨ version = 6)
  then Some written
  else None.

(** Decoding version 0 leaves [md_aalgo] as it was. *)
Definition upgrade (md0 md : g_eli_metadata) : g_eli_metadata :=
  if decide (md_version md = 0) then set_md_aalgo (md_aalgo md0) md else md.

Definition eli_format : format g_eli_metadata :=
  Format eli_metadata_encode eli_metadata_decode md_version layout written set_md_hash upgrade.

Lemma i32_u32 z : is_i32 z → i32 (u32 z) = z.
Proof.
  intros Hz. unfold i32, u32. rewrite Zplus_mod_idemp_l. by apply i32_id.
Qed.

Lemma eli_encode_writes md data :
  Forall field_ok (written md) → (image_size (written md) + 16 ≤ length data)%nat →
  eli_metadata_encode md data =
    Ok (set_md_hash (md5_sum (written md)) md,
        image (written md) ++ md5_sum (written md) ++ drop (image_size (written md) + 16) data).
Proof.
  intros Hok Hlen. unfold written, tail_fields in *. cbn [app] in *. decompose_Forall_hyps.
  cbn [image_size sum_list_with field_size] in Hlen.
  unfold eli_metadata_encode. cbv zeta. unfold G_ELI_SALTLEN, sizeof_mkeys. encode_tac data.
Qed.

Lemma eli_decode_v0_checks md0 md h rest :
  Forall field_ok (layout_v0 md) → length h = 16%nat →
  ∃ md', eli_metadata_decode_v0 (set_md_head (md_magic md) (md_version md) md0)
      (image (layout_v0 md) ++ h ++ rest) =
    Ok ((if decide (h = md5_sum (layout_v0 md)) then 0 else EINVAL, md'), image (layout_v0 md) ++ h ++ rest) ∧
    (h = md5_sum (layout_v0 md) → md' = set_md_hash h (set_md_aalgo (md_aalgo md0) md)).
Proof.
  intros Hok Hh. unfold layout_v0, tail_fields in *. cbn [app] in *. decompose_Forall_hyps.
  unfold eli_metadata_decode_v0, set_md_hash, set_md_aalgo. cbv zeta.
  unfold G_ELI_SALTLEN, sizeof_mkeys. decode_tac. cbn. by rewrite i32_u32.
Qed.

Lemma decode_v1_checks md0 md h rest :
  Forall field_ok (written md) → length h = 16%nat →
  ∃ md', eli_metadata_decode_v1v2v3v4v5v6 (set_md_head (md_magic md) (md_version md) md0)
      (image (written md) ++ h ++ rest) =
    Ok ((if decide (h = md5_sum (written md)) then 0 else EINVAL, md'), image (written md) ++ h ++ rest) ∧
    (h = md5_sum (written md) → md' = set_md_hash h md).
Proof.
  intros Hok Hh. unfold written, tail_fields in *. cbn [app] in *. decompose_Forall_hyps.
  unfold eli_metadata_decode_v1v2v3v4v5v6, set_md_hash. cbv zeta.
  unfold G_ELI_SALTLEN, sizeof_mkeys. decode_tac. cbn. by rewrite i32_u32.
Qed.

Lemma eli_decode_checks md0 md fields h rest :
  layout (md_version md) = Some fields → Forall field_ok (fields md) → length h = 16%nat →
  ∃ md', eli_metadata_decode md0 (image (fields md) ++ h ++ rest) =
    Ok ((if decide (h = md5_sum (fields md)) then 0 else EINVAL, md'),
        image (fields md) ++ h ++ rest) ∧
    (h = md5_sum (fields md) → md' = set_md_hash h (upgrade md0 md)).
Proof.
  unfold layout, upgrade, eli_metadata_decode. intros Hlay Hok Hh.
  destruct (decide (md_version md = 0)) as [Hv|Hv]; [injection Hlay as <-|
  destruct (decide (md_version md = 1 ∨ _)) as [Hv1|Hv1]; [injection Hlay as <-|done]].
  - unfold layout_v0 at 1. cbn [app]. rewrite head_step by done. pick_version (md_version md). by apply eli_decode_v0_checks.
  - unfold written at 1. cbn [app]. rewrite head_step by done. pick_version (md_version md). by apply decode_v1_checks.
Qed.

Lemma eli_decode_unknown md0 magic v rest :
  length magic = 16%nat → bytes_ok magic → is_u32 v → layout v = None →
  ∃ md', eli_metadata_decode md0 (magic ++ le_bytes 4 v ++ rest) =
    Ok ((EINVAL, md'), magic ++ le_bytes 4 v ++ rest).
Proof.
  unfold layout, eli_metadata_decode. intros Hm Hb Hv Hlay.
  destruct (decide (v = 0)); [done|]. destruct (decide (v = 1 ∨ _)); [done|]. unknown_tac v.
Qed.

#[global] Instance eli_lawful : LawfulFormat eli_format.
Proof. split; [apply eli_encode_writes|apply eli_decode_checks|apply eli_decode_unknown]. Qed.

(** The metadata of an encrypted provider. The encoder writes the fields of
    the current layout, sealed; the decoder accepts versions 0 to 6, exactly when
    the sum matches, and reports [EINVAL] otherwise. Versions 1 to 6 are decoded
    to what was encoded, the signed iteration count included; decoding version 0,
    whose layout has no authentication algorithm, leaves that field as it was. *)
Theorem eli_metadata_contract :
  LawfulFormat eli_format ∧
  (∀ md md0 data, 1 ≤ md_version md ≤ 6 →
    Forall field_ok (written md) → (511 ≤ length data)%nat →
    ∃ d', (_ ← eli_metadata_encode md; eli_metadata_decode md0) data =
      Ok ((0, set_md_hash (md5_sum (written md)) md), d') ∧ length d' = length data).
Proof.
  split; [apply _|]. intros md md0 data Hv Hok Hlen.
  apply (format_roundtrip eli_format); [..|done|done].
  - cbn. unfold layout. by pick_version (md_version md).
  - cbn. unfold upgrade. by pick_version (md_version md).
Qed.
End codec.

Definition sample (version : Z) : g_eli_metadata :=
  EliMd (replicate 16 0x47) version 1 16 256 18 (2 ^ 40 + 512) 4096 3 (-1) (replicate 64 0x5a)
    (replicate 384 0x11) [].

Example eli_sample_roundtrip :
  (_ ← eli_metadata_encode (MD := fold_md5) (sample 6); eli_metadata_decode (MD := fold_md5) (sample 1))
    (replicate 512 0xff) =
  Ok ((0, set_md_hash (md5_sum (MD := fold_md5) (written (sample 6))) (sample 6)),
      image (written (sample 6)) ++ md5_sum (MD := fold_md5) (written (sample 6)) ++ [0xff]).
Proof. vm_compute. reflexivity. Qed.

(** The encoder knows one layout only: what it writes under version 0 is not what
    the decoder of version 0 reads. *)
Example eli_version_0_not_reread :
  ∃ md' d', (_ ← eli_metadata_encode (MD := fold_md5) (sample 0); eli_metadata_decode (MD := fold_md5) (sample 0))
    (replicate 512 0xff) = Ok ((EINVAL, md'), d').
Proof. eexists _, _. vm_compute. reflexivity. Qed.

(** ** Algorithms: crypto/cryptodev.h, g_eli.h *)

#[local] Open Scope string_scope.
#[local] Open Scope Z_scope.

Definition CRYPTO_ALGORITHM_MIN : Z := 1.
Definition CRYPTO_3DES_CBC : Z := 2.
Definition CRYPTO_BLF_CBC : Z := 3.
Definition CRYPTO_MD5_HMAC : Z := 6.
Definition CRYPTO_SHA1_HMAC : Z := 7.
Definition CRYPTO_RIPEMD160_HMAC : Z := 8.
Definition CRYPTO_AES_CBC : Z := 11.
Definition CRYPTO_NULL_CBC : Z := 16.
Definition CRYPTO_SHA2_256_HMAC : Z := 18.
Definition CRYPTO_SHA2_384_HMAC : Z := 19.
Definition CRYPTO_SHA2_512_HMAC : Z := 20.
Definition CRYPTO_CAMELLIA_CBC : Z := 21.
Definition CRYPTO_AES_XTS : Z := 22.

Definition MD5_HASH_LEN : Z := 16.
Definition SHA1_HASH_LEN : Z := 20.
Definition RIPEMD160_HASH_LEN : Z := 20.
Definition SHA2_256_HASH_LEN : Z := 32.
Definition SHA2_384_HASH_LEN : Z := 48.
Definition SHA2_512_HASH_LEN : Z := 64.

(** [strcasecmp] in the C locale, as a test for equality. *)
Definition to_lower (c : Ascii.ascii) : Ascii.ascii :=
  let n := Ascii.N_of_ascii c in
  if decide (65 ≤ n ∧ n ≤ 90)%N then Ascii.ascii_of_N (n + 32) else c.

Definition lower (s : String.string) : String.string :=
  String.string_of_list_ascii (map to_lower (String.list_ascii_of_string s)).

Definition strcaseeq (a b : String.string) : bool := String.eqb (lower a) (lower b).

Definition g_eli_str2ealgo (name : String.string) : Z :=
  if strcaseeq "null" name then CRYPTO_NULL_CBC
  else if strcaseeq "null-cbc" name then CRYPTO_NULL_CBC
  else if strcaseeq "aes" name then CRYPTO_AES_XTS
  else if strcaseeq "aes-cbc" name then CRYPTO_AES_CBC
  else if strcaseeq "aes-xts" name then CRYPTO_AES_XTS
  else if strcaseeq "blowfish" name then CRYPTO_BLF_CBC
  else if strcaseeq "blowfish-cbc" name then CRYPTO_BLF_CBC
  else if strcaseeq "camellia" name then CRYPTO_CAMELLIA_CBC
  else if strcaseeq "camellia-cbc" name then CRYPTO_CAMELLIA_CBC
  else if strcaseeq "3des" name then CRYPTO_3DES_CBC
  else if strcaseeq "3des-cbc" name then CRYPTO_3DES_CBC
  else u32 (CRYPTO_ALGORITHM_MIN - 1).

Definition g_eli_str2aalgo (name : String.string) : Z :=
  if strcaseeq "hmac/md5" name then CRYPTO_MD5_HMAC
  else if strcaseeq "hmac/sha1" name then CRYPTO_SHA1_HMAC
  else if strcaseeq "hmac/ripemd160" name then CRYPTO_RIPEMD160_HMAC
  else if strcaseeq "hmac/sha256" name then CRYPTO_SHA2_256_HMAC
  else if strcaseeq "hmac/sha384" name then CRYPTO_SHA2_384_HMAC
  else if strcaseeq "hmac/sha512" name then CRYPTO_SHA2_512_HMAC
  else u32 (CRYPTO_ALGORITHM_MIN - 1).

Definition g_eli_algo2str (algo : Z) : String.string :=
  if decide (algo = CRYPTO_NULL_CBC) then "NULL"
  else if decide (algo = CRYPTO_AES_CBC) then "AES-CBC"
  else if decide (algo = CRYPTO_AES_XTS) then "AES-XTS"
  else if decide (algo = CRYPTO_BLF_CBC) then "Blowfish-CBC"
  else if decide (algo = CRYPTO_CAMELLIA_CBC) then "CAMELLIA-CBC"
  else if decide (algo = CRYPTO_3DES_CBC) then "3DES-CBC"
  else if decide (algo = CRYPTO_MD5_HMAC) then "HMAC/MD5"
  else if decide (algo = CRYPTO_SHA1_HMAC) then "HMAC/SHA1"
  else if decide (algo = CRYPTO_RIPEMD160_HMAC) then "HMAC/RIPEMD160"
  else if decide (algo = CRYPTO_SHA2_256_HMAC) then "HMAC/SHA256"
  else if decide (algo = CRYPTO_SHA2_384_HMAC) then "HMAC/SHA384"
  else if decide (algo = CRYPTO_SHA2_512_HMAC) then "HMAC/SHA512"
  else "unknown".

Definition g_eli_keylen (algo keylen : Z) : Z :=
  if decide (algo = CRYPTO_NULL_CBC) then
    if decide (keylen = 0) then 64 * 8 else if decide (keylen > 64 * 8) then 0 else keylen
  else if decide (algo = CRYPTO_AES_CBC ∨ algo = CRYPTO_CAMELLIA_CBC) then
    if decide (keylen = 0) then 128
    else if decide (keylen = 128 ∨ keylen = 192 ∨ keylen = 256) then keylen else 0
  else if decide (algo = CRYPTO_AES_XTS) then
    if decide (keylen = 0) then 128
    else if decide (keylen = 128 ∨ keylen = 256) then keylen else 0
  else if decide (algo = CRYPTO_BLF_CBC) then
    if decide (keylen = 0) then 128
    else if decide (keylen < 128 ∨ keylen > 448) then 0
    else if decide (keylen `mod` 32 ≠ 0) then 0 else keylen
  else if decide (algo = CRYPTO_3DES_CBC) then
    if decide (keylen = 0 ∨ keylen = 192) then 192 else 0
  else 0.

Definition g_eli_hashlen (algo : Z) : Z :=
  if decide (algo = CRYPTO_MD5_HMAC) then 16
  else if decide (algo = CRYPTO_SHA1_HMAC) then 20
  else if decide (algo = CRYPTO_RIPEMD160_HMAC) then 20
  else if decide (algo = CRYPTO_SHA2_256_HMAC) then 32
  else if decide (algo = CRYPTO_SHA2_384_HMAC) then 48
  else if decide (algo = CRYPTO_SHA2_512_HMAC) then 64
  else 0.

(** The algorithms of each kind, with the sums' lengths of the crypto framework. *)
Definition ealgos : list Z :=
  [CRYPTO_NULL_CBC; CRYPTO_AES_CBC; CRYPTO_AES_XTS; CRYPTO_BLF_CBC; CRYPTO_CAMELLIA_CBC; CRYPTO_3DES_CBC].
Definition aalgos : list (Z * Z) :=
  [(CRYPTO_MD5_HMAC, MD5_HASH_LEN); (CRYPTO_SHA1_HMAC, SHA1_HASH_LEN);
   (CRYPTO_RIPEMD160_HMAC, RIPEMD160_HASH_LEN); (CRYPTO_SHA2_256_HMAC, SHA2_256_HASH_LEN);
   (CRYPTO_SHA2_384_HMAC, SHA2_384_HASH_LEN); (CRYPTO_SHA2_512_HMAC, SHA2_512_HASH_LEN)].

Lemma keylen_spec a k :
  0 ≤ k → 0 ≤ g_eli_keylen a k ≤ 512 ∧
  (g_eli_keylen a k ≠ 0 → g_eli_keylen a (g_eli_keylen a k) = g_eli_keylen a k) ∧
  (a ∉ ealgos → g_eli_keylen a k = 0).
Proof.
  intros Hk. unfold ealgos, g_eli_keylen.
  unfold CRYPTO_NULL_CBC, CRYPTO_AES_CBC, CRYPTO_AES_XTS, CRYPTO_BLF_CBC, CRYPTO_CAMELLIA_CBC, CRYPTO_3DES_CBC.
  rewrite !not_elem_of_cons.
  repeat (case_decide; simplify_eq; try lia).
Qed.

(** The algorithm tables of ELI. The name of every algorithm names it again,
    in any case of its letters, among its kind only; the key length a provider
    gets for an algorithm is at most 512 bits, never zero for the default, and
    asking for it again changes nothing; no other number has one; and the sums'
    lengths are those of the crypto framework. *)
Theorem algorithm_tables :
  (∀ a, a ∈ ealgos → g_eli_str2ealgo (g_eli_algo2str a) = a ∧ g_eli_str2aalgo (g_eli_algo2str a) = 0 ∧
    g_eli_keylen a 0 ≠ 0 ∧ g_eli_hashlen a = 0) ∧
  (∀ a n, (a, n) ∈ aalgos → g_eli_str2aalgo (g_eli_algo2str a) = a ∧ g_eli_str2ealgo (g_eli_algo2str a) = 0 ∧
    g_eli_hashlen a = n) ∧
  (∀ name name', lower name = lower name' → g_eli_str2ealgo name = g_eli_str2ealgo name' ∧
    g_eli_str2aalgo name = g_eli_str2aalgo name') ∧
  (∀ a k, 0 ≤ k → 0 ≤ g_eli_keylen a k ≤ 512 ∧
    (g_eli_keylen a k ≠ 0 → g_eli_keylen a (g_eli_keylen a k) = g_eli_keylen a k) ∧
    (a ∉ ealgos → g_eli_keylen a k = 0)).
Proof.
  split_and!.
  - assert (Forall (λ a, g_eli_str2ealgo (g_eli_algo2str a) = a ∧ g_eli_str2aalgo (g_eli_algo2str a) = 0 ∧
      g_eli_keylen a 0 ≠ 0 ∧ g_eli_hashlen a = 0) ealgos) as H by (by repeat constructor).
    by apply Forall_forall.
  - assert (Forall (λ e, g_eli_str2aalgo (g_eli_algo2str e.1) = e.1 ∧ g_eli_str2ealgo (g_eli_algo2str e.1) = 0 ∧
      g_eli_hashlen e.1 = e.2) aalgos) as H by (by repeat constructor).
    intros a n Hin. exact (proj1 (Forall_forall _ _) H (a, n) Hin).
  - intros name name' E. unfold g_eli_str2ealgo, g_eli_str2aalgo, strcaseeq. by rewrite E.
  - intros a k. apply keylen_spec.
Qed.
End Eli.
