(* ===== verification/GeomPlain.v ===== *)
(** * GEOM metadata without a sum: stripe, concat, label, shsec, cache, multipath

    The codecs of the classes whose metadata is written as it is: one Module per
    header under src/Payload/freebsd-headers/geom. The contract they share is
    that the encoder writes exactly the fields, in order, and the decoder reads
    them back. *)

From S2P Require Import Prelude Endian GeomMd.

(** ** The contract *)

Record plain (T : Type) : Type := Plain {
  p_encode : T → M (list Z) unit;
  p_decode : M (list Z) T;
  p_fields : T → list field
}.
Arguments Plain {_}. Arguments p_encode {_}. Arguments p_decode {_}. Arguments p_fields {_}.

Class LawfulPlain {T : Type} (F : plain T) : Prop := {
  plain_encode md data :
    Forall field_ok (p_fields F md) → (image_size (p_fields F md) ≤ length data)%nat →
    p_encode F md data =
      Ok (tt, image (p_fields F md) ++ drop (image_size (p_fields F md)) data);
  plain_decode md rest :
    Forall field_ok (p_fields F md) →
    p_decode F (image (p_fields F md) ++ rest) = Ok (md, image (p_fields F md) ++ rest)
}.

Ltac plain_encode_tac data :=
  let E := fresh in
  assert (data = image [] ++ drop (image_size []) data) as E by done;
  rewrite E at 1; clear E; repeat put_tac;
  etransitivity;
  [eapply put_field; [writes_tac|field_ok_tac|fields_ok_tac|reflexivity|cbn [field_size]; lia]|reflexivity].

(** ** geom/stripe/g_stripe.h *)

Module Stripe.

Record g_stripe_metadata : Type := StripeMd {
  md_magic : list Z; (** [char[16]]: magic value *)
  md_version : Z; (** [uint32_t]: version number *)
  md_name : list Z; (** [char[16]]: stripe name *)
  md_id : Z; (** [uint32_t]: unique ID *)
  md_no : Z; (** [uint16_t]: disk number *)
  md_all : Z; (** [uint16_t]: number of all disks *)
  md_stripesize : Z; (** [uint32_t]: stripe size *)
  md_provider : list Z; (** [char[16]]: hardcoded provider *)
  md_provsize : Z (** [uint64_t]: provider's size *)
}.

Definition stripe_metadata_encode (md : g_stripe_metadata) : M (list Z) unit :=
  _ ← bcopy_in (md_magic md) 0 16;
  _ ← le32enc 16 (md_version md);
  _ ← bcopy_in (md_name md) 20 16;
  _ ← le32enc 36 (md_id md);
  _ ← le16enc 40 (md_no md);
  _ ← le16enc 42 (md_all md);
  _ ← le32enc 44 (md_stripesize md);
  _ ← bcopy_in (md_provider md) 48 16;
  le64enc 64 (md_provsize md).

Definition stripe_metadata_decode : M (list Z) g_stripe_metadata :=
  magic ← bcopy_out 0 16;
  version ← le32dec 16;
  name ← bcopy_out 20 16;
  id ← le32dec 36;
  no ← le16dec 40;
  all ← le16dec 42;
  stripesize ← le32dec 44;
  provider ← bcopy_out 48 16;
  provsize ← le64dec 64;
  mret (StripeMd magic version name id no all stripesize provider provsize).

Definition fields (md : g_stripe_metadata) : list field := [
  Bytes 16 (md_magic md); U32 (md_version md); Bytes 16 (md_name md); U32 (md_id md);
  U16 (md_no md); U16 (md_all md); U32 (md_stripesize md); Bytes 16 (md_provider md);
  U64 (md_provsize md)].

Definition stripe_format : plain g_stripe_metadata := Plain stripe_metadata_encode stripe_metadata_decode fields.

#[global] Instance stripe_lawful : LawfulPlain stripe_format.
Proof.
  split; cbn [stripe_format p_encode p_decode p_fields]; unfold fields, stripe_metadata_encode, stripe_metadata_decode.
  - intros md data Hok Hlen. decompose_Forall_hyps. cbn [image_size sum_list_with field_size] in Hlen.
    plain_encode_tac data.
  - intros md rest Hok. decompose_Forall_hyps. read_from 0%nat. by destruct md.
Qed.
End Stripe.

(** ** geom/concat/g_concat.h *)

Module Concat.

Record g_concat_metadata : Type := ConcatMd {
  md_magic : list Z; (** [char[16]]: magic value *)
  md_version : Z; (** [uint32_t]: version number *)
  md_name : list Z; (** [char[16]]: concat name *)
  md_id : Z; (** [uint32_t]: unique ID *)
  md_no : Z; (** [uint16_t]: disk number *)
  md_all : Z; (** [uint16_t]: number of all disks *)
  md_provider : list Z; (** [char[16]]: hardcoded provider *)
  md_provsize : Z (** [uint64_t]: provider's size *)
}.

Definition concat_metadata_encode (md : g_concat_metadata) : M (list Z) unit :=
  _ ← bcopy_in (md_magic md) 0 16;
  _ ← le32enc 16 (md_version md);
  _ ← bcopy_in (md_name md) 20 16;
  _ ← le32enc 36 (md_id md);
  _ ← le16enc 40 (md_no md);
  _ ← le16enc 42 (md_all md);
  _ ← bcopy_in (md_provider md) 44 16;
  le64enc 60 (md_provsize md).

Definition concat_metadata_decode : M (list Z) g_concat_metadata :=
  magic ← bcopy_out 0 16;
  version ← le32dec 16;
  name ← bcopy_out 20 16;
  id ← le32dec 36;
  no ← le16dec 40;
  all ← le16dec 42;
  provider ← bcopy_out 44 16;
  provsize ← le64dec 60;
  mret (ConcatMd magic version name id no all provider provsize).

Definition fields (md : g_concat_metadata) : list field := [
  Bytes 16 (md_magic md); U32 (md_version md); Bytes 16 (md_name md); U32 (md_id md);
  U16 (md_no md); U16 (md_all md); Bytes 16 (md_provider md); U64 (md_provsize md)].

Definition concat_format : plain g_concat_metadata := Plain concat_metadata_encode concat_metadata_decode fields.

#[global] Instance concat_lawful : LawfulPlain concat_format.
Proof.
  split; cbn [concat_format p_encode p_decode p_fields]; unfold fields, concat_metadata_encode, concat_metadata_decode.
  - intros md data Hok Hlen. decompose_Forall_hyps. cbn [image_size sum_list_with field_size] in Hlen.
    plain_encode_tac data.
  - intros md rest Hok. decompose_Forall_hyps. read_from 0%nat. by destruct md.
Qed.
End Concat.

(** ** geom/label/g_label.h *)

Module Label.

Record g_label_metadata : Type := LabelMd {
  md_magic : list Z; (** [char[16]]: magic value *)
  md_version : Z; (** [uint32_t]: version number *)
  md_label : list Z; (** [char[16]]: label *)
  md_provsize : Z (** [uint64_t]: provider's size *)
}.

Definition label_metadata_encode (md : g_label_metadata) : M (list Z) unit :=
  _ ← bcopy_in (md_magic md) 0 16;
  _ ← le32enc 16 (md_version md);
  _ ← bcopy_in (md_label md) 20 16;
  le64enc 36 (md_provsize md).

Definition label_metadata_decode : M (list Z) g_label_metadata :=
  magic ← bcopy_out 0 16;
  version ← le32dec 16;
  label ← bcopy_out 20 16;
  provsize ← le64dec 36;
  mret (LabelMd magic version label provsize).

Definition fields (md : g_label_metadata) : list field := [
  Bytes 16 (md_magic md); U32 (md_version md); Bytes 16 (md_label md); U64 (md_provsize md)].

Definition label_format : plain g_label_metadata := Plain label_metadata_encode label_metadata_decode fields.

#[global] Instance label_lawful : LawfulPlain label_format.
Proof.
  split; cbn [label_format p_encode p_decode p_fields]; unfold fields, label_metadata_encode, label_metadata_decode.
  - intros md data Hok Hlen. decompose_Forall_hyps. cbn [image_size sum_list_with field_size] in Hlen.
    plain_encode_tac data.
  - intros md rest Hok. decompose_Forall_hyps. read_from 0%nat. by destruct md.
Qed.
End Label.

(** ** geom/shsec/g_shsec.h *)

Module Shsec.

Record g_shsec_metadata : Type := ShsecMd {
  md_magic : list Z; (** [char[16]]: magic value *)
  md_version : Z; (** [uint32_t]: version number *)
  md_name : list Z; (** [char[16]]: stripe name *)
  md_id : Z; (** [uint32_t]: unique ID *)
  md_no : Z; (** [uint16_t]: disk number *)
  md_all : Z; (** [uint16_t]: number of all disks *)
  md_provider : list Z; (** [char[16]]: hardcoded provider *)
  md_provsize : Z (** [uint64_t]: provider's size *)
}.

Definition shsec_metadata_encode (md : g_shsec_metadata) : M (list Z) unit :=
  _ ← bcopy_in (md_magic md) 0 16;
  _ ← le32enc 16 (md_version md);
  _ ← bcopy_in (md_name md) 20 16;
  _ ← le32enc 36 (md_id md);
  _ ← le16enc 40 (md_no md);
  _ ← le16enc 42 (md_all md);
  _ ← bcopy_in (md_provider md) 44 16;
  le64enc 60 (md_provsize md).

Definition shsec_metadata_decode : M (list Z) g_shsec_metadata :=
  magic ← bcopy_out 0 16;
  version ← le32dec 16;
  name ← bcopy_out 20 16;
  id ← le32dec 36;
  no ← le16dec 40;
  all ← le16dec 42;
  provider ← bcopy_out 44 16;
  provsize ← le64dec 60;
  mret (ShsecMd magic version name id no all provider provsize).

Definition fields (md : g_shsec_metadata) : list field := [
  Bytes 16 (md_magic md); U32 (md_version md); Bytes 16 (md_name md); U32 (md_id md);
  U16 (md_no md); U16 (md_all md); Bytes 16 (md_provider md); U64 (md_provsize md)].

Definition shsec_format : plain g_shsec_metadata := Plain shsec_metadata_encode shsec_metadata_decode fields.

#[global] Instance shsec_lawful : LawfulPlain shsec_format.
Proof.
  split; cbn [shsec_format p_encode p_decode p_fields]; unfold fields, shsec_metadata_encode, shsec_metadata_decode.
  - intros md data Hok Hlen. decompose_Forall_hyps. cbn [image_size sum_list_with field_size] in Hlen.
    plain_encode_tac data.
  - intros md rest Hok. decompose_Forall_hyps. read_from 0%nat. by destruct md.
Qed.
End Shsec.

(** ** geom/cache/g_cache.h *)

Module Cache.

Record g_cache_metadata : Type := CacheMd {
  md_magic : list Z; (** [char[16]]: magic value *)
  md_version : Z; (** [uint32_t]: version number *)
  md_name : list Z; (** [char[16]]: cache value *)
  md_bsize : Z; (** [uint32_t]: cache block size *)
  md_size : Z; (** [uint32_t]: cache size *)
  md_provsize : Z (** [uint64_t]: provider's size *)
}.

Definition cache_metadata_encode (md : g_cache_metadata) : M (list Z) unit :=
  _ ← bcopy_in (md_magic md) 0 16;
  _ ← le32enc 16 (md_version md);
  _ ← bcopy_in (md_name md) 20 16;
  _ ← le32enc 36 (md_bsize md);
  _ ← le32enc 40 (md_size md);
  le64enc 44 (md_provsize md).

Definition cache_metadata_decode : M (list Z) g_cache_metadata :=
  magic ← bcopy_out 0 16;
  version ← le32dec 16;
  name ← bcopy_out 20 16;
  bsize ← le32dec 36;
  size ← le32dec 40;
  provsize ← le64dec 44;
  mret (CacheMd magic version name bsize size provsize).

Definition fields (md : g_cache_metadata) : list field := [
  Bytes 16 (md_magic md); U32 (md_version md); Bytes 16 (md_name md); U32 (md_bsize md);
  U32 (md_size md); U64 (md_provsize md)].

Definition cache_format : plain g_cache_metadata := Plain cache_metadata_encode cache_metadata_decode fields.

#[global] Instance cache_lawful : LawfulPlain cache_format.
Proof.
  split; cbn [cache_format p_encode p_decode p_fields]; unfold fields, cache_metadata_encode, cache_metadata_decode.
  - intros md data Hok Hlen. decompose_Forall_hyps. cbn [image_size sum_list_with field_size] in Hlen.
    plain_encode_tac data.
  - intros md rest Hok. decompose_Forall_hyps. read_from 0%nat. by destruct md.
Qed.
End Cache.

(** ** geom/multipath/g_multipath.h *)

Module Multipath.

Record g_multipath_metadata : Type := MultipathMd {
  md_magic : list Z; (** [char[16]] *)
  md_uuid : list Z; (** [char[40]] *)
  md_name : list Z; (** [char[16]] *)
  md_version : Z; (** [uint32_t] *)
  md_sectorsize : Z; (** [uint32_t] *)
  md_size : Z (** [uint64_t]: absolute size of the provider *)
}.

Definition multipath_metadata_encode (md : g_multipath_metadata) : M (list Z) unit :=
  let data := 0%nat in
  _ ← bcopy_in (md_magic md) data 16;
  let data := (data + 16)%nat in
  _ ← bcopy_in (md_uuid md) data 40;
  let data := (data + 40)%nat in
  _ ← bcopy_in (md_name md) data 16;
  let data := (data + 16)%nat in
  _ ← le32enc data (md_version md);
  let data := (data + 4)%nat in
  _ ← le32enc data (md_sectorsize md);
  let data := (data + 4)%nat in
  le64enc data (md_size md).

Definition multipath_metadata_decode : M (list Z) g_multipath_metadata :=
  let data := 0%nat in
  magic ← bcopy_out data 16;
  let data := (data + 16)%nat in
  uuid ← bcopy_out data 40;
  let data := (data + 40)%nat in
  name ← bcopy_out data 16;
  let data := (data + 16)%nat in
  version ← le32dec data;
  let data := (data + 4)%nat in
  sectorsize ← le32dec data;
  let data := (data + 4)%nat in
  size ← le64dec data;
  mret (MultipathMd magic uuid name version sectorsize size).

Definition fields (md : g_multipath_metadata) : list field := [
  Bytes 16 (md_magic md); Bytes 40 (md_uuid md); Bytes 16 (md_name md); U32 (md_version md);
  U32 (md_sectorsize md); U64 (md_size md)].

Definition multipath_format : plain g_multipath_metadata :=
  Plain multipath_metadata_encode multipath_metadata_decode fields.

#[global] Instance multipath_lawful : LawfulPlain multipath_format.
Proof.
  split; cbn [multipath_format p_encode p_decode p_fields];
    unfold fields, multipath_metadata_encode, multipath_metadata_decode; cbv zeta.
  - intros md data Hok Hlen. decompose_Forall_hyps. cbn [image_size sum_list_with field_size] in Hlen.
    plain_encode_tac data.
  - intros md rest Hok. decompose_Forall_hyps. read_from 0%nat. by destruct md.
Qed.
End Multipath.

(** ** All of them *)

(** What is written over any buffer with room is read back, and the rest of the
    buffer is kept. *)
Lemma plain_roundtrip {T} (F : plain T) `{!LawfulPlain F} md data :
  Forall field_ok (p_fields F md) → (image_size (p_fields F md) ≤ length data)%nat →
  ∃ d', (_ ← p_encode F md; p_decode F) data = Ok (md, d') ∧ length d' = length data ∧
    drop (image_size (p_fields F md)) d' = drop (image_size (p_fields F md)) data.
Proof.
  intros Hok Hlen. erewrite bind_ok by (by apply plain_encode). rewrite plain_decode by done.
  pose proof (length_image _ Hok) as Hl. eexists. split_and!; [done|..].
  - rewrite length_app, length_drop. lia.
  - by rewrite drop_app_length'.
Qed.

(** The metadata of the classes without a sum: for each of stripe, concat,
    label, shsec, cache and multipath, the encoder writes exactly the fields in
    order and keeps the rest of the buffer, and the decoder reads every image of
    fields in range back to the metadata it came from. *)
Theorem plain_metadata_contract :
  LawfulPlain Stripe.stripe_format ∧ LawfulPlain Concat.concat_format ∧
  LawfulPlain Label.label_format ∧ LawfulPlain Shsec.shsec_format ∧
  LawfulPlain Cache.cache_format ∧ LawfulPlain Multipath.multipath_format.
Proof. split_and!; apply _. Qed.

(** A label written over a sector and read back. *)
Example label_run :
  let md := Label.LabelMd (replicate 16 0x4c) 2 (replicate 16 0x61) (2 ^ 33) in
  (_ ← Label.label_metadata_encode md; Label.label_metadata_decode) (replicate 45 0xee) =
  Ok (md, image (Label.fields md) ++ [0xee]).
Proof. vm_compute. reflexivity. Qed.
