(* ===== verification/GeomAll.v ===== *)
(** * Every GEOM class

    The contracts of the encoders and decoders of all ten classes together. *)

From S2P Require Import Prelude Endian GeomMd GeomMirror GeomRaid3 GeomJournal GeomEli GeomPlain.

(** C36: the metadata of every class. For the four whose metadata ends in a
    checksum (mirror, raid3, journal, eli) the encoder writes the fields of the
    current version in order and seals them with their sum, the decoder reads
    every version it knows exactly when the stored sum is that of the bytes, and
    refuses the others with EINVAL; for the six without one (stripe, concat,
    label, shsec, cache, multipath) it writes the fields and keeps the rest of the
    buffer, and the decoder gives back what was encoded. *)
Theorem geom_classes_lawful {MD : Md5} :
  (LawfulFormat Mirror.mirror_format ∧ LawfulFormat Raid3.raid3_format ∧
   LawfulFormat Journal.journal_format ∧ LawfulFormat Eli.eli_format) ∧
  (LawfulPlain Stripe.stripe_format ∧ LawfulPlain Concat.concat_format ∧
   LawfulPlain Label.label_format ∧ LawfulPlain Shsec.shsec_format ∧
   LawfulPlain Cache.cache_format ∧ LawfulPlain Multipath.multipath_format).
Proof. split; split_and!; apply _. Qed.
